(** * plot_latency.py: loading, joint min-max scaling, shared bins, overlaid histogram

    A shallow embedding of [scripts/plot_latency.py].  The script is a
    straight-line Python module: two [pd.read_csv] calls under one
    [try/except FileNotFoundError], a [MinMaxScaler] fitted on the
    concatenation of both frames, [np.linspace] bin edges over the raw
    minimum and maximum, two [plt.hist] calls and the chart decoration.

    Numbers are IEEE-754 binary64 values, as numpy, pandas and scikit-learn
    hold them; they are represented by the Standard Library's [spec_float]
    with [prec = 53] and [emax = 1024], whose operations round to nearest,
    ties to even.  The library calls of the script are modelled after the
    behaviour of the libraries themselves (each definition names the call it
    stands for); the module-level statements of the script are embedded one
    by one in a state-and-exception monad over the module's variables. *)

From Stdlib Require Import ZArith List String Bool Lia.
From Stdlib Require Import Floats.SpecFloat.
From stdpp Require Import base option gmap strings.
Import ListNotations.

Local Open Scope Z_scope.

(* ===================================================================== *)
(** * Binary64 arithmetic *)
(* ===================================================================== *)

Module F64.

Definition prec : Z := 53.
Definition emax : Z := 1024.

Definition t : Type := spec_float.

Definition add : t -> t -> t := SFadd prec emax.
Definition sub : t -> t -> t := SFsub prec emax.
Definition mul : t -> t -> t := SFmul prec emax.
Definition div : t -> t -> t := SFdiv prec emax.

(** The comparisons of IEEE-754: every comparison with a NaN is false. *)
Definition eqb : t -> t -> bool := SFeqb.
Definition ltb : t -> t -> bool := SFltb.
Definition leb : t -> t -> bool := SFleb.
Definition gtb (x y : t) : bool := ltb y x.

(** Conversion of an integer, rounding to nearest even (the C cast that
    numpy applies to an [int64]). *)
Definition of_Z (z : Z) : t := binary_normalize prec emax z 0 false.
Definition of_nat (n : nat) : t := of_Z (Z.of_nat n).

Definition zero : t := S754_zero false.
Definition one : t := of_Z 1.

Definition is_nan (x : t) : bool :=
  match x with S754_nan => true | _ => false end.

Definition is_inf (x : t) : bool :=
  match x with S754_infinity _ => true | _ => false end.

(** Neither a NaN nor an infinity. *)
Definition is_finite (x : t) : bool :=
  match x with
  | S754_zero _ | S754_finite _ _ _ => true
  | _ => false
  end.

(** The machine epsilon of binary64, [np.finfo(np.float64).eps = 2^-52]. *)
Definition eps : t := S754_finite false 4503599627370496 (-104).

End F64.

Declare Scope f64_scope.
Delimit Scope f64_scope with f64.
Bind Scope f64_scope with F64.t.
Infix "+" := F64.add : f64_scope.
Infix "-" := F64.sub : f64_scope.
Infix "*" := F64.mul : f64_scope.
Infix "/" := F64.div : f64_scope.
Infix "==" := F64.eqb (at level 70, no associativity) : f64_scope.
Infix "<?" := F64.ltb : f64_scope.
Infix "<=?" := F64.leb : f64_scope.
Infix ">?" := F64.gtb : f64_scope.

(* ===================================================================== *)
(** * Exceptions and results *)
(* ===================================================================== *)

(** The exception classes the script and its library calls can raise.
    [FileNotFoundError] carries the [filename] attribute the handler reads;
    [SystemExit] carries the [code] attribute ([None] for a bare [exit()]). *)
Inductive exn : Type :=
| FileNotFoundError (filename : string)
| PermissionError (filename : string)
| ParserError
| UnicodeDecodeError
| ValueError (msg : string)
| TypeError (msg : string)
| NameError (name : string)
| NotFittedError (msg : string)
| SystemExit (code : option Z).

Definition is_FileNotFoundError (e : exn) : bool :=
  match e with FileNotFoundError _ => true | _ => false end.

Definition is_SystemExit (e : exn) : bool :=
  match e with SystemExit _ => true | _ => false end.

Inductive result (A : Type) : Type :=
| Ok (a : A)
| Raise (e : exn).
Arguments Ok {A} a.
Arguments Raise {A} e.

(* ===================================================================== *)
(** * numpy *)
(* ===================================================================== *)

Module np.

Definition nan : F64.t := S754_nan.
Definition inf : F64.t := S754_infinity false.
Definition neg_inf : F64.t := S754_infinity true.

(** [np.minimum], [np.maximum], in numpy's loops
    [(a <= b || isnan(a)) ? a : b] and [(a >= b || isnan(a)) ? a : b]: a
    NaN operand is the result. *)
Definition minimum (a b : F64.t) : F64.t :=
  if (a <=? b)%f64 || F64.is_nan a then a else b.
Definition maximum (a b : F64.t) : F64.t :=
  if (b <=? a)%f64 || F64.is_nan a then a else b.

(** [np.fmin], [np.fmax], in numpy's loops
    [(a <= b || isnan(b)) ? a : b] and [(a >= b || isnan(b)) ? a : b]: a
    NaN operand is ignored. *)
Definition fmin (a b : F64.t) : F64.t :=
  if (a <=? b)%f64 || F64.is_nan b then a else b.
Definition fmax (a b : F64.t) : F64.t :=
  if (b <=? a)%f64 || F64.is_nan b then a else b.

(** [ufunc.reduce] along a non-empty column. *)
Definition reduce (f : F64.t -> F64.t -> F64.t) (v : list F64.t) : F64.t :=
  match v with
  | [] => nan
  | x :: r => fold_left f r x
  end.

(** [np.nanmin], [np.nanmax] on a float array: [np.fmin.reduce],
    [np.fmax.reduce]. *)
Definition nanmin (v : list F64.t) : F64.t := reduce fmin v.
Definition nanmax (v : list F64.t) : F64.t := reduce fmax v.

(** [np.arange(0, num)] as a float array. *)
Definition arange (num : nat) : list F64.t := map F64.of_nat (seq 0 num).

(** [y[-1] = stop] *)
Definition set_last (y : list F64.t) (stop : F64.t) : list F64.t :=
  match y with
  | [] => []
  | _ => removelast y ++ [stop]
  end.

(** [np.linspace(start, stop, num)] with the default [endpoint=True]:
    [delta = stop - start], [step = delta / div] with [div = num - 1],
    [y = arange(0, num) * step + start] (when the step is zero,
    [arange(0, num) / div * delta + start]), and the last element is then
    overwritten by [stop]. *)
Definition linspace (start stop : F64.t) (num : nat) : list F64.t :=
  let div := (num - 1)%nat in
  let delta := (stop - start)%f64 in
  let y := arange num in
  let y :=
    if (0 <? div)%nat then
      let step := (delta / F64.of_nat div)%f64 in
      if (step == F64.zero)%f64
      then map (fun v => (v / F64.of_nat div * delta)%f64) y
      else map (fun v => (v * step)%f64) y
    else map (fun v => (v * delta)%f64) y in
  let y := map (fun v => (v + start)%f64) y in
  if (1 <? num)%nat then set_last y stop else y.

(** The edge check of [np.histogram] for an array of bins:
    [np.any(bin_edges[:-1] > bin_edges[1:])]. *)
Fixpoint any_decreasing (edges : list F64.t) : bool :=
  match edges with
  | x :: (y :: _) as rest => (x >? y)%f64 || any_decreasing rest
  | _ => false
  end.

(** The order in which [np.sort] arranges and [searchsorted] compares
    float64 values: [a < b || (b != b && a == a)], the IEEE order on the
    numbers, with every NaN after every number and no NaN before another. *)
Definition sort_lt (x y : F64.t) : bool :=
  (x <? y)%f64 || (F64.is_nan y && negb (F64.is_nan x)).

(** [sa.searchsorted(e, 'left')] and [sa.searchsorted(e, 'right')] on the
    sorted samples [sa]: how many samples come before [e] in that order,
    resp. how many do not come after it. *)
Definition count_lt (a : list F64.t) (e : F64.t) : Z :=
  Z.of_nat (length (List.filter (fun x => sort_lt x e) a)).
Definition count_le (a : list F64.t) (e : F64.t) : Z :=
  Z.of_nat (length (List.filter (fun x => negb (sort_lt e x)) a)).

Definition search_sorted_inclusive (a edges : list F64.t) : list Z :=
  match edges with
  | [] => []
  | _ => map (count_lt a) (removelast edges) ++ [count_le a (List.last edges nan)]
  end.

(** [np.diff] *)
Fixpoint diff (c : list Z) : list Z :=
  match c with
  | x :: (y :: _) as rest => (y - x) :: diff rest
  | _ => []
  end.

(** [np.histogram(a, bins)] for an array of bin edges: the counts per
    bin, the last bin closed on the right. *)
Definition histogram (a bins : list F64.t) : result (list Z) :=
  if any_decreasing bins
  then Raise (ValueError "`bins` must increase monotonically, when an array")
  else Ok (diff (search_sorted_inclusive a bins)).

End np.

(* ===================================================================== *)
(** * Files and pandas frames *)
(* ===================================================================== *)

(** One field of a one-column CSV file, as pandas' parser types it: an
    integer literal (within [int64]), a floating-point literal (with the
    binary64 value it converts to; NaN markers such as [NaN] or [NA] are
    the NaN value), or any other text, which pandas keeps as a string.
    What the script does with a text field is modelled for the text that
    Python's [float()] rejects ([plain_text] below describes such text);
    text that [float()] would convert, such as [1_000], and columns that
    pandas would read as booleans are not modelled. *)
Inductive field : Type :=
| IntLit (z : Z)
| FloatLit (x : F64.t)
| Text (s : string).

(** Why [pd.read_csv] fails on a file that exists: a row with more fields
    than the first one ([ParserError]), bytes that are not UTF-8
    ([UnicodeDecodeError]), or no permission to read ([PermissionError]). *)
Inductive read_failure : Type :=
| RaggedRows
| NotUtf8
| NoPermission.

(** A file that exists: either pandas cannot read it, or it is a sequence
    of non-blank one-field lines (blank lines are skipped by pandas). *)
Inductive file : Type :=
| Unreadable (why : read_failure)
| Csv (rows : list field).

(** The file system: a path without an entry does not exist. *)
Definition filesystem : Type := gmap string file.

(** A frame with the single column ['lat'].  An [int64] column is held as
    the binary64 values every consumer in the script converts it to
    ([check_array], [np.linspace], [np.histogram]); a column in which some
    field is text is an [object] column. *)
Inductive DataFrame : Type :=
| Numeric (lat : list F64.t)
| Object (lat : list field).

Definition is_text (f : field) : bool :=
  match f with Text _ => true | _ => false end.

Definition field_value (f : field) : F64.t :=
  match f with
  | IntLit z => F64.of_Z z
  | FloatLit x => x
  | Text _ => np.nan
  end.

Module pd.

Definition exn_of_failure (path : string) (why : read_failure) : exn :=
  match why with
  | RaggedRows => ParserError
  | NotUtf8 => UnicodeDecodeError
  | NoPermission => PermissionError path
  end.

(** Column type inference of the parser. *)
Definition infer (rows : list field) : DataFrame :=
  if existsb is_text rows then Object rows
  else Numeric (map field_value rows).

(** [pd.read_csv(path, header=None, names=['lat'])].  The exception for a
    missing file is the one [open] raises, whose [filename] is the path
    that was passed.  With [names] given, a file without rows is an empty
    frame, not an error. *)
Definition read_csv (fs : filesystem) (path : string) : result DataFrame :=
  match fs !! path with
  | None => Raise (FileNotFoundError path)
  | Some (Unreadable why) => Raise (exn_of_failure path why)
  | Some (Csv rows) => Ok (infer rows)
  end.

(** [pd.concat([a, b])]: the rows of [a] followed by the rows of [b]; the
    result is numeric only when both frames are. *)
Definition concat (a b : DataFrame) : DataFrame :=
  match a, b with
  | Numeric x, Numeric y => Numeric (x ++ y)
  | Numeric x, Object y => Object (map FloatLit x ++ y)
  | Object x, Numeric y => Object (x ++ map FloatLit y)
  | Object x, Object y => Object (x ++ y)
  end.

(** [Series.min()] and [Series.max()] with the default [skipna=True]
    (pandas' [nanops.nanmin], [nanops.nanmax]): NaN on an empty or all-NaN
    column; otherwise every NaN is replaced by the neutral infinity and
    the column is reduced with [np.minimum], resp. [np.maximum]. *)
Definition Series_min (v : list F64.t) : F64.t :=
  if forallb F64.is_nan v then np.nan
  else np.reduce np.minimum
         (map (fun x => if F64.is_nan x then np.inf else x) v).

Definition Series_max (v : list F64.t) : F64.t :=
  if forallb F64.is_nan v then np.nan
  else np.reduce np.maximum
         (map (fun x => if F64.is_nan x then np.neg_inf else x) v).

(** [df['lat'].min()], [df['lat'].max()].  On an [object] column the
    result is not a number; the script never gets there, because
    [scaler.fit] has raised on such a frame before. *)
Definition lat_min (df : DataFrame) : result F64.t :=
  match df with
  | Numeric v => Ok (Series_min v)
  | Object _ => Raise (TypeError "unsupported operand type(s) for -: 'str' and 'str'")
  end.

Definition lat_max (df : DataFrame) : result F64.t :=
  match df with
  | Numeric v => Ok (Series_max v)
  | Object _ => Raise (TypeError "unsupported operand type(s) for -: 'str' and 'str'")
  end.

End pd.

(* ===================================================================== *)
(** * scikit-learn's MinMaxScaler *)
(* ===================================================================== *)

Module sklearn.

(** The attributes [fit] sets. *)
Record fitted : Type := {
  data_min_ : F64.t;
  data_max_ : F64.t;
  data_range_ : F64.t;
  scale_ : F64.t;
  min_ : F64.t
}.

(** A [MinMaxScaler(feature_range=(0, 1), clip=False)] object. *)
Inductive MinMaxScaler : Type :=
| Unfitted
| Fitted (attrs : fitted).

(** [check_array(X, dtype=FLOAT_DTYPES, ensure_all_finite="allow-nan")]:
    conversion to float64, no infinity, at least one sample.  On an
    [object] column the conversion calls [float()] on each string and
    raises [ValueError] at the first one it rejects; a column whose every
    string [float()] converts is not modelled (see [field]). *)
Definition check_array (X : DataFrame) : result (list F64.t) :=
  match X with
  | Object _ => Raise (ValueError "could not convert string to float")
  | Numeric v =>
      if existsb F64.is_inf v
      then Raise (ValueError "Input contains infinity or a value too large for dtype('float64').")
      else match v with
           | [] => Raise (ValueError "Found array with 0 sample(s) while a minimum of 1 is required by MinMaxScaler.")
           | _ => Ok v
           end
  end.

(** [_handle_zeros_in_scale]: a range below [10 * eps] counts as constant
    and is replaced by 1 (releases before 1.0 replaced a range equal to
    zero only; the two agree on a zero range and on every range of
    [10 * eps] or more). *)
Definition handle_zeros_in_scale (scale : F64.t) : F64.t :=
  if (scale <? F64.of_Z 10 * F64.eps)%f64 then F64.one else scale.

(** The attributes computed by [partial_fit] on a first batch [v], with
    [feature_range = (0, 1)]. *)
Definition first_pass (v : list F64.t) : fitted :=
  let data_min := np.nanmin v in
  let data_max := np.nanmax v in
  let data_range := (data_max - data_min)%f64 in
  let scale := ((F64.one - F64.zero) / handle_zeros_in_scale data_range)%f64 in
  {| data_min_ := data_min;
     data_max_ := data_max;
     data_range_ := data_range;
     scale_ := scale;
     min_ := (F64.zero - data_min * scale)%f64 |}.

(** [scaler.fit(X)]: whatever was fitted before is reset, the input is
    checked, and the object then holds the attributes of this batch. *)
Definition fit (self : MinMaxScaler) (X : DataFrame) : result MinMaxScaler :=
  match check_array X with
  | Raise e => Raise e
  | Ok v => Ok (Fitted (first_pass v))
  end.

(** The affine map of [transform]: [X *= scale_; X += min_]. *)
Definition scale_value (a : fitted) (x : F64.t) : F64.t :=
  (x * scale_ a + min_ a)%f64.

(** [scaler.transform(X)], without clipping. *)
Definition transform (sc : MinMaxScaler) (X : DataFrame) : result (list F64.t) :=
  match sc with
  | Unfitted => Raise (NotFittedError "This MinMaxScaler instance is not fitted yet.")
  | Fitted a =>
      match check_array X with
      | Raise e => Raise e
      | Ok v => Ok (map (scale_value a) v)
      end
  end.

End sklearn.

(* ===================================================================== *)
(** * Python builtins *)
(* ===================================================================== *)

Module builtins.

(** [min(a, b)]: the first argument, unless the second is smaller. *)
Definition min (a b : F64.t) : F64.t := if (b <? a)%f64 then b else a.

(** [max(a, b)]: the first argument, unless the second is greater. *)
Definition max (a b : F64.t) : F64.t := if (b >? a)%f64 then b else a.

End builtins.

(* ===================================================================== *)
(** * matplotlib.pyplot *)
(* ===================================================================== *)

Module plt.

(** The calls that build and show the current figure, with their
    arguments; [hist] also carries the counts it draws. *)
Inductive call : Type :=
| figure (figsize : Z * Z)
| hist (x bins : list F64.t) (counts : list Z)
       (alpha : F64.t) (label color : string)
| title (s : string) (fontsize : Z)
| xlabel (s : string) (fontsize : Z)
| ylabel (s : string) (fontsize : Z)
| legend
| grid (visible : bool) (linestyle : string) (alpha : F64.t)
| show.

Definition is_hist (c : call) : bool :=
  match c with hist _ _ _ _ _ _ => true | _ => false end.

(** [plt.hist(df['lat'], bins=bins, alpha=.., label=.., color=..)]: the
    counts come from [np.histogram]. *)
Definition draw_hist (df : DataFrame) (bins : list F64.t)
    (alpha : F64.t) (label color : string) : result call :=
  match df with
  | Object _ => Raise (TypeError "'<' not supported between instances of 'float' and 'str'")
  | Numeric x =>
      match np.histogram x bins with
      | Raise e => Raise e
      | Ok counts => Ok (hist x bins counts alpha label color)
      end
  end.

End plt.

(* ===================================================================== *)
(** * The interpreter state and the script monad *)
(* ===================================================================== *)

(** The module-level variables of the script ([None] while unassigned),
    what was written to standard output, the paths handed to [open] so far,
    and the calls made on the pyplot figure. *)
Record state : Type := {
  stdout : list string;
  opened : list string;
  df_mutex : option DataFrame;
  df_sem : option DataFrame;
  scaler : option sklearn.MinMaxScaler;
  combined : option DataFrame;
  scaled_mutex : option (list F64.t);
  scaled_sem : option (list F64.t);
  min_limit : option F64.t;
  max_limit : option F64.t;
  bins : option (list F64.t);
  figure : list plt.call
}.

Definition initial : state :=
  {| stdout := [];
     opened := [];
     df_mutex := None;
     df_sem := None;
     scaler := None;
     combined := None;
     scaled_mutex := None;
     scaled_sem := None;
     min_limit := None;
     max_limit := None;
     bins := None;
     figure := [] |}.

Definition set_stdout (v : list string) (s : state) : state :=
  {| stdout := v;
     opened := opened s;
     df_mutex := df_mutex s;
     df_sem := df_sem s;
     scaler := scaler s;
     combined := combined s;
     scaled_mutex := scaled_mutex s;
     scaled_sem := scaled_sem s;
     min_limit := min_limit s;
     max_limit := max_limit s;
     bins := bins s;
     figure := figure s |}.

Definition set_opened (v : list string) (s : state) : state :=
  {| stdout := stdout s;
     opened := v;
     df_mutex := df_mutex s;
     df_sem := df_sem s;
     scaler := scaler s;
     combined := combined s;
     scaled_mutex := scaled_mutex s;
     scaled_sem := scaled_sem s;
     min_limit := min_limit s;
     max_limit := max_limit s;
     bins := bins s;
     figure := figure s |}.

Definition set_df_mutex (v : option DataFrame) (s : state) : state :=
  {| stdout := stdout s;
     opened := opened s;
     df_mutex := v;
     df_sem := df_sem s;
     scaler := scaler s;
     combined := combined s;
     scaled_mutex := scaled_mutex s;
     scaled_sem := scaled_sem s;
     min_limit := min_limit s;
     max_limit := max_limit s;
     bins := bins s;
     figure := figure s |}.

Definition set_df_sem (v : option DataFrame) (s : state) : state :=
  {| stdout := stdout s;
     opened := opened s;
     df_mutex := df_mutex s;
     df_sem := v;
     scaler := scaler s;
     combined := combined s;
     scaled_mutex := scaled_mutex s;
     scaled_sem := scaled_sem s;
     min_limit := min_limit s;
     max_limit := max_limit s;
     bins := bins s;
     figure := figure s |}.

Definition set_scaler (v : option sklearn.MinMaxScaler) (s : state) : state :=
  {| stdout := stdout s;
     opened := opened s;
     df_mutex := df_mutex s;
     df_sem := df_sem s;
     scaler := v;
     combined := combined s;
     scaled_mutex := scaled_mutex s;
     scaled_sem := scaled_sem s;
     min_limit := min_limit s;
     max_limit := max_limit s;
     bins := bins s;
     figure := figure s |}.

Definition set_combined (v : option DataFrame) (s : state) : state :=
  {| stdout := stdout s;
     opened := opened s;
     df_mutex := df_mutex s;
     df_sem := df_sem s;
     scaler := scaler s;
     combined := v;
     scaled_mutex := scaled_mutex s;
     scaled_sem := scaled_sem s;
     min_limit := min_limit s;
     max_limit := max_limit s;
     bins := bins s;
     figure := figure s |}.

Definition set_scaled_mutex (v : option (list F64.t)) (s : state) : state :=
  {| stdout := stdout s;
     opened := opened s;
     df_mutex := df_mutex s;
     df_sem := df_sem s;
     scaler := scaler s;
     combined := combined s;
     scaled_mutex := v;
     scaled_sem := scaled_sem s;
     min_limit := min_limit s;
     max_limit := max_limit s;
     bins := bins s;
     figure := figure s |}.

Definition set_scaled_sem (v : option (list F64.t)) (s : state) : state :=
  {| stdout := stdout s;
     opened := opened s;
     df_mutex := df_mutex s;
     df_sem := df_sem s;
     scaler := scaler s;
     combined := combined s;
     scaled_mutex := scaled_mutex s;
     scaled_sem := v;
     min_limit := min_limit s;
     max_limit := max_limit s;
     bins := bins s;
     figure := figure s |}.

Definition set_min_limit (v : option F64.t) (s : state) : state :=
  {| stdout := stdout s;
     opened := opened s;
     df_mutex := df_mutex s;
     df_sem := df_sem s;
     scaler := scaler s;
     combined := combined s;
     scaled_mutex := scaled_mutex s;
     scaled_sem := scaled_sem s;
     min_limit := v;
     max_limit := max_limit s;
     bins := bins s;
     figure := figure s |}.

Definition set_max_limit (v : option F64.t) (s : state) : state :=
  {| stdout := stdout s;
     opened := opened s;
     df_mutex := df_mutex s;
     df_sem := df_sem s;
     scaler := scaler s;
     combined := combined s;
     scaled_mutex := scaled_mutex s;
     scaled_sem := scaled_sem s;
     min_limit := min_limit s;
     max_limit := v;
     bins := bins s;
     figure := figure s |}.

Definition set_bins (v : option (list F64.t)) (s : state) : state :=
  {| stdout := stdout s;
     opened := opened s;
     df_mutex := df_mutex s;
     df_sem := df_sem s;
     scaler := scaler s;
     combined := combined s;
     scaled_mutex := scaled_mutex s;
     scaled_sem := scaled_sem s;
     min_limit := min_limit s;
     max_limit := max_limit s;
     bins := v;
     figure := figure s |}.

Definition set_figure (v : list plt.call) (s : state) : state :=
  {| stdout := stdout s;
     opened := opened s;
     df_mutex := df_mutex s;
     df_sem := df_sem s;
     scaler := scaler s;
     combined := combined s;
     scaled_mutex := scaled_mutex s;
     scaled_sem := scaled_sem s;
     min_limit := min_limit s;
     max_limit := max_limit s;
     bins := bins s;
     figure := v |}.

(** A statement or expression of the script: it runs in a state and either
    yields a value or raises, leaving a state behind in both cases. *)
Definition M (A : Type) : Type := state -> result A * state.

Definition ret {A} (a : A) : M A := fun s => (Ok a, s).

Definition bind {A B} (c : M A) (k : A -> M B) : M B :=
  fun s =>
    match c s with
    | (Ok a, s') => k a s'
    | (Raise e, s') => (Raise e, s')
    end.

Definition raise {A} (e : exn) : M A := fun s => (Raise e, s).

(** The result of a library call that has no effect on the state. *)
Definition lift {A} (r : result A) : M A := fun s => (r, s).

Definition modify (f : state -> state) : M unit := fun s => (Ok tt, f s).

(** Reading a module-level variable; [NameError] while it is unassigned. *)
Definition var {A} (name : string) (proj : state -> option A) : M A :=
  fun s =>
    match proj s with
    | Some v => (Ok v, s)
    | None => (Raise (NameError name), s)
    end.

(** [try: c  except <class> as e: h e]: the handler runs only for the
    exceptions of the class; every other exception goes through. *)
Definition try_except {A} (c : M A) (class : exn -> bool) (h : exn -> M A) : M A :=
  fun s =>
    match c s with
    | (Ok a, s') => (Ok a, s')
    | (Raise e, s') => if class e then h e s' else (Raise e, s')
    end.

Declare Scope script_scope.
Delimit Scope script_scope with script.
Notation "x <- c ;; k" := (bind c (fun x => k))
  (at level 100, c at next level, right associativity) : script_scope.
Notation "c ;; k" := (bind c (fun _ => k))
  (at level 100, right associativity) : script_scope.
Local Open Scope script_scope.

(** [print(line)] *)
Definition print (line : string) : M unit :=
  modify (fun s => set_stdout (stdout s ++ [line]) s).

(** [exit(code)]: raises [SystemExit]. *)
Definition exit (code : option Z) : M unit := raise (SystemExit code).

(** [e.filename] *)
Definition filename (e : exn) : string :=
  match e with
  | FileNotFoundError f | PermissionError f => f
  | _ => EmptyString
  end.

(** [pd.read_csv] in the script: the path is handed to [open]. *)
Definition read_csv (fs : filesystem) (path : string) : M DataFrame :=
  modify (fun s => set_opened (opened s ++ [path]) s) ;;
  lift (pd.read_csv fs path).

(** A pyplot call that cannot fail. *)
Definition pyplot (c : plt.call) : M unit :=
  modify (fun s => set_figure (figure s ++ [c]) s).

(** [plt.hist(df['lat'], bins=bins, ...)] *)
Definition plt_hist (df : DataFrame) (bins : list F64.t)
    (alpha : F64.t) (label color : string) : M unit :=
  c <- lift (plt.draw_hist df bins alpha label color) ;;
  pyplot c.

(* ===================================================================== *)
(** * The script *)
(* ===================================================================== *)

Definition mutex_path : string := "../csvs/mutex_ns.csv".
Definition sem_path : string := "../csvs/sem_ns.csv".

(** The message of the handler, [f"Error: No se encontró el archivo {e.filename}."] *)
Definition not_found_message (name : string) : string :=
  String.append "Error: No se encontró el archivo " (String.append name ".").

(** The literals [0.7] and [0.6]. *)
Definition alpha_07 : F64.t := (F64.of_Z 7 / F64.of_Z 10)%f64.
Definition alpha_06 : F64.t := (F64.of_Z 6 / F64.of_Z 10)%f64.

(** Lines 7-8, the body of the [try]:
<<
    df_mutex = pd.read_csv("../csvs/mutex_ns.csv", header=None, names=['lat'])
    df_sem = pd.read_csv("../csvs/sem_ns.csv", header=None, names=['lat'])
>> *)
Definition read_both (fs : filesystem) : M unit :=
  df <- read_csv fs mutex_path ;;
  modify (set_df_mutex (Some df)) ;;
  df <- read_csv fs sem_path ;;
  modify (set_df_sem (Some df)).

(** Lines 10-11, the body of the handler:
<<
    print(f"Error: No se encontró el archivo {e.filename}.")
    exit()
>> *)
Definition on_missing_file (e : exn) : M unit :=
  print (not_found_message (filename e)) ;;
  exit None.

(** Lines 6-11: [try: ... except FileNotFoundError as e: ...]. *)
Definition load (fs : filesystem) : M unit :=
  try_except (read_both fs) is_FileNotFoundError on_missing_file.

(** Lines 13-18:
<<
scaler = MinMaxScaler()
combined = pd.concat([df_mutex, df_sem])
scaler.fit(combined)
scaled_mutex = scaler.transform(df_mutex)
scaled_sem = scaler.transform(df_sem)
>>
    [fit] changes the scaler object in place; here the variable is bound
    to the fitted object. *)
Definition normalise : M unit :=
  modify (set_scaler (Some sklearn.Unfitted)) ;;
  a <- var "df_mutex" df_mutex ;;
  b <- var "df_sem" df_sem ;;
  modify (set_combined (Some (pd.concat a b))) ;;
  sc <- var "scaler" scaler ;;
  c <- var "combined" combined ;;
  sc' <- lift (sklearn.fit sc c) ;;
  modify (set_scaler (Some sc')) ;;
  sc <- var "scaler" scaler ;;
  a <- var "df_mutex" df_mutex ;;
  r <- lift (sklearn.transform sc a) ;;
  modify (set_scaled_mutex (Some r)) ;;
  sc <- var "scaler" scaler ;;
  b <- var "df_sem" df_sem ;;
  r <- lift (sklearn.transform sc b) ;;
  modify (set_scaled_sem (Some r)).

(** Lines 20-31:
<<
plt.figure(figsize=(12, 7))
min_limit = min(df_mutex['lat'].min(), df_sem['lat'].min())
max_limit = max(df_mutex['lat'].max(), df_sem['lat'].max())
bins = np.linspace(min_limit, max_limit, 100)
plt.hist(df_mutex['lat'], bins=bins, alpha=0.7, label='Mutex', color='skyblue')
plt.hist(df_sem['lat'], bins=bins, alpha=0.7, label='Semáforo', color='salmon')
plt.title('Distribución de Latencias en Idle (Mutex vs Semáforo)', fontsize=16)
plt.xlabel('Latencia (ns)', fontsize=12)
plt.ylabel('Frecuencia', fontsize=12)
plt.legend()
plt.grid(True, linestyle='--', alpha=0.6)
plt.show()
>> *)
Definition plot : M unit :=
  pyplot (plt.figure (12, 7)) ;;
  a <- var "df_mutex" df_mutex ;;
  lo_a <- lift (pd.lat_min a) ;;
  b <- var "df_sem" df_sem ;;
  lo_b <- lift (pd.lat_min b) ;;
  modify (set_min_limit (Some (builtins.min lo_a lo_b))) ;;
  a <- var "df_mutex" df_mutex ;;
  hi_a <- lift (pd.lat_max a) ;;
  b <- var "df_sem" df_sem ;;
  hi_b <- lift (pd.lat_max b) ;;
  modify (set_max_limit (Some (builtins.max hi_a hi_b))) ;;
  lo <- var "min_limit" min_limit ;;
  hi <- var "max_limit" max_limit ;;
  modify (set_bins (Some (np.linspace lo hi 100))) ;;
  a <- var "df_mutex" df_mutex ;;
  e <- var "bins" bins ;;
  plt_hist a e alpha_07 "Mutex" "skyblue" ;;
  b <- var "df_sem" df_sem ;;
  e <- var "bins" bins ;;
  plt_hist b e alpha_07 "Semáforo" "salmon" ;;
  pyplot (plt.title "Distribución de Latencias en Idle (Mutex vs Semáforo)" 16) ;;
  pyplot (plt.xlabel "Latencia (ns)" 12) ;;
  pyplot (plt.ylabel "Frecuencia" 12) ;;
  pyplot plt.legend ;;
  pyplot (plt.grid true "--" alpha_06) ;;
  pyplot plt.show.

(** The whole module. *)
Definition main (fs : filesystem) : M unit :=
  load fs ;; normalise ;; plot.

(** The script with the [try/except] removed: the two reads followed by
    the rest, every exception left alone. *)
Definition main_unguarded (fs : filesystem) : M unit :=
  read_both fs ;; normalise ;; plot.

(** One run of the script on a file system, from a fresh interpreter. *)
Definition run (fs : filesystem) : result unit * state := main fs initial.

Definition outcome (fs : filesystem) : result unit := fst (run fs).
Definition final (fs : filesystem) : state := snd (run fs).

(** The exit status of the Python process: 0 when the module runs to its
    end or raises [SystemExit] with no code, the code of a [SystemExit]
    that has one, and 1 after any other uncaught exception (the traceback
    goes to standard error). *)
Definition exit_status (r : result unit) : Z :=
  match r with
  | Ok _ => 0
  | Raise (SystemExit None) => 0
  | Raise (SystemExit (Some n)) => n
  | Raise _ => 1
  end.

(* ===================================================================== *)
(** * Vocabulary of the properties *)
(* ===================================================================== *)

(** [name] is the file whose absence the run meets first: the mutex file,
    or the semaphore file once the mutex file has been read into a frame. *)
Definition first_missing (fs : filesystem) (name : string) : Prop :=
  (name = mutex_path /\ fs !! mutex_path = None) \/
  (name = sem_path /\ (exists rows, fs !! mutex_path = Some (Csv rows)) /\
   fs !! sem_path = None).

(** The paths handed to [open] up to and including [name]. *)
Definition opened_until (name : string) : list string :=
  if String.eqb name mutex_path then [mutex_path] else [mutex_path; sem_path].

(** The [hist] calls of a figure, in order. *)
Definition hist_calls (fig : list plt.call) : list plt.call :=
  List.filter plt.is_hist fig.

(** A file of integer literals, one per line. *)
Definition int_lines (l : list Z) : file := Csv (map IntLit l).

(** A file system that holds just the two input files. *)
Definition two_files (mutex sem : file) : filesystem :=
  {[ mutex_path := mutex; sem_path := sem ]}.

(** Both input files are read into numeric frames, with the columns [a]
    and [b]. *)
Definition loaded (fs : filesystem) (a b : list F64.t) : Prop :=
  pd.read_csv fs mutex_path = Ok (Numeric a) /\
  pd.read_csv fs sem_path = Ok (Numeric b).

(** A sample set: a non-empty column of finite values. *)
Definition samples (v : list F64.t) : Prop :=
  v <> [] /\ Forall (fun x => F64.is_finite x = true) v.

(** Lines 21-23 as functions of the two columns. *)
Definition min_limit_of (a b : list F64.t) : F64.t :=
  builtins.min (pd.Series_min a) (pd.Series_min b).
Definition max_limit_of (a b : list F64.t) : F64.t :=
  builtins.max (pd.Series_max a) (pd.Series_max b).
Definition bins_of (a b : list F64.t) : list F64.t :=
  np.linspace (min_limit_of a b) (max_limit_of a b) 100.

(** Lines 13-18 as functions of the two columns. *)
Definition scaler_of (a b : list F64.t) : sklearn.fitted :=
  sklearn.first_pass (a ++ b).
Definition scaled_of (a b v : list F64.t) : list F64.t :=
  map (sklearn.scale_value (scaler_of a b)) v.

(** The decoration calls of lines 26-31. *)
Definition decoration : list plt.call :=
  [ plt.title "Distribución de Latencias en Idle (Mutex vs Semáforo)" 16;
    plt.xlabel "Latencia (ns)" 12;
    plt.ylabel "Frecuencia" 12;
    plt.legend;
    plt.grid true "--" alpha_06;
    plt.show ].

(** The state after line 18 of a run that loads the columns [a] and [b]. *)
Definition scaled_state (a b : list F64.t) : state :=
  {| stdout := [];
     opened := [mutex_path; sem_path];
     df_mutex := Some (Numeric a);
     df_sem := Some (Numeric b);
     scaler := Some (sklearn.Fitted (scaler_of a b));
     combined := Some (Numeric (a ++ b));
     scaled_mutex := Some (scaled_of a b a);
     scaled_sem := Some (scaled_of a b b);
     min_limit := None;
     max_limit := None;
     bins := None;
     figure := [] |}.

(** The state with other values in [scaled_mutex] and [scaled_sem]. *)
Definition with_scaled (x y : option (list F64.t)) (s : state) : state :=
  set_scaled_mutex x (set_scaled_sem y s).

(** [c] writes nothing to standard output. *)
Definition silent {A} (c : M A) : Prop :=
  forall s r s', c s = (r, s') -> stdout s' = stdout s.

(** [c] does not raise [SystemExit]. *)
Definition no_exit {A} (c : M A) : Prop :=
  forall s e s', c s = (Raise e, s') -> is_SystemExit e = false.


(* ===================================================================== *)
(** * The order of binary64 values, for the proofs *)
(* ===================================================================== *)

(** A rank that orders the values that are not NaN as IEEE-754 compares
    them: the sign class, then the exponent, then the mantissa (both
    negated for negative values).  The two zeros share a rank. *)
Definition rank (x : F64.t) : Z * Z * Z :=
  match x with
  | S754_nan => (0, 0, 0)
  | S754_zero _ => (0, 0, 0)
  | S754_infinity true => (-2, 0, 0)
  | S754_infinity false => (2, 0, 0)
  | S754_finite true m e => (-1, - e, Z.neg m)
  | S754_finite false m e => (1, e, Z.pos m)
  end.

(** Lexicographic comparison of ranks. *)
Definition lex (p q : Z * Z * Z) : comparison :=
  let '(a, b, c) := p in
  let '(a', b', c') := q in
  match a ?= a' with
  | Eq => match b ?= b' with Eq => c ?= c' | r => r end
  | r => r
  end.

(** Numerical order and equality as propositions. *)
Definition fle (x y : F64.t) : Prop := F64.leb x y = true.
Definition feq (x y : F64.t) : Prop := F64.eqb x y = true.
Definition not_nan (x : F64.t) : Prop := F64.is_nan x = false.
Definition finite (x : F64.t) : Prop := F64.is_finite x = true.

(** [m] is a least, resp. greatest, element of [v]. *)
Definition is_min (v : list F64.t) (m : F64.t) : Prop :=
  In m v /\ Forall (fun x => fle m x) v.
Definition is_max (v : list F64.t) (m : F64.t) : Prop :=
  In m v /\ Forall (fun x => fle x m) v.

(** Each element is below the next one. *)
Fixpoint strictly_increasing (v : list F64.t) : bool :=
  match v with
  | x :: (y :: _) as rest => F64.ltb x y && strictly_increasing rest
  | _ => true
  end.

(** Every element lies in [[0, 1]]. *)
Definition within_unit (v : list F64.t) : bool :=
  forallb (fun x => F64.leb F64.zero x && F64.leb x F64.one) v.

(** A zero of either sign. *)
Definition is_zero (x : F64.t) : bool :=
  match x with S754_zero _ => true | _ => false end.

(** The step of the bin edges, [(max_limit - min_limit) / 99]. *)
Definition step_of (lo hi : F64.t) : F64.t := ((hi - lo) / F64.of_nat 99)%f64.

(** What a [hist] call of the figure draws in the state [s]: one of the
    two raw columns, over the bins of [s], with the counts of
    [np.histogram]. *)
Definition draws_raw (s : state) (c : plt.call) : Prop :=
  match c with
  | plt.hist x e counts _ _ _ =>
      (df_mutex s = Some (Numeric x) \/ df_sem s = Some (Numeric x)) /\
      bins s = Some e /\
      np.histogram x e = Ok counts
  | _ => True
  end.

(** Two states that differ at most in [scaled_mutex] and [scaled_sem]. *)
Definition agree (s1 s2 : state) : Prop :=
  stdout s1 = stdout s2 /\ opened s1 = opened s2 /\
  df_mutex s1 = df_mutex s2 /\ df_sem s1 = df_sem s2 /\
  scaler s1 = scaler s2 /\ combined s1 = combined s2 /\
  min_limit s1 = min_limit s2 /\ max_limit s1 = max_limit s2 /\
  bins s1 = bins s2 /\ figure s1 = figure s2.

(** [c] does not read the scaled arrays: from two such states it ends the
    same way, in two such states. *)
Definition ignores_scaled {A} (c : M A) : Prop :=
  forall s1 s2, agree s1 s2 ->
    fst (c s1) = fst (c s2) /\ agree (snd (c s1)) (snd (c s2)).

(** [c] leaves the component [proj] of the state as it was. *)
Definition keeps {X A} (proj : state -> X) (c : M A) : Prop :=
  forall s r s', c s = (r, s') -> proj s' = proj s.

(** A column that [sklearn.check_array] lets through: it has a row, and no
    infinity.  It may hold NaN. *)
Definition accepted (v : list F64.t) : Prop :=
  v <> [] /\ existsb F64.is_inf v = false.

(** The numbers of a column: its values that are not NaN. *)
Definition numbers (v : list F64.t) : list F64.t :=
  List.filter (fun x => negb (F64.is_nan x)) v.

(** Readings: a column that holds at least one number and no infinity; it
    may hold NaN (a [NaN] or [NA] marker in the file). *)
Definition readings (v : list F64.t) : Prop :=
  numbers v <> [] /\ existsb F64.is_inf v = false.

(** How many samples a histogram counts, over all its bins. *)
Definition total (counts : list Z) : Z := fold_right Z.add 0 counts.

(** A sample in the bin from [lo] to [hi]: [lo <= x < hi], and
    [lo <= x <= hi] in the last bin. *)
Definition in_bin (lo hi : F64.t) (last : bool) (x : F64.t) : bool :=
  F64.leb lo x && (if last then F64.leb x hi else F64.ltb x hi).

(** Counting bin by bin over the edges [e]: how many samples of [a] each
    bin holds, the last bin with its right edge. *)
Fixpoint bin_counts (a e : list F64.t) : list Z :=
  match e with
  | lo :: (hi :: r) as rest =>
      Z.of_nat (length (List.filter
                          (in_bin lo hi (match r with [] => true | _ => false end)) a))
      :: bin_counts a rest
  | _ => []
  end.

(** [sys.float_info.max], the largest finite binary64 value. *)
Definition float_max : F64.t := S754_finite false 9007199254740991 971.

(** No element is above the next one. *)
Fixpoint non_decreasing (v : list F64.t) : bool :=
  match v with
  | x :: (y :: _) as rest => F64.leb x y && non_decreasing rest
  | _ => true
  end.

(** The pyplot calls of lines 20-31 on the columns [a] and [b], each
    histogram with its counts bin by bin. *)
Definition chart_of (a b : list F64.t) : list plt.call :=
  [plt.figure (12, 7);
   plt.hist a (bins_of a b) (bin_counts a (bins_of a b)) alpha_07 "Mutex" "skyblue";
   plt.hist b (bins_of a b) (bin_counts b (bins_of a b)) alpha_07 "Semáforo" "salmon"]
  ++ decoration.

(** Edge [i] of [np.linspace(lo, hi, 100)] before the last one, as numpy
    computes it: [i * step + lo] with [step = (hi - lo) / 99], and
    [i / 99 * (hi - lo) + lo] when the step is zero. *)
Definition edge_of (lo hi : F64.t) (i : nat) : F64.t :=
  if (step_of lo hi == F64.zero)%f64
  then (F64.of_nat i / F64.of_nat 99 * (hi - lo) + lo)%f64
  else (F64.of_nat i * step_of lo hi + lo)%f64.

(** A binary64 number: the mantissa and exponent of a finite value are the
    ones the format gives it (53 bits, or fewer at the least exponent).
    Every value a float64 array holds is one; [spec_float] also has the
    other pairs. *)
Definition binary64 (x : F64.t) : Prop := valid_binary 53 1024 x = true.

(** A finite binary64 number. *)
Definition number64 (x : F64.t) : Prop := binary64 x /\ finite x.

(** [sys.float_info.min], [2 ^ -1022]: the least positive normal number. *)
Definition float_min : F64.t := S754_finite false 4503599627370496 (-1074).

(** The integers of an [int64] column. *)
Definition int64 (z : Z) : Prop := - 2 ^ 63 <= z < 2 ^ 63.





(* ===================================================================== *)
(** * Rounding to binary64, for the proofs *)
(* ===================================================================== *)

(** The exponent the format gives a value of [g] binary digits. *)
Definition fexp64 (g : Z) : Z := Z.max (g - 53) (-1074).

(** [a / b], with [0 <= a < b], is the part of a value that was cut off
    below its integer part; [r] and [s] are the round and sticky bits that
    record where it lies with respect to one half. *)
Definition encodes (r s : bool) (a b : Z) : Prop :=
  0 <= a < b /\ r = (b <=? 2 * a) /\ s = negb (a =? 0) && negb (2 * a =? b).

(** The same for a [location]. *)
Definition located (l : location) (a b : Z) : Prop :=
  0 <= a < b /\
  match l with
  | loc_Exact => a = 0
  | loc_Inexact Lt => 0 < 2 * a < b
  | loc_Inexact Eq => 2 * a = b
  | loc_Inexact Gt => b < 2 * a
  end.

(** [m + a / b] to the nearest integer, ties to even. *)
Definition nearest (m a b : Z) : Z :=
  if 2 * a <? b then m
  else if 2 * a =? b then (if Z.even m then m else m + 1)
  else m + 1.

(** The float with sign [s], mantissa [m] and exponent [e], when it is in
    range. *)
Definition pack (s : bool) (me : Z * Z) : spec_float :=
  match fst me with
  | Z0 => S754_zero s
  | Zpos p => if snd me <=? 971 then S754_finite s p (snd me) else S754_infinity s
  | Zneg _ => S754_nan
  end.

(** Mantissa and exponent of [(m + a / b) * 2 ^ c] rounded to binary64. *)
Definition round_at (m a b c : Z) : Z * Z :=
  let E := fexp64 (Zdigits2 m + c) in
  let n := E - c in
  let m' := nearest (m / 2 ^ n) ((m mod 2 ^ n) * b + a) (b * 2 ^ n) in
  if m' =? 2 ^ 53 then (2 ^ 52, E + 1) else (m', E).

(** Values are compared as integers, in units of [2 ^ -2200]: the value of
    mantissa [m] at exponent [e]. *)
Definition sv (me : Z * Z) : Z := fst me * 2 ^ (snd me + 2200).

(** [V] to the nearest multiple of [U], ties to the even multiple. *)
Definition rnu (V U : Z) : Z := U * nearest (V / U) (V mod U) U.

(** The mantissa and exponent of a binary64 number: zero, or the exponent
    is the one the format asks for. *)
Definition canonical (me : Z * Z) : Prop :=
  fst me = 0 \/ (0 < fst me /\ fexp64 (Zdigits2 (fst me) + snd me) = snd me).

(** The value that stands for infinity: [2 ^ 1024]. *)
Definition huge : Z := 2 ^ 3224.

(** The value of a float in units of [2 ^ -2200]; the infinities are
    [huge] and its opposite. *)
Definition ev (x : F64.t) : Z :=
  match x with
  | S754_zero _ | S754_nan => 0
  | S754_infinity s => cond_Zopp s huge
  | S754_finite s m e => cond_Zopp s (sv (Z.pos m, e))
  end.

(** The value [W] (in units of [2 ^ -2200]) rounded to binary64; [huge]
    and its opposite stand for the infinities. *)
Definition RN (W : Z) : Z :=
  let r := Z.min (sv (round_at (Z.abs W) 0 1 (-2200))) huge in
  if W =? 0 then 0 else if W <? 0 then - r else r.

(** The same before overflow is clamped, for a positive value. *)
Definition rnd (W : Z) : Z := sv (round_at W 0 1 (-2200)).

(* ===================================================================== *)
(** * The two reads and their handler *)
(* ===================================================================== *)

Arguments np.linspace : simpl never.
Arguments np.histogram : simpl never.

(** What [load] does, by the outcome of the two reads. *)
Lemma load_unfold (fs : filesystem) (s : state) :
  load fs s =
  let s1 := set_opened (opened s ++ [mutex_path]) s in
  match pd.read_csv fs mutex_path with
  | Raise e =>
      if is_FileNotFoundError e
      then (Raise (SystemExit None),
            set_stdout (stdout s1 ++ [not_found_message (filename e)]) s1)
      else (Raise e, s1)
  | Ok a =>
      let s2 := set_df_mutex (Some a) s1 in
      let s3 := set_opened (opened s2 ++ [sem_path]) s2 in
      match pd.read_csv fs sem_path with
      | Raise e =>
          if is_FileNotFoundError e
          then (Raise (SystemExit None),
                set_stdout (stdout s3 ++ [not_found_message (filename e)]) s3)
          else (Raise e, s3)
      | Ok b => (Ok tt, set_df_sem (Some b) s3)
      end
  end.
Proof.
  unfold load, try_except, read_both, read_csv, on_missing_file, print, exit,
    bind, modify, lift, raise.
  destruct (pd.read_csv fs mutex_path) as [a|e]; simpl.
  - destruct (pd.read_csv fs sem_path) as [b|e]; simpl; [reflexivity|].
    destruct (is_FileNotFoundError e); reflexivity.
  - destruct (is_FileNotFoundError e); reflexivity.
Qed.

Lemma read_both_unfold (fs : filesystem) (s : state) :
  read_both fs s =
  let s1 := set_opened (opened s ++ [mutex_path]) s in
  match pd.read_csv fs mutex_path with
  | Raise e => (Raise e, s1)
  | Ok a =>
      let s2 := set_df_mutex (Some a) s1 in
      let s3 := set_opened (opened s2 ++ [sem_path]) s2 in
      match pd.read_csv fs sem_path with
      | Raise e => (Raise e, s3)
      | Ok b => (Ok tt, set_df_sem (Some b) s3)
      end
  end.
Proof.
  unfold read_both, read_csv, bind, modify, lift.
  destruct (pd.read_csv fs mutex_path) as [a|e]; simpl; [|reflexivity].
  destruct (pd.read_csv fs sem_path) as [b|e]; reflexivity.
Qed.

(** [pd.read_csv] raises [FileNotFoundError] exactly on a missing path, and
    then with that path as [filename]. *)
Lemma read_csv_missing (fs : filesystem) (path : string) :
  fs !! path = None -> pd.read_csv fs path = Raise (FileNotFoundError path).
Proof. intros H. unfold pd.read_csv. rewrite H. reflexivity. Qed.

Lemma read_csv_present (fs : filesystem) (path : string) (rows : list field) :
  fs !! path = Some (Csv rows) -> pd.read_csv fs path = Ok (pd.infer rows).
Proof. intros H. unfold pd.read_csv. rewrite H. reflexivity. Qed.

Lemma read_csv_not_found_inv (fs : filesystem) (path : string) (e : exn) :
  pd.read_csv fs path = Raise e ->
  is_FileNotFoundError e = true ->
  fs !! path = None /\ e = FileNotFoundError path.
Proof.
  unfold pd.read_csv. destruct (fs !! path) as [[why|rows]|]; intros H Hc.
  - injection H as <-. destruct why; discriminate.
  - discriminate.
  - injection H as <-. split; reflexivity.
Qed.

(** A run that ends in the handler. *)
Lemma run_first_missing (fs : filesystem) (name : string) :
  first_missing fs name ->
  exists s,
    load fs initial = (Raise (SystemExit None), s) /\
    run fs = (Raise (SystemExit None), s) /\
    stdout s = [not_found_message name] /\
    opened s = opened_until name /\
    df_sem s = None /\ scaler s = None /\ combined s = None /\
    scaled_mutex s = None /\ scaled_sem s = None /\
    min_limit s = None /\ max_limit s = None /\ bins s = None /\
    figure s = [].
Proof.
  intros [[-> Hm] | [-> [[rows Hm] Hs]]].
  - eexists. unfold run, main, bind. rewrite load_unfold.
    rewrite (read_csv_missing _ _ Hm). simpl.
    repeat split; reflexivity.
  - eexists. unfold run, main, bind. rewrite load_unfold.
    rewrite (read_csv_present _ _ _ Hm), (read_csv_missing _ _ Hs). simpl.
    repeat split; reflexivity.
Qed.

(** ** Statements that keep standard output, and exceptions that are not
       [SystemExit] *)

Lemma silent_bind {A B} (c : M A) (k : A -> M B) :
  silent c -> (forall a, silent (k a)) -> silent (bind c k).
Proof.
  intros Hc Hk s r s'. unfold bind.
  destruct (c s) as [[a|e] s1] eqn:E; intros H.
  - rewrite (Hk a _ _ _ H). exact (Hc _ _ _ E).
  - injection H as <- <-. exact (Hc _ _ _ E).
Qed.

Lemma no_exit_bind {A B} (c : M A) (k : A -> M B) :
  no_exit c -> (forall a, no_exit (k a)) -> no_exit (bind c k).
Proof.
  intros Hc Hk s e s'. unfold bind.
  destruct (c s) as [[a|e1] s1] eqn:E; intros H.
  - exact (Hk a _ _ _ H).
  - injection H as <- <-. exact (Hc _ _ _ E).
Qed.

Lemma silent_lift {A} (r : result A) : silent (lift r).
Proof. intros s r' s' H. injection H as <- <-. reflexivity. Qed.

Lemma silent_var {A} name (proj : state -> option A) : silent (var name proj).
Proof.
  intros s r s'. unfold var. destruct (proj s); intros H; injection H as <- <-; reflexivity.
Qed.

Lemma silent_modify (f : state -> state) :
  (forall s, stdout (f s) = stdout s) -> silent (modify f).
Proof. intros Hf s r s' H. injection H as <- <-. apply Hf. Qed.

Lemma no_exit_var {A} name (proj : state -> option A) : no_exit (var name proj).
Proof.
  intros s e s'. unfold var. destruct (proj s); intros H; [discriminate|].
  injection H as <- <-. reflexivity.
Qed.

Lemma no_exit_modify (f : state -> state) : no_exit (modify f).
Proof. intros s e s' H. discriminate. Qed.

Lemma no_exit_lift {A} (r : result A) :
  (forall e, r = Raise e -> is_SystemExit e = false) -> no_exit (lift r).
Proof. intros Hr s e s' H. injection H as H <-. exact (Hr _ H). Qed.

(** The exceptions of the library calls. *)
Lemma read_csv_no_exit fs path e :
  pd.read_csv fs path = Raise e -> is_SystemExit e = false.
Proof.
  unfold pd.read_csv. destruct (fs !! path) as [[[]|rows]|]; intros H;
    try discriminate; injection H as <-; reflexivity.
Qed.

Lemma check_array_no_exit X e :
  sklearn.check_array X = Raise e -> is_SystemExit e = false.
Proof.
  unfold sklearn.check_array. destruct X as [v|v].
  - destruct (existsb F64.is_inf v); [|destruct v]; intros H;
      try discriminate; injection H as <-; reflexivity.
  - intros H. injection H as <-. reflexivity.
Qed.

Lemma fit_no_exit sc X e :
  sklearn.fit sc X = Raise e -> is_SystemExit e = false.
Proof.
  unfold sklearn.fit. destruct (sklearn.check_array X) eqn:E; intros H;
    [discriminate|]. injection H as <-. exact (check_array_no_exit _ _ E).
Qed.

Lemma transform_no_exit sc X e :
  sklearn.transform sc X = Raise e -> is_SystemExit e = false.
Proof.
  unfold sklearn.transform. destruct sc.
  - intros H. injection H as <-. reflexivity.
  - destruct (sklearn.check_array X) eqn:E; intros H; [discriminate|].
    injection H as <-. exact (check_array_no_exit _ _ E).
Qed.

Lemma lat_min_no_exit df e : pd.lat_min df = Raise e -> is_SystemExit e = false.
Proof. destruct df; intros H; [discriminate|]. injection H as <-. reflexivity. Qed.

Lemma lat_max_no_exit df e : pd.lat_max df = Raise e -> is_SystemExit e = false.
Proof. destruct df; intros H; [discriminate|]. injection H as <-. reflexivity. Qed.

Lemma draw_hist_no_exit df e' alpha label color e :
  plt.draw_hist df e' alpha label color = Raise e -> is_SystemExit e = false.
Proof.
  unfold plt.draw_hist, np.histogram. destruct df as [x|x].
  - destruct (np.any_decreasing e'); intros H; [|discriminate].
    injection H as <-. reflexivity.
  - intros H. injection H as <-. reflexivity.
Qed.

Create HintDb script discriminated.
#[local] Hint Resolve silent_lift silent_var no_exit_var no_exit_modify : script.
#[local] Hint Resolve read_csv_no_exit fit_no_exit transform_no_exit
  lat_min_no_exit lat_max_no_exit draw_hist_no_exit : script.

Ltac step_silent :=
  repeat first
    [ apply silent_bind; [|intros ?]
    | apply silent_lift
    | apply silent_var
    | apply silent_modify; intros ?; reflexivity ].

Ltac step_no_exit :=
  repeat first
    [ apply no_exit_bind; [|intros ?]
    | apply no_exit_var
    | apply no_exit_modify
    | apply no_exit_lift; intros ? ?; eauto with script ].

Lemma read_both_silent fs : silent (read_both fs).
Proof. unfold read_both, read_csv. step_silent. Qed.

Lemma normalise_silent : silent normalise.
Proof. unfold normalise. step_silent. Qed.

Lemma plot_silent : silent plot.
Proof. unfold plot, plt_hist, pyplot. step_silent. Qed.

Lemma main_unguarded_silent fs : silent (main_unguarded fs).
Proof.
  unfold main_unguarded. step_silent;
    auto using read_both_silent, normalise_silent, plot_silent.
Qed.

Lemma read_both_no_exit fs : no_exit (read_both fs).
Proof. unfold read_both, read_csv. step_no_exit. Qed.

Lemma normalise_no_exit : no_exit normalise.
Proof. unfold normalise. step_no_exit. Qed.

Lemma plot_no_exit : no_exit plot.
Proof. unfold plot, plt_hist, pyplot. step_no_exit. Qed.

Lemma main_unguarded_no_exit fs : no_exit (main_unguarded fs).
Proof.
  unfold main_unguarded. step_no_exit;
    auto using read_both_no_exit, normalise_no_exit, plot_no_exit.
Qed.

(** The handler is transparent to what it does not catch: when the two
    reads end without a [FileNotFoundError], guarded and unguarded script
    agree. *)
Lemma load_agrees_with_read_both fs s r s' :
  read_both fs s = (r, s') ->
  (forall e, r = Raise e -> is_FileNotFoundError e = false) ->
  load fs s = (r, s').
Proof.
  rewrite load_unfold, read_both_unfold. cbv zeta.
  destruct (pd.read_csv fs mutex_path) as [a|e].
  - destruct (pd.read_csv fs sem_path) as [b|e]; intros H Hr; [exact H|].
    injection H as <- <-. rewrite (Hr e eq_refl). reflexivity.
  - intros H Hr. injection H as <- <-. rewrite (Hr e eq_refl). reflexivity.
Qed.

Lemma main_agrees_with_unguarded fs e s :
  main_unguarded fs initial = (Raise e, s) ->
  is_FileNotFoundError e = false ->
  main fs initial = (Raise e, s).
Proof.
  unfold main_unguarded, main. unfold bind at 1 3.
  destruct (read_both fs initial) as [[[]|e1] s1] eqn:E; intros H Hc.
  - rewrite (load_agrees_with_read_both _ _ _ _ E); [exact H|discriminate].
  - injection H as <- <-.
    rewrite (load_agrees_with_read_both _ _ _ _ E); [reflexivity|].
    intros e' He'. injection He' as <-. exact Hc.
Qed.

Lemma exit_status_uncaught e :
  is_SystemExit e = false -> exit_status (Raise e) = 1.
Proof. destruct e; simpl; intros H; try reflexivity; discriminate. Qed.

(* ===================================================================== *)
(** * The scaling and plotting statements on loaded frames *)
(* ===================================================================== *)

(** Lines 13-18 on a state in which both frames are assigned. *)
Lemma normalise_unfold (s : state) (a b : DataFrame) :
  df_mutex s = Some a -> df_sem s = Some b ->
  normalise s =
  let s1 := set_combined (Some (pd.concat a b)) (set_scaler (Some sklearn.Unfitted) s) in
  match sklearn.fit sklearn.Unfitted (pd.concat a b) with
  | Raise e => (Raise e, s1)
  | Ok sc =>
      let s2 := set_scaler (Some sc) s1 in
      match sklearn.transform sc a with
      | Raise e => (Raise e, s2)
      | Ok ra =>
          let s3 := set_scaled_mutex (Some ra) s2 in
          match sklearn.transform sc b with
          | Raise e => (Raise e, s3)
          | Ok rb => (Ok tt, set_scaled_sem (Some rb) s3)
          end
      end
  end.
Proof.
  intros Ha Hb. unfold normalise, bind, var, modify, lift. simpl.
  rewrite Ha. simpl. rewrite Hb. simpl.
  destruct (sklearn.fit sklearn.Unfitted (pd.concat a b)) as [sc|e]; [|reflexivity].
  simpl. rewrite Ha.
  destruct (sklearn.transform sc a) as [ra|e]; [|reflexivity].
  simpl. rewrite Hb.
  destruct (sklearn.transform sc b) as [rb|e]; reflexivity.
Qed.

(** Lines 20-31 on a state in which both frames are numeric. *)
Lemma plot_numeric (s : state) (a b : list F64.t) :
  df_mutex s = Some (Numeric a) -> df_sem s = Some (Numeric b) ->
  let e := bins_of a b in
  exists s',
    snd (plot s) = s' /\
    stdout s' = stdout s /\ opened s' = opened s /\
    df_mutex s' = df_mutex s /\ df_sem s' = df_sem s /\
    scaler s' = scaler s /\ combined s' = combined s /\
    scaled_mutex s' = scaled_mutex s /\ scaled_sem s' = scaled_sem s /\
    min_limit s' = Some (min_limit_of a b) /\
    max_limit s' = Some (max_limit_of a b) /\
    bins s' = Some e /\
    match np.histogram a e with
    | Raise ex =>
        fst (plot s) = Raise ex /\ figure s' = figure s ++ [plt.figure (12, 7)]
    | Ok ca =>
        match np.histogram b e with
        | Raise ex =>
            fst (plot s) = Raise ex /\
            figure s' = figure s ++
              [plt.figure (12, 7); plt.hist a e ca alpha_07 "Mutex" "skyblue"]
        | Ok cb =>
            fst (plot s) = Ok tt /\
            figure s' = figure s ++
              [plt.figure (12, 7);
               plt.hist a e ca alpha_07 "Mutex" "skyblue";
               plt.hist b e cb alpha_07 "Semáforo" "salmon"] ++ decoration
        end
    end.
Proof.
  intros Ha Hb e. eexists. split; [reflexivity|].
  unfold plot, plt_hist, pyplot, bind, var, modify, lift. simpl.
  rewrite Ha. simpl. rewrite Hb. simpl. rewrite Ha. simpl. rewrite Hb. simpl.
  rewrite Ha. simpl.
  fold (min_limit_of a b) (max_limit_of a b). fold (bins_of a b). fold e.
  destruct (np.histogram a e) as [ca|ex]; simpl.
  - rewrite Hb. simpl.
    destruct (np.histogram b e) as [cb|ex]; simpl;
      rewrite <- ?app_assoc; simpl; repeat split; first [reflexivity | congruence].
  - repeat split; first [reflexivity | congruence].
Qed.

(** ** A run on two sample sets *)

Lemma samples_no_inf (v : list F64.t) :
  Forall (fun x => F64.is_finite x = true) v -> existsb F64.is_inf v = false.
Proof.
  induction 1 as [|x v Hx _ IH]; [reflexivity|]. simpl. rewrite IH.
  destruct x; try discriminate; reflexivity.
Qed.

Lemma check_array_samples (v : list F64.t) :
  samples v -> sklearn.check_array (Numeric v) = Ok v.
Proof.
  intros [Hne Hfin]. unfold sklearn.check_array.
  rewrite (samples_no_inf _ Hfin). destruct v; [contradiction|reflexivity].
Qed.

Lemma samples_app (a b : list F64.t) : samples a -> samples b -> samples (a ++ b).
Proof.
  intros [Ha Fa] [Hb Fb]. split.
  - destruct a; [contradiction|discriminate].
  - apply List.Forall_app. split; assumption.
Qed.

(** A run that loads two sample sets reaches line 20 in [scaled_state]. *)
Lemma run_loaded_reaches_plot (fs : filesystem) (a b : list F64.t) :
  loaded fs a b -> samples a -> samples b ->
  run fs = plot (scaled_state a b).
Proof.
  intros [Hra Hrb] Sa Sb.
  unfold run, main. unfold bind at 1.
  rewrite load_unfold, Hra, Hrb. cbv zeta.
  unfold bind.
  rewrite (normalise_unfold _ (Numeric a) (Numeric b)) by reflexivity.
  simpl pd.concat. unfold sklearn.fit, sklearn.transform.
  rewrite (check_array_samples _ (samples_app _ _ Sa Sb)).
  rewrite (check_array_samples _ Sa), (check_array_samples _ Sb).
  reflexivity.
Qed.

(** The final state of a run that loads two sample sets: every variable
    is assigned as lines 13-23 say, and the figure and the outcome depend
    on the two [np.histogram] calls only. *)
Lemma run_loaded (fs : filesystem) (a b : list F64.t) :
  loaded fs a b -> samples a -> samples b ->
  let e := bins_of a b in
  stdout (final fs) = [] /\
  opened (final fs) = [mutex_path; sem_path] /\
  df_mutex (final fs) = Some (Numeric a) /\
  df_sem (final fs) = Some (Numeric b) /\
  scaler (final fs) = Some (sklearn.Fitted (scaler_of a b)) /\
  combined (final fs) = Some (Numeric (a ++ b)) /\
  scaled_mutex (final fs) = Some (scaled_of a b a) /\
  scaled_sem (final fs) = Some (scaled_of a b b) /\
  min_limit (final fs) = Some (min_limit_of a b) /\
  max_limit (final fs) = Some (max_limit_of a b) /\
  bins (final fs) = Some e /\
  match np.histogram a e with
  | Raise ex => outcome fs = Raise ex /\ figure (final fs) = [plt.figure (12, 7)]
  | Ok ca =>
      match np.histogram b e with
      | Raise ex =>
          outcome fs = Raise ex /\
          figure (final fs) =
            [plt.figure (12, 7); plt.hist a e ca alpha_07 "Mutex" "skyblue"]
      | Ok cb =>
          outcome fs = Ok tt /\
          figure (final fs) =
            [plt.figure (12, 7);
             plt.hist a e ca alpha_07 "Mutex" "skyblue";
             plt.hist b e cb alpha_07 "Semáforo" "salmon"] ++ decoration
      end
  end.
Proof.
  intros Hl Sa Sb e.
  unfold final, outcome. rewrite (run_loaded_reaches_plot fs a b Hl Sa Sb).
  destruct (plot_numeric (scaled_state a b) a b eq_refl eq_refl)
    as (s' & Hs' & Ho & Hop & Hm & Hs & Hsc & Hc & Hsm & Hss & Hlo & Hhi & Hb & Hh).
  rewrite Hs'. rewrite Ho, Hop, Hm, Hs, Hsc, Hc, Hsm, Hss, Hlo, Hhi, Hb.
  repeat (split; [reflexivity|]).
  fold e in Hh. destruct (np.histogram a e) as [ca|ex];
    [destruct (np.histogram b e) as [cb|ex]|]; exact Hh.
Qed.

(* ===================================================================== *)
(** * Order of binary64 values *)
(* ===================================================================== *)

Lemma lex_refl (p : Z * Z * Z) : lex p p = Eq.
Proof. destruct p as [[a b] c]. simpl. rewrite !Z.compare_refl. reflexivity. Qed.

Lemma lex_antisym (p q : Z * Z * Z) : lex q p = CompOpp (lex p q).
Proof.
  destruct p as [[a b] c], q as [[a' b'] c']. simpl.
  rewrite (Z.compare_antisym a a'), (Z.compare_antisym b b'), (Z.compare_antisym c c').
  destruct (a ?= a'), (b ?= b'), (c ?= c'); reflexivity.
Qed.

Lemma lex_le_iff (p q : Z * Z * Z) :
  lex p q <> Gt <->
  let '(a, b, c) := p in
  let '(a', b', c') := q in
  a < a' \/ (a = a' /\ (b < b' \/ (b = b' /\ c <= c'))).
Proof.
  destruct p as [[a b] c], q as [[a' b'] c']. simpl.
  destruct (Z.compare_spec a a'), (Z.compare_spec b b'), (Z.compare_spec c c');
    split; intros Hc; try congruence; try lia.
Qed.

Lemma lex_eq_iff (p q : Z * Z * Z) : lex p q = Eq <-> p = q.
Proof.
  destruct p as [[a b] c], q as [[a' b'] c']. simpl.
  destruct (Z.compare_spec a a'), (Z.compare_spec b b'), (Z.compare_spec c c');
    split; intros Hc; try congruence; try discriminate;
    injection Hc; intros; lia.
Qed.

Lemma lex_trans (p q r : Z * Z * Z) :
  lex p q <> Gt -> lex q r <> Gt -> lex p r <> Gt.
Proof.
  rewrite !lex_le_iff.
  destruct p as [[a b] c], q as [[a' b'] c'], r as [[a'' b''] c'']. lia.
Qed.

(** IEEE-754 comparison is the lexicographic comparison of ranks. *)
Lemma compare_rank (x y : F64.t) :
  not_nan x -> not_nan y -> SFcompare x y = Some (lex (rank x) (rank y)).
Proof.
  unfold not_nan.
  destruct x as [[]|[]| |[] m e], y as [[]|[]| |[] m' e']; simpl;
    intros Hx Hy; try discriminate; try reflexivity.
  rewrite Z.compare_opp, (Z.compare_antisym e e'). unfold Pos.compare.
  destruct (e ?= e'); reflexivity.
Qed.

Lemma leb_rank (x y : F64.t) :
  not_nan x -> not_nan y -> (fle x y <-> lex (rank x) (rank y) <> Gt).
Proof.
  intros Hx Hy. unfold fle, F64.leb, SFleb. rewrite (compare_rank x y Hx Hy).
  destruct (lex (rank x) (rank y)); split; intros H; congruence.
Qed.

Lemma ltb_rank (x y : F64.t) :
  not_nan x -> not_nan y -> (F64.ltb x y = true <-> lex (rank x) (rank y) = Lt).
Proof.
  intros Hx Hy. unfold F64.ltb, SFltb. rewrite (compare_rank x y Hx Hy).
  destruct (lex (rank x) (rank y)); split; intros H; congruence.
Qed.

Lemma eqb_rank (x y : F64.t) :
  not_nan x -> not_nan y -> (feq x y <-> rank x = rank y).
Proof.
  intros Hx Hy. unfold feq, F64.eqb, SFeqb. rewrite (compare_rank x y Hx Hy).
  rewrite <- lex_eq_iff.
  destruct (lex (rank x) (rank y)); split; intros H; congruence.
Qed.

Lemma fle_refl (x : F64.t) : not_nan x -> fle x x.
Proof. intros Hx. apply leb_rank; trivial. rewrite lex_refl. discriminate. Qed.

Lemma fle_trans (x y z : F64.t) :
  not_nan x -> not_nan y -> not_nan z -> fle x y -> fle y z -> fle x z.
Proof.
  intros Hx Hy Hz Hxy Hyz. apply leb_rank; trivial.
  apply (lex_trans _ (rank y)); apply leb_rank; trivial.
Qed.

Lemma fle_total (x y : F64.t) : not_nan x -> not_nan y -> fle x y \/ fle y x.
Proof.
  intros Hx Hy. rewrite !leb_rank by trivial. rewrite (lex_antisym (rank x) (rank y)).
  destruct (lex (rank x) (rank y)); simpl; (left; discriminate) || (right; discriminate).
Qed.

Lemma leb_false_fle (x y : F64.t) :
  not_nan x -> not_nan y -> F64.leb x y = false -> fle y x.
Proof.
  intros Hx Hy H. destruct (fle_total x y Hx Hy) as [H'|H']; [|exact H'].
  unfold fle in H'. congruence.
Qed.

Lemma ltb_spec (x y : F64.t) :
  not_nan x -> not_nan y -> F64.ltb x y = negb (F64.leb y x).
Proof.
  intros Hx Hy. unfold F64.ltb, F64.leb, SFltb, SFleb.
  rewrite (compare_rank x y Hx Hy), (compare_rank y x Hy Hx).
  rewrite (lex_antisym (rank x) (rank y)).
  destruct (lex (rank x) (rank y)); reflexivity.
Qed.

Lemma feq_fle (x y : F64.t) :
  not_nan x -> not_nan y -> fle x y -> fle y x -> feq x y.
Proof.
  intros Hx Hy. rewrite !leb_rank, eqb_rank by trivial.
  rewrite (lex_antisym (rank x) (rank y)). rewrite <- lex_eq_iff.
  destruct (lex (rank x) (rank y)); simpl; congruence.
Qed.

Lemma feq_refl (x : F64.t) : not_nan x -> feq x x.
Proof. intros Hx. apply eqb_rank; trivial. Qed.

Lemma feq_not_nan (x y : F64.t) : feq x y -> not_nan x /\ not_nan y.
Proof.
  unfold feq, F64.eqb, SFeqb, not_nan.
  destruct x as [[]|[]| |[] m e], y as [[]|[]| |[] m' e']; simpl;
    intros H; try discriminate; split; reflexivity.
Qed.

Lemma feq_sym (x y : F64.t) : feq x y -> feq y x.
Proof.
  intros H. destruct (feq_not_nan _ _ H) as [Hx Hy].
  apply eqb_rank; trivial. apply eqb_rank in H; trivial. congruence.
Qed.

Lemma fle_not_nan (x y : F64.t) : fle x y -> not_nan x /\ not_nan y.
Proof.
  unfold fle, F64.leb, SFleb, not_nan.
  destruct x as [[]|[]| |[] m e], y as [[]|[]| |[] m' e']; simpl;
    intros H; try discriminate; split; reflexivity.
Qed.

Lemma feq_trans (x y z : F64.t) : feq x y -> feq y z -> feq x z.
Proof.
  intros Hxy Hyz.
  destruct (feq_not_nan _ _ Hxy) as [Hx Hy], (feq_not_nan _ _ Hyz) as [_ Hz].
  apply eqb_rank; trivial.
  apply eqb_rank in Hxy, Hyz; trivial. congruence.
Qed.

Lemma feq_fle_l (x y : F64.t) : feq x y -> fle x y.
Proof.
  intros H. destruct (feq_not_nan _ _ H) as [Hx Hy].
  apply leb_rank; trivial. apply eqb_rank in H; trivial.
  rewrite H, lex_refl. discriminate.
Qed.

Lemma finite_not_nan (x : F64.t) : finite x -> not_nan x.
Proof. destruct x; intros H; try discriminate; reflexivity. Qed.

(* ===================================================================== *)
(** * Minimum and maximum of a column *)
(* ===================================================================== *)

Section Reductions.

Variable f : F64.t -> F64.t -> F64.t.

(** A reduction that keeps the smaller operand. *)
Section Smaller.

Hypothesis f_smaller :
  forall a b, not_nan a -> not_nan b -> f a b = if F64.leb a b then a else b.

Lemma fold_smaller (r : list F64.t) (acc : F64.t) :
  not_nan acc -> Forall not_nan r ->
  let m := fold_left f r acc in
  (m = acc \/ In m r) /\ fle m acc /\ Forall (fle m) r /\ not_nan m.
Proof.
  revert acc. induction r as [|y r IH]; intros acc Hacc Hr; simpl.
  - repeat split; [left; reflexivity | apply fle_refl; exact Hacc | constructor | exact Hacc].
  - inversion Hr as [|? ? Hy Hr']; subst.
    assert (Hstep : (f acc y = acc \/ f acc y = y) /\ fle (f acc y) acc /\
                    fle (f acc y) y /\ not_nan (f acc y)).
    { rewrite (f_smaller acc y Hacc Hy). destruct (F64.leb acc y) eqn:E.
      - repeat split; [left; reflexivity | apply fle_refl; exact Hacc | exact E | exact Hacc].
      - repeat split; [right; reflexivity | | apply fle_refl; exact Hy | exact Hy].
        apply (leb_false_fle acc y); assumption. }
    destruct Hstep as (Hin & Hle_acc & Hle_y & Hnn).
    destruct (IH (f acc y) Hnn Hr') as (Hm & Hle & Hall & Hmn).
    repeat split.
    + destruct Hm as [Hm|Hm]; [|right; right; exact Hm].
      rewrite Hm. destruct Hin as [->| ->]; [left; reflexivity | right; left; reflexivity].
    + apply (fle_trans _ (f acc y)); assumption.
    + constructor; [|exact Hall]. apply (fle_trans _ (f acc y)); assumption.
    + exact Hmn.
Qed.

Lemma reduce_smaller_is_min (v : list F64.t) :
  v <> [] -> Forall not_nan v -> is_min v (np.reduce f v).
Proof.
  destruct v as [|x r]; [contradiction|]. intros _ Hv.
  inversion Hv as [|? ? Hx Hr]; subst. unfold np.reduce.
  destruct (fold_smaller r x Hx Hr) as (Hm & Hle & Hall & _). split.
  - destruct Hm as [->|Hm]; [left; reflexivity | right; exact Hm].
  - constructor; assumption.
Qed.

End Smaller.

(** A reduction that keeps the greater operand. *)
Section Greater.

Hypothesis f_greater :
  forall a b, not_nan a -> not_nan b -> f a b = if F64.leb b a then a else b.

Lemma fold_greater (r : list F64.t) (acc : F64.t) :
  not_nan acc -> Forall not_nan r ->
  let m := fold_left f r acc in
  (m = acc \/ In m r) /\ fle acc m /\ Forall (fun x => fle x m) r /\ not_nan m.
Proof.
  revert acc. induction r as [|y r IH]; intros acc Hacc Hr; simpl.
  - repeat split; [left; reflexivity | apply fle_refl; exact Hacc | constructor | exact Hacc].
  - inversion Hr as [|? ? Hy Hr']; subst.
    assert (Hstep : (f acc y = acc \/ f acc y = y) /\ fle acc (f acc y) /\
                    fle y (f acc y) /\ not_nan (f acc y)).
    { rewrite (f_greater acc y Hacc Hy). destruct (F64.leb y acc) eqn:E.
      - repeat split; [left; reflexivity | apply fle_refl; exact Hacc | exact E | exact Hacc].
      - repeat split; [right; reflexivity | | apply fle_refl; exact Hy | exact Hy].
        apply (leb_false_fle y acc); assumption. }
    destruct Hstep as (Hin & Hle_acc & Hle_y & Hnn).
    destruct (IH (f acc y) Hnn Hr') as (Hm & Hle & Hall & Hmn).
    repeat split.
    + destruct Hm as [Hm|Hm]; [|right; right; exact Hm].
      rewrite Hm. destruct Hin as [->| ->]; [left; reflexivity | right; left; reflexivity].
    + apply (fle_trans _ (f acc y)); assumption.
    + constructor; [|exact Hall]. apply (fle_trans _ (f acc y)); assumption.
    + exact Hmn.
Qed.

Lemma reduce_greater_is_max (v : list F64.t) :
  v <> [] -> Forall not_nan v -> is_max v (np.reduce f v).
Proof.
  destruct v as [|x r]; [contradiction|]. intros _ Hv.
  inversion Hv as [|? ? Hx Hr]; subst. unfold np.reduce.
  destruct (fold_greater r x Hx Hr) as (Hm & Hle & Hall & _). split.
  - destruct Hm as [->|Hm]; [left; reflexivity | right; exact Hm].
  - constructor; assumption.
Qed.

End Greater.

End Reductions.

Lemma fmin_smaller (a b : F64.t) :
  not_nan a -> not_nan b -> np.fmin a b = if F64.leb a b then a else b.
Proof. intros _ Hb. unfold np.fmin. rewrite Hb, orb_false_r. reflexivity. Qed.

Lemma minimum_smaller (a b : F64.t) :
  not_nan a -> not_nan b -> np.minimum a b = if F64.leb a b then a else b.
Proof. intros Ha _. unfold np.minimum. rewrite Ha, orb_false_r. reflexivity. Qed.

Lemma fmax_greater (a b : F64.t) :
  not_nan a -> not_nan b -> np.fmax a b = if F64.leb b a then a else b.
Proof. intros _ Hb. unfold np.fmax. rewrite Hb, orb_false_r. reflexivity. Qed.

Lemma maximum_greater (a b : F64.t) :
  not_nan a -> not_nan b -> np.maximum a b = if F64.leb b a then a else b.
Proof. intros Ha _. unfold np.maximum. rewrite Ha, orb_false_r. reflexivity. Qed.

Lemma samples_not_nan (v : list F64.t) : samples v -> Forall not_nan v.
Proof.
  intros [_ H]. eapply List.Forall_impl; [|exact H]. intros x. apply finite_not_nan.
Qed.

Lemma forallb_is_nan_samples (v : list F64.t) :
  samples v -> forallb F64.is_nan v = false.
Proof.
  intros [Hne H]. destruct v as [|x r]; [contradiction|].
  inversion H as [|? ? Hx _]; subst. simpl.
  rewrite (finite_not_nan x Hx). reflexivity.
Qed.

Lemma map_replace_nan (d : F64.t) (v : list F64.t) :
  Forall not_nan v -> map (fun x => if F64.is_nan x then d else x) v = v.
Proof.
  induction 1 as [|x r Hx _ IH]; [reflexivity|]. simpl. rewrite Hx, IH. reflexivity.
Qed.

Lemma nanmin_is_min (v : list F64.t) : samples v -> is_min v (np.nanmin v).
Proof.
  intros Sv. apply (reduce_smaller_is_min _ fmin_smaller);
    [exact (proj1 Sv) | exact (samples_not_nan v Sv)].
Qed.

Lemma nanmax_is_max (v : list F64.t) : samples v -> is_max v (np.nanmax v).
Proof.
  intros Sv. apply (reduce_greater_is_max _ fmax_greater);
    [exact (proj1 Sv) | exact (samples_not_nan v Sv)].
Qed.

Lemma Series_min_is_min (v : list F64.t) : samples v -> is_min v (pd.Series_min v).
Proof.
  intros Sv. unfold pd.Series_min.
  rewrite (forallb_is_nan_samples v Sv), (map_replace_nan _ v (samples_not_nan v Sv)).
  apply (reduce_smaller_is_min _ minimum_smaller);
    [exact (proj1 Sv) | exact (samples_not_nan v Sv)].
Qed.

Lemma Series_max_is_max (v : list F64.t) : samples v -> is_max v (pd.Series_max v).
Proof.
  intros Sv. unfold pd.Series_max.
  rewrite (forallb_is_nan_samples v Sv), (map_replace_nan _ v (samples_not_nan v Sv)).
  apply (reduce_greater_is_max _ maximum_greater);
    [exact (proj1 Sv) | exact (samples_not_nan v Sv)].
Qed.

Lemma is_min_finite (v : list F64.t) (m : F64.t) :
  samples v -> is_min v m -> finite m.
Proof.
  intros [_ Hv] [Hin _]. rewrite List.Forall_forall in Hv. exact (Hv m Hin).
Qed.

Lemma is_max_finite (v : list F64.t) (m : F64.t) :
  samples v -> is_max v m -> finite m.
Proof.
  intros [_ Hv] [Hin _]. rewrite List.Forall_forall in Hv. exact (Hv m Hin).
Qed.

(** Two least elements of a column are numerically equal. *)
Lemma is_min_unique (v : list F64.t) (m m' : F64.t) :
  is_min v m -> is_min v m' -> feq m m'.
Proof.
  intros [Hin Hall] [Hin' Hall']. rewrite List.Forall_forall in Hall, Hall'.
  pose proof (Hall m' Hin') as H1. pose proof (Hall' m Hin) as H2.
  destruct (fle_not_nan _ _ H1) as [Hm Hm'].
  apply feq_fle; assumption.
Qed.

Lemma is_max_unique (v : list F64.t) (m m' : F64.t) :
  is_max v m -> is_max v m' -> feq m m'.
Proof.
  intros [Hin Hall] [Hin' Hall']. rewrite List.Forall_forall in Hall, Hall'.
  pose proof (Hall m' Hin') as H1. pose proof (Hall' m Hin) as H2.
  destruct (fle_not_nan _ _ H1) as [Hm' Hm].
  apply feq_fle; assumption.
Qed.

(** The builtin [min] of the two column minima is a least element of both
    columns together, and likewise for [max]. *)
Lemma min_limit_is_min (a b : list F64.t) :
  samples a -> samples b -> is_min (a ++ b) (min_limit_of a b).
Proof.
  intros Sa Sb.
  destruct (Series_min_is_min a Sa) as [Ina Alla].
  destruct (Series_min_is_min b Sb) as [Inb Allb].
  pose proof (finite_not_nan _ (is_min_finite a _ Sa (conj Ina Alla))) as Na.
  pose proof (finite_not_nan _ (is_min_finite b _ Sb (conj Inb Allb))) as Nb.
  unfold min_limit_of, builtins.min.
  rewrite (ltb_spec _ _ Nb Na).
  destruct (F64.leb (pd.Series_min a) (pd.Series_min b)) eqn:E; simpl.
  - split; [apply List.in_or_app; left; exact Ina|].
    apply List.Forall_app. split; [exact Alla|].
    eapply List.Forall_impl; [|exact Allb]. intros x Hx. simpl in Hx.
    destruct (fle_not_nan _ _ Hx) as [_ Nx].
    apply (fle_trans _ (pd.Series_min b)); assumption.
  - pose proof (leb_false_fle _ _ Na Nb E) as Hba.
    split; [apply List.in_or_app; right; exact Inb|].
    apply List.Forall_app. split; [|exact Allb].
    eapply List.Forall_impl; [|exact Alla]. intros x Hx. simpl in Hx.
    destruct (fle_not_nan _ _ Hx) as [_ Nx].
    apply (fle_trans _ (pd.Series_min a)); assumption.
Qed.

Lemma max_limit_is_max (a b : list F64.t) :
  samples a -> samples b -> is_max (a ++ b) (max_limit_of a b).
Proof.
  intros Sa Sb.
  destruct (Series_max_is_max a Sa) as [Ina Alla].
  destruct (Series_max_is_max b Sb) as [Inb Allb].
  pose proof (finite_not_nan _ (is_max_finite a _ Sa (conj Ina Alla))) as Na.
  pose proof (finite_not_nan _ (is_max_finite b _ Sb (conj Inb Allb))) as Nb.
  unfold max_limit_of, builtins.max, F64.gtb.
  rewrite (ltb_spec _ _ Na Nb).
  destruct (F64.leb (pd.Series_max b) (pd.Series_max a)) eqn:E; simpl.
  - split; [apply List.in_or_app; left; exact Ina|].
    apply List.Forall_app. split; [exact Alla|].
    eapply List.Forall_impl; [|exact Allb]. intros x Hx. simpl in Hx.
    destruct (fle_not_nan _ _ Hx) as [Nx _].
    apply (fle_trans _ (pd.Series_max b)); assumption.
  - pose proof (leb_false_fle _ _ Nb Na E) as Hab.
    split; [apply List.in_or_app; right; exact Inb|].
    apply List.Forall_app. split; [|exact Allb].
    eapply List.Forall_impl; [|exact Alla]. intros x Hx. simpl in Hx.
    destruct (fle_not_nan _ _ Hx) as [Nx _].
    apply (fle_trans _ (pd.Series_max a)); assumption.
Qed.

(* ===================================================================== *)
(** * Arithmetic with zeros *)
(* ===================================================================== *)

Lemma is_zero_feq (x : F64.t) : is_zero x = true -> feq x F64.zero.
Proof. destruct x; try discriminate. reflexivity. Qed.

Lemma is_zero_finite (x : F64.t) : is_zero x = true -> finite x.
Proof. destruct x; try discriminate. reflexivity. Qed.

(** Numerically equal values are the same value, or two zeros. *)
Lemma feq_cases (x y : F64.t) :
  feq x y -> x = y \/ (is_zero x = true /\ is_zero y = true).
Proof.
  intros H. destruct (feq_not_nan _ _ H) as [Hx Hy].
  apply eqb_rank in H; trivial.
  destruct x as [[]|[]| |[] m e], y as [[]|[]| |[] m' e']; simpl in H;
    try discriminate; try (left; reflexivity); try (right; split; reflexivity);
    injection H as He Hm; left; f_equal; lia.
Qed.

Lemma mul_zero_l (z x : F64.t) :
  is_zero z = true -> finite x -> is_zero (z * x)%f64 = true.
Proof. destruct z; try discriminate. destruct x; try discriminate; reflexivity. Qed.

Lemma mul_zero_r (x z : F64.t) :
  finite x -> is_zero z = true -> is_zero (x * z)%f64 = true.
Proof. destruct z; try discriminate. destruct x; try discriminate; reflexivity. Qed.

Lemma add_zero_l (z x : F64.t) :
  is_zero z = true -> not_nan x -> feq (z + x)%f64 x.
Proof.
  destruct z as [s| | |]; try discriminate. intros _ Hx.
  destruct x as [s'|s'| |s' m e]; try discriminate.
  - destruct s, s'; reflexivity.
  - destruct s'; reflexivity.
  - apply feq_refl. reflexivity.
Qed.

Lemma shl_align_same (m : positive) (e : Z) : shl_align m e (Z.min e e) = (m, e).
Proof. unfold shl_align. rewrite Z.min_id, Z.sub_diag. reflexivity. Qed.

Lemma sub_self (x : F64.t) : finite x -> is_zero (x - x)%f64 = true.
Proof.
  destruct x as [s| | |s m e]; try discriminate; intros _.
  - destruct s; reflexivity.
  - unfold F64.sub, SFsub. rewrite shl_align_same. simpl fst.
    rewrite Z.sub_diag. reflexivity.
Qed.

Lemma sub_feq (x y : F64.t) : finite x -> feq x y -> is_zero (y - x)%f64 = true.
Proof.
  intros Hx H. destruct (feq_cases _ _ H) as [<-|[Zx Zy]].
  - apply sub_self. exact Hx.
  - destruct x; try discriminate. destruct y; try discriminate.
    destruct s, s0; reflexivity.
Qed.

(** [y + (0 - y)] is zero. *)
Lemma add_opp (y : F64.t) : finite y -> is_zero (y + (F64.zero - y))%f64 = true.
Proof.
  destruct y as [s| | |s m e]; try discriminate; intros _.
  - destruct s; reflexivity.
  - unfold F64.add, F64.sub, F64.zero. simpl SFsub. unfold SFadd.
    rewrite shl_align_same. simpl fst.
    replace (cond_Zopp s (Z.pos m) + cond_Zopp (negb s) (Z.pos m)) with 0
      by (destruct s; simpl; lia).
    reflexivity.
Qed.

Lemma of_nat_99 : F64.of_nat 99 = S754_finite false 6966505673588736 (-46).
Proof. vm_compute. reflexivity. Qed.

Lemma div_99_zero (z : F64.t) :
  is_zero z = true -> is_zero (z / F64.of_nat 99)%f64 = true.
Proof. rewrite of_nat_99. destruct z; try discriminate. reflexivity. Qed.

(** A finite quotient by 99 has a dividend that is finite. *)
Lemma div_99_finite_inv (d : F64.t) : finite (d / F64.of_nat 99)%f64 -> finite d.
Proof. rewrite of_nat_99. destruct d as [s|s| |s m e]; try discriminate; reflexivity. Qed.

Lemma finite_eqb_zero (x : F64.t) :
  finite x -> F64.eqb x F64.zero = is_zero x.
Proof. destruct x as [s|s| |[] m e]; try discriminate; reflexivity. Qed.

(* ===================================================================== *)
(** * The bin edges of [np.linspace] *)
(* ===================================================================== *)

Lemma set_last_length (y : list F64.t) (stop : F64.t) :
  length (np.set_last y stop) = length y.
Proof.
  destruct y as [|x r]; [reflexivity|]. unfold np.set_last.
  revert x. induction r as [|b r IH]; intros x; [reflexivity|].
  change (removelast (x :: b :: r)) with (x :: removelast (b :: r)).
  change (length ((x :: removelast (b :: r)) ++ [stop]))
    with (S (length (removelast (b :: r) ++ [stop]))).
  rewrite IH. reflexivity.
Qed.

Lemma set_last_last (y : list F64.t) (stop d : F64.t) :
  y <> [] -> List.last (np.set_last y stop) d = stop.
Proof.
  destruct y as [|x r]; [contradiction|]. intros _. unfold np.set_last.
  apply List.last_last.
Qed.

Lemma set_last_cons (x y : F64.t) (r : list F64.t) (stop : F64.t) :
  np.set_last (x :: y :: r) stop = x :: np.set_last (y :: r) stop.
Proof. reflexivity. Qed.

Lemma Forall_set_last (P : F64.t -> Prop) (y : list F64.t) (stop : F64.t) :
  Forall P y -> P stop -> Forall P (np.set_last y stop).
Proof.
  intros Hy Hs. destruct y as [|x r]; [constructor|]. unfold np.set_last.
  apply List.Forall_app. split; [|repeat constructor; exact Hs].
  revert x Hy. induction r as [|b r IH]; intros x Hy; [constructor|].
  change (removelast (x :: b :: r)) with (x :: removelast (b :: r)).
  inversion Hy; subst. constructor; [assumption|]. apply IH. assumption.
Qed.

Lemma arange_length (n : nat) : length (np.arange n) = n.
Proof. unfold np.arange. rewrite length_map, length_seq. reflexivity. Qed.

(** [np.linspace] returns [num] points. *)
Lemma linspace_length (lo hi : F64.t) (n : nat) :
  length (np.linspace lo hi n) = n.
Proof.
  unfold np.linspace.
  assert (H : forall y : list F64.t, length y = n ->
            length (if (1 <? n)%nat then np.set_last y hi else y) = n).
  { intros y Hy. destruct (1 <? n)%nat; [rewrite set_last_length|]; exact Hy. }
  apply H. rewrite length_map.
  destruct (0 <? n - 1)%nat; [destruct F64.eqb|]; rewrite length_map; apply arange_length.
Qed.

(** With at least two points, the last one is [stop] itself. *)
Lemma linspace_last (lo hi d : F64.t) (n : nat) :
  (1 < n)%nat -> List.last (np.linspace lo hi n) d = hi.
Proof.
  intros Hn. unfold np.linspace.
  apply Nat.ltb_lt in Hn. rewrite Hn.
  apply set_last_last. intros H. apply (f_equal (@length _)) in H.
  rewrite length_map in H.
  assert (Hl : forall y : list F64.t, length y = n -> length y <> 0%nat).
  { intros y ->. apply Nat.ltb_lt in Hn. lia. }
  revert H. simpl length. apply Hl.
  destruct (0 <? n - 1)%nat; [destruct F64.eqb|]; rewrite length_map; apply arange_length.
Qed.

(** The first of the 100 edges, before and after [y[-1] = stop]. *)
Lemma linspace_100_head (lo hi : F64.t) :
  exists rest,
    np.linspace lo hi 100 =
    (if (step_of lo hi == F64.zero)%f64
     then (F64.of_nat 0 / F64.of_nat 99 * (hi - lo) + lo)%f64
     else (F64.of_nat 0 * step_of lo hi + lo)%f64) :: rest.
Proof.
  unfold np.linspace, np.arange, step_of.
  change (100 - 1)%nat with 99%nat.
  change (0 <? 99)%nat with true. change (1 <? 100)%nat with true. cbv iota.
  change (seq 0 100) with (0 :: 1 :: seq 2 98)%nat.
  destruct F64.eqb; cbn [map]; rewrite set_last_cons; eexists; reflexivity.
Qed.

(** When the step is finite, the first edge is numerically [start]. *)
Lemma linspace_100_first (lo hi : F64.t) :
  not_nan lo -> finite (step_of lo hi) ->
  exists first rest, np.linspace lo hi 100 = first :: rest /\ feq first lo.
Proof.
  intros Hlo Hstep. destruct (linspace_100_head lo hi) as [rest ->].
  eexists. eexists. split; [reflexivity|].
  rewrite (finite_eqb_zero _ Hstep).
  destruct (is_zero (step_of lo hi)) eqn:Z.
  - apply add_zero_l; [|exact Hlo]. apply mul_zero_l.
    + apply (div_99_zero (F64.of_nat 0)). reflexivity.
    + apply div_99_finite_inv. exact Hstep.
  - apply add_zero_l; [|exact Hlo]. apply mul_zero_l; [reflexivity|exact Hstep].
Qed.

Lemma arange_100_over_99_finite :
  forallb (fun y => F64.is_finite (y / F64.of_nat 99)%f64) (np.arange 100) = true.
Proof. vm_compute. reflexivity. Qed.

(** When [start] and [stop] are numerically the same finite value, so is
    each of the 100 edges. *)
Lemma linspace_100_constant (lo hi v : F64.t) :
  finite lo -> feq lo v -> feq hi v ->
  Forall (fun y => feq y v) (np.linspace lo hi 100).
Proof.
  intros Flo Hlo Hhi.
  assert (Hd : is_zero (hi - lo)%f64 = true).
  { apply sub_feq; [exact Flo|]. apply (feq_trans _ v); [exact Hlo|apply feq_sym; exact Hhi]. }
  assert (Hs : F64.eqb (step_of lo hi) F64.zero = true).
  { pose proof (div_99_zero _ Hd) as Z. rewrite finite_eqb_zero; [exact Z|].
    apply is_zero_finite. exact Z. }
  unfold np.linspace. change (100 - 1)%nat with 99%nat.
  change (0 <? 99)%nat with true. change (1 <? 100)%nat with true. cbv iota.
  fold (step_of lo hi). rewrite Hs.
  apply Forall_set_last; [|exact Hhi].
  rewrite map_map. apply List.Forall_map.
  pose proof arange_100_over_99_finite as Hfin.
  rewrite List.forallb_forall in Hfin. apply List.Forall_forall. intros y Hy.
  apply (feq_trans _ lo); [|exact Hlo].
  apply add_zero_l; [|apply finite_not_nan; exact Flo].
  apply mul_zero_r; [exact (Hfin y Hy)|exact Hd].
Qed.

(** Edges that are all numerically equal pass the edge check of
    [np.histogram], and are not strictly increasing. *)
Lemma feq_not_ltb (x y v : F64.t) : feq x v -> feq y v -> F64.ltb x y = false.
Proof.
  intros Hx Hy.
  destruct (feq_not_nan _ _ Hx) as [Nx Nv], (feq_not_nan _ _ Hy) as [Ny _].
  rewrite (ltb_spec _ _ Nx Ny).
  assert (H : fle y x).
  { apply feq_fle_l. apply (feq_trans _ v); [exact Hy|apply feq_sym; exact Hx]. }
  unfold fle in H. rewrite H. reflexivity.
Qed.

Lemma constant_not_decreasing (e : list F64.t) (v : F64.t) :
  Forall (fun y => feq y v) e -> np.any_decreasing e = false.
Proof.
  induction 1 as [|x r Hx Hr IH]; [reflexivity|].
  destruct r as [|y r']; [reflexivity|].
  change (np.any_decreasing (x :: y :: r'))
    with ((x >? y)%f64 || np.any_decreasing (y :: r')).
  rewrite IH. inversion Hr; subst. unfold F64.gtb.
  rewrite (feq_not_ltb y x v); [reflexivity|assumption|assumption].
Qed.

Lemma constant_not_strictly_increasing (e : list F64.t) (v : F64.t) :
  (2 <= length e)%nat -> Forall (fun y => feq y v) e -> strictly_increasing e = false.
Proof.
  destruct e as [|x [|y r]]; simpl length; try lia. intros _ H.
  inversion H as [|? ? Hx H']; subst. inversion H' as [|? ? Hy _]; subst.
  change (strictly_increasing (x :: y :: r))
    with (F64.ltb x y && strictly_increasing (y :: r)).
  rewrite (feq_not_ltb x y v Hx Hy). reflexivity.
Qed.

(* ===================================================================== *)
(** * The fitted scaler *)
(* ===================================================================== *)

Lemma mul_zero_finite_inv (z x : F64.t) :
  is_zero z = true -> finite (z * x)%f64 -> finite x.
Proof. destruct z; try discriminate. destruct x; try discriminate; reflexivity. Qed.

Lemma zero_sub_zero (z z' : F64.t) :
  is_zero z = true -> is_zero z' = true -> is_zero (z - z')%f64 = true.
Proof.
  destruct z as [s| | |]; try discriminate. destruct z' as [s'| | |]; try discriminate.
  destruct s, s'; reflexivity.
Qed.

Lemma zero_add_zero (z z' : F64.t) :
  is_zero z = true -> is_zero z' = true -> is_zero (z + z')%f64 = true.
Proof.
  destruct z as [s| | |]; try discriminate. destruct z' as [s'| | |]; try discriminate.
  destruct s, s'; reflexivity.
Qed.

(** [transform] sends every value numerically equal to [data_min_] to
    zero, provided [data_min_ * scale_] does not overflow. *)
Lemma scale_value_data_min (a : sklearn.fitted) (x : F64.t) :
  sklearn.min_ a = (F64.zero - sklearn.data_min_ a * sklearn.scale_ a)%f64 ->
  finite (sklearn.data_min_ a * sklearn.scale_ a)%f64 ->
  feq x (sklearn.data_min_ a) ->
  feq (sklearn.scale_value a x) F64.zero.
Proof.
  intros Hmin Hfin Hx. unfold sklearn.scale_value. rewrite Hmin.
  apply is_zero_feq.
  destruct (feq_cases _ _ Hx) as [->|[Zx Zm]].
  - apply add_opp. exact Hfin.
  - pose proof (mul_zero_finite_inv _ _ Zm Hfin) as Fs.
    apply zero_add_zero; [apply mul_zero_l; assumption|].
    apply zero_sub_zero; [reflexivity|apply mul_zero_l; assumption].
Qed.

(* ===================================================================== *)
(** * The missing-file path (C1, C9) *)
(* ===================================================================== *)

(** C1, as amended.  When the mutex file does not exist, or it is read into
    a frame and the semaphore file does not exist, the run prints exactly
    the message naming that file and ends in [exit()]: nothing is opened
    after the missing file (the semaphore file is not even tried when the
    mutex file is the missing one), the scaler is neither created nor
    fitted, nothing is scaled, no limit or bin is computed and no pyplot
    call is made. *)
Theorem missing_file_is_reported_and_run_stops (fs : filesystem) (name : string) :
  first_missing fs name ->
  fs !! name = None /\
  outcome fs = Raise (SystemExit None) /\
  stdout (final fs) = [not_found_message name] /\
  opened (final fs) = opened_until name /\
  (name = mutex_path -> ~ In sem_path (opened (final fs))) /\
  scaler (final fs) = None /\
  scaled_mutex (final fs) = None /\ scaled_sem (final fs) = None /\
  min_limit (final fs) = None /\ max_limit (final fs) = None /\
  bins (final fs) = None /\
  figure (final fs) = [].
Proof.
  intros Hmiss.
  destruct (run_first_missing fs name Hmiss)
    as (s & _ & Hrun & Hout & Hop & _ & Hsc & _ & Hsm & Hss & Hlo & Hhi & Hb & Hfig).
  unfold outcome, final. rewrite Hrun. simpl.
  repeat split; try assumption.
  - destruct Hmiss as [[-> H] | [-> [_ H]]]; exact H.
  - intros ->. rewrite Hop. unfold opened_until. simpl.
    intros [H | []]. discriminate H.
Qed.

(** The missing mutex file on an empty file system, and the missing
    semaphore file beside a readable mutex file. *)
Lemma missing_file_is_reported_witness :
  (stdout (final ∅) = ["Error: No se encontró el archivo ../csvs/mutex_ns.csv."] /\
   opened (final ∅) = [mutex_path]) /\
  (let fs : filesystem := {[ mutex_path := int_lines [100; 150; 120] ]} in
   stdout (final fs) = ["Error: No se encontró el archivo ../csvs/sem_ns.csv."] /\
   opened (final fs) = [mutex_path; sem_path]).
Proof.
  split.
  - assert (H : first_missing ∅ mutex_path) by (left; split; reflexivity).
    pose proof (missing_file_is_reported_and_run_stops ∅ mutex_path H)
      as (_ & _ & Ho & Hp & _).
    split; assumption.
  - cbv zeta.
    assert (H : first_missing {[ mutex_path := int_lines [100; 150; 120] ]} sem_path).
    { right. split; [reflexivity|]. split; [eexists|]; vm_compute; reflexivity. }
    pose proof (missing_file_is_reported_and_run_stops _ sem_path H)
      as (_ & _ & Ho & Hp & _).
    split; assumption.
Defined.

(** C1, as stated, fails: the semaphore file does not exist, but the mutex
    file has a row with more fields than the first one, so the first
    [pd.read_csv] raises [ParserError], which the handler does not catch;
    nothing is printed and the semaphore file is never looked for. *)
Lemma missing_sem_behind_unreadable_mutex_not_reported :
  let fs : filesystem := {[ mutex_path := Unreadable RaggedRows ]} in
  fs !! sem_path = None /\
  outcome fs = Raise ParserError /\
  stdout (final fs) = [] /\
  opened (final fs) = [mutex_path].
Proof. vm_compute. repeat split; reflexivity. Qed.

(** C9.  On the missing-file path the run ends in [SystemExit] without a
    code, so the process exits with status 0, the status of a run that
    goes through to [plt.show()]. *)
Theorem missing_file_exit_status_is_zero
    (fs : filesystem) (name : string) (fs_ok : filesystem) :
  first_missing fs name ->
  outcome fs_ok = Ok tt ->
  outcome fs = Raise (SystemExit None) /\
  exit_status (outcome fs) = 0 /\
  exit_status (outcome fs) = exit_status (outcome fs_ok).
Proof.
  intros Hmiss Hok.
  destruct (run_first_missing fs name Hmiss) as (s & _ & Hrun & _).
  unfold outcome in *. rewrite Hrun, Hok. simpl. repeat split; reflexivity.
Qed.

Lemma missing_file_exit_status_witness :
  exit_status (outcome ∅) =
  exit_status (outcome (two_files (int_lines [100; 150; 120]) (int_lines [200; 210]))).
Proof.
  assert (H : first_missing ∅ mutex_path) by (left; split; reflexivity).
  assert (Hok : outcome (two_files (int_lines [100; 150; 120]) (int_lines [200; 210])) = Ok tt)
    by (vm_compute; reflexivity).
  exact (proj2 (proj2 (missing_file_exit_status_is_zero ∅ mutex_path _ H Hok))).
Defined.

(* ===================================================================== *)
(** * Every other failure goes through (C5) *)
(* ===================================================================== *)

(** C5.  Whatever exception other than [FileNotFoundError] the statements
    of the script raise (in the two reads, in the scaler or in the
    plotting), the [try/except] does not change it: the run ends with that
    very exception uncaught, in the same state, with nothing on standard
    output, and the process exits with status 1. *)
Theorem other_failures_are_not_caught (fs : filesystem) (e : exn) (s : state) :
  main_unguarded fs initial = (Raise e, s) ->
  is_FileNotFoundError e = false ->
  run fs = (Raise e, s) /\
  stdout s = [] /\
  exit_status (outcome fs) = 1.
Proof.
  intros Hraw Hclass.
  pose proof (main_agrees_with_unguarded fs e s Hraw Hclass) as Hrun.
  unfold outcome, run. rewrite Hrun. simpl fst.
  repeat split.
  - exact (main_unguarded_silent fs _ _ _ Hraw).
  - apply exit_status_uncaught. exact (main_unguarded_no_exit fs _ _ _ Hraw).
Qed.

(** The kinds of failure the specification lists: a malformed row, a file
    without rows, text where a number is expected, data the scaler
    refuses. *)
Lemma other_failures_witness :
  outcome (two_files (Unreadable RaggedRows) (int_lines [200; 210])) = Raise ParserError /\
  outcome (two_files (Csv []) (int_lines [200; 210])) =
    Raise (ValueError "Found array with 0 sample(s) while a minimum of 1 is required by MinMaxScaler.") /\
  outcome (two_files (Csv [IntLit 100; Text "n/d"]) (int_lines [200; 210])) =
    Raise (ValueError "could not convert string to float") /\
  outcome (two_files (Csv [FloatLit np.inf]) (int_lines [200; 210])) =
    Raise (ValueError "Input contains infinity or a value too large for dtype('float64').").
Proof.
  split; [|split; [|split]];
    refine (f_equal fst (proj1 (other_failures_are_not_caught _ _ _ _ _)));
    first [vm_compute; reflexivity | reflexivity].
Defined.

(* ===================================================================== *)
(** * The scaled arrays are dead (C4) *)
(* ===================================================================== *)

(** On frames that [scaler.fit] accepts, both are numeric. *)
Lemma fit_concat_numeric (sc : sklearn.MinMaxScaler) (A B : DataFrame) (r : sklearn.MinMaxScaler) :
  sklearn.fit sc (pd.concat A B) = Ok r ->
  exists a b, A = Numeric a /\ B = Numeric b.
Proof.
  destruct A as [a|a], B as [b|b]; simpl; intros H; try discriminate.
  exists a, b. split; reflexivity.
Qed.

(** Plotting from a state without figure, on two numeric frames, leaves
    a figure whose [hist] calls draw these frames. *)
Lemma plot_draws_raw (s0 : state) (a b : list F64.t) (r : result unit) (s : state) :
  df_mutex s0 = Some (Numeric a) -> df_sem s0 = Some (Numeric b) ->
  figure s0 = [] ->
  plot s0 = (r, s) -> Forall (draws_raw s) (figure s).
Proof.
  intros Hm Hs Hf H.
  destruct (plot_numeric s0 a b Hm Hs)
    as (s' & Hs' & _ & _ & Hm' & Hs'' & _ & _ & _ & _ & _ & _ & Hb & Hh).
  rewrite H in Hs', Hh. simpl in Hs'. subst s'.
  rewrite Hm in Hm'. rewrite Hs in Hs''. rewrite Hf in Hh.
  destruct (np.histogram a (bins_of a b)) as [ca|ex] eqn:Ha.
  - destruct (np.histogram b (bins_of a b)) as [cb|ex] eqn:Hb';
      destruct Hh as [_ ->]; simpl;
      repeat (apply List.Forall_cons); try apply List.Forall_nil;
      try exact I;
      (split; [first [left; assumption | right; assumption] | split; assumption]).
  - destruct Hh as [_ ->]. simpl. repeat constructor.
Qed.

Lemma no_figure_draws_raw (s : state) :
  figure s = [] -> Forall (draws_raw s) (figure s).
Proof. intros ->. constructor. Qed.

(** Every run leaves either no figure at all, or a figure whose [hist]
    calls draw the raw columns. *)
Lemma run_draws_raw_aux (fs : filesystem) (r : result unit) (s : state) :
  run fs = (r, s) -> Forall (draws_raw s) (figure s).
Proof.
  unfold run, main. unfold bind at 1. rewrite load_unfold. cbv zeta.
  destruct (pd.read_csv fs mutex_path) as [A|e1].
  2:{ destruct (is_FileNotFoundError e1); intros H; injection H as <- <-;
      apply no_figure_draws_raw; reflexivity. }
  destruct (pd.read_csv fs sem_path) as [B|e2].
  2:{ destruct (is_FileNotFoundError e2); intros H; injection H as <- <-;
      apply no_figure_draws_raw; reflexivity. }
  unfold bind. rewrite (normalise_unfold _ A B) by reflexivity. cbv zeta.
  destruct (sklearn.fit sklearn.Unfitted (pd.concat A B)) as [sc|e] eqn:Hfit;
    [|intros H; injection H as <- <-; apply no_figure_draws_raw; reflexivity].
  destruct (fit_concat_numeric _ _ _ _ Hfit) as (a & b & -> & ->).
  destruct (sklearn.transform sc (Numeric a)) as [ra|e];
    [|intros H; injection H as <- <-; apply no_figure_draws_raw; reflexivity].
  destruct (sklearn.transform sc (Numeric b)) as [rb|e];
    [|intros H; injection H as <- <-; apply no_figure_draws_raw; reflexivity].
  apply (plot_draws_raw _ a b); reflexivity.
Qed.

Lemma run_draws_raw (fs : filesystem) :
  Forall (draws_raw (final fs)) (figure (final fs)).
Proof.
  unfold final. destruct (run fs) as [r s] eqn:E. exact (run_draws_raw_aux fs r s E).
Qed.

(** ** Statements that do not read the scaled arrays *)

Lemma ignores_bind {A B} (c : M A) (k : A -> M B) :
  ignores_scaled c -> (forall a, ignores_scaled (k a)) -> ignores_scaled (bind c k).
Proof.
  intros Hc Hk s1 s2 Hs. unfold bind.
  destruct (Hc s1 s2 Hs) as [Hr Hs'].
  destruct (c s1) as [r1 t1], (c s2) as [r2 t2]. simpl in Hr, Hs'. subst r2.
  destruct r1 as [a|e]; [exact (Hk a t1 t2 Hs')|].
  split; [reflexivity|exact Hs'].
Qed.

Lemma ignores_lift {A} (r : result A) : ignores_scaled (lift r).
Proof. intros s1 s2 Hs. split; [reflexivity|exact Hs]. Qed.

Lemma ignores_var {A} (name : string) (proj : state -> option A) :
  (forall s1 s2, agree s1 s2 -> proj s1 = proj s2) ->
  ignores_scaled (var name proj).
Proof.
  intros Hp s1 s2 Hs. unfold var. rewrite (Hp s1 s2 Hs).
  destruct (proj s2); split; try reflexivity; exact Hs.
Qed.

Lemma ignores_modify (f : state -> state) :
  (forall s1 s2, agree s1 s2 -> agree (f s1) (f s2)) ->
  ignores_scaled (modify f).
Proof. intros Hf s1 s2 Hs. split; [reflexivity|exact (Hf s1 s2 Hs)]. Qed.

Ltac agree_fields :=
  let H := fresh in
  intros ? ? H; unfold agree in *; cbn;
  destruct H as (? & ? & ? & ? & ? & ? & ? & ? & ? & ?);
  repeat split; congruence.

Ltac step_ignores :=
  repeat first
    [ apply ignores_bind; [|intros ?]
    | apply ignores_lift
    | apply ignores_var; agree_fields
    | apply ignores_modify; agree_fields ].

Lemma plot_ignores_scaled : ignores_scaled plot.
Proof. unfold plot, plt_hist, pyplot. step_ignores. Qed.

Lemma with_scaled_agree (x y : option (list F64.t)) (s : state) :
  agree (with_scaled x y s) s.
Proof. unfold agree. repeat split; reflexivity. Qed.

(** C4.  Lines 20-31 never read [scaled_mutex] and [scaled_sem]: whatever
    these two variables hold, the plotting statements end the same way,
    with the same figure, the same bins and the same standard output.  In
    every run each [hist] call of the figure draws one of the two raw
    columns, with the counts [np.histogram] gives for it over the shared
    bins. *)
Theorem scaled_arrays_are_never_consumed :
  (forall (s : state) (x y : option (list F64.t)),
      fst (plot (with_scaled x y s)) = fst (plot s) /\
      figure (snd (plot (with_scaled x y s))) = figure (snd (plot s)) /\
      bins (snd (plot (with_scaled x y s))) = bins (snd (plot s)) /\
      stdout (snd (plot (with_scaled x y s))) = stdout (snd (plot s))) /\
  (forall fs : filesystem, Forall (draws_raw (final fs)) (figure (final fs))).
Proof.
  split; [|exact run_draws_raw].
  intros s x y.
  destruct (plot_ignores_scaled _ _ (with_scaled_agree x y s))
    as (Hr & Ho & _ & _ & _ & _ & _ & _ & _ & Hb & Hf).
  repeat split; assumption.
Qed.

(* ===================================================================== *)
(** * Existing files *)
(* ===================================================================== *)

Lemma read_csv_existing (fs : filesystem) (path : string) (f : file) (e : exn) :
  fs !! path = Some f -> pd.read_csv fs path = Raise e ->
  is_FileNotFoundError e = false.
Proof.
  intros Hf. unfold pd.read_csv. rewrite Hf. destruct f as [[]|rows]; intros H;
    try discriminate; injection H as <-; reflexivity.
Qed.

(** When both files exist, the handler is never entered: the run is the
    run of the unguarded script. *)
Lemma run_existing (fs : filesystem) (fm fs' : file) :
  fs !! mutex_path = Some fm -> fs !! sem_path = Some fs' ->
  run fs = main_unguarded fs initial.
Proof.
  intros Hm Hs. unfold run, main, main_unguarded. unfold bind at 1 3.
  rewrite load_unfold, read_both_unfold. cbv zeta.
  destruct (pd.read_csv fs mutex_path) as [A|e1] eqn:E1.
  - destruct (pd.read_csv fs sem_path) as [B|e2] eqn:E2; [reflexivity|].
    rewrite (read_csv_existing _ _ _ _ Hs E2). reflexivity.
  - rewrite (read_csv_existing _ _ _ _ Hm E1). reflexivity.
Qed.

(* ===================================================================== *)
(** * Constant samples (C10) *)
(* ===================================================================== *)

(** C10, as amended.  When every value of both loaded sample sets is
    numerically the same value [v], each of the 100 bin edges is
    numerically [v], so the edges are not strictly increasing; no edge is
    greater than the next one either, which is all [np.histogram] checks,
    so both histograms are drawn and the run goes through to
    [plt.show()]. *)
Theorem constant_samples_give_constant_edges_and_still_render
    (fs : filesystem) (a b : list F64.t) (v : F64.t) :
  loaded fs a b -> samples a -> samples b ->
  Forall (fun x => feq x v) (a ++ b) ->
  exists e ca cb,
    bins (final fs) = Some e /\
    length e = 100%nat /\
    Forall (fun y => feq y v) e /\
    strictly_increasing e = false /\
    np.any_decreasing e = false /\
    np.histogram a e = Ok ca /\ np.histogram b e = Ok cb /\
    outcome fs = Ok tt /\
    hist_calls (figure (final fs)) =
      [plt.hist a e ca alpha_07 "Mutex" "skyblue";
       plt.hist b e cb alpha_07 "Semáforo" "salmon"] /\
    List.last (figure (final fs)) plt.legend = plt.show.
Proof.
  intros Hl Sa Sb Hv.
  pose proof (min_limit_is_min a b Sa Sb) as Hmin.
  pose proof (max_limit_is_max a b Sa Sb) as Hmax.
  rewrite List.Forall_forall in Hv.
  assert (Hlo : feq (min_limit_of a b) v) by (apply Hv; exact (proj1 Hmin)).
  assert (Hhi : feq (max_limit_of a b) v) by (apply Hv; exact (proj1 Hmax)).
  assert (He : Forall (fun y => feq y v) (bins_of a b)).
  { apply linspace_100_constant; try assumption.
    exact (is_min_finite _ _ (samples_app _ _ Sa Sb) Hmin). }
  pose proof (constant_not_decreasing _ _ He) as Hdec.
  destruct (run_loaded fs a b Hl Sa Sb)
    as (_ & _ & _ & _ & _ & _ & _ & _ & _ & _ & Hb & Hh).
  cbv zeta in Hh. unfold np.histogram in *. rewrite Hdec in *.
  destruct Hh as [Hout Hfig].
  eexists. eexists. eexists.
  split; [exact Hb|]. split; [apply linspace_length|]. split; [exact He|].
  split; [apply (constant_not_strictly_increasing _ v); [|exact He];
          unfold bins_of; rewrite linspace_length; lia|].
  split; [exact Hdec|]. rewrite Hdec. split; [reflexivity|]. split; [reflexivity|].
  split; [exact Hout|]. rewrite Hfig. split; reflexivity.
Qed.

Lemma constant_samples_witness :
  let fs := two_files (int_lines [5; 5; 5]) (int_lines [5; 5]) in
  exists e ca cb,
    bins (final fs) = Some e /\
    length e = 100%nat /\
    Forall (fun y => feq y (F64.of_Z 5)) e /\
    strictly_increasing e = false /\
    np.any_decreasing e = false /\
    np.histogram (map F64.of_Z [5; 5; 5]) e = Ok ca /\
    np.histogram (map F64.of_Z [5; 5]) e = Ok cb /\
    outcome fs = Ok tt /\
    hist_calls (figure (final fs)) =
      [plt.hist (map F64.of_Z [5; 5; 5]) e ca alpha_07 "Mutex" "skyblue";
       plt.hist (map F64.of_Z [5; 5]) e cb alpha_07 "Semáforo" "salmon"] /\
    List.last (figure (final fs)) plt.legend = plt.show.
Proof.
  cbv zeta.
  apply (constant_samples_give_constant_edges_and_still_render
           (two_files (int_lines [5; 5; 5]) (int_lines [5; 5]))
           (map F64.of_Z [5; 5; 5]) (map F64.of_Z [5; 5]) (F64.of_Z 5)).
  - split; vm_compute; reflexivity.
  - split; [discriminate | repeat constructor].
  - split; [discriminate | repeat constructor].
  - repeat constructor.
Defined.

(** C10, as stated, fails in its last part: with the single value 5 in
    both files the edges are 100 copies of 5, and the run still draws both
    histograms (every sample in the last bin) and ends normally. *)
Lemma constant_samples_are_rendered :
  let fs := two_files (int_lines [5]) (int_lines [5]) in
  outcome fs = Ok tt /\
  exists e counts,
    bins (final fs) = Some e /\
    Forall (fun y => y = F64.of_Z 5) e /\
    List.last counts 0 = 1 /\
    hist_calls (figure (final fs)) =
      [plt.hist [F64.of_Z 5] e counts alpha_07 "Mutex" "skyblue";
       plt.hist [F64.of_Z 5] e counts alpha_07 "Semáforo" "salmon"] /\
    List.last (figure (final fs)) plt.legend = plt.show.
Proof.
  cbv zeta. split; [vm_compute; reflexivity|].
  eexists. eexists. split; [vm_compute; reflexivity|].
  split; [repeat constructor|]. split; [|split; vm_compute; reflexivity].
  vm_compute. reflexivity.
Qed.

(* ===================================================================== *)
(** * The files a run opens (X1) *)
(* ===================================================================== *)

Lemma keeps_bind {X A B} (proj : state -> X) (c : M A) (k : A -> M B) :
  keeps proj c -> (forall a, keeps proj (k a)) -> keeps proj (bind c k).
Proof.
  intros Hc Hk s r s'. unfold bind.
  destruct (c s) as [[a|e] s1] eqn:E; intros H.
  - rewrite (Hk a _ _ _ H). exact (Hc _ _ _ E).
  - injection H as <- <-. exact (Hc _ _ _ E).
Qed.

Lemma keeps_lift {X A} (proj : state -> X) (r : result A) : keeps proj (lift r).
Proof. intros s r' s' H. injection H as <- <-. reflexivity. Qed.

Lemma keeps_var {X A} (proj : state -> X) name (p : state -> option A) :
  keeps proj (var name p).
Proof.
  intros s r s'. unfold var. destruct (p s); intros H; injection H as <- <-; reflexivity.
Qed.

Lemma keeps_modify {X} (proj : state -> X) (f : state -> state) :
  (forall s, proj (f s) = proj s) -> keeps proj (modify f).
Proof. intros Hf s r s' H. injection H as <- <-. apply Hf. Qed.

Ltac step_keeps :=
  repeat first
    [ apply keeps_bind; [|intros ?]
    | apply keeps_lift
    | apply keeps_var
    | apply keeps_modify; intros ?; reflexivity ].

Lemma normalise_keeps_opened : keeps opened normalise.
Proof. unfold normalise. step_keeps. Qed.

Lemma plot_keeps_opened : keeps opened plot.
Proof. unfold plot, plt_hist, pyplot. step_keeps. Qed.

(** Lines 13-31 open no file. *)
Lemma scaling_and_plotting_keep_opened : keeps opened (normalise ;; plot).
Proof.
  apply keeps_bind; [exact normalise_keeps_opened|].
  intros _. exact plot_keeps_opened.
Qed.

(** X1.  Every run opens the mutex file first.  It opens the semaphore
    file next exactly when the mutex file exists and is read into a frame;
    otherwise the semaphore file is never looked for.  No run opens any
    other path, or either path twice, whatever happens afterwards. *)
Theorem input_files_are_opened_in_order (fs : filesystem) :
  opened (final fs) =
    match fs !! mutex_path with
    | Some (Csv _) => [mutex_path; sem_path]
    | _ => [mutex_path]
    end.
Proof.
  unfold final, run, main. unfold bind at 1. rewrite load_unfold. cbv zeta.
  unfold pd.read_csv at 1.
  destruct (fs !! mutex_path) as [[why|rows]|].
  - destruct (is_FileNotFoundError (pd.exn_of_failure mutex_path why)); reflexivity.
  - destruct (pd.read_csv fs sem_path) as [B|e].
    + destruct ((normalise ;; plot) _) as [r s] eqn:E.
      cbn [snd]. rewrite (scaling_and_plotting_keep_opened _ _ _ E). reflexivity.
    + destruct (is_FileNotFoundError e); reflexivity.
  - reflexivity.
Qed.

(* ===================================================================== *)
(** * Every run, by where it stops (X2 - X5) *)
(* ===================================================================== *)

(** ** What [check_array] lets through *)

Lemma check_array_accepted (v : list F64.t) :
  accepted v -> sklearn.check_array (Numeric v) = Ok v.
Proof.
  intros [Hne Hinf]. unfold sklearn.check_array. rewrite Hinf.
  destruct v; [contradiction|reflexivity].
Qed.

Lemma check_array_refused (v : list F64.t) :
  ~ accepted v -> exists msg, sklearn.check_array (Numeric v) = Raise (ValueError msg).
Proof.
  intros Hn. unfold sklearn.check_array.
  destruct (existsb F64.is_inf v) eqn:E; [eexists; reflexivity|].
  destruct v as [|x r]; [eexists; reflexivity|].
  exfalso. apply Hn. split; [discriminate|exact E].
Qed.

Lemma accepted_dec (v : list F64.t) : accepted v \/ ~ accepted v.
Proof.
  unfold accepted. destruct v as [|x r].
  - right. intros [H _]. apply H. reflexivity.
  - destruct (existsb F64.is_inf (x :: r)) eqn:E.
    + right. intros [_ H]. discriminate H.
    + left. split; [discriminate|reflexivity].
Qed.

Lemma accepted_app (a b : list F64.t) :
  accepted a -> accepted b -> accepted (a ++ b).
Proof.
  intros [Ha Ia] [Hb Ib]. split.
  - destruct a; [contradiction|discriminate].
  - rewrite existsb_app, Ia, Ib. reflexivity.
Qed.

(** ** The run on two numeric frames *)

(** Either both columns pass [check_array] and the run reaches line 20 in
    [scaled_state], or the scaler raises [ValueError] and no pyplot call
    is made. *)
Lemma run_numeric (fs : filesystem) (a b : list F64.t) :
  loaded fs a b ->
  (accepted a /\ accepted b /\ run fs = plot (scaled_state a b)) \/
  (~ (accepted a /\ accepted b) /\
   exists msg s, run fs = (Raise (ValueError msg), s) /\
     stdout s = [] /\ figure s = [] /\ bins s = None /\ scaled_sem s = None).
Proof.
  intros [Hra Hrb].
  assert (Hrun : run fs =
    (let s0 := set_df_sem (Some (Numeric b))
                 (set_opened [mutex_path; sem_path]
                    (set_df_mutex (Some (Numeric a))
                       (set_opened [mutex_path] initial))) in
     let s1 := set_combined (Some (Numeric (a ++ b)))
                 (set_scaler (Some sklearn.Unfitted) s0) in
     match sklearn.check_array (Numeric (a ++ b)) with
     | Raise e => (Raise e, s1)
     | Ok v =>
         let s2 := set_scaler (Some (sklearn.Fitted (sklearn.first_pass v))) s1 in
         match sklearn.check_array (Numeric a) with
         | Raise e => (Raise e, s2)
         | Ok va =>
             let s3 :=
               set_scaled_mutex
                 (Some (map (sklearn.scale_value (sklearn.first_pass v)) va)) s2 in
             match sklearn.check_array (Numeric b) with
             | Raise e => (Raise e, s3)
             | Ok vb =>
                 plot (set_scaled_sem
                         (Some (map (sklearn.scale_value (sklearn.first_pass v)) vb)) s3)
             end
         end
     end)).
  { unfold run, main. unfold bind at 1. rewrite load_unfold, Hra, Hrb. cbv zeta.
    unfold bind.
    rewrite (normalise_unfold _ (Numeric a) (Numeric b)) by reflexivity.
    simpl pd.concat. unfold sklearn.fit, sklearn.transform. cbv zeta.
    destruct (sklearn.check_array (Numeric (a ++ b))) as [v|e]; [|reflexivity].
    destruct (sklearn.check_array (Numeric a)) as [va|e]; [|reflexivity].
    destruct (sklearn.check_array (Numeric b)) as [vb|e]; reflexivity. }
  cbv zeta in Hrun.
  assert (Hab : forall e, sklearn.check_array (Numeric (a ++ b)) = Raise e ->
                          exists m, e = ValueError m).
  { intros e. unfold sklearn.check_array.
    destruct (existsb F64.is_inf (a ++ b)); [|destruct (a ++ b)];
      intros H; try discriminate; injection H as <-; eexists; reflexivity. }
  destruct (accepted_dec a) as [Aa|Na]; [destruct (accepted_dec b) as [Ab|Nb]|].
  - left. split; [exact Aa|]. split; [exact Ab|].
    rewrite (check_array_accepted _ (accepted_app _ _ Aa Ab)) in Hrun.
    rewrite (check_array_accepted _ Aa), (check_array_accepted _ Ab) in Hrun.
    exact Hrun.
  - right. split; [intros [_ H]; exact (Nb H)|].
    destruct (check_array_refused b Nb) as [msg Hb].
    rewrite (check_array_accepted _ Aa), Hb in Hrun.
    destruct (sklearn.check_array (Numeric (a ++ b))) as [v|e] eqn:E.
    + eexists. eexists. split; [exact Hrun|]. repeat split; reflexivity.
    + destruct (Hab e eq_refl) as [m ->].
      eexists. eexists. split; [exact Hrun|]. repeat split; reflexivity.
  - right. split; [intros [H _]; exact (Na H)|].
    destruct (check_array_refused a Na) as [msg Ha].
    rewrite Ha in Hrun.
    destruct (sklearn.check_array (Numeric (a ++ b))) as [v|e] eqn:E.
    + eexists. eexists. split; [exact Hrun|]. repeat split; reflexivity.
    + destruct (Hab e eq_refl) as [m ->].
      eexists. eexists. split; [exact Hrun|]. repeat split; reflexivity.
Qed.

(** Every run either stops before line 20, with no pyplot call made, or
    has read two numeric frames that [check_array] lets through and goes
    on to the plotting statements in [scaled_state]. *)
Lemma run_stops_or_reaches_plot (fs : filesystem) :
  (exists e s, run fs = (Raise e, s) /\ figure s = []) \/
  (exists a b, loaded fs a b /\ accepted a /\ accepted b /\
               run fs = plot (scaled_state a b)).
Proof.
  destruct (pd.read_csv fs mutex_path) as [A|e1] eqn:E1.
  2:{ left. unfold run, main. unfold bind at 1. rewrite load_unfold, E1. cbv zeta.
      destruct (is_FileNotFoundError e1); eexists; eexists; split; reflexivity. }
  destruct (pd.read_csv fs sem_path) as [B|e2] eqn:E2.
  2:{ left. unfold run, main. unfold bind at 1. rewrite load_unfold, E1, E2. cbv zeta.
      destruct (is_FileNotFoundError e2); eexists; eexists; split; reflexivity. }
  destruct (sklearn.fit sklearn.Unfitted (pd.concat A B)) as [sc|e] eqn:Hfit.
  - destruct (fit_concat_numeric _ _ _ _ Hfit) as (a & b & -> & ->).
    destruct (run_numeric fs a b (conj E1 E2))
      as [(Aa & Ab & Hrun)|(_ & msg & s & Hrun & _ & Hf & _)].
    + right. exists a, b.
      split; [exact (conj E1 E2)|]. split; [exact Aa|]. split; [exact Ab|exact Hrun].
    + left. exists (ValueError msg), s. split; assumption.
  - left. unfold run, main. unfold bind at 1. rewrite load_unfold, E1, E2. cbv zeta.
    unfold bind. rewrite (normalise_unfold _ A B) by reflexivity. cbv zeta.
    rewrite Hfit. eexists; eexists; split; reflexivity.
Qed.

(** The final state of a run on two numeric frames that [check_array]
    lets through (they may hold NaN). *)
Lemma run_accepted (fs : filesystem) (a b : list F64.t) :
  loaded fs a b -> accepted a -> accepted b ->
  let e := bins_of a b in
  stdout (final fs) = [] /\
  scaler (final fs) = Some (sklearn.Fitted (scaler_of a b)) /\
  scaled_mutex (final fs) = Some (scaled_of a b a) /\
  scaled_sem (final fs) = Some (scaled_of a b b) /\
  min_limit (final fs) = Some (min_limit_of a b) /\
  max_limit (final fs) = Some (max_limit_of a b) /\
  bins (final fs) = Some e /\
  match np.histogram a e with
  | Raise ex => outcome fs = Raise ex /\ figure (final fs) = [plt.figure (12, 7)]
  | Ok ca =>
      match np.histogram b e with
      | Raise ex =>
          outcome fs = Raise ex /\
          figure (final fs) =
            [plt.figure (12, 7); plt.hist a e ca alpha_07 "Mutex" "skyblue"]
      | Ok cb =>
          outcome fs = Ok tt /\
          figure (final fs) =
            [plt.figure (12, 7);
             plt.hist a e ca alpha_07 "Mutex" "skyblue";
             plt.hist b e cb alpha_07 "Semáforo" "salmon"] ++ decoration
      end
  end.
Proof.
  intros Hl Aa Ab e.
  destruct (run_numeric fs a b Hl) as [(_ & _ & Hrun)|[Hn _]];
    [|exfalso; apply Hn; split; assumption].
  unfold final, outcome. rewrite Hrun.
  destruct (plot_numeric (scaled_state a b) a b eq_refl eq_refl)
    as (s' & Hs' & Ho & _ & _ & _ & Hsc & _ & Hsm & Hss & Hlo & Hhi & Hb & Hh).
  rewrite Hs'. rewrite Ho, Hsc, Hsm, Hss, Hlo, Hhi, Hb.
  repeat (split; [reflexivity|]).
  fold e in Hh. destruct (np.histogram a e) as [ca|ex];
    [destruct (np.histogram b e) as [cb|ex]|]; exact Hh.
Qed.

(** X2.  A run calls [plt.show()] exactly when it ends normally: no chart
    is ever shown by a run that raises, wherever it raises.  The figure
    such a run leaves behind holds at most the [plt.figure] call and a
    histogram: no title, axis label, legend or grid. *)
Theorem chart_is_shown_exactly_when_the_run_completes (fs : filesystem) :
  (In plt.show (figure (final fs)) <-> outcome fs = Ok tt) /\
  (forall e, outcome fs = Raise e ->
     forall c, In c (figure (final fs)) ->
       c = plt.figure (12, 7) \/ plt.is_hist c = true).
Proof.
  destruct (run_stops_or_reaches_plot fs)
    as [(e & s & Hrun & Hf)|(a & b & Hl & Aa & Ab & _)].
  - unfold final, outcome. rewrite Hrun. cbn [fst snd]. rewrite Hf. split.
    + split; [intros []|discriminate].
    + intros _ _ c [].
  - destruct (run_accepted fs a b Hl Aa Ab) as (_ & _ & _ & _ & _ & _ & _ & Hh).
    cbv zeta in Hh.
    destruct (np.histogram a (bins_of a b)) as [ca|ex].
    + destruct (np.histogram b (bins_of a b)) as [cb|ex];
        destruct Hh as [-> ->].
      * split; [|discriminate].
        split; [reflexivity|]. intros _. simpl. tauto.
      * split.
        -- split; [|discriminate]. simpl. intros [H|[H|[]]]; discriminate H.
        -- intros _ _ c. simpl. intros [<-|[<-|[]]]; [left|right]; reflexivity.
    + destruct Hh as [-> ->]. split.
      * split; [|discriminate]. simpl. intros [H|[]]. discriminate H.
      * intros _ _ c. simpl. intros [<-|[]]. left. reflexivity.
Qed.

(** X3.  A run that ends normally has read two numeric columns [a] and
    [b], and its figure is exactly, in this order: a 12 by 7 figure; the
    histogram of [a], with opacity 0.7, labelled 'Mutex', in sky blue; the
    histogram of [b], with opacity 0.7, labelled 'Semáforo', in salmon,
    both over the same 100 edges and with the counts of [np.histogram];
    the title at size 16; the two axis labels at size 12; the legend; the
    dashed grid with opacity 0.6; and [plt.show()]. *)
Theorem completed_run_draws_both_files (fs : filesystem) :
  outcome fs = Ok tt ->
  exists a b ca cb,
    loaded fs a b /\
    bins (final fs) = Some (bins_of a b) /\
    np.histogram a (bins_of a b) = Ok ca /\
    np.histogram b (bins_of a b) = Ok cb /\
    figure (final fs) =
      [plt.figure (12, 7);
       plt.hist a (bins_of a b) ca alpha_07 "Mutex" "skyblue";
       plt.hist b (bins_of a b) cb alpha_07 "Semáforo" "salmon";
       plt.title "Distribución de Latencias en Idle (Mutex vs Semáforo)" 16;
       plt.xlabel "Latencia (ns)" 12;
       plt.ylabel "Frecuencia" 12;
       plt.legend;
       plt.grid true "--" alpha_06;
       plt.show].
Proof.
  intros Hok.
  destruct (run_stops_or_reaches_plot fs)
    as [(e & s & Hrun & _)|(a & b & Hl & Aa & Ab & _)].
  - unfold outcome in Hok. rewrite Hrun in Hok. discriminate Hok.
  - destruct (run_accepted fs a b Hl Aa Ab) as (_ & _ & _ & _ & _ & _ & Hb & Hh).
    cbv zeta in Hh.
    exists a, b.
    destruct (np.histogram a (bins_of a b)) as [ca|ex];
      [destruct (np.histogram b (bins_of a b)) as [cb|ex]|];
      destruct Hh as [Ho Hf]; try (rewrite Ho in Hok; discriminate Hok).
    exists ca, cb. split; [exact Hl|]. split; [exact Hb|].
    split; [reflexivity|]. split; [reflexivity|]. exact Hf.
Qed.

(** The run on mutex = [100, 150, 120] and sem = [200, 210] ends normally;
    the columns it has read are these values, and it draws them. *)
Lemma completed_run_witness :
  exists a b ca cb,
    loaded (two_files (int_lines [100; 150; 120]) (int_lines [200; 210])) a b /\
    a = map F64.of_Z [100; 150; 120] /\ b = map F64.of_Z [200; 210] /\
    hist_calls
      (figure (final (two_files (int_lines [100; 150; 120]) (int_lines [200; 210])))) =
      [plt.hist a (bins_of a b) ca alpha_07 "Mutex" "skyblue";
       plt.hist b (bins_of a b) cb alpha_07 "Semáforo" "salmon"].
Proof.
  destruct (completed_run_draws_both_files
              (two_files (int_lines [100; 150; 120]) (int_lines [200; 210])))
    as (a & b & ca & cb & Hl & _ & _ & _ & Hf); [vm_compute; reflexivity|].
  exists a, b, ca, cb. split; [exact Hl|].
  destruct Hl as [Ha Hb].
  assert (Ea : a = map F64.of_Z [100; 150; 120]).
  { vm_compute in Ha. injection Ha as <-. reflexivity. }
  assert (Eb : b = map F64.of_Z [200; 210]).
  { vm_compute in Hb. injection Hb as <-. reflexivity. }
  split; [exact Ea|]. split; [exact Eb|].
  rewrite Hf. reflexivity.
Defined.

(** X4.  On two numeric columns, lines 13-18 complete exactly when each
    column has at least one row and neither holds an infinity (NaN is let
    through): then the scaler is fitted on the concatenation, both columns
    are scaled with it and the figure is opened.  Otherwise, so for an
    empty file or an infinite value, the scaler raises [ValueError]: the
    process exits with status 1 with nothing printed, no bin computed and
    no pyplot call made. *)
Theorem scaler_refuses_empty_and_infinite_columns
    (fs : filesystem) (a b : list F64.t) :
  loaded fs a b ->
  (accepted a /\ accepted b ->
     scaler (final fs) = Some (sklearn.Fitted (sklearn.first_pass (a ++ b))) /\
     scaled_mutex (final fs) =
       Some (map (sklearn.scale_value (sklearn.first_pass (a ++ b))) a) /\
     scaled_sem (final fs) =
       Some (map (sklearn.scale_value (sklearn.first_pass (a ++ b))) b) /\
     figure (final fs) <> []) /\
  (~ (accepted a /\ accepted b) ->
     exists msg,
       outcome fs = Raise (ValueError msg) /\
       exit_status (outcome fs) = 1 /\
       stdout (final fs) = [] /\
       scaled_sem (final fs) = None /\
       bins (final fs) = None /\
       figure (final fs) = []).
Proof.
  intros Hl. split.
  - intros [Aa Ab].
    destruct (run_accepted fs a b Hl Aa Ab) as (_ & Hsc & Hsm & Hss & _ & _ & _ & Hh).
    split; [exact Hsc|]. split; [exact Hsm|]. split; [exact Hss|].
    cbv zeta in Hh.
    destruct (np.histogram a (bins_of a b)) as [ca|ex];
      [destruct (np.histogram b (bins_of a b)) as [cb|ex]|];
      destruct Hh as [_ ->]; discriminate.
  - intros Hn.
    destruct (run_numeric fs a b Hl)
      as [(Aa & Ab & _)|(_ & msg & s & Hrun & Ho & Hf & Hb & Hs)];
      [exfalso; apply Hn; split; assumption|].
    exists msg. unfold outcome, final. rewrite Hrun. cbn [fst snd].
    split; [reflexivity|]. split; [reflexivity|].
    split; [exact Ho|]. split; [exact Hs|]. split; [exact Hb|exact Hf].
Qed.

(** A mutex file without rows, and a semaphore file that holds [inf]. *)
Lemma scaler_refuses_witness :
  (exists msg,
     outcome (two_files (Csv []) (int_lines [200; 210])) = Raise (ValueError msg) /\
     figure (final (two_files (Csv []) (int_lines [200; 210]))) = []) /\
  (exists msg,
     outcome (two_files (int_lines [100; 150]) (Csv [IntLit 200; FloatLit np.inf]))
       = Raise (ValueError msg) /\
     figure (final (two_files (int_lines [100; 150]) (Csv [IntLit 200; FloatLit np.inf])))
       = []).
Proof.
  split.
  - destruct (proj2 (scaler_refuses_empty_and_infinite_columns
                       (two_files (Csv []) (int_lines [200; 210]))
                       [] (map F64.of_Z [200; 210])
                       (conj eq_refl eq_refl)))
      as (msg & Ho & _ & _ & _ & _ & Hf).
    + intros [[H _] _]. apply H. reflexivity.
    + exists msg. split; [exact Ho|exact Hf].
  - destruct (proj2 (scaler_refuses_empty_and_infinite_columns
                       (two_files (int_lines [100; 150]) (Csv [IntLit 200; FloatLit np.inf]))
                       (map F64.of_Z [100; 150]) [F64.of_Z 200; np.inf]
                       (conj eq_refl eq_refl)))
      as (msg & Ho & _ & _ & _ & _ & Hf).
    + intros [_ [_ H]]. discriminate H.
    + exists msg. split; [exact Ho|exact Hf].
Defined.

Lemma infer_numeric (rows : list field) (v : list F64.t) :
  pd.infer rows = Numeric v -> existsb is_text rows = false.
Proof. unfold pd.infer. destruct (existsb is_text rows); [discriminate|reflexivity]. Qed.



(* ===================================================================== *)
(** * What the histograms count (X6 - X8) *)
(* ===================================================================== *)

(** ** Rounding never gives a NaN *)

Lemma shr_1_nonneg (mrs : shr_record) : 0 <= shr_m mrs -> 0 <= shr_m (shr_1 mrs).
Proof.
  destruct mrs as [m r s]. destruct m as [|[p|p|]|[p|p|]]; simpl; lia.
Qed.

Lemma iter_shr_1_nonneg (p : positive) (mrs : shr_record) :
  0 <= shr_m mrs -> 0 <= shr_m (SpecFloat.iter_pos shr_1 p mrs).
Proof.
  revert mrs. induction p as [p IH|p IH|]; intros mrs H; simpl.
  - apply IH, IH, shr_1_nonneg, H.
  - apply IH, IH, H.
  - apply shr_1_nonneg, H.
Qed.

Lemma shr_fexp_nonneg (prec emax m e : Z) (l : location) :
  0 <= m -> 0 <= shr_m (fst (shr_fexp prec emax m e l)).
Proof.
  intros H. unfold shr_fexp, shr.
  assert (H0 : 0 <= shr_m (shr_record_of_loc m l)).
  { unfold shr_record_of_loc. destruct l as [|[]]; exact H. }
  destruct (fexp prec emax (Zdigits2 m + e) - e); simpl; try exact H0.
  apply iter_shr_1_nonneg, H0.
Qed.

Lemma round_nearest_even_nonneg (m : Z) (l : location) :
  0 <= m -> 0 <= round_nearest_even m l.
Proof.
  intros H. unfold round_nearest_even.
  destruct l as [|[]]; try destruct (IntDef.Z.even m); lia.
Qed.

Lemma binary_round_aux_not_nan (prec emax : Z) (s : bool) (m e : Z) (l : location) :
  0 <= m -> F64.is_nan (binary_round_aux prec emax s m e l) = false.
Proof.
  intros H. unfold binary_round_aux.
  pose proof (shr_fexp_nonneg prec emax m e l H) as H1.
  destruct (shr_fexp prec emax m e l) as [mrs' e']. simpl in H1.
  pose proof (shr_fexp_nonneg prec emax _ e' loc_Exact
                (round_nearest_even_nonneg _ (loc_of_shr_record mrs') H1)) as H2.
  destruct (shr_fexp prec emax _ e' loc_Exact) as [mrs'' e'']. simpl in H2.
  destruct (shr_m mrs'') as [|p|p]; [reflexivity| |lia].
  destruct (e'' <=? emax - prec); reflexivity.
Qed.

Lemma binary_normalize_not_nan (prec emax m e : Z) (sz : bool) :
  F64.is_nan (binary_normalize prec emax m e sz) = false.
Proof.
  unfold binary_normalize, binary_round. destruct m as [|p|p]; [reflexivity| |];
    destruct shl_align as [mz ez]; apply binary_round_aux_not_nan; lia.
Qed.

(** The product of two finite values, and the sum of a value that is not
    NaN and a finite one, are not NaN. *)
Lemma mul_not_nan (x y : F64.t) : finite x -> finite y -> not_nan (x * y)%f64.
Proof.
  unfold finite, not_nan, F64.mul, SFmul.
  destruct x as [sx|sx| |sx mx ex], y as [sy|sy| |sy my ey]; intros Hx Hy;
    try discriminate; try reflexivity.
  apply binary_round_aux_not_nan. lia.
Qed.

Lemma add_not_nan (x y : F64.t) : not_nan x -> finite y -> not_nan (x + y)%f64.
Proof.
  unfold finite, not_nan, F64.add, SFadd.
  destruct x as [sx|sx| |sx mx ex], y as [sy|sy| |sy my ey]; intros Hx Hy;
    try discriminate; try reflexivity.
  - destruct sx, sy; reflexivity.
  - apply binary_normalize_not_nan.
Qed.

(** ** The bin edges are numbers *)

Lemma arange_100_finite : forallb F64.is_finite (np.arange 100) = true.
Proof. vm_compute. reflexivity. Qed.

(** With finite limits and a finite step, none of the 100 edges is NaN. *)
Lemma linspace_100_not_nan (lo hi : F64.t) :
  finite lo -> not_nan hi -> finite (step_of lo hi) ->
  Forall not_nan (np.linspace lo hi 100).
Proof.
  intros Flo Nhi Fstep.
  pose proof (div_99_finite_inv _ Fstep) as Fdelta.
  unfold np.linspace. change (100 - 1)%nat with 99%nat.
  change (0 <? 99)%nat with true. change (1 <? 100)%nat with true. cbv iota.
  fold (step_of lo hi).
  apply Forall_set_last; [|exact Nhi].
  destruct F64.eqb; rewrite map_map; apply List.Forall_map, List.Forall_forall;
    intros y Hy; (apply add_not_nan; [|exact Flo]); apply mul_not_nan; trivial.
  - pose proof arange_100_over_99_finite as H.
    rewrite List.forallb_forall in H. exact (H y Hy).
  - pose proof arange_100_finite as H.
    rewrite List.forallb_forall in H. exact (H y Hy).
Qed.

(** ** The counts of [np.histogram] *)

Lemma total_diff (x : Z) (r : list Z) :
  total (np.diff (x :: r)) = List.last (x :: r) 0 - x.
Proof.
  revert x. induction r as [|y r IH]; intros x; [simpl; lia|].
  change (np.diff (x :: y :: r)) with ((y - x) :: np.diff (y :: r)).
  change (List.last (x :: y :: r) 0) with (List.last (y :: r) 0).
  change (total ((y - x) :: np.diff (y :: r)))
    with ((y - x) + total (np.diff (y :: r))).
  rewrite IH. lia.
Qed.

Lemma diff_length (c : list Z) : length (np.diff c) = pred (length c).
Proof.
  destruct c as [|x r]; [reflexivity|].
  revert x. induction r as [|y r IH]; intros x; [reflexivity|].
  change (length (np.diff (x :: y :: r)))
    with (S (length (np.diff (y :: r)))).
  rewrite IH. reflexivity.
Qed.

Lemma search_sorted_inclusive_cons (a : list F64.t) (x y : F64.t) (r : list F64.t) :
  np.search_sorted_inclusive a (x :: y :: r) =
  np.count_lt a x :: np.search_sorted_inclusive a (y :: r).
Proof. reflexivity. Qed.

Lemma search_sorted_inclusive_length (a e : list F64.t) :
  length (np.search_sorted_inclusive a e) = length e.
Proof.
  destruct e as [|x r]; [reflexivity|].
  revert x. induction r as [|y r IH]; intros x; [reflexivity|].
  rewrite search_sorted_inclusive_cons.
  change (length (np.count_lt a x :: np.search_sorted_inclusive a (y :: r)))
    with (S (length (np.search_sorted_inclusive a (y :: r)))).
  rewrite IH. reflexivity.
Qed.

Lemma search_sorted_inclusive_last (a : list F64.t) (x : F64.t) (r : list F64.t) :
  List.last (np.search_sorted_inclusive a (x :: r)) 0 =
  np.count_le a (List.last (x :: r) np.nan).
Proof. unfold np.search_sorted_inclusive. apply List.last_last. Qed.

Lemma filter_length_le (p q : F64.t -> bool) (a : list F64.t) :
  (forall x, p x = true -> q x = true) ->
  (length (List.filter p a) <= length (List.filter q a))%nat.
Proof.
  intros H. induction a as [|x a IH]; [reflexivity|]. simpl.
  destruct (p x) eqn:P.
  - rewrite (H x P). simpl. lia.
  - destruct (q x); simpl; lia.
Qed.

(** Against an edge that is a number, the order of [searchsorted] is the
    IEEE order, and a NaN sample is neither before the edge nor at it. *)
Lemma sort_lt_number (x e : F64.t) : not_nan e -> np.sort_lt x e = F64.ltb x e.
Proof. intros He. unfold np.sort_lt. rewrite He. apply orb_false_r. Qed.

Lemma sort_le_number (x e : F64.t) :
  not_nan e -> negb (np.sort_lt e x) = F64.leb x e.
Proof.
  intros He. unfold np.sort_lt. rewrite He.
  destruct (F64.is_nan x) eqn:Nx.
  - destruct x; try discriminate Nx. rewrite orb_true_r.
    destruct e as [[]|[]| |[] m e]; reflexivity.
  - cbn [negb andb]. rewrite orb_false_r, (ltb_spec e x He Nx).
    apply negb_involutive.
Qed.

Lemma count_lt_number (a : list F64.t) (e : F64.t) :
  not_nan e ->
  np.count_lt a e = Z.of_nat (length (List.filter (fun x => F64.ltb x e) a)).
Proof.
  intros He. unfold np.count_lt. do 2 f_equal.
  apply List.filter_ext. intros x. apply sort_lt_number. exact He.
Qed.

Lemma count_le_number (a : list F64.t) (e : F64.t) :
  not_nan e ->
  np.count_le a e = Z.of_nat (length (List.filter (fun x => F64.leb x e) a)).
Proof.
  intros He. unfold np.count_le. do 2 f_equal.
  apply List.filter_ext. intros x. apply sort_le_number. exact He.
Qed.

Lemma count_lt_none (a : list F64.t) (e : F64.t) :
  not_nan e ->
  Forall (fun x => F64.ltb x e = false) a -> np.count_lt a e = 0.
Proof.
  intros He H. rewrite (count_lt_number a e He).
  induction H as [|x a Hx _ IH]; [reflexivity|]. simpl. rewrite Hx. exact IH.
Qed.

Lemma count_le_all (a : list F64.t) (e : F64.t) :
  not_nan e ->
  Forall (fun x => fle x e) a -> np.count_le a e = Z.of_nat (length a).
Proof.
  intros He H. rewrite (count_le_number a e He). f_equal.
  induction H as [|x a Hx _ IH]; [reflexivity|]. simpl.
  unfold fle in Hx. rewrite Hx. simpl. rewrite IH. reflexivity.
Qed.

(** Order facts used for the bins. *)
Lemma lex_lt_iff (p q : Z * Z * Z) :
  lex p q = Lt <->
  let '(a, b, c) := p in
  let '(a', b', c') := q in
  a < a' \/ (a = a' /\ (b < b' \/ (b = b' /\ c < c'))).
Proof.
  destruct p as [[a b] c], q as [[a' b'] c']. simpl.
  destruct (Z.compare_spec a a'), (Z.compare_spec b b'), (Z.compare_spec c c');
    split; intros Hc; try congruence; try lia.
Qed.

Lemma ltb_not_nan (x y : F64.t) : F64.ltb x y = true -> not_nan x /\ not_nan y.
Proof.
  unfold F64.ltb, SFltb, not_nan.
  destruct x as [[]|[]| |[] m e], y as [[]|[]| |[] m' e']; simpl;
    intros H; try discriminate; split; reflexivity.
Qed.

(** Below [y], and [y] not above [z]: below [z]. *)
Lemma ltb_leb_trans (x y z : F64.t) :
  not_nan z -> F64.ltb x y = true -> F64.ltb z y = false -> F64.ltb x z = true.
Proof.
  intros Nz Hxy Hzy. destruct (ltb_not_nan _ _ Hxy) as [Nx Ny].
  apply ltb_rank; trivial. apply ltb_rank in Hxy; trivial.
  assert (Hyz : lex (rank z) (rank y) <> Lt).
  { intros H. apply ltb_rank in H; trivial. congruence. }
  rewrite lex_lt_iff in *.
  destruct (rank x) as [[a1 b1] c1], (rank y) as [[a2 b2] c2], (rank z) as [[a3 b3] c3].
  lia.
Qed.

(** Below [y], and [y] not above [z]: not above [z]. *)
Lemma ltb_leb_weaken (x y z : F64.t) :
  not_nan z -> F64.ltb x y = true -> F64.ltb z y = false -> F64.leb x z = true.
Proof.
  intros Nz Hxy Hzy. destruct (ltb_not_nan _ _ Hxy) as [Nx _].
  pose proof (ltb_leb_trans x y z Nz Hxy Hzy) as H.
  apply ltb_rank in H; trivial. apply leb_rank; trivial. rewrite H. discriminate.
Qed.

(** Over edges that are numbers and pass the edge check, no count is
    negative. *)
Lemma counts_nonneg (a e : list F64.t) :
  Forall not_nan e -> np.any_decreasing e = false ->
  Forall (fun n => 0 <= n) (np.diff (np.search_sorted_inclusive a e)).
Proof.
  induction e as [|x e IH]; [constructor|].
  destruct e as [|y r]; [constructor|].
  intros Hn Hd.
  change (np.any_decreasing (x :: y :: r))
    with ((x >? y)%f64 || np.any_decreasing (y :: r)) in Hd.
  apply orb_false_elim in Hd. destruct Hd as [Hxy Hd]. unfold F64.gtb in Hxy.
  inversion Hn as [|? ? Nx Hn']; subst. inversion Hn' as [|? ? Ny _]; subst.
  specialize (IH Hn' Hd).
  rewrite search_sorted_inclusive_cons.
  destruct r as [|z r'].
  - change (np.search_sorted_inclusive a [y]) with [np.count_le a y].
    change (np.diff [np.count_lt a x; np.count_le a y])
      with [np.count_le a y - np.count_lt a x].
    constructor; [|constructor].
    rewrite (count_le_number a y Ny), (count_lt_number a x Nx).
    pose proof (filter_length_le (fun v => (v <? x)%f64) (fun v => (v <=? y)%f64) a) as H.
    cbv beta in H. specialize (H (fun v Hv => ltb_leb_weaken v x y Ny Hv Hxy)). lia.
  - rewrite search_sorted_inclusive_cons in *.
    change (np.diff (np.count_lt a x :: np.count_lt a y :: np.search_sorted_inclusive a (z :: r')))
      with ((np.count_lt a y - np.count_lt a x)
            :: np.diff (np.count_lt a y :: np.search_sorted_inclusive a (z :: r'))).
    constructor; [|exact IH].
    rewrite (count_lt_number a y Ny), (count_lt_number a x Nx).
    pose proof (filter_length_le (fun v => (v <? x)%f64) (fun v => (v <? y)%f64) a) as H.
    cbv beta in H. specialize (H (fun v Hv => ltb_leb_trans v x y Ny Hv Hxy)). lia.
Qed.

(** The counts of a histogram over edges that are numbers, start
    numerically at a lower bound of the samples and end at an upper bound
    of them: one count per bin, none negative, and together they count
    every sample. *)
Lemma histogram_counts (a : list F64.t) (first : F64.t) (rest : list F64.t)
    (lo hi : F64.t) (counts : list Z) :
  rest <> [] ->
  feq first lo -> List.last (first :: rest) np.nan = hi ->
  Forall not_nan (first :: rest) ->
  Forall (fun x => fle lo x) a -> Forall (fun x => fle x hi) a ->
  np.histogram a (first :: rest) = Ok counts ->
  length counts = length rest /\
  Forall (fun n => 0 <= n) counts /\
  total counts = Z.of_nat (length a).
Proof.
  intros Hne Hfirst Hlast Hn Hlo Hhi. unfold np.histogram.
  destruct (np.any_decreasing (first :: rest)) eqn:Hd; [discriminate|].
  intros H.
  assert (E : counts = np.diff (np.search_sorted_inclusive a (first :: rest)))
    by congruence.
  clear H. subst counts.
  split; [|split].
  - rewrite diff_length, search_sorted_inclusive_length. reflexivity.
  - apply counts_nonneg; assumption.
  - destruct rest as [|y r]; [contradiction|].
    rewrite search_sorted_inclusive_cons, total_diff.
    rewrite <- search_sorted_inclusive_cons, search_sorted_inclusive_last, Hlast.
    destruct (feq_not_nan _ _ Hfirst) as [Nf _].
    assert (Nhi : not_nan hi).
    { rewrite List.Forall_forall in Hn. apply Hn. rewrite <- Hlast.
      change (List.last (first :: y :: r) np.nan) with (List.last (y :: r) np.nan).
      right. clear. revert y. induction r as [|z r IH]; intros y; [left; reflexivity|].
      change (List.last (y :: z :: r) np.nan) with (List.last (z :: r) np.nan).
      right. apply IH. }
    rewrite (count_le_all _ _ Nhi Hhi), (count_lt_none a first Nf); [lia|].
    eapply List.Forall_impl; [|exact Hlo]. intros x Hx. cbv beta in Hx.
    destruct (fle_not_nan _ _ Hx) as [Nlo Nx].
    rewrite (ltb_spec _ _ Nx Nf).
    assert (H : fle first x).
    { apply (fle_trans _ lo); trivial. apply feq_fle_l. exact Hfirst. }
    unfold fle in H. rewrite H. reflexivity.
Qed.


(** ** Columns that hold NaN *)

Lemma in_numbers (v : list F64.t) (x : F64.t) :
  In x (numbers v) <-> In x v /\ not_nan x.
Proof.
  unfold numbers, not_nan. rewrite List.filter_In.
  destruct (F64.is_nan x); simpl; intuition congruence.
Qed.

Lemma numbers_samples (v : list F64.t) : samples v -> numbers v = v.
Proof.
  intros Sv. pose proof (samples_not_nan v Sv) as H. clear Sv. unfold numbers.
  induction H as [|x v Hx _ IH]; [reflexivity|]. simpl.
  unfold not_nan in Hx. rewrite Hx. simpl. rewrite IH. reflexivity.
Qed.

Lemma readings_numbers (v : list F64.t) : readings v -> samples (numbers v).
Proof.
  intros [Hne Hinf]. split; [exact Hne|].
  apply List.Forall_forall. intros x Hx. apply in_numbers in Hx. destruct Hx as [Hin Hn].
  assert (Hi : F64.is_inf x = false).
  { destruct (F64.is_inf x) eqn:E; [|reflexivity].
    rewrite <- Hinf. symmetry. apply List.existsb_exists. exists x. split; assumption. }
  destruct x; try discriminate; reflexivity.
Qed.

Lemma readings_accepted (v : list F64.t) : readings v -> accepted v.
Proof.
  intros [Hne Hinf]. split; [|exact Hinf]. intros ->. apply Hne. reflexivity.
Qed.

Lemma samples_readings (v : list F64.t) : samples v -> readings v.
Proof.
  intros Sv. split.
  - rewrite (numbers_samples v Sv). exact (proj1 Sv).
  - exact (samples_no_inf v (proj2 Sv)).
Qed.

Lemma all_nan_no_numbers (v : list F64.t) :
  forallb F64.is_nan v = true -> numbers v = [].
Proof.
  unfold numbers. induction v as [|x v IH]; [reflexivity|]. simpl.
  destruct (F64.is_nan x); simpl; [exact IH|discriminate].
Qed.

Lemma readings_not_all_nan (v : list F64.t) : readings v -> forallb F64.is_nan v = false.
Proof.
  intros [Hne _]. destruct (forallb F64.is_nan v) eqn:E; [|reflexivity].
  exfalso. apply Hne. apply all_nan_no_numbers. exact E.
Qed.

(** [Series.min()] and [Series.max()] skip the NaN of a column. *)
Lemma Series_min_numbers (v : list F64.t) :
  readings v -> is_min (numbers v) (pd.Series_min v).
Proof.
  intros Rv. pose proof (readings_numbers v Rv) as [Hne Hfin].
  unfold pd.Series_min. rewrite (readings_not_all_nan v Rv).
  set (fill := fun x : F64.t => if F64.is_nan x then np.inf else x).
  assert (Hfill : Forall not_nan (map fill v)).
  { apply List.Forall_map, List.Forall_forall. intros x _. unfold fill, not_nan.
    destruct (F64.is_nan x) eqn:E; [reflexivity|exact E]. }
  assert (Hv : map fill v <> []).
  { destruct v; [|discriminate]. exfalso. apply Hne. reflexivity. }
  destruct (reduce_smaller_is_min _ minimum_smaller _ Hv Hfill) as [Hin Hall].
  rewrite List.Forall_forall in Hall.
  assert (Hle : forall x, In x (numbers v) -> fle (np.reduce np.minimum (map fill v)) x).
  { intros x Hx. apply in_numbers in Hx. destruct Hx as [Hx Nx]. apply Hall.
    apply List.in_map_iff. exists x. split; [|exact Hx].
    unfold fill. unfold not_nan in Nx. rewrite Nx. reflexivity. }
  split; [|apply List.Forall_forall; exact Hle].
  apply List.in_map_iff in Hin. destruct Hin as (y & Hy & Hyin).
  apply in_numbers. subst fill. cbv beta in *. destruct (F64.is_nan y) eqn:E.
  - exfalso. destruct (numbers v) as [|x0 r] eqn:En; [apply Hne; reflexivity|].
    pose proof (Hle x0 (or_introl eq_refl)) as H. rewrite <- Hy in H.
    inversion Hfin as [|? ? Fx0 _]; subst.
    destruct x0; try discriminate Fx0; discriminate H.
  - subst y. split; assumption.
Qed.

Lemma Series_max_numbers (v : list F64.t) :
  readings v -> is_max (numbers v) (pd.Series_max v).
Proof.
  intros Rv. pose proof (readings_numbers v Rv) as [Hne Hfin].
  unfold pd.Series_max. rewrite (readings_not_all_nan v Rv).
  set (fill := fun x : F64.t => if F64.is_nan x then np.neg_inf else x).
  assert (Hfill : Forall not_nan (map fill v)).
  { apply List.Forall_map, List.Forall_forall. intros x _. unfold fill, not_nan.
    destruct (F64.is_nan x) eqn:E; [reflexivity|exact E]. }
  assert (Hv : map fill v <> []).
  { destruct v; [|discriminate]. exfalso. apply Hne. reflexivity. }
  destruct (reduce_greater_is_max _ maximum_greater _ Hv Hfill) as [Hin Hall].
  rewrite List.Forall_forall in Hall.
  assert (Hle : forall x, In x (numbers v) -> fle x (np.reduce np.maximum (map fill v))).
  { intros x Hx. apply in_numbers in Hx. destruct Hx as [Hx Nx]. apply Hall.
    apply List.in_map_iff. exists x. split; [|exact Hx].
    unfold fill. unfold not_nan in Nx. rewrite Nx. reflexivity. }
  split; [|apply List.Forall_forall; exact Hle].
  apply List.in_map_iff in Hin. destruct Hin as (y & Hy & Hyin).
  apply in_numbers. subst fill. cbv beta in *. destruct (F64.is_nan y) eqn:E.
  - exfalso. destruct (numbers v) as [|x0 r] eqn:En; [apply Hne; reflexivity|].
    pose proof (Hle x0 (or_introl eq_refl)) as H. rewrite <- Hy in H.
    inversion Hfin as [|? ? Fx0 _]; subst.
    destruct x0 as [[]|[]| |[] m e]; try discriminate Fx0; discriminate H.
  - subst y. split; assumption.
Qed.

(** The builtin [min] of a least element of each of two columns is a least
    element of both together; likewise [max]. *)
Lemma builtins_min_is_min (a b : list F64.t) (ma mb : F64.t) :
  is_min a ma -> is_min b mb -> is_min (a ++ b) (builtins.min ma mb).
Proof.
  intros [Ina Alla] [Inb Allb].
  assert (Na : not_nan ma).
  { rewrite List.Forall_forall in Alla. exact (proj1 (fle_not_nan _ _ (Alla _ Ina))). }
  assert (Nb : not_nan mb).
  { rewrite List.Forall_forall in Allb. exact (proj1 (fle_not_nan _ _ (Allb _ Inb))). }
  unfold builtins.min. rewrite (ltb_spec _ _ Nb Na).
  destruct (F64.leb ma mb) eqn:E; simpl.
  - split; [apply List.in_or_app; left; exact Ina|].
    apply List.Forall_app. split; [exact Alla|].
    eapply List.Forall_impl; [|exact Allb]. intros x Hx. simpl in Hx.
    destruct (fle_not_nan _ _ Hx) as [_ Nx].
    apply (fle_trans _ mb); assumption.
  - pose proof (leb_false_fle _ _ Na Nb E) as Hba.
    split; [apply List.in_or_app; right; exact Inb|].
    apply List.Forall_app. split; [|exact Allb].
    eapply List.Forall_impl; [|exact Alla]. intros x Hx. simpl in Hx.
    destruct (fle_not_nan _ _ Hx) as [_ Nx].
    apply (fle_trans _ ma); assumption.
Qed.

Lemma builtins_max_is_max (a b : list F64.t) (ma mb : F64.t) :
  is_max a ma -> is_max b mb -> is_max (a ++ b) (builtins.max ma mb).
Proof.
  intros [Ina Alla] [Inb Allb].
  assert (Na : not_nan ma).
  { rewrite List.Forall_forall in Alla. exact (proj1 (fle_not_nan _ _ (Alla _ Ina))). }
  assert (Nb : not_nan mb).
  { rewrite List.Forall_forall in Allb. exact (proj1 (fle_not_nan _ _ (Allb _ Inb))). }
  unfold builtins.max, F64.gtb. rewrite (ltb_spec _ _ Na Nb).
  destruct (F64.leb mb ma) eqn:E; simpl.
  - split; [apply List.in_or_app; left; exact Ina|].
    apply List.Forall_app. split; [exact Alla|].
    eapply List.Forall_impl; [|exact Allb]. intros x Hx. simpl in Hx.
    destruct (fle_not_nan _ _ Hx) as [Nx _].
    apply (fle_trans _ mb); assumption.
  - pose proof (leb_false_fle _ _ Nb Na E) as Hab.
    split; [apply List.in_or_app; right; exact Inb|].
    apply List.Forall_app. split; [|exact Allb].
    eapply List.Forall_impl; [|exact Alla]. intros x Hx. simpl in Hx.
    destruct (fle_not_nan _ _ Hx) as [Nx _].
    apply (fle_trans _ ma); assumption.
Qed.

(** [np.histogram] counts the numbers of a column only. *)
Lemma filter_numbers (p : F64.t -> bool) (a : list F64.t) :
  (forall x, p x = true -> F64.is_nan x = false) ->
  List.filter p (numbers a) = List.filter p a.
Proof.
  intros H. unfold numbers. induction a as [|x a IH]; [reflexivity|]. simpl.
  destruct (F64.is_nan x) eqn:E; simpl.
  - destruct (p x) eqn:P; [|exact IH]. rewrite (H x P) in E. discriminate E.
  - rewrite IH. reflexivity.
Qed.

Lemma Forall_removelast {A} (P : A -> Prop) (l : list A) :
  Forall P l -> Forall P (removelast l).
Proof.
  induction 1 as [|x l Hx Hl IH]; [constructor|].
  destruct l as [|y r]; [constructor|].
  change (removelast (x :: y :: r)) with (x :: removelast (y :: r)).
  constructor; assumption.
Qed.

Lemma Forall_last {A} (P : A -> Prop) (l : list A) (d : A) :
  l <> [] -> Forall P l -> P (List.last l d).
Proof.
  intros Hne H. induction H as [|x l Hx Hl IH]; [contradiction|].
  destruct l as [|y r]; [exact Hx|].
  change (List.last (x :: y :: r) d) with (List.last (y :: r) d).
  apply IH. discriminate.
Qed.

Lemma histogram_numbers (a e : list F64.t) :
  Forall not_nan e ->
  np.histogram (numbers a) e = np.histogram a e.
Proof.
  intros Hn. unfold np.histogram. destruct (np.any_decreasing e); [reflexivity|].
  do 2 f_equal. unfold np.search_sorted_inclusive.
  destruct e as [|x r]; [reflexivity|].
  assert (Hlt : forall y, not_nan y -> np.count_lt (numbers a) y = np.count_lt a y).
  { intros y Ny. rewrite !(count_lt_number _ y Ny).
    rewrite filter_numbers; [reflexivity|].
    intros v Hv. exact (proj1 (ltb_not_nan _ _ Hv)). }
  assert (Hle : forall y, not_nan y -> np.count_le (numbers a) y = np.count_le a y).
  { intros y Ny. rewrite !(count_le_number _ y Ny).
    rewrite filter_numbers; [reflexivity|].
    intros v Hv. exact (proj1 (fle_not_nan _ _ Hv)). }
  rewrite Hle by (apply Forall_last; [discriminate|exact Hn]).
  f_equal. apply List.map_ext_in. intros y Hy. apply Hlt.
  pose proof (Forall_removelast _ _ Hn) as H. rewrite List.Forall_forall in H.
  exact (H y Hy).
Qed.

(** The limits of two columns of readings are a least and a greatest of
    their numbers. *)
Lemma limits_of_readings (a b : list F64.t) :
  readings a -> readings b ->
  is_min (numbers a ++ numbers b) (min_limit_of a b) /\
  is_max (numbers a ++ numbers b) (max_limit_of a b).
Proof.
  intros Ra Rb. split.
  - apply builtins_min_is_min; apply Series_min_numbers; assumption.
  - apply builtins_max_is_max; apply Series_max_numbers; assumption.
Qed.

(** A run on two columns of readings that goes through, with a finite
    step: what the two histograms count. *)
Lemma run_readings_counts (fs : filesystem) (a b : list F64.t) :
  loaded fs a b -> readings a -> readings b ->
  finite (step_of (min_limit_of a b) (max_limit_of a b)) ->
  outcome fs = Ok tt ->
  exists ca cb,
    hist_calls (figure (final fs)) =
      [plt.hist a (bins_of a b) ca alpha_07 "Mutex" "skyblue";
       plt.hist b (bins_of a b) cb alpha_07 "Semáforo" "salmon"] /\
    length ca = 99%nat /\ length cb = 99%nat /\
    Forall (fun n => 0 <= n) ca /\ Forall (fun n => 0 <= n) cb /\
    total ca = Z.of_nat (length (numbers a)) /\
    total cb = Z.of_nat (length (numbers b)).
Proof.
  intros Hl Ra Rb Hstep Hok.
  destruct (limits_of_readings a b Ra Rb) as [[Hlo_in Hlo] [Hhi_in Hhi]].
  pose proof (samples_app _ _ (readings_numbers a Ra) (readings_numbers b Rb)) as Sab.
  assert (Flo : finite (min_limit_of a b))
    by (exact (is_min_finite _ _ Sab (conj Hlo_in Hlo))).
  assert (Fhi : finite (max_limit_of a b))
    by (exact (is_max_finite _ _ Sab (conj Hhi_in Hhi))).
  apply List.Forall_app in Hlo, Hhi. destruct Hlo as [Hlo_a Hlo_b], Hhi as [Hhi_a Hhi_b].
  pose proof (linspace_100_not_nan _ _ Flo (finite_not_nan _ Fhi) Hstep) as Hn.
  pose proof (linspace_last (min_limit_of a b) (max_limit_of a b) np.nan 100 ltac:(lia))
    as Hlast.
  pose proof (linspace_length (min_limit_of a b) (max_limit_of a b) 100) as Hlen.
  destruct (linspace_100_first _ _ (finite_not_nan _ Flo) Hstep)
    as (first & rest & He & Hfirst).
  destruct (run_accepted fs a b Hl (readings_accepted a Ra) (readings_accepted b Rb))
    as (_ & _ & _ & _ & _ & _ & _ & Hh).
  cbv zeta in Hh. unfold bins_of in *. rewrite He in *.
  assert (Hrest : length rest = 99%nat) by (simpl in Hlen; lia).
  assert (Hne : rest <> []) by (intros ->; discriminate Hrest).
  destruct (np.histogram a (first :: rest)) as [ca|ex] eqn:Ea;
    [|destruct Hh as [Ho _]; rewrite Ho in Hok; discriminate Hok].
  destruct (np.histogram b (first :: rest)) as [cb|ex] eqn:Eb;
    [|destruct Hh as [Ho _]; rewrite Ho in Hok; discriminate Hok].
  destruct Hh as [_ Hf].
  rewrite <- (histogram_numbers a _ Hn) in Ea.
  rewrite <- (histogram_numbers b _ Hn) in Eb.
  destruct (histogram_counts _ first rest _ _ ca Hne Hfirst Hlast Hn Hlo_a Hhi_a Ea)
    as (La & Na & Ta).
  destruct (histogram_counts _ first rest _ _ cb Hne Hfirst Hlast Hn Hlo_b Hhi_b Eb)
    as (Lb & Nb & Tb).
  exists ca, cb. rewrite Hf.
  split; [reflexivity|]. split; [congruence|]. split; [congruence|].
  split; [exact Na|]. split; [exact Nb|]. split; [exact Ta|exact Tb].
Qed.

(** X6.  For two loaded sample sets whose bin step
    [(max_limit - min_limit) / 99] is finite, a run that ends normally
    draws two histograms of 99 bins each; no count is negative, and the
    counts of each histogram add up to the number of samples of its file:
    every raw value is counted in one bin, none is left out. *)
Theorem every_sample_is_counted_in_one_bin (fs : filesystem) (a b : list F64.t) :
  loaded fs a b -> samples a -> samples b ->
  finite (step_of (min_limit_of a b) (max_limit_of a b)) ->
  outcome fs = Ok tt ->
  exists ca cb,
    hist_calls (figure (final fs)) =
      [plt.hist a (bins_of a b) ca alpha_07 "Mutex" "skyblue";
       plt.hist b (bins_of a b) cb alpha_07 "Semáforo" "salmon"] /\
    length ca = 99%nat /\ length cb = 99%nat /\
    Forall (fun n => 0 <= n) ca /\ Forall (fun n => 0 <= n) cb /\
    total ca = Z.of_nat (length a) /\ total cb = Z.of_nat (length b).
Proof.
  intros Hl Sa Sb Hstep Hok.
  destruct (run_readings_counts fs a b Hl (samples_readings a Sa) (samples_readings b Sb)
              Hstep Hok) as (ca & cb & H).
  rewrite (numbers_samples a Sa), (numbers_samples b Sb) in H.
  exists ca, cb. exact H.
Qed.

(** Three and two samples: mutex = [100, 150, 120], sem = [200, 210]. *)
Lemma every_sample_is_counted_witness :
  exists ca cb,
    hist_calls (figure (final (two_files (int_lines [100; 150; 120]) (int_lines [200; 210])))) =
      [plt.hist (map F64.of_Z [100; 150; 120])
         (bins_of (map F64.of_Z [100; 150; 120]) (map F64.of_Z [200; 210]))
         ca alpha_07 "Mutex" "skyblue";
       plt.hist (map F64.of_Z [200; 210])
         (bins_of (map F64.of_Z [100; 150; 120]) (map F64.of_Z [200; 210]))
         cb alpha_07 "Semáforo" "salmon"] /\
    total ca = 3 /\ total cb = 2.
Proof.
  destruct (every_sample_is_counted_in_one_bin
              (two_files (int_lines [100; 150; 120]) (int_lines [200; 210]))
              (map F64.of_Z [100; 150; 120]) (map F64.of_Z [200; 210]))
    as (ca & cb & Hf & _ & _ & _ & _ & Ta & Tb).
  - split; vm_compute; reflexivity.
  - split; [discriminate | repeat constructor].
  - split; [discriminate | repeat constructor].
  - vm_compute. reflexivity.
  - vm_compute. reflexivity.
  - exists ca, cb. split; [exact Hf|]. split; [exact Ta|exact Tb].
Defined.

(** ** Bin by bin *)

Lemma filter_length_diff (p q r : F64.t -> bool) (a : list F64.t) :
  (forall v, Z.b2z (q v) - Z.b2z (p v) = Z.b2z (r v)) ->
  Z.of_nat (length (List.filter q a)) - Z.of_nat (length (List.filter p a)) =
  Z.of_nat (length (List.filter r a)).
Proof.
  intros H. induction a as [|v a IH]; [reflexivity|]. simpl.
  specialize (H v). destruct (p v), (q v), (r v); simpl in *; lia.
Qed.

Lemma in_bin_open (x y v : F64.t) :
  not_nan x -> not_nan y -> F64.ltb y x = false ->
  Z.b2z (F64.ltb v y) - Z.b2z (F64.ltb v x) = Z.b2z (in_bin x y false v).
Proof.
  intros Nx Ny Hxy. unfold in_bin.
  destruct (F64.is_nan v) eqn:Nv.
  - destruct v; try discriminate Nv. destruct x, y; reflexivity.
  - rewrite (ltb_spec v x Nv Nx).
    destruct (F64.leb x v) eqn:E; simpl; [lia|].
    assert (H : F64.ltb v x = true) by (rewrite (ltb_spec v x Nv Nx), E; reflexivity).
    rewrite (ltb_leb_trans v x y Ny H Hxy). reflexivity.
Qed.

Lemma in_bin_closed (x y v : F64.t) :
  not_nan x -> not_nan y -> F64.ltb y x = false ->
  Z.b2z (F64.leb v y) - Z.b2z (F64.ltb v x) = Z.b2z (in_bin x y true v).
Proof.
  intros Nx Ny Hxy. unfold in_bin.
  destruct (F64.is_nan v) eqn:Nv.
  - destruct v; try discriminate Nv. destruct x, y; reflexivity.
  - rewrite (ltb_spec v x Nv Nx).
    destruct (F64.leb x v) eqn:E; simpl; [lia|].
    assert (H : F64.ltb v x = true) by (rewrite (ltb_spec v x Nv Nx), E; reflexivity).
    rewrite (ltb_leb_weaken v x y Ny H Hxy). reflexivity.
Qed.

(** Over edges that are numbers and pass the edge check, the counts
    [np.histogram] computes from the sorted samples are the counts bin by
    bin. *)
Lemma histogram_bin_counts (a e : list F64.t) :
  Forall not_nan e -> np.any_decreasing e = false ->
  np.diff (np.search_sorted_inclusive a e) = bin_counts a e.
Proof.
  induction e as [|x e IH]; [reflexivity|].
  destruct e as [|y r]; [reflexivity|].
  intros Hn Hd.
  change (np.any_decreasing (x :: y :: r))
    with ((x >? y)%f64 || np.any_decreasing (y :: r)) in Hd.
  apply orb_false_elim in Hd. destruct Hd as [Hxy Hd]. unfold F64.gtb in Hxy.
  inversion Hn as [|? ? Nx Hn']; subst. inversion Hn' as [|? ? Ny _]; subst.
  specialize (IH Hn' Hd).
  rewrite search_sorted_inclusive_cons.
  change (bin_counts a (x :: y :: r))
    with (Z.of_nat (length (List.filter
            (in_bin x y (match r with [] => true | _ => false end)) a))
          :: bin_counts a (y :: r)).
  rewrite <- IH.
  destruct r as [|z r'].
  - change (np.search_sorted_inclusive a [y]) with [np.count_le a y].
    change (np.diff [np.count_lt a x; np.count_le a y])
      with [np.count_le a y - np.count_lt a x].
    change (np.diff [np.count_le a y]) with (@nil Z).
    f_equal. rewrite (count_le_number a y Ny), (count_lt_number a x Nx).
    apply filter_length_diff. intros v. apply in_bin_closed; assumption.
  - rewrite search_sorted_inclusive_cons.
    change (np.diff (np.count_lt a x :: np.count_lt a y :: np.search_sorted_inclusive a (z :: r')))
      with ((np.count_lt a y - np.count_lt a x)
            :: np.diff (np.count_lt a y :: np.search_sorted_inclusive a (z :: r'))).
    f_equal. rewrite (count_lt_number a y Ny), (count_lt_number a x Nx).
    apply filter_length_diff. intros v. apply in_bin_open; assumption.
Qed.

(** X7.  For two loaded sample sets whose bin step is finite, the bars a
    run that ends normally draws are the counts bin by bin: the height of
    bar [i] of either histogram is the number of raw values [x] of its
    file with [edge i <= x < edge (i+1)], and for the last bar with
    [edge 98 <= x <= edge 99]. *)
Theorem each_bar_counts_the_samples_of_its_bin (fs : filesystem) (a b : list F64.t) :
  loaded fs a b -> samples a -> samples b ->
  finite (step_of (min_limit_of a b) (max_limit_of a b)) ->
  outcome fs = Ok tt ->
  hist_calls (figure (final fs)) =
    [plt.hist a (bins_of a b) (bin_counts a (bins_of a b)) alpha_07 "Mutex" "skyblue";
     plt.hist b (bins_of a b) (bin_counts b (bins_of a b)) alpha_07 "Semáforo" "salmon"].
Proof.
  intros Hl Sa Sb Hstep Hok.
  pose proof (samples_app _ _ Sa Sb) as Sab.
  pose proof (is_min_finite _ _ Sab (min_limit_is_min a b Sa Sb)) as Flo.
  pose proof (is_max_finite _ _ Sab (max_limit_is_max a b Sa Sb)) as Fhi.
  pose proof (linspace_100_not_nan _ _ Flo (finite_not_nan _ Fhi) Hstep) as Hn.
  fold (bins_of a b) in Hn.
  destruct (run_loaded fs a b Hl Sa Sb)
    as (_ & _ & _ & _ & _ & _ & _ & _ & _ & _ & _ & Hh).
  cbv zeta in Hh. unfold np.histogram in Hh.
  destruct (np.any_decreasing (bins_of a b)) eqn:Hd;
    [destruct Hh as [Ho _]; rewrite Ho in Hok; discriminate Hok|].
  destruct Hh as [_ Hf]. rewrite Hf.
  rewrite !(histogram_bin_counts _ _ Hn Hd). reflexivity.
Qed.

(** mutex = [100, 150, 120] and sem = [200, 210]: 100 is in the first bin,
    120 in bin 18, 150 in bin 45, 200 in bin 90 and 210 in the last. *)
Lemma each_bar_witness :
  exists ca cb,
    hist_calls
      (figure (final (two_files (int_lines [100; 150; 120]) (int_lines [200; 210])))) =
      [plt.hist (map F64.of_Z [100; 150; 120])
         (bins_of (map F64.of_Z [100; 150; 120]) (map F64.of_Z [200; 210]))
         ca alpha_07 "Mutex" "skyblue";
       plt.hist (map F64.of_Z [200; 210])
         (bins_of (map F64.of_Z [100; 150; 120]) (map F64.of_Z [200; 210]))
         cb alpha_07 "Semáforo" "salmon"] /\
    List.hd 0 ca = 1 /\ List.nth 18 ca 0 = 1 /\ List.nth 45 ca 0 = 1 /\
    List.nth 90 cb 0 = 1 /\ List.last cb 0 = 1.
Proof.
  eexists. eexists. split.
  - apply (each_bar_counts_the_samples_of_its_bin
             (two_files (int_lines [100; 150; 120]) (int_lines [200; 210]))
             (map F64.of_Z [100; 150; 120]) (map F64.of_Z [200; 210])).
    + split; vm_compute; reflexivity.
    + split; [discriminate | repeat constructor].
    + split; [discriminate | repeat constructor].
    + vm_compute. reflexivity.
    + vm_compute. reflexivity.
  - vm_compute. repeat split; reflexivity.
Defined.

(** X8.  NaN rows are skipped.  For two columns that each hold at least
    one number and no infinity, [min_limit] and [max_limit] are a least
    and a greatest of the numbers of both columns, whatever NaN the
    columns hold, and the 100 edges span them; and when the step is
    finite and the run ends normally, the counts of each histogram add up
    to how many numbers its column holds: its NaN are in no bin. *)
Theorem nan_rows_are_skipped (fs : filesystem) (a b : list F64.t) :
  loaded fs a b -> readings a -> readings b ->
  let lo := min_limit_of a b in
  let hi := max_limit_of a b in
  min_limit (final fs) = Some lo /\ max_limit (final fs) = Some hi /\
  is_min (numbers a ++ numbers b) lo /\
  is_max (numbers a ++ numbers b) hi /\
  bins (final fs) = Some (np.linspace lo hi 100) /\
  (finite (step_of lo hi) -> outcome fs = Ok tt ->
   exists ca cb,
     hist_calls (figure (final fs)) =
       [plt.hist a (np.linspace lo hi 100) ca alpha_07 "Mutex" "skyblue";
        plt.hist b (np.linspace lo hi 100) cb alpha_07 "Semáforo" "salmon"] /\
     total ca = Z.of_nat (length (numbers a)) /\
     total cb = Z.of_nat (length (numbers b))).
Proof.
  intros Hl Ra Rb lo hi.
  destruct (run_accepted fs a b Hl (readings_accepted a Ra) (readings_accepted b Rb))
    as (_ & _ & _ & _ & Hlo & Hhi & Hb & _).
  destruct (limits_of_readings a b Ra Rb) as [Hmin Hmax].
  split; [exact Hlo|]. split; [exact Hhi|]. split; [exact Hmin|]. split; [exact Hmax|].
  split; [exact Hb|].
  intros Hstep Hok.
  destruct (run_readings_counts fs a b Hl Ra Rb Hstep Hok)
    as (ca & cb & Hf & _ & _ & _ & _ & Ta & Tb).
  exists ca, cb. split; [exact Hf|]. split; [exact Ta|exact Tb].
Qed.

(** Each file holds a NaN marker among its values. *)
Lemma nan_rows_witness :
  let fs := two_files (Csv [IntLit 100; FloatLit np.nan; IntLit 120])
                      (Csv [FloatLit np.nan; IntLit 200; IntLit 210]) in
  min_limit (final fs) = Some (F64.of_Z 100) /\
  max_limit (final fs) = Some (F64.of_Z 210) /\
  exists e ca cb,
    hist_calls (figure (final fs)) =
      [plt.hist [F64.of_Z 100; np.nan; F64.of_Z 120] e ca alpha_07 "Mutex" "skyblue";
       plt.hist [np.nan; F64.of_Z 200; F64.of_Z 210] e cb alpha_07 "Semáforo" "salmon"] /\
    total ca = 2 /\ total cb = 2.
Proof.
  cbv zeta.
  destruct (nan_rows_are_skipped
              (two_files (Csv [IntLit 100; FloatLit np.nan; IntLit 120])
                         (Csv [FloatLit np.nan; IntLit 200; IntLit 210]))
              [F64.of_Z 100; np.nan; F64.of_Z 120] [np.nan; F64.of_Z 200; F64.of_Z 210])
    as (Hlo & Hhi & _ & _ & _ & Hc).
  - split; vm_compute; reflexivity.
  - split; [discriminate | reflexivity].
  - split; [discriminate | reflexivity].
  - split; [rewrite Hlo; vm_compute; reflexivity|].
    split; [rewrite Hhi; vm_compute; reflexivity|].
    destruct Hc as (ca & cb & Hf & Ta & Tb);
      [vm_compute; reflexivity | vm_compute; reflexivity |].
    eexists. exists ca, cb. split; [exact Hf|]. split; [exact Ta|exact Tb].
Defined.


(* ===================================================================== *)
(** * A range that overflows (X9) *)
(* ===================================================================== *)

Lemma any_decreasing_at_the_end (pre : list F64.t) (x y : F64.t) :
  F64.ltb y x = true -> np.any_decreasing (pre ++ [x; y]) = true.
Proof.
  intros H. induction pre as [|p pre IH].
  - simpl. unfold F64.gtb. rewrite H. reflexivity.
  - change ((p :: pre) ++ [x; y]) with (p :: (pre ++ [x; y])).
    destruct (pre ++ [x; y]) as [|q l]; [discriminate IH|].
    change (np.any_decreasing (p :: q :: l))
      with ((p >? q)%f64 || np.any_decreasing (q :: l)).
    rewrite IH. apply orb_true_r.
Qed.

Lemma set_last_app (l : list F64.t) (u w stop : F64.t) :
  np.set_last (l ++ [u; w]) stop = l ++ [u; stop].
Proof.
  unfold np.set_last. destruct (l ++ [u; w]) eqn:E.
  - destruct l; discriminate E.
  - rewrite <- E. rewrite List.removelast_app by discriminate.
    simpl removelast. rewrite <- List.app_assoc. reflexivity.
Qed.

Lemma arange_100_split :
  np.arange 100 = np.arange 98 ++ [F64.of_nat 98; F64.of_nat 99].
Proof. reflexivity. Qed.

(** When [stop - start] overflows to infinity, the edge before the last
    is infinite, and so above the last one. *)
Lemma linspace_100_overflow (lo hi : F64.t) :
  finite lo -> finite hi -> (hi - lo)%f64 = np.inf ->
  np.any_decreasing (np.linspace lo hi 100) = true.
Proof.
  intros Flo Fhi Hd.
  unfold np.linspace. change (100 - 1)%nat with 99%nat.
  change (0 <? 99)%nat with true. change (1 <? 100)%nat with true. cbv iota.
  rewrite Hd.
  change (np.inf / F64.of_nat 99 == F64.zero)%f64 with false. cbv iota.
  rewrite arange_100_split, !map_app. cbn [map].
  rewrite set_last_app. apply any_decreasing_at_the_end.
  change (F64.of_nat 98 * (np.inf / F64.of_nat 99))%f64 with np.inf.
  destruct lo as [s|s| |s m e]; try discriminate Flo;
    destruct hi as [s'|s'| |[] m' e']; try discriminate Fhi; reflexivity.
Qed.

(** X9.  When the range [max_limit - min_limit] of two loaded sample
    sets overflows to infinity, the edge before the last one is infinite
    and so greater than the last one, [max_limit]: the first [plt.hist]
    raises [ValueError] on the edge check of [np.histogram].  The figure
    has been opened and nothing is drawn in it; the process exits with
    status 1. *)
Theorem range_overflow_stops_the_first_histogram
    (fs : filesystem) (a b : list F64.t) :
  loaded fs a b -> samples a -> samples b ->
  (max_limit_of a b - min_limit_of a b)%f64 = np.inf ->
  exists msg,
    outcome fs = Raise (ValueError msg) /\
    exit_status (outcome fs) = 1 /\
    bins (final fs) = Some (bins_of a b) /\
    np.any_decreasing (bins_of a b) = true /\
    figure (final fs) = [plt.figure (12, 7)].
Proof.
  intros Hl Sa Sb Hd.
  pose proof (samples_app _ _ Sa Sb) as Sab.
  pose proof (is_min_finite _ _ Sab (min_limit_is_min a b Sa Sb)) as Flo.
  pose proof (is_max_finite _ _ Sab (max_limit_is_max a b Sa Sb)) as Fhi.
  pose proof (linspace_100_overflow _ _ Flo Fhi Hd) as Hdec. fold (bins_of a b) in Hdec.
  destruct (run_loaded fs a b Hl Sa Sb)
    as (_ & _ & _ & _ & _ & _ & _ & _ & _ & _ & Hb & Hh).
  cbv zeta in Hh. unfold np.histogram in Hh. rewrite Hdec in Hh.
  destruct Hh as [Ho Hf].
  eexists. rewrite Ho. split; [reflexivity|]. split; [reflexivity|].
  split; [exact Hb|]. split; [exact Hdec|exact Hf].
Qed.

(** The largest finite value in one file and its opposite in the other. *)
Lemma range_overflow_witness :
  exists msg,
    outcome (two_files (Csv [FloatLit (F64.zero - float_max)%f64]) (Csv [FloatLit float_max]))
      = Raise (ValueError msg) /\
    figure (final (two_files (Csv [FloatLit (F64.zero - float_max)%f64]) (Csv [FloatLit float_max])))
      = [plt.figure (12, 7)].
Proof.
  destruct (range_overflow_stops_the_first_histogram
              (two_files (Csv [FloatLit (F64.zero - float_max)%f64]) (Csv [FloatLit float_max]))
              [(F64.zero - float_max)%f64] [float_max])
    as (msg & Ho & _ & _ & _ & Hf).
  - split; vm_compute; reflexivity.
  - split; [discriminate | repeat constructor].
  - split; [discriminate | repeat constructor].
  - vm_compute. reflexivity.
  - exists msg. split; [exact Ho|exact Hf].
Defined.

(* ===================================================================== *)
(** * The exit status of every run (X10) *)
(* ===================================================================== *)

Lemma first_missing_mutex_unreadable (fs : filesystem) (why : read_failure) (name : string) :
  fs !! mutex_path = Some (Unreadable why) -> ~ first_missing fs name.
Proof.
  intros H [[_ Hm]|[_ [[rows Hm] _]]]; rewrite H in Hm; discriminate Hm.
Qed.

Lemma first_missing_both_exist (fs : filesystem) (fm f : file) (name : string) :
  fs !! mutex_path = Some fm -> fs !! sem_path = Some f -> ~ first_missing fs name.
Proof.
  intros Hm Hs [[_ H]|[_ [_ H]]]; [rewrite Hm in H|rewrite Hs in H]; discriminate H.
Qed.

(** Every run ends in the handler, on the first missing file, or ends
    normally or with an exception that is not [SystemExit], when no file is
    missing at the time it is opened. *)
Lemma run_outcome_cases (fs : filesystem) :
  ((exists name, first_missing fs name) /\ outcome fs = Raise (SystemExit None)) \/
  ((forall name, ~ first_missing fs name) /\
   (outcome fs = Ok tt \/
    exists e, outcome fs = Raise e /\ is_SystemExit e = false)).
Proof.
  destruct (fs !! mutex_path) as [[why|rows]|] eqn:Hm.
  - right. split; [intros name; exact (first_missing_mutex_unreadable fs why name Hm)|].
    right. unfold outcome, run, main. unfold bind at 1. rewrite load_unfold.
    unfold pd.read_csv at 1. rewrite Hm. cbv zeta.
    destruct why; eexists; split; reflexivity.
  - destruct (fs !! sem_path) as [f|] eqn:Hs.
    + right. split; [intros name; exact (first_missing_both_exist fs _ _ name Hm Hs)|].
      unfold outcome. rewrite (run_existing fs _ _ Hm Hs).
      destruct (main_unguarded fs initial) as [[[]|e] s] eqn:E.
      * left. reflexivity.
      * right. exists e. split; [reflexivity|].
        exact (main_unguarded_no_exit fs _ _ _ E).
    + left. assert (H : first_missing fs sem_path).
      { right. split; [reflexivity|]. split; [exists rows; exact Hm|exact Hs]. }
      split; [exists sem_path; exact H|].
      destruct (run_first_missing fs sem_path H) as (s & _ & Hrun & _).
      unfold outcome. rewrite Hrun. reflexivity.
  - left. assert (H : first_missing fs mutex_path) by (left; split; [reflexivity|exact Hm]).
    split; [exists mutex_path; exact H|].
    destruct (run_first_missing fs mutex_path H) as (s & _ & Hrun & _).
    unfold outcome. rewrite Hrun. reflexivity.
Qed.

(** X10.  A run ends in [exit()] exactly when a file is missing at the
    time it is opened (the mutex file, or the semaphore file once the
    mutex file has been read), and then without an exit code.  So the
    exit status of the process is 0 exactly when the run went through to
    [plt.show()] or met a missing file, and 1 in every other case. *)
Theorem exit_status_of_every_run (fs : filesystem) :
  (outcome fs = Raise (SystemExit None) <-> exists name, first_missing fs name) /\
  (forall n, outcome fs <> Raise (SystemExit (Some n))) /\
  (exit_status (outcome fs) = 0 <->
     outcome fs = Ok tt \/ exists name, first_missing fs name) /\
  (exit_status (outcome fs) = 0 \/ exit_status (outcome fs) = 1).
Proof.
  destruct (run_outcome_cases fs) as [[Hex Ho]|[Hno [Ho|(e & Ho & He)]]]; rewrite Ho.
  - split; [split; [intros _; exact Hex|reflexivity]|].
    split; [discriminate|].
    split; [split; [intros _; right; exact Hex|reflexivity]|].
    left. reflexivity.
  - split; [split; [discriminate|intros [name H]; destruct (Hno name H)]|].
    split; [discriminate|].
    split; [split; [intros _; left; reflexivity|reflexivity]|].
    left. reflexivity.
  - split; [split; [intros H; injection H as ->; discriminate He
                   |intros [name H]; destruct (Hno name H)]|].
    split; [intros n H; injection H as ->; discriminate He|].
    rewrite (exit_status_uncaught e He).
    split; [split; [discriminate|intros [H|[name H]];
                                  [discriminate H|destruct (Hno name H)]]|].
    right. reflexivity.
Qed.

(* ===================================================================== *)
(** * Rounding to nearest, ties to even *)
(* ===================================================================== *)

(** * Rounding to nearest, ties to even *)

Lemma fexp_64 (g : Z) : fexp 53 1024 g = fexp64 g.
Proof. reflexivity. Qed.

Lemma digits2_size (p : positive) : digits2_pos p = Pos.size p.
Proof. induction p; simpl; congruence. Qed.

Lemma digits2_bounds (p : positive) :
  2 ^ (Z.pos (digits2_pos p) - 1) <= Z.pos p < 2 ^ Z.pos (digits2_pos p).
Proof.
  rewrite digits2_size. split.
  - pose proof (Pos.size_le p) as H.
    assert (H' : (2 ^ Z.pos (Pos.size p) <= 2 * Z.pos p)).
    { change 2 with (Z.pos 2) at 1. rewrite <- Pos2Z.inj_pow.
      change (2 * Z.pos p) with (Z.pos (p~0)). apply Pos2Z.pos_le_pos. exact H. }
    replace (Z.pos (Pos.size p)) with (Z.succ (Z.pos (Pos.size p) - 1)) in H' by lia.
    rewrite Z.pow_succ_r in H' by lia. lia.
  - pose proof (Pos.size_gt p) as H.
    change 2 with (Z.pos 2). rewrite <- Pos2Z.inj_pow. apply Pos2Z.pos_lt_pos. exact H.
Qed.

Lemma Zdigits2_bounds (m : Z) :
  0 < m -> 2 ^ (Zdigits2 m - 1) <= m < 2 ^ Zdigits2 m.
Proof. destruct m as [|p|p]; try lia. intros _. apply digits2_bounds. Qed.

Lemma Zdigits2_nonneg (m : Z) : 0 <= Zdigits2 m.
Proof. destruct m; simpl; lia. Qed.

(** The number of digits is determined by the bounds. *)
Lemma Zdigits2_unique (m d : Z) :
  2 ^ (d - 1) <= m < 2 ^ d -> 0 < d -> Zdigits2 m = d.
Proof.
  intros [Hlo Hhi] Hd.
  assert (Hm : 0 < m).
  { assert (0 < 2 ^ (d - 1)) by (apply Z.pow_pos_nonneg; lia). lia. }
  destruct (Zdigits2_bounds m Hm) as [Hlo' Hhi'].
  pose proof (Zdigits2_nonneg m) as Hn.
  destruct (Z.lt_trichotomy (Zdigits2 m) d) as [H|[H|H]]; [|exact H|]; exfalso.
  - assert (2 ^ Zdigits2 m <= 2 ^ (d - 1)) by (apply Z.pow_le_mono_r; lia). lia.
  - assert (2 ^ d <= 2 ^ (Zdigits2 m - 1)) by (apply Z.pow_le_mono_r; lia). lia.
Qed.

Lemma iter_pos_nat {A} (f : A -> A) (p : positive) (x : A) :
  SpecFloat.iter_pos f p x = Nat.iter (Pos.to_nat p) f x.
Proof.
  revert x. induction p as [p IH|p IH|]; intros x; simpl SpecFloat.iter_pos.
  - rewrite !IH. rewrite Pos2Nat.inj_xI.
    rewrite <- Nat.iter_add. rewrite <- Nat.iter_succ_r. f_equal. lia.
  - rewrite !IH. rewrite Pos2Nat.inj_xO. rewrite <- Nat.iter_add. f_equal. lia.
  - reflexivity.
Qed.

Lemma shr_1_nonneg_eq (m : Z) (r s : bool) :
  0 <= m ->
  shr_1 (Build_shr_record m r s) = Build_shr_record (m / 2) (Z.odd m) (r || s).
Proof.
  intros Hm. rewrite <- Z.div2_div.
  destruct m as [|[p|p|]|p]; try lia; reflexivity.
Qed.

Lemma shr_1_encodes (m : Z) (r s : bool) (a b : Z) :
  0 <= m -> encodes r s a b ->
  exists r' s',
    shr_1 (Build_shr_record m r s) = Build_shr_record (m / 2) r' s' /\
    encodes r' s' (Z.b2z (Z.odd m) * b + a) (2 * b).
Proof.
  intros Hm (Hab & Hr & Hs). rewrite (shr_1_nonneg_eq m r s Hm).
  eexists. eexists. split; [reflexivity|].
  unfold encodes. subst r s.
  destruct (Z.odd m); cbn [Z.b2z]; repeat split; lia.
Qed.

Lemma mod_pow2_succ (m : Z) (n : Z) :
  0 <= m -> 0 <= n ->
  m mod 2 ^ (n + 1) = Z.b2z (Z.odd (m / 2 ^ n)) * 2 ^ n + m mod 2 ^ n.
Proof.
  intros Hm Hn.
  assert (Hp : 0 < 2 ^ n) by (apply Z.pow_pos_nonneg; lia).
  pose proof (Z.div_mod m (2 ^ n) ltac:(lia)) as H1.
  pose proof (Z.mod_pos_bound m (2 ^ n) Hp) as H2.
  pose proof (Z.div_mod (m / 2 ^ n) 2 ltac:(lia)) as H3.
  rewrite Zmod_odd in H3.
  symmetry. apply (Z.mod_unique _ _ (m / 2 ^ n / 2)).
  - left. rewrite Z.pow_add_r, Z.pow_1_r by lia.
    destruct (Z.odd (m / 2 ^ n)); cbn [Z.b2z]; lia.
  - rewrite Z.pow_add_r, Z.pow_1_r by lia.
    destruct (Z.odd (m / 2 ^ n)); cbn [Z.b2z] in *; nia.
Qed.

Lemma iter_shr_encodes (n : nat) (m : Z) (r s : bool) (a b : Z) :
  0 <= m -> encodes r s a b ->
  exists r' s',
    Nat.iter n shr_1 (Build_shr_record m r s) =
      Build_shr_record (m / 2 ^ Z.of_nat n) r' s' /\
    encodes r' s' ((m mod 2 ^ Z.of_nat n) * b + a) (b * 2 ^ Z.of_nat n).
Proof.
  intros Hm He. induction n as [|n IH].
  - exists r, s. simpl Nat.iter. change (2 ^ Z.of_nat 0) with 1.
    rewrite Z.div_1_r, Z.mod_1_r. split; [reflexivity|].
    replace (0 * b + a) with a by lia. replace (b * 1) with b by lia. exact He.
  - destruct IH as (r1 & s1 & Hit & Henc).
    rewrite Nat.iter_succ, Hit.
    assert (Hp : 0 < 2 ^ Z.of_nat n) by (apply Z.pow_pos_nonneg; lia).
    assert (Hq : 0 <= m / 2 ^ Z.of_nat n) by (apply Z.div_pos; lia).
    destruct (shr_1_encodes _ r1 s1 _ _ Hq Henc) as (r2 & s2 & Hs & Henc2).
    exists r2, s2. rewrite Hs. split.
    + f_equal. rewrite Nat2Z.inj_succ, Z.pow_succ_r by lia.
      rewrite Z.div_div by lia. f_equal. lia.
    + replace (Z.of_nat (S n)) with (Z.of_nat n + 1) by lia.
      rewrite (mod_pow2_succ m (Z.of_nat n) Hm) by lia.
      rewrite Z.pow_add_r, Z.pow_1_r by lia.
      match goal with H : encodes r2 s2 ?x ?y |- encodes r2 s2 ?x' ?y' =>
        replace x' with x by ring; replace y' with y by ring; exact H end.
Qed.

Lemma located_encodes (l : location) (m a b : Z) :
  located l a b ->
  exists r s, shr_record_of_loc m l = Build_shr_record m r s /\ encodes r s a b.
Proof.
  intros [Hab Hl]. unfold encodes.
  destruct l as [|[]]; cbn [shr_record_of_loc]; eexists; eexists;
    (split; [reflexivity|]); (split; [exact Hab|]); split; lia.
Qed.

Lemma rne_encodes (m : Z) (r s : bool) (a b : Z) :
  encodes r s a b ->
  round_nearest_even m (loc_of_shr_record (Build_shr_record m r s)) = nearest m a b.
Proof.
  intros (Hab & -> & ->). unfold nearest, round_nearest_even, loc_of_shr_record.
  destruct (Z.leb_spec b (2 * a)), (Z.eqb_spec a 0), (Z.eqb_spec (2 * a) b),
    (Z.ltb_spec (2 * a) b); simpl; try reflexivity; try lia.
Qed.

(** The first [shr_fexp] of [binary_round_aux], when the exponent is not
    above the one the format asks for. *)
Lemma shr_fexp_spec (m c : Z) (l : location) (a b : Z) :
  0 <= m -> located l a b ->
  let E := fexp64 (Zdigits2 m + c) in
  c <= E ->
  exists r s,
    shr_fexp 53 1024 m c l = (Build_shr_record (m / 2 ^ (E - c)) r s, E) /\
    encodes r s ((m mod 2 ^ (E - c)) * b + a) (b * 2 ^ (E - c)).
Proof.
  intros Hm Hl E Hc. unfold shr_fexp. rewrite fexp_64. fold E.
  destruct (located_encodes l m a b Hl) as (r0 & s0 & -> & Henc).
  unfold shr. destruct (E - c) as [|p|p] eqn:En; try lia.
  - exists r0, s0. change (2 ^ 0) with 1. rewrite Z.div_1_r, Z.mod_1_r.
    replace (0 * b + a) with a by lia. replace (b * 1) with b by lia.
    split; [f_equal; lia|exact Henc].
  - rewrite iter_pos_nat.
    destruct (iter_shr_encodes (Pos.to_nat p) m r0 s0 a b Hm Henc) as (r & s & Hit & He).
    rewrite positive_nat_Z in Hit, He.
    exists r, s. rewrite Hit. split; [f_equal; lia|exact He].
Qed.

Lemma nearest_bounds (m a b : Z) : m <= nearest m a b <= m + 1.
Proof. unfold nearest. destruct (2 * a <? b), (2 * a =? b), (Z.even m); lia. Qed.

Lemma nearest_exact (m b : Z) : 0 < b -> nearest m 0 b = m.
Proof. intros Hb. unfold nearest. destruct (Z.ltb_spec (2 * 0) b); [reflexivity|lia]. Qed.

Lemma div_pow2_lt (m d n : Z) :
  0 <= m < 2 ^ d -> 0 <= n <= d -> m / 2 ^ n < 2 ^ (d - n).
Proof.
  intros Hm Hn. apply Z.div_lt_upper_bound; [apply Z.pow_pos_nonneg; lia|].
  rewrite <- Z.pow_add_r by lia. replace (n + (d - n)) with d by lia. lia.
Qed.

(** The rounded mantissa has at most 53 digits, or is [2 ^ 53]. *)
Lemma rounded_mantissa_bound (m a b c : Z) :
  0 <= m ->
  let E := fexp64 (Zdigits2 m + c) in
  c <= E ->
  0 <= nearest (m / 2 ^ (E - c)) a b <= 2 ^ 53 /\
  (nearest (m / 2 ^ (E - c)) a b = 2 ^ 53 -> E = Zdigits2 m + c - 53).
Proof.
  intros Hm E Hc.
  pose proof (nearest_bounds (m / 2 ^ (E - c)) a b) as Hn.
  assert (Hp : 0 < 2 ^ (E - c)) by (apply Z.pow_pos_nonneg; lia).
  assert (Hq : 0 <= m / 2 ^ (E - c)) by (apply Z.div_pos; lia).
  destruct (Z.eq_dec m 0) as [->|Hm0].
  { rewrite Z.div_0_l in * by lia. split; [lia|]. intros H. exfalso.
    assert (1 < 2 ^ 53) by reflexivity. lia. }
  assert (Hm' : 0 < m) by lia.
  destruct (Zdigits2_bounds m Hm') as [_ Hd].
  pose proof (Zdigits2_nonneg m) as Hd0.
  set (d := Zdigits2 m) in *.
  assert (HE : d + c - 53 <= E /\ -1074 <= E) by (unfold E, fexp64; lia).
  destruct (Z_lt_le_dec d (E - c)) as [Hlt|Hle].
  - assert (m / 2 ^ (E - c) = 0).
    { apply Z.div_small. split; [lia|].
      assert (2 ^ d <= 2 ^ (E - c)) by (apply Z.pow_le_mono_r; lia). lia. }
    split; [|intros H1; exfalso]; assert (1 < 2 ^ 53) by reflexivity; lia.
  - pose proof (div_pow2_lt m d (E - c) (conj Hm Hd) ltac:(lia)) as Hlt.
    assert (H53 : 2 ^ (d - (E - c)) <= 2 ^ 53) by (apply Z.pow_le_mono_r; lia).
    split; [lia|]. intros H1.
    destruct (Z.eq_dec (d - (E - c)) 53) as [He|He]; [lia|exfalso].
    assert (2 ^ (d - (E - c)) <= 2 ^ 52) by (apply Z.pow_le_mono_r; lia).
    assert (2 ^ 52 < 2 ^ 53) by reflexivity. lia.
Qed.

Lemma shr_fexp_small (m e : Z) :
  0 <= m < 2 ^ 53 -> -1074 <= e ->
  shr_fexp 53 1024 m e loc_Exact = (Build_shr_record m false false, e).
Proof.
  intros Hm He. unfold shr_fexp. rewrite fexp_64. cbn [shr_record_of_loc].
  assert (Hn : fexp64 (Zdigits2 m + e) - e <= 0).
  { destruct (Z.eq_dec m 0) as [->|H0]; [simpl; unfold fexp64; lia|].
    destruct (Zdigits2_bounds m ltac:(lia)) as [Hlo _].
    assert (Zdigits2 m <= 53).
    { destruct (Z_le_gt_dec (Zdigits2 m) 53) as [H|H]; [exact H|exfalso].
      assert (2 ^ 53 <= 2 ^ (Zdigits2 m - 1)) by (apply Z.pow_le_mono_r; lia). lia. }
    unfold fexp64. lia. }
  unfold shr. destruct (fexp64 (Zdigits2 m + e) - e); try lia; reflexivity.
Qed.

Lemma shr_fexp_carry (e : Z) :
  -1074 <= e ->
  shr_fexp 53 1024 (2 ^ 53) e loc_Exact = (Build_shr_record (2 ^ 52) false false, e + 1).
Proof.
  intros He. unfold shr_fexp. rewrite fexp_64. cbn [shr_record_of_loc].
  change (Zdigits2 (2 ^ 53)) with 54.
  replace (fexp64 (54 + e) - e) with 1 by (unfold fexp64; lia).
  reflexivity.
Qed.

(** [binary_round_aux] on a mantissa whose exponent is not above the one
    the format asks for. *)
Lemma binary_round_aux_spec (s : bool) (m c : Z) (l : location) (a b : Z) :
  0 <= m -> located l a b -> c <= fexp64 (Zdigits2 m + c) ->
  binary_round_aux 53 1024 s m c l = pack s (round_at m a b c).
Proof.
  intros Hm Hl Hc. unfold binary_round_aux, round_at.
  destruct (shr_fexp_spec m c l a b Hm Hl Hc) as (r & s0 & -> & Henc).
  cbn [shr_m]. rewrite (rne_encodes _ r s0 _ _ Henc).
  set (E := fexp64 (Zdigits2 m + c)) in *.
  destruct (rounded_mantissa_bound m ((m mod 2 ^ (E - c)) * b + a) (b * 2 ^ (E - c)) c Hm Hc)
    as [Hb Hcarry].
  fold E in Hb, Hcarry.
  set (m' := nearest _ _ _) in *.
  assert (HE : -1074 <= E) by (unfold E, fexp64; lia).
  destruct (Z.eqb_spec m' (2 ^ 53)) as [->|Hne].
  - rewrite (shr_fexp_carry E HE). reflexivity.
  - rewrite (shr_fexp_small m' E ltac:(lia) HE). reflexivity.
Qed.

(** * Rounding is monotone *)

Lemma nearest_mono_frac (q r1 r2 U : Z) :
  r1 <= r2 -> nearest q r1 U <= nearest q r2 U.
Proof.
  intros H. unfold nearest.
  destruct (Z.ltb_spec (2 * r1) U), (Z.ltb_spec (2 * r2) U),
    (Z.eqb_spec (2 * r1) U), (Z.eqb_spec (2 * r2) U), (Z.even q); lia.
Qed.

Lemma rnu_mono (V1 V2 U : Z) : 0 < U -> V1 <= V2 -> rnu V1 U <= rnu V2 U.
Proof.
  intros HU HV. unfold rnu. apply Z.mul_le_mono_nonneg_l; [lia|].
  pose proof (Z.div_le_mono V1 V2 U HU HV) as Hq.
  destruct (Z.eq_dec (V1 / U) (V2 / U)) as [E|N].
  - rewrite E. apply nearest_mono_frac.
    pose proof (Z.div_mod V1 U ltac:(lia)). pose proof (Z.div_mod V2 U ltac:(lia)). nia.
  - pose proof (nearest_bounds (V1 / U) (V1 mod U) U).
    pose proof (nearest_bounds (V2 / U) (V2 mod U) U). lia.
Qed.

Lemma rnu_multiple (k U : Z) : 0 < U -> rnu (k * U) U = k * U.
Proof.
  intros HU. unfold rnu. rewrite Z.div_mul, Z.mod_mul by lia.
  rewrite nearest_exact by lia. ring.
Qed.

Lemma rnu_le_multiple (V k U : Z) : 0 < U -> V <= k * U -> rnu V U <= k * U.
Proof. intros HU H. rewrite <- (rnu_multiple k U HU). apply rnu_mono; assumption. Qed.

Lemma rnu_ge_multiple (V k U : Z) : 0 < U -> k * U <= V -> k * U <= rnu V U.
Proof. intros HU H. rewrite <- (rnu_multiple k U HU). apply rnu_mono; assumption. Qed.

Lemma rnu_bounds (V U : Z) : 0 < U -> 2 * Z.abs (rnu V U - V) <= U.
Proof.
  intros HU. unfold rnu, nearest.
  pose proof (Z.div_mod V U ltac:(lia)) as H. pose proof (Z.mod_pos_bound V U HU) as Hr.
  destruct (Z.ltb_spec (2 * (V mod U)) U), (Z.eqb_spec (2 * (V mod U)) U), (Z.even (V / U));
    nia.
Qed.

Lemma nearest_scale (q r u k : Z) : 0 < k -> nearest q (r * k) (u * k) = nearest q r u.
Proof.
  intros Hk. unfold nearest.
  destruct (Z.ltb_spec (2 * (r * k)) (u * k)), (Z.ltb_spec (2 * r) u),
    (Z.eqb_spec (2 * (r * k)) (u * k)), (Z.eqb_spec (2 * r) u); try reflexivity; nia.
Qed.

(** The value of the rounded mantissa and exponent. *)
Lemma round_at_sv (m c : Z) :
  0 <= m -> -2200 <= c ->
  let E := fexp64 (Zdigits2 m + c) in
  c <= E ->
  sv (round_at m 0 1 c) = rnu (m * 2 ^ (c + 2200)) (2 ^ (E + 2200)).
Proof.
  intros Hm HK E Hc. unfold round_at. fold E.
  assert (Hk : 0 < 2 ^ (c + 2200)) by (apply Z.pow_pos_nonneg; lia).
  assert (Hn : 0 < 2 ^ (E - c)) by (apply Z.pow_pos_nonneg; lia).
  assert (HU : 2 ^ (E + 2200) = 2 ^ (E - c) * 2 ^ (c + 2200)).
  { rewrite <- Z.pow_add_r by lia. f_equal. lia. }
  assert (Hv : rnu (m * 2 ^ (c + 2200)) (2 ^ (E + 2200)) =
               nearest (m / 2 ^ (E - c)) (m mod 2 ^ (E - c) * 1 + 0) (1 * 2 ^ (E - c))
               * 2 ^ (E + 2200)).
  { unfold rnu. rewrite HU.
    rewrite Z.div_mul_cancel_r by lia.
    rewrite Z.mul_mod_distr_r by lia.
    rewrite nearest_scale by lia.
    rewrite Z.mul_1_r, Z.add_0_r, Z.mul_1_l. ring. }
  rewrite Hv. set (m' := nearest _ _ _).
  destruct (Z.eqb_spec m' (2 ^ 53)) as [->|Hne]; unfold sv; cbn [fst snd]; [|reflexivity].
  replace (E + 1 + 2200) with (1 + (E + 2200)) by lia.
  rewrite Z.pow_add_r by (unfold E, fexp64; lia).
  change (2 ^ 53) with (2 ^ 52 * 2 ^ 1). ring.
Qed.

Lemma fexp64_mono (g1 g2 : Z) : g1 <= g2 -> fexp64 g1 <= fexp64 g2.
Proof. unfold fexp64. lia. Qed.

Lemma Zdigits2_mono_val (m1 c1 m2 c2 : Z) :
  0 < m1 -> 0 < m2 -> -2200 <= c1 -> -2200 <= c2 ->
  m1 * 2 ^ (c1 + 2200) <= m2 * 2 ^ (c2 + 2200) ->
  Zdigits2 m1 + c1 <= Zdigits2 m2 + c2.
Proof.
  intros H1 H2 K1 K2 Hv.
  destruct (Zdigits2_bounds m1 H1) as [L1 _], (Zdigits2_bounds m2 H2) as [_ U2].
  pose proof (Zdigits2_nonneg m1) as N1. pose proof (Zdigits2_nonneg m2) as N2.
  assert (Hd1 : 0 < Zdigits2 m1) by (destruct m1; simpl; lia).
  destruct (Z_le_gt_dec (Zdigits2 m1 + c1) (Zdigits2 m2 + c2)) as [H|H]; [exact H|exfalso].
  assert (A1 : 2 ^ (Zdigits2 m1 - 1 + (c1 + 2200)) <= m1 * 2 ^ (c1 + 2200)).
  { rewrite Z.pow_add_r by lia. apply Z.mul_le_mono_nonneg_r; [apply Z.pow_nonneg; lia|exact L1]. }
  assert (A2 : m2 * 2 ^ (c2 + 2200) < 2 ^ (Zdigits2 m2 + (c2 + 2200))).
  { rewrite (Z.pow_add_r 2 (Zdigits2 m2) (c2 + 2200)) by lia.
    apply Z.mul_lt_mono_pos_r; [apply Z.pow_pos_nonneg; lia|exact U2]. }
  assert (A3 : 2 ^ (Zdigits2 m2 + (c2 + 2200)) <= 2 ^ (Zdigits2 m1 - 1 + (c1 + 2200)))
    by (apply Z.pow_le_mono_r; lia).
  lia.
Qed.

(** Rounding is monotone in the value that is rounded. *)
Lemma round_at_mono (m1 c1 m2 c2 : Z) :
  0 < m1 -> 0 < m2 -> -2200 <= c1 -> -2200 <= c2 ->
  c1 <= fexp64 (Zdigits2 m1 + c1) -> c2 <= fexp64 (Zdigits2 m2 + c2) ->
  m1 * 2 ^ (c1 + 2200) <= m2 * 2 ^ (c2 + 2200) ->
  sv (round_at m1 0 1 c1) <= sv (round_at m2 0 1 c2).
Proof.
  intros H1 H2 K1 K2 I1 I2 Hv.
  rewrite !round_at_sv by lia.
  pose proof (Zdigits2_mono_val m1 c1 m2 c2 H1 H2 K1 K2 Hv) as Hg.
  set (g1 := Zdigits2 m1 + c1) in *. set (g2 := Zdigits2 m2 + c2) in *.
  pose proof (fexp64_mono g1 g2 Hg) as HE.
  destruct (Z.eq_dec (fexp64 g1) (fexp64 g2)) as [E|N].
  - rewrite E. apply rnu_mono; [apply Z.pow_pos_nonneg; lia|exact Hv].
  - (* the second value is in a higher binade: a power of two lies between *)
    assert (HE2 : fexp64 g2 = g2 - 53 /\ fexp64 g1 < g2 - 53 /\ g1 < g2)
      by (unfold fexp64 in *; lia).
    destruct HE2 as (HE2 & HE1 & Hg').
    destruct (Zdigits2_bounds m1 H1) as [_ U1], (Zdigits2_bounds m2 H2) as [L2 _].
    pose proof (Zdigits2_nonneg m1) as N1. pose proof (Zdigits2_nonneg m2) as N2.
    assert (Hd2 : 0 < Zdigits2 m2) by (destruct m2; simpl; lia).
    set (P := 2 ^ (g2 - 1 + 2200)).
    assert (HP1 : m1 * 2 ^ (c1 + 2200) <= P).
    { unfold P. apply (Z.le_trans _ (2 ^ (g1 + 2200))).
      - unfold g1. replace (Zdigits2 m1 + c1 + 2200) with (Zdigits2 m1 + (c1 + 2200)) by lia.
        rewrite (Z.pow_add_r 2 (Zdigits2 m1) (c1 + 2200)) by lia.
        apply Z.mul_le_mono_nonneg_r; [apply Z.pow_nonneg; lia|lia].
      - apply Z.pow_le_mono_r; lia. }
    assert (HP2 : P <= m2 * 2 ^ (c2 + 2200)).
    { unfold P, g2.
      replace (Zdigits2 m2 + c2 - 1 + 2200) with (Zdigits2 m2 - 1 + (c2 + 2200)) by lia.
      rewrite (Z.pow_add_r 2 (Zdigits2 m2 - 1) (c2 + 2200)) by lia.
      apply Z.mul_le_mono_nonneg_r; [apply Z.pow_nonneg; lia|lia]. }
    assert (F1 : -1074 <= fexp64 g1) by (unfold fexp64; lia).
    assert (M1 : P = 2 ^ (g2 - 1 - fexp64 g1) * 2 ^ (fexp64 g1 + 2200)).
    { unfold P. rewrite <- Z.pow_add_r by lia. f_equal. lia. }
    assert (M2 : P = 2 ^ (g2 - 1 - fexp64 g2) * 2 ^ (fexp64 g2 + 2200)).
    { unfold P. rewrite <- Z.pow_add_r by lia. f_equal. lia. }
    apply (Z.le_trans _ P).
    + rewrite M1. apply rnu_le_multiple; [apply Z.pow_pos_nonneg; lia|].
      rewrite <- M1. exact HP1.
    + rewrite M2 at 1. apply rnu_ge_multiple; [apply Z.pow_pos_nonneg; lia|].
      rewrite <- M2. exact HP2.
Qed.

(** A value that is representable is not changed by rounding. *)
Lemma rnu_id (V U : Z) : 0 < U -> V mod U = 0 -> rnu V U = V.
Proof.
  intros HU H. unfold rnu. rewrite H, nearest_exact by lia.
  pose proof (Z.div_mod V U ltac:(lia)). lia.
Qed.

(** ** Canonical mantissas *)

Lemma round_at_canonical (m a b c : Z) :
  0 < m -> 0 <= a < b -> c <= fexp64 (Zdigits2 m + c) ->
  canonical (round_at m a b c) /\ -1074 <= snd (round_at m a b c) /\
  0 <= fst (round_at m a b c).
Proof.
  intros Hm Hab Hc. unfold round_at.
  set (E := fexp64 (Zdigits2 m + c)) in *.
  destruct (rounded_mantissa_bound m ((m mod 2 ^ (E - c)) * b + a) (b * 2 ^ (E - c)) c
              ltac:(lia) Hc) as [Hb Hcarry].
  fold E in Hb, Hcarry.
  pose proof (nearest_bounds (m / 2 ^ (E - c)) ((m mod 2 ^ (E - c)) * b + a) (b * 2 ^ (E - c)))
    as Hnb.
  set (m' := nearest _ _ _) in *.
  assert (HE : -1074 <= E) by (unfold E, fexp64; lia).
  destruct (Z.eqb_spec m' (2 ^ 53)) as [Heq|Hne]; unfold canonical; cbn [fst snd].
  - split; [|split; [lia|]]; [|apply Z.pow_nonneg; lia].
    right. split; [reflexivity|].
    change (Zdigits2 (2 ^ 52)) with 53. unfold fexp64. lia.
  - split; [|split; lia].
    destruct (Z.eq_dec m' 0) as [H0|H0]; [left; exact H0|right].
    split; [lia|].
    destruct (Zdigits2_bounds m' ltac:(lia)) as [Lo Hi].
    pose proof (Zdigits2_nonneg m') as Hd0.
    assert (Hd : Zdigits2 m' <= 53).
    { destruct (Z_le_gt_dec (Zdigits2 m') 53) as [H|H]; [exact H|exfalso].
      assert (2 ^ 53 <= 2 ^ (Zdigits2 m' - 1)) by (apply Z.pow_le_mono_r; lia). lia. }
    destruct (Z.eq_dec E (-1074)) as [Emin|Enorm]; [unfold fexp64; lia|].
    (* normal range: the quotient keeps 53 digits *)
    assert (En : E = Zdigits2 m + c - 53) by (unfold E, fexp64 in *; lia).
    destruct (Zdigits2_bounds m Hm) as [Lm _].
    assert (Hq : 2 ^ 52 <= m / 2 ^ (E - c)).
    { apply Z.div_le_lower_bound; [apply Z.pow_pos_nonneg; lia|].
      rewrite <- Z.pow_add_r by lia.
      replace (E - c + 52) with (Zdigits2 m - 1) by lia. exact Lm. }
    assert (53 <= Zdigits2 m').
    { destruct (Z_le_gt_dec 53 (Zdigits2 m')) as [H|H]; [exact H|exfalso].
      assert (2 ^ Zdigits2 m' <= 2 ^ 52) by (apply Z.pow_le_mono_r; lia). lia. }
    unfold fexp64. lia.
Qed.

(** Canonical mantissas are ordered by exponent first. *)
Lemma canonical_order (m1 e1 m2 e2 : Z) :
  0 < m1 -> 0 < m2 -> -2200 <= e1 -> -2200 <= e2 ->
  canonical (m1, e1) -> canonical (m2, e2) ->
  (sv (m1, e1) <= sv (m2, e2) <-> e1 < e2 \/ (e1 = e2 /\ m1 <= m2)).
Proof.
  intros H1 H2 K1 K2 [C1|[_ C1]] [C2|[_ C2]]; cbn [fst snd] in *; try lia.
  unfold sv. cbn [fst snd].
  assert (Hlt : forall ma ea mb eb, 0 < ma -> 0 < mb -> -2200 <= ea -> -2200 <= eb ->
            fexp64 (Zdigits2 ma + ea) = ea -> fexp64 (Zdigits2 mb + eb) = eb ->
            ea < eb -> ma * 2 ^ (ea + 2200) < mb * 2 ^ (eb + 2200)).
  { intros ma ea mb eb Ha Hb Ka Kb Ca Cb Hab.
    destruct (Zdigits2_bounds ma Ha) as [_ Ua], (Zdigits2_bounds mb Hb) as [Lb _].
    pose proof (Zdigits2_nonneg ma) as Na. pose proof (Zdigits2_nonneg mb) as Nb.
    assert (Da : Zdigits2 ma <= 53) by (unfold fexp64 in Ca; lia).
    assert (Db : Zdigits2 mb = 53) by (unfold fexp64 in Ca, Cb; lia).
    rewrite Db in Lb. change (2 ^ (53 - 1)) with (2 ^ 52) in Lb.
    assert (A1 : ma * 2 ^ (ea + 2200) < 2 ^ 53 * 2 ^ (ea + 2200)).
    { apply Z.mul_lt_mono_pos_r; [apply Z.pow_pos_nonneg; lia|].
      assert (2 ^ Zdigits2 ma <= 2 ^ 53) by (apply Z.pow_le_mono_r; lia). lia. }
    assert (A2 : 2 ^ 52 * 2 ^ (eb + 2200) <= mb * 2 ^ (eb + 2200)).
    { apply Z.mul_le_mono_nonneg_r; [apply Z.pow_nonneg; lia|exact Lb]. }
    assert (A3 : 2 ^ 53 * 2 ^ (ea + 2200) <= 2 ^ 52 * 2 ^ (eb + 2200)).
    { rewrite <- !Z.pow_add_r by lia. apply Z.pow_le_mono_r; lia. }
    lia. }
  split.
  - intros Hv. destruct (Z.lt_trichotomy e1 e2) as [H|[H|H]]; [left; exact H| |].
    + right. split; [exact H|]. subst e2.
      apply (Z.mul_le_mono_pos_r _ _ (2 ^ (e1 + 2200))); [apply Z.pow_pos_nonneg; lia|exact Hv].
    + exfalso. pose proof (Hlt m2 e2 m1 e1 H2 H1 K2 K1 C2 C1 H). lia.
  - intros [H|[-> H]].
    + pose proof (Hlt m1 e1 m2 e2 H1 H2 K1 K2 C1 C2 H). lia.
    + apply Z.mul_le_mono_nonneg_r; [apply Z.pow_nonneg; lia|exact H].
Qed.

(** * Binary64 numbers and their values *)

Lemma huge_pos : 0 < huge.
Proof. apply Z.pow_pos_nonneg; lia. Qed.

Lemma binary64_finite (s : bool) (m : positive) (e : Z) :
  binary64 (S754_finite s m e) <->
  canonical (Z.pos m, e) /\ -1074 <= e <= 971.
Proof.
  unfold binary64, valid_binary, bounded, canonical_mantissa, canonical.
  rewrite fexp_64. cbn [fst snd]. change (Zdigits2 (Z.pos m)) with (Z.pos (digits2_pos m)).
  change (1024 - 53) with 971. unfold fexp64. split.
  - intros H. apply andb_true_iff in H. destruct H as [H1 H2].
    apply Z.eqb_eq in H1. apply Z.leb_le in H2. split; [right; split; lia|lia].
  - intros [[H|[_ H]] He]; [discriminate H|].
    apply andb_true_iff. split; [apply Z.eqb_eq; exact H|apply Z.leb_le; lia].
Qed.

(** A canonical mantissa at an exponent within range is below [huge], and
    one at a greater exponent is not. *)
Lemma canonical_below_huge (m e : Z) :
  0 < m -> -2200 <= e -> canonical (m, e) -> (sv (m, e) < huge <-> e <= 971).
Proof.
  intros Hm He [H|[_ H]]; cbn [fst snd] in *; [lia|].
  unfold sv, huge. cbn [fst snd].
  destruct (Zdigits2_bounds m Hm) as [Lo Hi].
  pose proof (Zdigits2_nonneg m) as Hd.
  assert (D53 : Zdigits2 m <= 53) by (unfold fexp64 in H; lia).
  assert (P : 0 < 2 ^ (e + 2200)) by (apply Z.pow_pos_nonneg; lia).
  split.
  - intros Hlt. destruct (Z_le_gt_dec e 971) as [L|G]; [exact L|exfalso].
    assert (Zdigits2 m = 53) by (unfold fexp64 in H; lia).
    assert (2 ^ 52 <= m) by (replace 52 with (Zdigits2 m - 1) by lia; exact Lo).
    assert (2 ^ 52 * 2 ^ (e + 2200) <= m * 2 ^ (e + 2200))
      by (apply Z.mul_le_mono_nonneg_r; lia).
    assert (2 ^ 3224 <= 2 ^ 52 * 2 ^ (e + 2200)).
    { rewrite <- Z.pow_add_r by lia. apply Z.pow_le_mono_r; lia. }
    lia.
  - intros L.
    assert (m < 2 ^ 53).
    { assert (2 ^ Zdigits2 m <= 2 ^ 53) by (apply Z.pow_le_mono_r; lia). lia. }
    assert (m * 2 ^ (e + 2200) < 2 ^ 53 * 2 ^ (e + 2200))
      by (apply Z.mul_lt_mono_pos_r; lia).
    assert (2 ^ 53 * 2 ^ (e + 2200) <= 2 ^ 3224).
    { rewrite <- Z.pow_add_r by lia. apply Z.pow_le_mono_r; lia. }
    lia.
Qed.

Lemma sv_pos (m e : Z) : 0 < m -> -2200 <= e -> 0 < sv (m, e).
Proof.
  intros Hm He. unfold sv. cbn [fst snd].
  apply Z.mul_pos_pos; [exact Hm|apply Z.pow_pos_nonneg; lia].
Qed.

(** A finite binary64 number lies strictly between the infinities. *)
Lemma ev_finite_bounds (x : F64.t) :
  binary64 x -> finite x -> - huge < ev x < huge.
Proof.
  intros Hv Hf. pose proof huge_pos as HP.
  destruct x as [s|s| |s m e]; try discriminate Hf; cbn [ev]; [lia|].
  apply binary64_finite in Hv. destruct Hv as [Hc He].
  pose proof (proj2 (canonical_below_huge (Z.pos m) e ltac:(lia) ltac:(lia) Hc) ltac:(lia)).
  pose proof (sv_pos (Z.pos m) e ltac:(lia) ltac:(lia)).
  destruct s; cbn [cond_Zopp]; lia.
Qed.

(** On binary64 numbers, the IEEE order is the order of the values. *)
Lemma ev_order (x y : F64.t) :
  binary64 x -> binary64 y -> not_nan x -> not_nan y ->
  (fle x y <-> ev x <= ev y).
Proof.
  intros Vx Vy Nx Ny. rewrite (leb_rank x y Nx Ny), lex_le_iff.
  pose proof huge_pos as HP.
  assert (Hpos : forall s m e, binary64 (S754_finite s m e) ->
            canonical (Z.pos m, e) /\ -2200 <= e /\
            0 < sv (Z.pos m, e) < huge).
  { intros s m e H. apply binary64_finite in H. destruct H as [Hc He].
    split; [exact Hc|]. split; [lia|]. split; [apply sv_pos; lia|].
    apply (canonical_below_huge (Z.pos m) e); try lia. exact Hc. }
  destruct x as [sx|sx| |sx mx ex]; try discriminate Nx;
    destruct y as [sy|sy| |sy my ey]; try discriminate Ny; cbn [rank ev];
    try (destruct (Hpos _ _ _ Vx) as (Cx & Kx & Px));
    try (destruct (Hpos _ _ _ Vy) as (Cy & Ky & Py));
    try destruct sx; try destruct sy; cbn [cond_Zopp]; try lia.
  - (* both negative *)
    pose proof (canonical_order (Z.pos my) ey (Z.pos mx) ex ltac:(lia) ltac:(lia) Ky Kx Cy Cx) as H.
    lia.
  - (* both positive *)
    pose proof (canonical_order (Z.pos mx) ex (Z.pos my) ey ltac:(lia) ltac:(lia) Kx Ky Cx Cy) as H.
    lia.
Qed.

(** The value of a packed canonical mantissa. *)
Lemma ev_pack (s : bool) (m e : Z) :
  0 <= m -> -2200 <= e -> canonical (m, e) ->
  ev (pack s (m, e)) = cond_Zopp s (Z.min (sv (m, e)) huge).
Proof.
  intros Hm He Hc. unfold pack. cbn [fst snd].
  destruct m as [|p|p]; try lia.
  - unfold sv. cbn [fst snd ev]. pose proof huge_pos.
    rewrite Z.mul_0_l, Z.min_l by lia. destruct s; reflexivity.
  - pose proof (canonical_below_huge (Z.pos p) e ltac:(lia) He Hc) as H.
    destruct (Z.leb_spec e 971); cbn [ev].
    + rewrite Z.min_l by lia. reflexivity.
    + rewrite Z.min_r by lia. reflexivity.
Qed.

Lemma binary64_pack (s : bool) (m e : Z) :
  0 <= m -> -1074 <= e -> canonical (m, e) -> binary64 (pack s (m, e)).
Proof.
  intros Hm He Hc. unfold pack. cbn [fst snd].
  destruct m as [|p|p]; try lia; [reflexivity|].
  destruct (Z.leb_spec e 971); [|reflexivity].
  apply binary64_finite. split; [exact Hc|lia].
Qed.

Lemma pack_not_nan (s : bool) (m e : Z) : 0 <= m -> not_nan (pack s (m, e)).
Proof.
  intros Hm. unfold pack. cbn [fst snd]. destruct m; try lia; [reflexivity|].
  destruct (e <=? 971); reflexivity.
Qed.

(** * Multiplication *)

Lemma located_exact : located loc_Exact 0 1.
Proof. unfold located. lia. Qed.

Lemma Zdigits2_mul (a b : Z) :
  0 < a -> 0 < b -> Zdigits2 a + Zdigits2 b - 1 <= Zdigits2 (a * b).
Proof.
  intros Ha Hb.
  destruct (Zdigits2_bounds a Ha) as [La _], (Zdigits2_bounds b Hb) as [Lb _].
  destruct (Zdigits2_bounds (a * b) ltac:(nia)) as [_ Uab].
  assert (Da : 0 < Zdigits2 a) by (destruct a; simpl; lia).
  assert (Db : 0 < Zdigits2 b) by (destruct b; simpl; lia).
  pose proof (Zdigits2_nonneg (a * b)) as Dab.
  destruct (Z_le_gt_dec (Zdigits2 a + Zdigits2 b - 1) (Zdigits2 (a * b))) as [H|H];
    [exact H|exfalso].
  assert (P : 2 ^ (Zdigits2 a - 1) * 2 ^ (Zdigits2 b - 1) <= a * b).
  { apply Z.mul_le_mono_nonneg; try assumption; apply Z.pow_nonneg; lia. }
  rewrite <- Z.pow_add_r in P by lia.
  assert (2 ^ Zdigits2 (a * b) <= 2 ^ (Zdigits2 a - 1 + (Zdigits2 b - 1)))
    by (apply Z.pow_le_mono_r; lia).
  lia.
Qed.

Lemma canonical_pos (m : positive) (e : Z) :
  canonical (Z.pos m, e) ->
  fexp64 (Z.pos (digits2_pos m) + e) = e.
Proof. intros [H|[_ H]]; [discriminate H|exact H]. Qed.

(** The product of two mantissas of binary64 numbers is never at an
    exponent above the one the format asks for. *)
Lemma mul_exponent_ok (mx my : positive) (ex ey : Z) :
  canonical (Z.pos mx, ex) -> canonical (Z.pos my, ey) ->
  ex + ey <= fexp64 (Zdigits2 (Z.pos mx * Z.pos my) + (ex + ey)).
Proof.
  intros Cx Cy. apply canonical_pos in Cx, Cy.
  pose proof (Zdigits2_mul (Z.pos mx) (Z.pos my) ltac:(lia) ltac:(lia)) as H.
  change (Zdigits2 (Z.pos mx)) with (Z.pos (digits2_pos mx)) in H.
  change (Zdigits2 (Z.pos my)) with (Z.pos (digits2_pos my)) in H.
  unfold fexp64 in *. lia.
Qed.

Lemma mul_finite_spec (sx sy : bool) (mx my : positive) (ex ey : Z) :
  binary64 (S754_finite sx mx ex) -> binary64 (S754_finite sy my ey) ->
  (S754_finite sx mx ex * S754_finite sy my ey)%f64 =
  pack (xorb sx sy) (round_at (Z.pos mx * Z.pos my) 0 1 (ex + ey)).
Proof.
  intros Vx Vy. apply binary64_finite in Vx, Vy.
  destruct Vx as [Cx _], Vy as [Cy _].
  unfold F64.mul, SFmul. rewrite Pos2Z.inj_mul.
  apply binary_round_aux_spec; [lia|exact located_exact|].
  apply mul_exponent_ok; assumption.
Qed.

Lemma round_at_mul_facts (mx my : positive) (ex ey : Z) :
  binary64 (S754_finite false mx ex) -> binary64 (S754_finite false my ey) ->
  let p := round_at (Z.pos mx * Z.pos my) 0 1 (ex + ey) in
  canonical (fst p, snd p) /\ -1074 <= snd p /\ 0 <= fst p.
Proof.
  intros Vx Vy p. apply binary64_finite in Vx, Vy.
  destruct Vx as [Cx _], Vy as [Cy _].
  destruct (round_at_canonical (Z.pos mx * Z.pos my) 0 1 (ex + ey) ltac:(lia) ltac:(lia)
              (mul_exponent_ok _ _ _ _ Cx Cy)) as (H1 & H2 & H3).
  fold p in H1, H2, H3. destruct p as [m e]. repeat split; assumption.
Qed.

(** The product of two binary64 numbers is a binary64 number, an infinity
    or a NaN. *)
Lemma mul_binary64 (x y : F64.t) : binary64 x -> binary64 y -> binary64 (x * y)%f64.
Proof.
  intros Vx Vy.
  destruct x as [sx|sx| |sx mx ex], y as [sy|sy| |sy my ey]; try reflexivity.
  rewrite (mul_finite_spec _ _ _ _ _ _ Vx Vy).
  assert (Vx' : binary64 (S754_finite false mx ex)) by exact Vx.
  assert (Vy' : binary64 (S754_finite false my ey)) by exact Vy.
  destruct (round_at_mul_facts mx my ex ey Vx' Vy') as (H1 & H2 & H3).
  destruct (round_at _ _ _ _) as [m e]. apply binary64_pack; assumption.
Qed.

(** The value of a product. *)
Lemma ev_mul_finite (sx sy : bool) (mx my : positive) (ex ey : Z) :
  binary64 (S754_finite sx mx ex) -> binary64 (S754_finite sy my ey) ->
  ev (S754_finite sx mx ex * S754_finite sy my ey)%f64 =
  cond_Zopp (xorb sx sy)
    (Z.min (sv (round_at (Z.pos mx * Z.pos my) 0 1 (ex + ey))) huge).
Proof.
  intros Vx Vy. rewrite (mul_finite_spec _ _ _ _ _ _ Vx Vy).
  assert (Vx' : binary64 (S754_finite false mx ex)) by exact Vx.
  assert (Vy' : binary64 (S754_finite false my ey)) by exact Vy.
  destruct (round_at_mul_facts mx my ex ey Vx' Vy') as (H1 & H2 & H3).
  destruct (round_at _ _ _ _) as [m e]. cbn [fst snd] in *.
  apply ev_pack; [assumption|lia|assumption].
Qed.

(** Multiplying two positive numbers by the same positive number keeps
    their order. *)
Lemma mul_mono_pos (m1 m2 ms : positive) (e1 e2 es : Z) :
  binary64 (S754_finite false m1 e1) -> binary64 (S754_finite false m2 e2) ->
  binary64 (S754_finite false ms es) ->
  sv (Z.pos m1, e1) <= sv (Z.pos m2, e2) ->
  sv (round_at (Z.pos m1 * Z.pos ms) 0 1 (e1 + es)) <=
  sv (round_at (Z.pos m2 * Z.pos ms) 0 1 (e2 + es)).
Proof.
  intros V1 V2 Vs Hv. apply binary64_finite in V1, V2, Vs.
  destruct V1 as [C1 B1], V2 as [C2 B2], Vs as [Cs Bs].
  apply round_at_mono; try lia; try (apply mul_exponent_ok; assumption).
  unfold sv in Hv. cbn [fst snd] in Hv.
  assert (E1 : 2 ^ (e1 + 2200) = 2 ^ (e1 + 1074) * 2 ^ 1126)
    by (rewrite <- Z.pow_add_r by lia; f_equal; lia).
  assert (E2 : 2 ^ (e2 + 2200) = 2 ^ (e2 + 1074) * 2 ^ 1126)
    by (rewrite <- Z.pow_add_r by lia; f_equal; lia).
  assert (E1' : 2 ^ (e1 + es + 2200) = 2 ^ (e1 + 1074) * 2 ^ (es + 1126))
    by (rewrite <- Z.pow_add_r by lia; f_equal; lia).
  assert (E2' : 2 ^ (e2 + es + 2200) = 2 ^ (e2 + 1074) * 2 ^ (es + 1126))
    by (rewrite <- Z.pow_add_r by lia; f_equal; lia).
  rewrite E1, E2 in Hv. rewrite E1', E2'.
  assert (P : 0 < 2 ^ 1126) by reflexivity.
  assert (Q : 0 < Z.pos ms * 2 ^ (es + 1126))
    by (apply Z.mul_pos_pos; [lia|apply Z.pow_pos_nonneg; lia]).
  assert (H : Z.pos m1 * 2 ^ (e1 + 1074) <= Z.pos m2 * 2 ^ (e2 + 1074)) by nia.
  nia.
Qed.

(** * Rounding as a function of the value *)

Lemma round_at_nonneg (m c : Z) :
  0 < m -> c <= fexp64 (Zdigits2 m + c) -> -2200 <= c -> 0 <= sv (round_at m 0 1 c).
Proof.
  intros Hm Hc HK.
  destruct (round_at_canonical m 0 1 c Hm ltac:(lia) Hc) as (_ & He & Hf).
  unfold sv. apply Z.mul_nonneg_nonneg; [exact Hf|apply Z.pow_nonneg; lia].
Qed.

Lemma fexp64_ge (g : Z) : -1074 <= fexp64 g.
Proof. unfold fexp64. lia. Qed.

(** Rounding depends on the value only, not on how it is written as a
    mantissa and an exponent. *)
Lemma round_at_rep (m c : Z) :
  0 < m -> -2200 <= c -> c <= fexp64 (Zdigits2 m + c) ->
  sv (round_at m 0 1 c) = sv (round_at (m * 2 ^ (c + 2200)) 0 1 (-2200)).
Proof.
  intros Hm HK Hc.
  assert (P : 0 < 2 ^ (c + 2200)) by (apply Z.pow_pos_nonneg; lia).
  assert (Hm' : 0 < m * 2 ^ (c + 2200)) by (apply Z.mul_pos_pos; assumption).
  pose proof (fexp64_ge (Zdigits2 (m * 2 ^ (c + 2200)) + -2200)) as Hc'.
  apply Z.le_antisymm; apply round_at_mono; try lia;
    change (-2200 + 2200) with 0; rewrite Z.pow_0_r; lia.
Qed.

Lemma RN_0 : RN 0 = 0.
Proof. reflexivity. Qed.

Lemma RN_pos (W : Z) :
  0 < W -> RN W = Z.min (sv (round_at W 0 1 (-2200))) huge /\ 0 <= RN W.
Proof.
  intros H. unfold RN.
  destruct (Z.eqb_spec W 0); [lia|]. destruct (Z.ltb_spec W 0); [lia|].
  rewrite Z.abs_eq by lia. split; [reflexivity|].
  pose proof (round_at_nonneg W (-2200) H ltac:(pose proof (fexp64_ge (Zdigits2 W + -2200)); lia)
                ltac:(lia)).
  pose proof huge_pos. lia.
Qed.

Lemma RN_neg (W : Z) : W < 0 -> RN W = - RN (- W).
Proof.
  intros H. unfold RN.
  destruct (Z.eqb_spec W 0); [lia|]. destruct (Z.ltb_spec W 0); [|lia].
  destruct (Z.eqb_spec (- W) 0); [lia|]. destruct (Z.ltb_spec (- W) 0); [lia|].
  rewrite Z.abs_opp. reflexivity.
Qed.

Lemma RN_opp (W : Z) : RN (- W) = - RN W.
Proof.
  destruct (Z.lt_trichotomy W 0) as [H|[->|H]].
  - rewrite (RN_neg W H). lia.
  - reflexivity.
  - rewrite (RN_neg (- W)) by lia. rewrite Z.opp_involutive. reflexivity.
Qed.

Lemma RN_mono_pos (W1 W2 : Z) : 0 < W1 -> W1 <= W2 -> RN W1 <= RN W2.
Proof.
  intros H1 H12.
  rewrite (proj1 (RN_pos W1 H1)), (proj1 (RN_pos W2 ltac:(lia))).
  apply Z.min_le_compat_r.
  pose proof (fexp64_ge (Zdigits2 W1 + -2200)). pose proof (fexp64_ge (Zdigits2 W2 + -2200)).
  apply round_at_mono; lia.
Qed.

(** Rounding is monotone. *)
Lemma RN_mono (W1 W2 : Z) : W1 <= W2 -> RN W1 <= RN W2.
Proof.
  intros H.
  destruct (Z.lt_trichotomy W1 0) as [N1|[->|P1]];
    destruct (Z.lt_trichotomy W2 0) as [N2|[->|P2]]; try lia.
  - rewrite (RN_neg W1 N1), (RN_neg W2 N2).
    pose proof (RN_mono_pos (- W2) (- W1) ltac:(lia) ltac:(lia)). lia.
  - rewrite (RN_neg W1 N1), RN_0.
    pose proof (proj2 (RN_pos (- W1) ltac:(lia))). lia.
  - rewrite (RN_neg W1 N1).
    pose proof (proj2 (RN_pos (- W1) ltac:(lia))). pose proof (proj2 (RN_pos W2 P2)). lia.
  - rewrite RN_0. exact (proj2 (RN_pos W2 P2)).
  - apply RN_mono_pos; assumption.
Qed.

(** What a positive mantissa at an exponent rounds to. *)
Lemma RN_rep (m c : Z) :
  0 < m -> -2200 <= c -> c <= fexp64 (Zdigits2 m + c) ->
  RN (m * 2 ^ (c + 2200)) = Z.min (sv (round_at m 0 1 c)) huge.
Proof.
  intros Hm HK Hc.
  assert (P : 0 < 2 ^ (c + 2200)) by (apply Z.pow_pos_nonneg; lia).
  rewrite (proj1 (RN_pos (m * 2 ^ (c + 2200)) ltac:(apply Z.mul_pos_pos; assumption))).
  rewrite <- round_at_rep by assumption. reflexivity.
Qed.

(** A binary64 number is its own rounding. *)
Lemma round_at_id (m e : Z) :
  0 < m -> canonical (m, e) -> -2200 <= e ->
  sv (round_at m 0 1 e) = sv (m, e).
Proof.
  intros Hm [H|[_ H]] HK; cbn [fst snd] in *; [lia|].
  rewrite round_at_sv by lia. rewrite H.
  unfold sv. cbn [fst snd]. apply rnu_multiple. apply Z.pow_pos_nonneg; lia.
Qed.

Lemma RN_id (x : F64.t) : binary64 x -> finite x -> RN (ev x) = ev x.
Proof.
  intros Vx Fx. destruct x as [s|s| |s m e]; try discriminate Fx; [reflexivity|].
  pose proof (ev_finite_bounds _ Vx Fx) as Hb.
  apply binary64_finite in Vx. destruct Vx as [Hc He].
  assert (Hpos : RN (sv (Z.pos m, e)) = sv (Z.pos m, e)).
  { unfold sv at 1. cbn [fst snd].
    rewrite RN_rep; try lia.
    - rewrite round_at_id by (try lia; exact Hc).
      cbn [ev] in Hb. destruct s; cbn [cond_Zopp] in Hb; lia.
    - destruct Hc as [H|[_ H]]; cbn [fst snd] in *; [lia|]. lia. }
  cbn [ev]. destruct s; cbn [cond_Zopp]; [|exact Hpos].
  rewrite RN_opp, Hpos. reflexivity.
Qed.

Lemma RN_bounds (W : Z) : - huge <= RN W <= huge.
Proof.
  pose proof huge_pos.
  destruct (Z.lt_trichotomy W 0) as [N|[->|P]].
  - rewrite (RN_neg W N). pose proof (RN_pos (- W) ltac:(lia)) as [E H0]. lia.
  - rewrite RN_0. lia.
  - pose proof (RN_pos W P) as [E H0]. lia.
Qed.

(** ** The value of a product *)

Lemma ev_nonfinite_cases (x : F64.t) :
  finite x -> (exists s, x = S754_zero s) \/ (exists s m e, x = S754_finite s m e).
Proof.
  destruct x as [s|s| |s m e]; intros H; try discriminate H;
    [left; eexists; reflexivity|right; eexists; eexists; eexists; reflexivity].
Qed.

Lemma ev_mul (x y : F64.t) :
  binary64 x -> binary64 y -> finite x -> finite y ->
  ev (x * y)%f64 = RN (ev x * ev y / 2 ^ 2200).
Proof.
  intros Vx Vy Fx Fy.
  destruct x as [sx|sx| |sx mx ex]; try discriminate Fx;
    destruct y as [sy|sy| |sy my ey]; try discriminate Fy.
  - reflexivity.
  - cbn [ev F64.mul SFmul]. rewrite Z.mul_0_l. reflexivity.
  - cbn [ev F64.mul SFmul]. rewrite Z.mul_0_r. reflexivity.
  - rewrite (ev_mul_finite _ _ _ _ _ _ Vx Vy).
    pose proof Vx as Vx'. pose proof Vy as Vy'.
    apply binary64_finite in Vx', Vy'. destruct Vx' as [Cx Bx], Vy' as [Cy By].
    pose proof (mul_exponent_ok _ _ _ _ Cx Cy) as Hok.
    rewrite <- RN_rep by lia.
    assert (Hv : sv (Z.pos mx, ex) * sv (Z.pos my, ey) =
                 Z.pos mx * Z.pos my * 2 ^ (ex + ey + 2200) * 2 ^ 2200).
    { unfold sv. cbn [fst snd].
      assert (Hp : 2 ^ (ex + ey + 2200) * 2 ^ 2200 = 2 ^ (ex + 2200) * 2 ^ (ey + 2200))
        by (rewrite <- !Z.pow_add_r by lia; f_equal; lia).
      rewrite <- (Z.mul_assoc (Z.pos mx * Z.pos my)), Hp. ring. }
    cbn [ev].
    assert (P : 0 < 2 ^ 2200) by reflexivity.
    set (K := 2 ^ 2200) in *. set (A := sv (Z.pos mx, ex)) in *.
    set (B := sv (Z.pos my, ey)) in *.
    set (Q := Z.pos mx * Z.pos my * 2 ^ (ex + ey + 2200)) in *.
    destruct sx, sy; cbn [cond_Zopp xorb].
    + replace (- A * - B) with (Q * K) by lia.
      rewrite Z.div_mul by lia. reflexivity.
    + replace (- A * B) with (- Q * K) by lia.
      rewrite Z.div_mul by lia. rewrite RN_opp. reflexivity.
    + replace (A * - B) with (- Q * K) by lia.
      rewrite Z.div_mul by lia. rewrite RN_opp. reflexivity.
    + rewrite Hv, Z.div_mul by lia. reflexivity.
Qed.

(** Multiplying by a number that is not negative keeps the order. *)
Lemma mul_mono (x1 x2 s : F64.t) :
  binary64 x1 -> binary64 x2 -> binary64 s ->
  finite x1 -> finite x2 -> finite s -> fle F64.zero s ->
  fle x1 x2 -> fle (x1 * s)%f64 (x2 * s)%f64.
Proof.
  intros V1 V2 Vs F1 F2 Fs Hs H12.
  apply ev_order; try (apply mul_binary64; assumption);
    try (apply mul_not_nan; assumption).
  rewrite !ev_mul by assumption.
  apply RN_mono. apply Z.div_le_mono; [reflexivity|].
  pose proof (proj1 (ev_order x1 x2 V1 V2 (finite_not_nan _ F1) (finite_not_nan _ F2)) H12)
    as H12'.
  pose proof (proj1 (ev_order F64.zero s eq_refl Vs eq_refl (finite_not_nan _ Fs)) Hs) as Hs'.
  cbn [ev F64.zero] in Hs'.
  apply Z.mul_le_mono_nonneg_r; assumption.
Qed.

(** * Addition and subtraction *)

Lemma iter_xO (m d : positive) : Z.pos (Pos.iter xO m d) = Z.pos m * 2 ^ Z.pos d.
Proof.
  induction d as [|d IH] using Pos.peano_ind.
  - simpl Pos.iter. rewrite Z.pow_1_r, Pos2Z.inj_xO. lia.
  - rewrite Pos.iter_succ, Pos2Z.inj_xO, IH, Pos2Z.inj_succ, Z.pow_succ_r by lia. ring.
Qed.

Lemma shl_align_spec (m : positive) (e e' : Z) :
  e' <= e ->
  Z.pos (fst (shl_align m e e')) = Z.pos m * 2 ^ (e - e') /\
  snd (shl_align m e e') = e'.
Proof.
  intros H. unfold shl_align. destruct (e' - e) as [|p|p] eqn:E; try lia.
  - cbn [fst snd]. replace (e - e') with 0 by lia. rewrite Z.pow_0_r. lia.
  - cbn [fst snd]. rewrite iter_xO. replace (e - e') with (Z.pos p) by lia. lia.
Qed.

Lemma shl_align_above (m : positive) (e e' : Z) :
  e <= e' -> shl_align m e e' = (m, e).
Proof.
  intros H. unfold shl_align. destruct (e' - e) as [|p|p] eqn:E; try lia; reflexivity.
Qed.

Lemma Zdigits2_shift (m k : Z) :
  0 < m -> 0 <= k -> Zdigits2 (m * 2 ^ k) = Zdigits2 m + k.
Proof.
  intros Hm Hk. destruct (Zdigits2_bounds m Hm) as [Lo Hi].
  assert (Hd : 0 < Zdigits2 m) by (destruct m; simpl; lia).
  assert (P : 0 < 2 ^ k) by (apply Z.pow_pos_nonneg; lia).
  apply Zdigits2_unique; [|lia]. split.
  - replace (Zdigits2 m + k - 1) with (Zdigits2 m - 1 + k) by lia.
    rewrite Z.pow_add_r by lia. apply Z.mul_le_mono_nonneg_r; lia.
  - rewrite Z.pow_add_r by lia. apply Z.mul_lt_mono_pos_r; lia.
Qed.

(** [binary_round] of a mantissa at an exponent: a binary64 number, the
    rounding of its value. *)
Lemma binary_round_ev (s : bool) (m : positive) (e : Z) :
  -2200 <= e ->
  binary64 (binary_round 53 1024 s m e) /\
  not_nan (binary_round 53 1024 s m e) /\
  ev (binary_round 53 1024 s m e) = cond_Zopp s (RN (Z.pos m * 2 ^ (e + 2200))).
Proof.
  intros HK. unfold binary_round. rewrite fexp_64.
  set (E0 := fexp64 (Z.pos (digits2_pos m) + e)).
  assert (HE0 : -1074 <= E0) by apply fexp64_ge.
  assert (Hrep : exists mz cz,
            shl_align m e E0 = (mz, cz) /\ -2200 <= cz /\
            cz <= fexp64 (Zdigits2 (Z.pos mz) + cz) /\
            Z.pos mz * 2 ^ (cz + 2200) = Z.pos m * 2 ^ (e + 2200)).
  { destruct (Z_lt_le_dec E0 e) as [L|G].
    - destruct (shl_align_spec m e E0 ltac:(lia)) as [Hm Hc].
      destruct (shl_align m e E0) as [mz cz]. cbn [fst snd] in Hm, Hc. subst cz.
      exists mz, E0. split; [reflexivity|]. split; [lia|]. split.
      + rewrite Hm, Zdigits2_shift by lia.
        change (Zdigits2 (Z.pos m)) with (Z.pos (digits2_pos m)).
        replace (Z.pos (digits2_pos m) + (e - E0) + E0) with (Z.pos (digits2_pos m) + e) by lia.
        fold E0. lia.
      + rewrite Hm, <- Z.mul_assoc, <- Z.pow_add_r by lia. do 2 f_equal. lia.
    - exists m, e. rewrite (shl_align_above m e E0 G).
      split; [reflexivity|]. split; [lia|]. split; [exact G|reflexivity]. }
  destruct Hrep as (mz & cz & -> & Kz & Hok & Hval).
  rewrite (binary_round_aux_spec s (Z.pos mz) cz loc_Exact 0 1 ltac:(lia) located_exact Hok).
  destruct (round_at_canonical (Z.pos mz) 0 1 cz ltac:(lia) ltac:(lia) Hok) as (Hc & He & Hf).
  rewrite <- Hval, (RN_rep (Z.pos mz) cz ltac:(lia) Kz Hok).
  destruct (round_at (Z.pos mz) 0 1 cz) as [m' e']. cbn [fst snd] in *.
  split; [apply binary64_pack; assumption|].
  split; [apply pack_not_nan; assumption|].
  apply ev_pack; [assumption|lia|assumption].
Qed.

Lemma binary_normalize_ev (S e : Z) :
  -2200 <= e ->
  binary64 (binary_normalize 53 1024 S e false) /\
  not_nan (binary_normalize 53 1024 S e false) /\
  ev (binary_normalize 53 1024 S e false) = RN (S * 2 ^ (e + 2200)).
Proof.
  intros HK. unfold binary_normalize. destruct S as [|p|p].
  - repeat split.
  - destruct (binary_round_ev false p e HK) as (H1 & H2 & H3).
    split; [exact H1|]. split; [exact H2|]. exact H3.
  - destruct (binary_round_ev true p e HK) as (H1 & H2 & H3).
    split; [exact H1|]. split; [exact H2|]. rewrite H3. cbn [cond_Zopp].
    rewrite <- RN_opp. f_equal. lia.
Qed.

(** The aligned mantissa of a binary64 number, times the unit of the
    common exponent, is its value. *)
Lemma aligned_value (s : bool) (m : positive) (e ez : Z) :
  -2200 <= ez -> ez <= e ->
  cond_Zopp s (Z.pos (fst (shl_align m e ez))) * 2 ^ (ez + 2200) =
  ev (S754_finite s m e).
Proof.
  intros HK H. destruct (shl_align_spec m e ez H) as [-> _]. cbn [ev]. unfold sv.
  cbn [fst snd].
  assert (Hp : 2 ^ (e - ez) * 2 ^ (ez + 2200) = 2 ^ (e + 2200))
    by (rewrite <- Z.pow_add_r by lia; f_equal; lia).
  destruct s; cbn [cond_Zopp]; rewrite <- Hp; ring.
Qed.

(** The sum of two finite binary64 numbers is a binary64 number or an
    infinity: the rounding of the sum of the values. *)
Lemma add_finite (x y : F64.t) :
  binary64 x -> binary64 y -> finite x -> finite y ->
  binary64 (x + y)%f64 /\ not_nan (x + y)%f64 /\
  ev (x + y)%f64 = RN (ev x + ev y).
Proof.
  intros Vx Vy Fx Fy.
  destruct x as [sx|sx| |sx mx ex]; try discriminate Fx;
    destruct y as [sy|sy| |sy my ey]; try discriminate Fy.
  - destruct sx, sy; repeat split.
  - cbn [F64.add SFadd]. split; [exact Vy|]. split; [reflexivity|].
    rewrite Z.add_0_l. symmetry. apply RN_id; assumption.
  - cbn [F64.add SFadd]. split; [exact Vx|]. split; [reflexivity|].
    change (ev (S754_zero sy)) with 0. rewrite Z.add_0_r. symmetry. apply RN_id; assumption.
  - pose proof Vx as Vx'. pose proof Vy as Vy'.
    apply binary64_finite in Vx', Vy'. destruct Vx' as [_ Bx], Vy' as [_ By].
    unfold F64.add, SFadd, F64.prec, F64.emax. cbv zeta.
    set (ez := Z.min ex ey).
    destruct (binary_normalize_ev
                (cond_Zopp sx (Z.pos (fst (shl_align mx ex ez))) +
                 cond_Zopp sy (Z.pos (fst (shl_align my ey ez)))) ez ltac:(lia))
      as (H1 & H2 & H3).
    split; [exact H1|]. split; [exact H2|]. rewrite H3. f_equal.
    rewrite Z.mul_add_distr_r.
    rewrite !aligned_value by lia. reflexivity.
Qed.

Lemma sub_finite (x y : F64.t) :
  binary64 x -> binary64 y -> finite x -> finite y ->
  binary64 (x - y)%f64 /\ not_nan (x - y)%f64 /\
  ev (x - y)%f64 = RN (ev x - ev y).
Proof.
  intros Vx Vy Fx Fy.
  destruct x as [sx|sx| |sx mx ex]; try discriminate Fx;
    destruct y as [sy|sy| |sy my ey]; try discriminate Fy.
  - destruct sx, sy; repeat split.
  - cbn [F64.sub SFsub]. split; [exact Vy|]. split; [reflexivity|].
    change (ev (S754_zero sx)) with 0. rewrite Z.sub_0_l, RN_opp.
    rewrite (RN_id _ Vy Fy). cbn [ev]. destruct sy; cbn [cond_Zopp negb]; lia.
  - cbn [F64.sub SFsub]. split; [exact Vx|]. split; [reflexivity|].
    change (ev (S754_zero sy)) with 0. rewrite Z.sub_0_r. symmetry. apply RN_id; assumption.
  - pose proof Vx as Vx'. pose proof Vy as Vy'.
    apply binary64_finite in Vx', Vy'. destruct Vx' as [_ Bx], Vy' as [_ By].
    unfold F64.sub, SFsub, F64.prec, F64.emax. cbv zeta.
    set (ez := Z.min ex ey).
    destruct (binary_normalize_ev
                (cond_Zopp sx (Z.pos (fst (shl_align mx ex ez))) -
                 cond_Zopp sy (Z.pos (fst (shl_align my ey ez)))) ez ltac:(lia))
      as (H1 & H2 & H3).
    split; [exact H1|]. split; [exact H2|]. rewrite H3. f_equal.
    rewrite Z.mul_sub_distr_r.
    rewrite !aligned_value by lia. reflexivity.
Qed.

Lemma ev_le_huge (x : F64.t) : binary64 x -> - huge <= ev x <= huge.
Proof.
  intros Vx. pose proof huge_pos.
  destruct x as [s|s| |s m e]; cbn [ev]; try lia.
  - destruct s; cbn [cond_Zopp]; lia.
  - pose proof (ev_finite_bounds _ Vx eq_refl) as H'. cbn [ev] in H'. lia.
Qed.

(** Adding the same finite number keeps the order. *)
Lemma add_mono (x1 x2 c : F64.t) :
  binary64 x1 -> binary64 x2 -> binary64 c ->
  not_nan x1 -> not_nan x2 -> finite c ->
  fle x1 x2 -> fle (x1 + c)%f64 (x2 + c)%f64.
Proof.
  intros V1 V2 Vc N1 N2 Fc H12.
  pose proof (proj1 (ev_order x1 x2 V1 V2 N1 N2) H12) as Hev.
  pose proof huge_pos as HP.
  assert (Hinf : forall s, (S754_infinity s + c)%f64 = S754_infinity s).
  { intros s. destruct c as [sc|sc| |sc mc ec]; try discriminate Fc; reflexivity. }
  assert (Hfin : forall x, binary64 x -> finite x ->
            binary64 (x + c)%f64 /\ not_nan (x + c)%f64 /\
            - huge <= ev (x + c)%f64 <= huge).
  { intros x Vx Fx. destruct (add_finite x c Vx Vc Fx Fc) as (H1 & H2 & H3).
    split; [exact H1|]. split; [exact H2|]. apply ev_le_huge. exact H1. }
  destruct (F64.is_finite x1) eqn:F1, (F64.is_finite x2) eqn:F2.
  - destruct (add_finite x1 c V1 Vc F1 Fc) as (A1 & B1 & C1).
    destruct (add_finite x2 c V2 Vc F2 Fc) as (A2 & B2 & C2).
    apply ev_order; try assumption. rewrite C1, C2. apply RN_mono. lia.
  - destruct (Hfin x1 V1 F1) as (A1 & B1 & C1).
    destruct x2 as [s|[]| |s m e]; try discriminate F2; try discriminate N2.
    + exfalso. pose proof (ev_finite_bounds x1 V1 F1). cbn [ev cond_Zopp] in Hev. lia.
    + rewrite Hinf. apply ev_order; try assumption; try reflexivity. cbn [ev cond_Zopp]. lia.
  - destruct (Hfin x2 V2 F2) as (A2 & B2 & C2).
    destruct x1 as [s|[]| |s m e]; try discriminate F1; try discriminate N1.
    + rewrite Hinf. apply ev_order; try assumption; try reflexivity. cbn [ev cond_Zopp]. lia.
    + exfalso. pose proof (ev_finite_bounds x2 V2 F2). cbn [ev cond_Zopp] in Hev. lia.
  - destruct x1 as [s|[]| |s m e]; try discriminate F1; try discriminate N1;
      destruct x2 as [s'|[]| |s' m' e']; try discriminate F2; try discriminate N2;
      rewrite !Hinf; try reflexivity.
    exfalso. cbn [ev cond_Zopp] in Hev. lia.
Qed.

(** * Division *)

Lemma new_location_located (nb k : Z) :
  0 <= k < nb -> located (new_location nb k) k nb.
Proof.
  intros H. unfold located, new_location, new_location_even, new_location_odd.
  split; [exact H|].
  destruct (Z.even nb) eqn:Ev.
  - destruct (Z.eqb_spec k 0); [assumption|].
    destruct (Z.compare_spec (2 * k) nb); lia.
  - destruct (Z.eqb_spec k 0); [assumption|].
    assert (Ho : Z.odd nb = true) by (rewrite <- Z.negb_even, Ev; reflexivity).
    apply Z.odd_spec in Ho. destruct Ho as [j Hj].
    destruct (Z.compare_spec (2 * k + 1) nb); lia.
Qed.

(** Rounding a mantissa that may be zero. *)
Lemma round_at_canonical_0 (m a b c : Z) :
  0 <= m -> (m = 0 -> c <= -1074) -> 0 <= a < b -> c <= fexp64 (Zdigits2 m + c) ->
  canonical (round_at m a b c) /\ -1074 <= snd (round_at m a b c) /\
  0 <= fst (round_at m a b c).
Proof.
  intros Hm H0 Hab Hc.
  destruct (Z.eq_dec m 0) as [->|Hne]; [|apply round_at_canonical; lia].
  specialize (H0 eq_refl). unfold round_at. cbn [Zdigits2].
  replace (fexp64 (0 + c)) with (-1074) by (unfold fexp64; lia).
  rewrite Z.div_0_l by (apply Z.pow_nonzero; lia).
  pose proof (nearest_bounds 0 (0 mod 2 ^ (-1074 - c) * b + a) (b * 2 ^ (-1074 - c))) as Hn.
  set (m' := nearest _ _ _) in *.
  destruct (Z.eqb_spec m' (2 ^ 53)) as [E|_].
  - exfalso. assert (1 < 2 ^ 53) by reflexivity. lia.
  - unfold canonical. cbn [fst snd]. split; [|lia].
    destruct (Z.eq_dec m' 0) as [E|N]; [left; exact E|right].
    replace m' with 1 by lia. split; [lia|reflexivity].
Qed.

(** The quotient and remainder [SFdiv] hands to the rounding. *)
Lemma div_core_spec (m1 m2 : positive) (e1 e2 : Z) :
  canonical (Z.pos m1, e1) -> canonical (Z.pos m2, e2) ->
  -1074 <= e1 <= 971 -> -1074 <= e2 <= 971 ->
  exists q r e',
    SFdiv_core_binary 53 1024 (Z.pos m1) e1 (Z.pos m2) e2 =
      (q, e', new_location (Z.pos m2) r) /\
    0 <= q /\ 0 <= r < Z.pos m2 /\
    -2200 <= e' <= e1 - e2 /\
    Z.pos m1 * 2 ^ (e1 - e2 - e') = q * Z.pos m2 + r /\
    e' <= fexp64 (Zdigits2 q + e') /\
    (q = 0 -> e' <= -1074).
Proof.
  intros C1 C2 B1 B2. unfold SFdiv_core_binary. rewrite fexp_64.
  change (Zdigits2 (Z.pos m1)) with (Z.pos (digits2_pos m1)).
  change (Zdigits2 (Z.pos m2)) with (Z.pos (digits2_pos m2)).
  set (d1 := Z.pos (digits2_pos m1)). set (d2 := Z.pos (digits2_pos m2)).
  set (e' := Z.min (fexp64 (d1 + e1 - (d2 + e2))) (e1 - e2)).
  set (s := e1 - e2 - e').
  assert (Hs : 0 <= s) by (unfold s, e'; lia).
  assert (Hm' : forall t, 0 <= t ->
            match t with Z.pos _ => Z.shiftl (Z.pos m1) t | 0 => Z.pos m1 | Z.neg _ => 0 end
            = Z.pos m1 * 2 ^ t).
  { intros [|p|p] Ht; [change (2 ^ 0) with 1; lia| |lia].
    rewrite Z.shiftl_mul_pow2 by lia. reflexivity. }
  rewrite (Hm' s Hs). clear Hm'.
  pose proof (Z_div_mod (Z.pos m1 * 2 ^ s) (Z.pos m2) ltac:(lia)) as Hdm.
  destruct (Z.div_eucl (Z.pos m1 * 2 ^ s) (Z.pos m2)) as [q r].
  destruct Hdm as [Heq Hr].
  assert (Ps : 0 < 2 ^ s) by (apply Z.pow_pos_nonneg; lia).
  assert (Hq : 0 <= q) by nia.
  exists q, r, e'. split; [reflexivity|]. split; [exact Hq|]. split; [exact Hr|].
  split; [unfold e', fexp64; lia|]. split; [fold s; lia|].
  (* the quotient has 53 digits unless the exponent is the least one *)
  destruct (Z_le_gt_dec e' (-1074)) as [Lo|Hi].
  { split; [|intros _; exact Lo]. pose proof (fexp64_ge (Zdigits2 q + e')). lia. }
  assert (Hs53 : d2 - d1 + 53 <= s) by (unfold s, e', fexp64 in *; lia).
  destruct (digits2_bounds m1) as [L1 _]. destruct (digits2_bounds m2) as [_ U2].
  fold d1 in L1. fold d2 in U2.
  assert (Hd1 : 0 < d1) by (unfold d1; lia).
  assert (Hd2 : 0 < d2) by (unfold d2; lia).
  assert (Hbig : 2 ^ 52 * 2 ^ d2 <= Z.pos m1 * 2 ^ s).
  { apply (Z.le_trans _ (2 ^ (d1 - 1) * 2 ^ s)).
    - rewrite <- !Z.pow_add_r by lia. apply Z.pow_le_mono_r; lia.
    - apply Z.mul_le_mono_nonneg_r; lia. }
  assert (Hq52 : 2 ^ 52 <= q).
  { assert (P52 : 0 < 2 ^ 52) by reflexivity. nia. }
  assert (Hdq : 53 <= Zdigits2 q).
  { destruct (Zdigits2_bounds q ltac:(lia)) as [_ Uq].
    destruct (Z_le_gt_dec 53 (Zdigits2 q)) as [H|H]; [exact H|exfalso].
    pose proof (Zdigits2_nonneg q).
    assert (2 ^ Zdigits2 q <= 2 ^ 52) by (apply Z.pow_le_mono_r; lia). lia. }
  split; [unfold fexp64; lia|].
  intros ->. exfalso. assert (0 < 2 ^ 52) by reflexivity. lia.
Qed.

(** The quotient of two finite binary64 numbers. *)
Lemma div_finite_spec (sx sy : bool) (mx my : positive) (ex ey : Z) :
  binary64 (S754_finite sx mx ex) -> binary64 (S754_finite sy my ey) ->
  exists q r e',
    0 <= q /\ 0 <= r < Z.pos my /\ -2200 <= e' <= ex - ey /\
    Z.pos mx * 2 ^ (ex - ey - e') = q * Z.pos my + r /\
    e' <= fexp64 (Zdigits2 q + e') /\
    (q = 0 -> e' <= -1074) /\
    (S754_finite sx mx ex / S754_finite sy my ey)%f64 =
      pack (xorb sx sy) (round_at q r (Z.pos my) e') /\
    canonical (round_at q r (Z.pos my) e') /\
    -1074 <= snd (round_at q r (Z.pos my) e') /\
    0 <= fst (round_at q r (Z.pos my) e').
Proof.
  intros Vx Vy. apply binary64_finite in Vx, Vy.
  destruct Vx as [Cx Bx], Vy as [Cy By].
  destruct (div_core_spec mx my ex ey Cx Cy Bx By)
    as (q & r & e' & Hcore & Hq & Hr & He & Heq & Hok & H0).
  exists q, r, e'. repeat (split; [assumption|]).
  split.
  - unfold F64.div, SFdiv, F64.prec, F64.emax. rewrite Hcore.
    apply binary_round_aux_spec; [exact Hq|apply new_location_located; exact Hr|exact Hok].
  - apply round_at_canonical_0; assumption.
Qed.

(** The quotient of two binary64 numbers is a binary64 number, an
    infinity or a NaN. *)
Lemma div_binary64 (x y : F64.t) : binary64 x -> binary64 y -> binary64 (x / y)%f64.
Proof.
  intros Vx Vy.
  destruct x as [sx|sx| |sx mx ex], y as [sy|sy| |sy my ey]; try reflexivity.
  destruct (div_finite_spec _ _ _ _ _ _ Vx Vy)
    as (q & r & e' & _ & _ & _ & _ & _ & _ & -> & Hc & He & Hf).
  destruct (round_at q r (Z.pos my) e') as [m e]. apply binary64_pack; assumption.
Qed.

(** A quotient of numbers that are not negative is not negative. *)
Lemma div_nonneg (x y : F64.t) :
  binary64 x -> binary64 y -> finite x -> not_nan y ->
  fle F64.zero x -> fle F64.zero y -> is_zero y = false ->
  fle F64.zero (x / y)%f64.
Proof.
  intros Vx Vy Fx Ny Hx Hy Zy.
  destruct x as [sx|sx| |sx mx ex]; try discriminate Fx;
    destruct y as [sy|sy| |sy my ey]; try discriminate Ny; try discriminate Zy;
    try (destruct sx; discriminate Hx); try (destruct sy; discriminate Hy);
    try (destruct sx, sy; reflexivity).
  destruct sx; try discriminate Hx. destruct sy; try discriminate Hy.
  destruct (div_finite_spec _ _ _ _ _ _ Vx Vy)
    as (q & r & e' & _ & _ & _ & _ & _ & _ & -> & Hc & He & Hf).
  destruct (round_at q r (Z.pos my) e') as [m e]. cbn [fst snd xorb] in *.
  unfold pack. cbn [fst snd]. destruct m as [|p|p]; try lia; [reflexivity|].
  destruct (e <=? 971); reflexivity.
Qed.

(** * Facts on the scaler's arithmetic *)

Lemma of_Z_binary64 (z : Z) : binary64 (F64.of_Z z).
Proof. exact (proj1 (binary_normalize_ev z 0 ltac:(lia))). Qed.

Lemma fle_zero_of_ltb (x y : F64.t) :
  not_nan x -> not_nan y -> fle F64.zero y -> F64.ltb x y = false -> fle F64.zero x.
Proof.
  intros Nx Ny Hy H. rewrite (ltb_spec x y Nx Ny) in H.
  apply negb_false_iff in H. apply (fle_trans _ y); trivial. reflexivity.
Qed.

(** [_handle_zeros_in_scale] returns a binary64 number that is positive. *)
Lemma handle_zeros_facts (r : F64.t) :
  binary64 r -> not_nan r ->
  let h := sklearn.handle_zeros_in_scale r in
  binary64 h /\ not_nan h /\ fle F64.zero h /\ is_zero h = false.
Proof.
  intros Vr Nr h. unfold h, sklearn.handle_zeros_in_scale.
  destruct (F64.ltb r (F64.of_Z 10 * F64.eps)%f64) eqn:E.
  - repeat split.
  - split; [exact Vr|]. split; [exact Nr|]. split.
    + apply (fle_zero_of_ltb r (F64.of_Z 10 * F64.eps)%f64); trivial; reflexivity.
    + destruct r as [s| | |]; try reflexivity. destruct s; discriminate E.
Qed.

Lemma mul_finite_r (x s : F64.t) : finite x -> finite (x * s)%f64 -> finite s.
Proof.
  destruct x as [sx|sx| |sx mx ex]; try discriminate;
    destruct s as [ss|ss| |ss ms es]; intros _ H; try discriminate H; reflexivity.
Qed.

Lemma zero_sub_finite (p : F64.t) : finite p -> finite (F64.zero - p)%f64.
Proof. destruct p as [s|s| |s m e]; try discriminate; intros _; [destruct s|]; reflexivity. Qed.

(** * How far rounding moves a value *)

Lemma nearest_err (m a b : Z) :
  0 <= a < b -> 2 * Z.abs (nearest m a b * b - (m * b + a)) <= b.
Proof.
  intros H. unfold nearest.
  destruct (Z.ltb_spec (2 * a) b), (Z.eqb_spec (2 * a) b), (Z.even m); nia.
Qed.

(** The value of the rounded mantissa and exponent, whatever was cut off
    before. *)
Lemma round_at_sv_gen (m a b c : Z) :
  0 <= m -> -2200 <= c ->
  let E := fexp64 (Zdigits2 m + c) in
  c <= E ->
  sv (round_at m a b c) =
  nearest (m / 2 ^ (E - c)) ((m mod 2 ^ (E - c)) * b + a) (b * 2 ^ (E - c)) * 2 ^ (E + 2200).
Proof.
  intros Hm HK E Hc. unfold round_at. fold E. set (m' := nearest _ _ _).
  destruct (Z.eqb_spec m' (2 ^ 53)) as [->|Hne]; unfold sv; cbn [fst snd]; [|reflexivity].
  replace (E + 1 + 2200) with (1 + (E + 2200)) by lia.
  rewrite Z.pow_add_r by (unfold E, fexp64; lia).
  change (2 ^ 53) with (2 ^ 52 * 2 ^ 1). ring.
Qed.

(** A mantissa is rounded to zero only at the least exponent. *)
Lemma round_at_zero (m a b c : Z) :
  0 <= m -> (m = 0 -> c <= -1074) -> c <= fexp64 (Zdigits2 m + c) ->
  fst (round_at m a b c) = 0 -> fexp64 (Zdigits2 m + c) = -1074.
Proof.
  intros Hm H0 Hc Hz.
  destruct (Z.eq_dec m 0) as [->|Hne].
  { specialize (H0 eq_refl). cbn [Zdigits2]. unfold fexp64. lia. }
  destruct (Z.eq_dec (fexp64 (Zdigits2 m + c)) (-1074)) as [E|N]; [exact E|exfalso].
  unfold round_at in Hz. set (E := fexp64 (Zdigits2 m + c)) in *.
  pose proof (nearest_bounds (m / 2 ^ (E - c)) ((m mod 2 ^ (E - c)) * b + a) (b * 2 ^ (E - c)))
    as Hnb.
  set (m' := nearest _ _ _) in *.
  assert (En : E = Zdigits2 m + c - 53) by (unfold E, fexp64 in *; lia).
  destruct (Zdigits2_bounds m ltac:(lia)) as [Lm _].
  assert (Hq : 2 ^ 52 <= m / 2 ^ (E - c)).
  { apply Z.div_le_lower_bound; [apply Z.pow_pos_nonneg; lia|].
    rewrite <- Z.pow_add_r by lia.
    replace (E - c + 52) with (Zdigits2 m - 1) by lia. exact Lm. }
  assert (P : 0 < 2 ^ 52) by reflexivity.
  destruct (Z.eqb_spec m' (2 ^ 53)); cbn [fst] in Hz; lia.
Qed.

(** The distance between a value and its rounding is at most half a unit
    of the last place: the unit is [2 ^ -1074] below [2 ^ -1022], and at
    most [2 ^ -52] times the rounded value from there on. *)
Lemma round_at_err (m a b c : Z) :
  0 <= m -> (m = 0 -> c <= -1074) -> 0 <= a < b -> -2200 <= c ->
  c <= fexp64 (Zdigits2 m + c) ->
  let res := sv (round_at m a b c) in
  exists U, 0 < U /\
    2 * Z.abs (res * b - (m * b + a) * 2 ^ (c + 2200)) <= b * U /\
    (res < 2 ^ 1178 -> U = 2 ^ 1126) /\
    (2 ^ 1178 <= res -> 2 ^ 52 * U <= res).
Proof.
  intros Hm H0 Hab HK Hc res.
  set (E := fexp64 (Zdigits2 m + c)) in *.
  assert (HE : -1074 <= E) by apply fexp64_ge.
  exists (2 ^ (E + 2200)).
  assert (PU : 0 < 2 ^ (E + 2200)) by (apply Z.pow_pos_nonneg; lia).
  split; [exact PU|].
  assert (Pn : 0 < 2 ^ (E - c)) by (apply Z.pow_pos_nonneg; lia).
  assert (Pc : 0 < 2 ^ (c + 2200)) by (apply Z.pow_pos_nonneg; lia).
  assert (HU : 2 ^ (E + 2200) = 2 ^ (E - c) * 2 ^ (c + 2200))
    by (rewrite <- Z.pow_add_r by lia; f_equal; lia).
  split.
  - unfold res. rewrite (round_at_sv_gen m a b c Hm HK Hc). fold E.
    pose proof (Z.div_mod m (2 ^ (E - c)) ltac:(lia)) as Hdm.
    pose proof (Z.mod_pos_bound m (2 ^ (E - c)) Pn) as Hmod.
    pose proof (nearest_err (m / 2 ^ (E - c)) ((m mod 2 ^ (E - c)) * b + a) (b * 2 ^ (E - c))
                  ltac:(nia)) as Herr.
    set (q := m / 2 ^ (E - c)) in *. set (t := m mod 2 ^ (E - c)) in *.
    set (m' := nearest q (t * b + a) (b * 2 ^ (E - c))) in *.
    rewrite HU. set (N := 2 ^ (E - c)) in *. set (K := 2 ^ (c + 2200)) in *.
    replace (m' * (N * K) * b - (m * b + a) * K)
      with ((m' * (b * N) - (q * (b * N) + (t * b + a))) * K) by (rewrite Hdm; ring).
    rewrite Z.abs_mul, (Z.abs_eq K) by lia. nia.
  - destruct (round_at_canonical_0 m a b c Hm H0 Hab Hc) as (Hcan & He & Hf).
    assert (Hexp : snd (round_at m a b c) = E \/ snd (round_at m a b c) = E + 1).
    { unfold round_at. cbv zeta. fold E.
      destruct (nearest _ _ _ =? 2 ^ 53); cbn [snd]; [right|left]; reflexivity. }
    unfold res, sv. destruct (round_at m a b c) as [m1 e1] eqn:R. cbn [fst snd] in *.
    destruct (Z.eq_dec E (-1074)) as [Emin|Enorm].
    + rewrite Emin. change (-1074 + 2200) with 1126. split; [reflexivity|].
      change (2 ^ 52 * 2 ^ 1126) with (2 ^ 1178). lia.
    + assert (Hm1 : 0 < m1).
      { destruct (Z.eq_dec m1 0) as [Hz1|NZ]; [|lia]. exfalso. subst m1.
        pose proof (round_at_zero m a b c Hm H0 Hc) as Hz. rewrite R in Hz.
        specialize (Hz eq_refl). fold E in Hz. lia. }
      unfold canonical in Hcan. cbn [fst snd] in Hcan.
      destruct Hcan as [Hz1|[_ Hcan]]; [lia|].
      assert (D53 : Zdigits2 m1 = 53) by (unfold fexp64 in Hcan; lia).
      destruct (Zdigits2_bounds m1 Hm1) as [Lo _]. rewrite D53 in Lo.
      change (2 ^ (53 - 1)) with (2 ^ 52) in Lo.
      assert (Pe : 2 ^ (E + 2200) <= 2 ^ (e1 + 2200)) by (apply Z.pow_le_mono_r; lia).
      assert (P52 : 0 < 2 ^ 52) by reflexivity.
      assert (Big : 2 ^ 52 * 2 ^ (E + 2200) <= m1 * 2 ^ (e1 + 2200)) by nia.
      split; [|intros _; exact Big].
      intros Hsmall. exfalso.
      assert (2 ^ 1178 <= 2 ^ 52 * 2 ^ (E + 2200)).
      { rewrite <- Z.pow_add_r by lia. apply Z.pow_le_mono_r; lia. }
      lia.
Qed.

(** * The last bin of [np.linspace] *)

Lemma RN_rnd (W : Z) : 0 < W -> RN W = Z.min (rnd W) huge.
Proof. intros H. exact (proj1 (RN_pos W H)). Qed.

Lemma rnd_err (W : Z) :
  0 < W ->
  exists U, 0 < U /\ 2 * Z.abs (rnd W - W) <= U /\
    (rnd W < 2 ^ 1178 -> U = 2 ^ 1126) /\
    (2 ^ 1178 <= rnd W -> 2 ^ 52 * U <= rnd W).
Proof.
  intros HW.
  destruct (round_at_err W 0 1 (-2200) ltac:(lia) ltac:(lia) ltac:(lia) ltac:(lia)
              ltac:(pose proof (fexp64_ge (Zdigits2 W + -2200)); lia))
    as (U & HU & Herr & Hs & Hn).
  exists U. split; [exact HU|]. split; [|split; assumption].
  change (-2200 + 2200) with 0 in Herr. rewrite Z.pow_0_r in Herr.
  fold (rnd W) in Herr.
  replace (rnd W * 1 - (W * 1 + 0) * 1) with (rnd W - W) in Herr by ring. lia.
Qed.

(** A value of at least [2 ^ -1022] is moved by at most [2 ^ -53] of its
    rounding. *)
Lemma rnd_normal (W : Z) :
  2 ^ 1178 <= W ->
  (2 ^ 53 - 1) * rnd W <= 2 ^ 53 * W /\ 2 ^ 53 * W <= (2 ^ 53 + 1) * rnd W /\
  2 ^ 1178 <= rnd W.
Proof.
  intros HW. assert (P : 0 < 2 ^ 1178) by reflexivity.
  destruct (rnd_err W ltac:(lia)) as (U & HU & Herr & Hs & Hn).
  assert (Hnorm : 2 ^ 1178 <= rnd W).
  { assert (E0 : rnd (2 ^ 1178) = 2 ^ 1178) by (vm_compute; reflexivity).
    rewrite <- E0 at 1. unfold rnd.
    pose proof (fexp64_ge (Zdigits2 W + -2200)).
    pose proof (fexp64_ge (Zdigits2 (2 ^ 1178) + -2200)).
    apply round_at_mono; lia. }
  specialize (Hn Hnorm).
  change (2 ^ 53) with (2 * 2 ^ 52). lia.
Qed.

(** The value of a binary64 number is a multiple of [2 ^ -1074]. *)
Lemma ev_multiple (x : F64.t) : binary64 x -> finite x -> exists k, ev x = k * 2 ^ 1126.
Proof.
  intros Vx Fx. destruct x as [s|s| |s m e]; try discriminate Fx.
  - exists 0. reflexivity.
  - apply binary64_finite in Vx. destruct Vx as [_ He].
    exists (cond_Zopp s (Z.pos m * 2 ^ (e + 1074))). cbn [ev]. unfold sv. cbn [fst snd].
    replace (e + 2200) with ((e + 1074) + 1126) by lia.
    rewrite Z.pow_add_r by lia. destruct s; cbn [cond_Zopp]; ring.
Qed.

Lemma rnd_nonneg (W : Z) : 0 < W -> 0 <= rnd W.
Proof.
  intros H. apply round_at_nonneg; [exact H| |lia].
  pose proof (fexp64_ge (Zdigits2 W + -2200)). lia.
Qed.

(** A multiple of [2 ^ -1074] below [2 ^ -1022] is not changed by
    rounding. *)
Lemma RN_small_exact (k : Z) :
  RN (k * 2 ^ 1126) < 2 ^ 1178 -> 0 <= k -> RN (k * 2 ^ 1126) = k * 2 ^ 1126.
Proof.
  intros Hs Hk. assert (P : 0 < 2 ^ 1126) by reflexivity.
  destruct (Z.eq_dec k 0) as [->|Hne]; [reflexivity|].
  set (W := k * 2 ^ 1126) in *. assert (HW : 0 < W) by (unfold W; nia).
  pose proof huge_pos as HP.
  assert (Hh : 2 ^ 1178 < huge) by reflexivity.
  rewrite (RN_rnd W HW) in *.
  assert (Hr : rnd W < 2 ^ 1178) by lia.
  rewrite Z.min_l in * by lia.
  unfold rnd in *.
  pose proof (fexp64_ge (Zdigits2 W + -2200)) as HE.
  rewrite round_at_sv in * by lia.
  change (-2200 + 2200) with 0 in *. rewrite Z.pow_0_r, Z.mul_1_r in *.
  set (E := fexp64 (Zdigits2 W + -2200)) in *.
  destruct (Z.eq_dec E (-1074)) as [Emin|Enorm].
  - rewrite Emin. change (-1074 + 2200) with 1126.
    unfold W. apply rnu_multiple. exact P.
  - exfalso.
    (* in the normal range the rounding is at least [2 ^ -1022] *)
    assert (En : E = Zdigits2 W - 2200 - 53) by (unfold E, fexp64 in *; lia).
    destruct (Zdigits2_bounds W HW) as [Lo _].
    assert (PU : 0 < 2 ^ (E + 2200)) by (apply Z.pow_pos_nonneg; lia).
    assert (Hge : 2 ^ 52 * 2 ^ (E + 2200) <= W).
    { rewrite <- Z.pow_add_r by lia.
      replace (52 + (E + 2200)) with (Zdigits2 W - 1) by lia. exact Lo. }
    pose proof (rnu_ge_multiple W (2 ^ 52) (2 ^ (E + 2200)) PU Hge) as H1.
    assert (2 ^ 1178 <= 2 ^ 52 * 2 ^ (E + 2200)).
    { rewrite <- Z.pow_add_r by lia. apply Z.pow_le_mono_r; lia. }
    lia.
Qed.

Lemma ev_99 : ev (F64.of_nat 99) = sv (6966505673588736, -46).
Proof. rewrite of_nat_99. reflexivity. Qed.

(** The quotient by 99 of a finite binary64 number that is positive. *)
Lemma div_99_err (m : positive) (e : Z) :
  binary64 (S754_finite false m e) ->
  let D := ev (S754_finite false m e) in
  exists res U,
    ev (S754_finite false m e / F64.of_nat 99)%f64 = Z.min res huge /\
    0 <= res /\ 0 < U /\
    2 * Z.abs (99 * res - D) <= 99 * U /\
    (res < 2 ^ 1178 -> U = 2 ^ 1126) /\
    (2 ^ 1178 <= res -> 2 ^ 52 * U <= res).
Proof.
  intros Vx D. rewrite of_nat_99.
  assert (Be : -1074 <= e <= 971) by (apply binary64_finite in Vx; tauto).
  assert (V99 : binary64 (S754_finite false 6966505673588736 (-46))) by reflexivity.
  destruct (div_finite_spec _ _ _ _ _ _ Vx V99)
    as (q & r & e' & Hq & Hr & He' & Heq & Hok & H0 & -> & Hcan & Hexp & Hfst).
  cbn [xorb].
  destruct (round_at_err q r 6966505673588736 e' Hq H0 Hr ltac:(lia) Hok)
    as (U & HU & Herr & Hs & Hn).
  exists (sv (round_at q r 6966505673588736 e')), U.
  split.
  { destruct (round_at q r 6966505673588736 e') as [m1 e1]. cbn [fst snd] in *.
    rewrite ev_pack by (try assumption; lia). reflexivity. }
  split.
  { unfold sv. apply Z.mul_nonneg_nonneg; [exact Hfst|apply Z.pow_nonneg; lia]. }
  split; [exact HU|]. split; [|split; assumption].
  set (res := sv (round_at q r 6966505673588736 e')) in *.
  rewrite <- Heq in Herr.
  unfold D. cbn [ev cond_Zopp]. unfold sv. cbn [fst snd].
  assert (Hp : 2 ^ (e - -46 - e') * 2 ^ (e' + 2200) = 2 ^ (e + 2200) * 2 ^ 46).
  { rewrite <- !Z.pow_add_r by lia. f_equal. lia. }
  replace (Z.pos m * 2 ^ (e - -46 - e') * 2 ^ (e' + 2200))
    with (Z.pos m * 2 ^ (e + 2200) * 2 ^ 46) in Herr
    by (rewrite <- !Z.mul_assoc, Hp; reflexivity).
  change 6966505673588736 with (99 * 2 ^ 46) in Herr.
  set (X := Z.pos m * 2 ^ (e + 2200)) in *.
  assert (P46 : 0 < 2 ^ 46) by reflexivity.
  replace (res * (99 * 2 ^ 46) - X * 2 ^ 46) with ((99 * res - X) * 2 ^ 46) in Herr by ring.
  rewrite Z.abs_mul, (Z.abs_eq (2 ^ 46)) in Herr by lia. nia.
Qed.

(** * The bin edges do not decrease *)

Lemma gtb_false_of_fle (x y : F64.t) : fle x y -> (x >? y)%f64 = false.
Proof.
  intros H. destruct (fle_not_nan _ _ H) as [Nx Ny].
  unfold F64.gtb. rewrite (ltb_spec y x Ny Nx). unfold fle in H. rewrite H. reflexivity.
Qed.

Lemma fle_of_gtb_false (x y : F64.t) :
  not_nan x -> not_nan y -> (x >? y)%f64 = false -> fle x y.
Proof.
  intros Nx Ny H. unfold F64.gtb in H. rewrite (ltb_spec y x Ny Nx) in H.
  apply negb_false_iff in H. exact H.
Qed.

(** A map that keeps the order keeps a list free of descents. *)
Lemma map_not_decreasing (P : F64.t -> Prop) (f : F64.t -> F64.t) (l : list F64.t) :
  (forall x y, P x -> P y -> fle x y -> fle (f x) (f y)) ->
  Forall P l -> Forall not_nan l ->
  np.any_decreasing l = false -> np.any_decreasing (map f l) = false.
Proof.
  intros Hf HP HN. induction l as [|x l IH]; [reflexivity|].
  destruct l as [|y r]; [reflexivity|]. intros Hd.
  change (np.any_decreasing (x :: y :: r))
    with ((x >? y)%f64 || np.any_decreasing (y :: r)) in Hd.
  apply orb_false_elim in Hd. destruct Hd as [Hxy Hd].
  inversion HP as [|? ? Px HP']; subst. inversion HP' as [|? ? Py _]; subst.
  inversion HN as [|? ? Nx HN']; subst. inversion HN' as [|? ? Ny _]; subst.
  change (np.any_decreasing (map f (x :: y :: r)))
    with ((f x >? f y)%f64 || np.any_decreasing (map f (y :: r))).
  rewrite (IH HP' HN' Hd), orb_false_r.
  apply gtb_false_of_fle. apply Hf; trivial. apply fle_of_gtb_false; assumption.
Qed.

Lemma any_decreasing_snoc (l : list F64.t) (u stop : F64.t) :
  np.any_decreasing (l ++ [u]) = false -> (u >? stop)%f64 = false ->
  np.any_decreasing (l ++ [u; stop]) = false.
Proof.
  intros Hl Hu. induction l as [|x l IH].
  - simpl. rewrite Hu. reflexivity.
  - change ((x :: l) ++ [u; stop]) with (x :: (l ++ [u; stop])).
    change ((x :: l) ++ [u]) with (x :: (l ++ [u])) in Hl.
    destruct l as [|y r].
    + simpl in *. apply orb_false_elim in Hl. destruct Hl as [Hxu _].
      rewrite Hxu, Hu. reflexivity.
    + change (np.any_decreasing (x :: ((y :: r) ++ [u])))
        with ((x >? y)%f64 || np.any_decreasing ((y :: r) ++ [u])) in Hl.
      apply orb_false_elim in Hl. destruct Hl as [Hxy Hl].
      change (np.any_decreasing (x :: ((y :: r) ++ [u; stop])))
        with ((x >? y)%f64 || np.any_decreasing ((y :: r) ++ [u; stop])).
      rewrite Hxy, (IH Hl). reflexivity.
Qed.

Lemma number64_iff (x : F64.t) :
  number64 x <-> valid_binary 53 1024 x && F64.is_finite x = true.
Proof. unfold number64, binary64, finite. rewrite andb_true_iff. tauto. Qed.

Lemma Forall_number64 (l : list F64.t) :
  forallb (fun x => valid_binary 53 1024 x && F64.is_finite x) l = true ->
  Forall number64 l.
Proof.
  intros H. rewrite List.forallb_forall in H. apply List.Forall_forall.
  intros x Hx. apply number64_iff. exact (H x Hx).
Qed.

Lemma arange_99_numbers : Forall number64 (np.arange 99).
Proof. apply Forall_number64. vm_compute. reflexivity. Qed.

Lemma arange_99_sorted : np.any_decreasing (np.arange 99) = false.
Proof. vm_compute. reflexivity. Qed.

Lemma arange_99_over_99_numbers :
  Forall number64 (map (fun v => v / F64.of_nat 99)%f64 (np.arange 99)).
Proof. apply Forall_number64. vm_compute. reflexivity. Qed.

Lemma arange_99_over_99_sorted :
  np.any_decreasing (map (fun v => v / F64.of_nat 99)%f64 (np.arange 99)) = false.
Proof. vm_compute. reflexivity. Qed.

Lemma number64_not_nan (l : list F64.t) : Forall number64 l -> Forall not_nan l.
Proof.
  intros H. eapply List.Forall_impl; [|exact H]. intros x [_ Fx]. apply finite_not_nan, Fx.
Qed.

Lemma finite_of_ev (x : F64.t) :
  binary64 x -> not_nan x -> - huge < ev x < huge -> finite x.
Proof.
  intros Vx Nx H. destruct x as [s|s| |s m e]; try reflexivity; try discriminate Nx.
  exfalso. cbn [ev] in H. destruct s; cbn [cond_Zopp] in H; lia.
Qed.

Lemma ev_float_min : ev float_min = 2 ^ 1178.
Proof. reflexivity. Qed.

Lemma ev_one : ev F64.one = 2 ^ 2200.
Proof. vm_compute. reflexivity. Qed.

Lemma ev_98 : ev (F64.of_nat 98) = 98 * 2 ^ 2200.
Proof. vm_compute. reflexivity. Qed.

Section Edges.

Variables lo hi : F64.t.
Hypothesis lo_number : number64 lo.
Hypothesis hi_number : number64 hi.
Hypothesis lo_le_hi : fle lo hi.

Local Abbreviation delta := (hi - lo)%f64 (only parsing).
Local Abbreviation step := (step_of lo hi) (only parsing).

Hypothesis step_finite : finite step.

Lemma limits_ev : ev lo <= ev hi.
Proof.
  destruct lo_number as [Vl Fl], hi_number as [Vh Fh].
  apply ev_order; trivial; apply finite_not_nan; assumption.
Qed.

Lemma delta_facts :
  number64 delta /\ ev delta = RN (ev hi - ev lo) /\ 0 <= ev delta.
Proof.
  destruct lo_number as [Vl Fl], hi_number as [Vh Fh].
  destruct (sub_finite hi lo Vh Vl Fh Fl) as (Vd & Nd & Ed).
  split; [split; [exact Vd|exact (div_99_finite_inv _ step_finite)]|].
  split; [exact Ed|]. rewrite Ed. pose proof limits_ev.
  rewrite <- RN_0. apply RN_mono. lia.
Qed.

Lemma delta_nonneg : fle F64.zero delta.
Proof.
  destruct delta_facts as ([Vd Fd] & _ & H).
  apply ev_order; trivial; try reflexivity. apply finite_not_nan, Fd.
Qed.

Lemma step_facts : number64 step /\ fle F64.zero step.
Proof.
  destruct delta_facts as ([Vd Fd] & _ & _).
  assert (V99 : binary64 (F64.of_nat 99)) by (rewrite of_nat_99; reflexivity).
  split; [split; [|exact step_finite]|].
  - apply div_binary64; assumption.
  - apply div_nonneg; trivial; try (rewrite of_nat_99; reflexivity).
    exact delta_nonneg.
Qed.

(** The first 99 edges, before the last one is set. *)
Lemma raw_edges_sorted :
  np.any_decreasing (map (fun v => (v * step + lo)%f64) (np.arange 99)) = false.
Proof.
  destruct step_facts as ([Vs Fs] & Ps). destruct lo_number as [Vl Fl].
  apply (map_not_decreasing number64);
    [|exact arange_99_numbers|exact (number64_not_nan _ arange_99_numbers)
     |exact arange_99_sorted].
  intros x y [Vx Fx] [Vy Fy] Hxy.
  apply add_mono; trivial;
    try (apply mul_binary64; assumption); try (apply mul_not_nan; assumption).
  apply mul_mono; assumption.
Qed.

Lemma raw_edges_sorted_zero_step :
  np.any_decreasing
    (map (fun v => (v / F64.of_nat 99 * delta + lo)%f64) (np.arange 99)) = false.
Proof.
  destruct delta_facts as ([Vd Fd] & _ & _). destruct lo_number as [Vl Fl].
  pose proof delta_nonneg as Pd.
  rewrite <- (map_map (fun v => (v / F64.of_nat 99)%f64) (fun q => (q * delta + lo)%f64)).
  apply (map_not_decreasing number64);
    [|exact arange_99_over_99_numbers
     |exact (number64_not_nan _ arange_99_over_99_numbers)
     |exact arange_99_over_99_sorted].
  intros x y [Vx Fx] [Vy Fy] Hxy.
  apply add_mono; trivial;
    try (apply mul_binary64; assumption); try (apply mul_not_nan; assumption).
  apply mul_mono; assumption.
Qed.

(** An edge [p + lo] is not above [hi] when [p] is not above the exact
    range. *)
Lemma edge_below_stop (p : F64.t) :
  binary64 p -> finite p -> ev p <= ev hi - ev lo ->
  ((p + lo)%f64 >? hi)%f64 = false.
Proof.
  intros Vp Fp Hp.
  destruct lo_number as [Vl Fl], hi_number as [Vh Fh].
  destruct (add_finite p lo Vp Vl Fp Fl) as (Va & Na & Ea).
  apply gtb_false_of_fle. apply ev_order; trivial; [apply finite_not_nan, Fh|].
  rewrite Ea, <- (RN_id hi Vh Fh). apply RN_mono. lia.
Qed.

(** ** A step of zero *)

Lemma zero_step_range_exact :
  is_zero step = true -> ev delta = ev hi - ev lo.
Proof.
  intros Hz.
  destruct delta_facts as ([Vd Fd] & Ed & Pd).
  destruct lo_number as [Vl Fl], hi_number as [Vh Fh].
  destruct (ev_multiple lo Vl Fl) as [kl Hl], (ev_multiple hi Vh Fh) as [kh Hh].
  pose proof limits_ev as Hle.
  assert (P : 0 < 2 ^ 1126) by reflexivity.
  assert (Hk : ev hi - ev lo = (kh - kl) * 2 ^ 1126) by (rewrite Hl, Hh; ring).
  rewrite Ed, Hk. apply RN_small_exact; [|nia].
  rewrite <- Hk, <- Ed.
  (* the range is small, since a hundredth of it rounds to zero *)
  assert (S1178 : 99 * 2 ^ 1126 < 2 * 2 ^ 1178) by reflexivity.
  unfold step_of in Hz.
  destruct delta as [s|s| |s m e] eqn:Ed'; try discriminate Fd.
  - cbn [ev]. reflexivity.
  - assert (s = false).
    { destruct s; [|reflexivity]. exfalso. cbn [ev cond_Zopp] in Pd.
      apply binary64_finite in Vd. destruct Vd as [_ Be].
      pose proof (sv_pos (Z.pos m) e ltac:(lia) ltac:(lia)). lia. }
    subst s.
    destruct (div_99_err m e Vd) as (res & U & Hev & Hres & HU & Herr & Hsmall & _).
    assert (Hz' : ev (S754_finite false m e / F64.of_nat 99)%f64 = 0).
    { destruct (S754_finite false m e / F64.of_nat 99)%f64; try discriminate Hz. reflexivity. }
    rewrite Hz' in Hev. pose proof huge_pos.
    assert (R0 : res = 0) by lia. subst res.
    rewrite Hsmall in Herr by reflexivity. lia.
Qed.

Lemma last_edge_zero_step :
  is_zero step = true ->
  ((F64.of_nat 98 / F64.of_nat 99 * delta + lo)%f64 >? hi)%f64 = false.
Proof.
  intros Hz.
  destruct delta_facts as ([Vd Fd] & Ed & Pd).
  pose proof delta_nonneg as Hd.
  assert (Vq : binary64 (F64.of_nat 98 / F64.of_nat 99)%f64) by (vm_compute; reflexivity).
  assert (Fq : finite (F64.of_nat 98 / F64.of_nat 99)%f64) by (vm_compute; reflexivity).
  assert (Hq1 : fle (F64.of_nat 98 / F64.of_nat 99)%f64 F64.one) by (vm_compute; reflexivity).
  assert (Vone : binary64 F64.one) by (vm_compute; reflexivity).
  assert (Fone : finite F64.one) by (vm_compute; reflexivity).
  pose proof (mul_mono _ _ delta Vq Vone Vd Fq Fone Fd Hd Hq1) as Hm.
  assert (V1 : binary64 (F64.of_nat 98 / F64.of_nat 99 * delta)%f64)
    by (apply mul_binary64; assumption).
  assert (N1 : not_nan (F64.of_nat 98 / F64.of_nat 99 * delta)%f64)
    by (apply mul_not_nan; assumption).
  assert (V2 : binary64 (F64.one * delta)%f64) by (apply mul_binary64; trivial; reflexivity).
  assert (N2 : not_nan (F64.one * delta)%f64) by (apply mul_not_nan; trivial; reflexivity).
  apply (ev_order _ _ V1 V2 N1 N2) in Hm.
  assert (E1 : ev (F64.one * delta)%f64 = ev delta).
  { rewrite ev_mul by (trivial; reflexivity). rewrite ev_one.
    rewrite Z.mul_comm, Z.div_mul by (apply Z.pow_nonzero; lia).
    apply RN_id; assumption. }
  assert (P0 : 0 <= ev (F64.of_nat 98 / F64.of_nat 99 * delta)%f64).
  { rewrite ev_mul by assumption. rewrite <- RN_0. apply RN_mono.
    apply Z.div_pos; [|reflexivity].
    apply Z.mul_nonneg_nonneg; [vm_compute; discriminate|exact Pd]. }
  pose proof (ev_finite_bounds delta Vd Fd) as BD.
  apply edge_below_stop; trivial.
  - apply finite_of_ev; trivial. lia.
  - rewrite <- (zero_step_range_exact Hz). lia.
Qed.

(** ** A step of at least [2 ^ -1022] *)

Lemma last_edge_normal_step :
  fle float_min step ->
  ((F64.of_nat 98 * step + lo)%f64 >? hi)%f64 = false.
Proof.
  intros Hn.
  destruct delta_facts as ([Vd Fd] & Ed & Pd).
  destruct step_facts as ([Vs Fs] & Ps).
  pose proof (proj1 (ev_order float_min step eq_refl Vs eq_refl (finite_not_nan _ Fs)) Hn) as HS.
  rewrite ev_float_min in HS.
  pose proof huge_pos as HP.
  assert (P1178 : 0 < 2 ^ 1178) by reflexivity.
  pose proof (ev_finite_bounds step Vs Fs) as BS.
  pose proof (ev_finite_bounds delta Vd Fd) as BD.
  pose proof limits_ev as Hle.
  (* the step against the rounded range *)
  assert (H2 : (2 ^ 53 - 1) * (99 * ev step) <= 2 ^ 53 * ev delta).
  { unfold step_of in HS, BS |- *.
    destruct delta as [s|s| |s m e] eqn:Ed'; try discriminate Fd.
    - exfalso. rewrite of_nat_99 in HS. destruct s; cbn [ev F64.div SFdiv xorb] in HS; lia.
    - assert (s = false).
      { destruct s; [|reflexivity]. exfalso. cbn [ev cond_Zopp] in Pd.
        apply binary64_finite in Vd. destruct Vd as [_ Be].
        pose proof (sv_pos (Z.pos m) e ltac:(lia) ltac:(lia)). lia. }
      subst s.
      destruct (div_99_err m e Vd) as (res & U & Hev & Hres & HU & Herr & _ & Hnorm).
      assert (R : ev (S754_finite false m e / F64.of_nat 99)%f64 = res) by lia.
      rewrite R in *. specialize (Hnorm HS).
      change (2 ^ 53) with (2 * 2 ^ 52). lia. }
  (* the rounded range against the exact one *)
  assert (H3 : (2 ^ 53 - 1) * ev delta <= 2 ^ 53 * (ev hi - ev lo)).
  { assert (HD : 2 ^ 1178 <= ev delta) by (change (2 ^ 53) with 9007199254740992 in H2; lia).
    assert (Hpos : 0 < ev hi - ev lo).
    { destruct (Z_lt_le_dec 0 (ev hi - ev lo)) as [L|G]; [exact L|exfalso].
      assert (ev hi - ev lo = 0) by lia.
      rewrite Ed in HD. replace (ev hi - ev lo) with 0 in HD by lia.
      rewrite RN_0 in HD. lia. }
    rewrite Ed in HD, BD |- *. rewrite (RN_rnd _ Hpos) in *.
    assert (Er : Z.min (rnd (ev hi - ev lo)) huge = rnd (ev hi - ev lo)) by lia.
    rewrite Er in *.
    destruct (rnd_err (ev hi - ev lo) Hpos) as (U & HU & Herr & _ & Hnorm).
    specialize (Hnorm HD). change (2 ^ 53) with (2 * 2 ^ 52). lia. }
  (* the product against the step *)
  assert (V98 : binary64 (F64.of_nat 98)) by (vm_compute; reflexivity).
  assert (Ep : ev (F64.of_nat 98 * step)%f64 = RN (98 * ev step)).
  { rewrite ev_mul by (trivial; reflexivity). rewrite ev_98. f_equal.
    replace (98 * 2 ^ 2200 * ev step) with (98 * ev step * 2 ^ 2200) by ring.
    apply Z.div_mul. apply Z.pow_nonzero; lia. }
  destruct (rnd_normal (98 * ev step) ltac:(lia)) as (H1 & _ & H1n).
  assert (Hp : 0 <= ev (F64.of_nat 98 * step)%f64 <= ev hi - ev lo /\
               ev (F64.of_nat 98 * step)%f64 < huge).
  { rewrite Ep, (RN_rnd (98 * ev step)) by lia.
    change (2 ^ 53) with 9007199254740992 in *. lia. }
  assert (Vp : binary64 (F64.of_nat 98 * step)%f64) by (apply mul_binary64; assumption).
  apply edge_below_stop; trivial; [|lia].
  apply finite_of_ev; trivial; [|lia].
  apply mul_not_nan; trivial.
Qed.

(** When the step is zero, or at least [2 ^ -1022], no edge is greater
    than the next one. *)
Lemma linspace_100_not_decreasing :
  is_zero step = true \/ fle float_min step ->
  np.any_decreasing (np.linspace lo hi 100) = false.
Proof.
  intros Hstep.
  unfold np.linspace. change (100 - 1)%nat with 99%nat.
  change (0 <? 99)%nat with true. change (1 <? 100)%nat with true. cbv iota.
  fold (step_of lo hi).
  rewrite (finite_eqb_zero step step_finite).
  assert (Hsplit : np.arange 100 = np.arange 99 ++ [F64.of_nat 99]) by reflexivity.
  assert (Hsplit' : np.arange 99 = np.arange 98 ++ [F64.of_nat 98]) by reflexivity.
  destruct (is_zero step) eqn:Hz.
  - rewrite map_map.
    pose proof raw_edges_sorted_zero_step as Hs.
    pose proof (last_edge_zero_step Hz) as Hl.
    rewrite Hsplit' in Hs. rewrite map_app in Hs. cbn [map] in Hs.
    rewrite arange_100_split, map_app. cbn [map].
    rewrite set_last_app. apply any_decreasing_snoc; assumption.
  - destruct Hstep as [H|Hn]; [discriminate H|].
    rewrite map_map.
    pose proof raw_edges_sorted as Hs.
    pose proof (last_edge_normal_step Hn) as Hl.
    rewrite Hsplit' in Hs. rewrite map_app in Hs. cbn [map] in Hs.
    rewrite arange_100_split, map_app. cbn [map].
    rewrite set_last_app. apply any_decreasing_snoc; assumption.
Qed.

End Edges.

(** * Columns of integers *)

Lemma ev_of_Z (z : Z) : ev (F64.of_Z z) = RN (z * 2 ^ 2200).
Proof. exact (proj2 (proj2 (binary_normalize_ev z 0 ltac:(lia)))). Qed.

(** Rounding a whole number gives a whole number. *)
Lemma RN_whole (k : Z) : exists k', RN (k * 2 ^ 2200) = k' * 2 ^ 2200.
Proof.
  assert (Hpos : forall k, 0 < k -> exists k', RN (k * 2 ^ 2200) = k' * 2 ^ 2200).
  { clear k. intros k Hk. assert (P : 0 < 2 ^ 2200) by reflexivity.
    set (W := k * 2 ^ 2200). assert (HW : 0 < W) by (unfold W; nia).
    rewrite (RN_rnd W HW).
    assert (Hr : exists k', rnd W = k' * 2 ^ 2200).
    { unfold rnd. pose proof (fexp64_ge (Zdigits2 W + -2200)) as HE.
      rewrite round_at_sv by lia.
      change (-2200 + 2200) with 0. rewrite Z.pow_0_r, Z.mul_1_r.
      set (E := fexp64 (Zdigits2 W + -2200)) in *.
      destruct (Z_le_gt_dec 0 E) as [Ep|En].
      - unfold rnu. rewrite Z.pow_add_r by lia.
        eexists. rewrite (Z.mul_comm (2 ^ E)), <- Z.mul_assoc, Z.mul_comm. reflexivity.
      - exists k. fold W. apply rnu_id; [apply Z.pow_pos_nonneg; lia|].
        unfold W. replace 2200 with ((- E) + (E + 2200)) at 1 by lia.
        rewrite Z.pow_add_r, Z.mul_assoc by lia. apply Z.mod_mul.
        apply Z.pow_nonzero; lia. }
    destruct Hr as [k' Hk'].
    destruct (Z.min_spec (rnd W) huge) as [[_ ->]|[_ ->]].
    - exists k'. exact Hk'.
    - exists (2 ^ 1024). reflexivity. }
  destruct (Z.lt_trichotomy k 0) as [N|[->|P]].
  - destruct (Hpos (- k) ltac:(lia)) as [k' Hk'].
    exists (- k'). replace (k * 2 ^ 2200) with (- (- k * 2 ^ 2200)) by ring.
    rewrite RN_opp, Hk'. ring.
  - exists 0. reflexivity.
  - apply Hpos. exact P.
Qed.

Lemma RN_2_63 : RN (2 ^ 63 * 2 ^ 2200) = 2 ^ 63 * 2 ^ 2200.
Proof. vm_compute. reflexivity. Qed.

Lemma RN_1 : RN (2 ^ 2200) = 2 ^ 2200.
Proof. vm_compute. reflexivity. Qed.

Lemma RN_2_64 : RN (2 ^ 64 * 2 ^ 2200) = 2 ^ 64 * 2 ^ 2200.
Proof. vm_compute. reflexivity. Qed.

(** An [int64] as a float: a whole binary64 number of at most [2 ^ 63]. *)
Lemma of_Z_int64 (z : Z) :
  int64 z ->
  number64 (F64.of_Z z) /\
  (exists k, ev (F64.of_Z z) = k * 2 ^ 2200) /\
  - (2 ^ 63 * 2 ^ 2200) <= ev (F64.of_Z z) <= 2 ^ 63 * 2 ^ 2200.
Proof.
  intros [Lo Hi].
  assert (P : 0 < 2 ^ 2200) by reflexivity.
  assert (Hb : - (2 ^ 63 * 2 ^ 2200) <= ev (F64.of_Z z) <= 2 ^ 63 * 2 ^ 2200).
  { rewrite ev_of_Z. split.
    - rewrite <- RN_2_63, <- RN_opp. apply RN_mono. nia.
    - rewrite <- RN_2_63. apply RN_mono. nia. }
  split; [|split; [rewrite ev_of_Z; apply RN_whole|exact Hb]].
  destruct (binary_normalize_ev z 0 ltac:(lia)) as (V & N & _).
  split; [exact V|].
  apply finite_of_ev; [exact V|exact N|].
  assert (2 ^ 63 * 2 ^ 2200 < huge) by reflexivity. lia.
Qed.

Section WholeLimits.

Variables lo hi : F64.t.
Hypothesis lo_number : number64 lo.
Hypothesis hi_number : number64 hi.
Hypothesis lo_le_hi : fle lo hi.
Hypothesis lo_whole : exists k, ev lo = k * 2 ^ 2200.
Hypothesis hi_whole : exists k, ev hi = k * 2 ^ 2200.
Hypothesis lo_bound : - (2 ^ 63 * 2 ^ 2200) <= ev lo.
Hypothesis hi_bound : ev hi <= 2 ^ 63 * 2 ^ 2200.

(** Between two whole numbers of [int64], the step of the edges is zero
    or at least [2 ^ -1022], and finite. *)
Lemma whole_limits_step :
  finite (step_of lo hi) /\
  (is_zero (step_of lo hi) = true \/ fle float_min (step_of lo hi)).
Proof.
  destruct lo_number as [Vl Fl], hi_number as [Vh Fh].
  destruct lo_whole as [kl Hl], hi_whole as [kh Hh].
  pose proof (limits_ev lo hi lo_number hi_number lo_le_hi) as Hle.
  assert (P : 0 < 2 ^ 2200) by reflexivity.
  destruct (sub_finite hi lo Vh Vl Fh Fl) as (Vd & Nd & Ed).
  assert (Hk : ev hi - ev lo = (kh - kl) * 2 ^ 2200) by (rewrite Hl, Hh; ring).
  assert (Hk0 : 0 <= kh - kl) by nia.
  unfold step_of.
  destruct (Z.eq_dec (kh - kl) 0) as [Z0|NZ].
  - (* the limits are equal *)
    assert (E0 : ev (hi - lo)%f64 = 0).
    { rewrite Ed, Hk, Z0. reflexivity. }
    assert (Hz : is_zero (hi - lo)%f64 = true).
    { destruct (hi - lo)%f64 as [s|s| |s m e]; try discriminate Nd; try reflexivity.
      - exfalso. pose proof huge_pos. cbn [ev] in E0. destruct s; cbn [cond_Zopp] in E0; lia.
      - exfalso. apply binary64_finite in Vd. destruct Vd as [_ Be].
        pose proof (sv_pos (Z.pos m) e ltac:(lia) ltac:(lia)).
        cbn [ev] in E0. destruct s; cbn [cond_Zopp] in E0; lia. }
    pose proof (div_99_zero _ Hz) as Hs.
    split; [apply is_zero_finite; exact Hs|left; exact Hs].
  - (* the range is at least 1 and at most 2^64 *)
    assert (HD : 2 ^ 2200 <= ev (hi - lo)%f64 <= 2 ^ 64 * 2 ^ 2200).
    { rewrite Ed. split.
      - rewrite <- RN_1 at 1. apply RN_mono. nia.
      - rewrite <- RN_2_64. apply RN_mono.
        change (2 ^ 64) with (2 * 2 ^ 63). lia. }
    assert (Hh64 : 2 ^ 64 * 2 ^ 2200 < huge) by reflexivity.
    destruct (hi - lo)%f64 as [s|s| |s m e] eqn:Ed'; try discriminate Nd.
    + exfalso. cbn [ev] in HD. lia.
    + exfalso. cbn [ev] in HD. destruct s; cbn [cond_Zopp] in HD; lia.
    + assert (s = false).
      { destruct s; [|reflexivity]. exfalso.
        apply binary64_finite in Vd. destruct Vd as [_ Be].
        pose proof (sv_pos (Z.pos m) e ltac:(lia) ltac:(lia)).
        cbn [ev cond_Zopp] in HD. lia. }
      subst s.
      destruct (div_99_err m e Vd) as (res & U & Hev & Hres & HU & Herr & Hsmall & Hnorm).
      assert (V99 : binary64 (F64.of_nat 99)) by (rewrite of_nat_99; reflexivity).
      pose proof (div_binary64 _ _ Vd V99) as Vs.
      assert (Ns : not_nan (S754_finite false m e / F64.of_nat 99)%f64).
      { apply (fle_not_nan F64.zero). rewrite of_nat_99 in V99 |- *.
        apply div_nonneg; trivial; reflexivity. }
      assert (H1178 : 99 * 2 ^ 1178 + 99 * 2 ^ 1126 < 2 ^ 2200) by reflexivity.
      assert (Hn : 2 ^ 1178 <= res).
      { destruct (Z_lt_le_dec res (2 ^ 1178)) as [L|G]; [exfalso|exact G].
        specialize (Hsmall L). subst U. lia. }
      specialize (Hnorm Hn).
      assert (Hfin : res < huge).
      { assert (P52 : 1 <= 2 ^ 52) by (vm_compute; discriminate). nia. }
      assert (Es : ev (S754_finite false m e / F64.of_nat 99)%f64 = res) by lia.
      split.
      * apply finite_of_ev; trivial. pose proof huge_pos. lia.
      * right. apply ev_order; trivial; try reflexivity. rewrite ev_float_min, Es. exact Hn.
Qed.

End WholeLimits.

(** * The scale of the fitted map does not overflow *)

(** Two binary64 numbers that differ are at least one unit of the smaller
    one apart. *)
Lemma gap_pos (m1 e1 m2 e2 : Z) :
  0 < m1 -> 0 < m2 -> -1074 <= e1 -> -1074 <= e2 ->
  canonical (m1, e1) -> canonical (m2, e2) ->
  sv (m1, e1) < sv (m2, e2) ->
  sv (m1, e1) < 2 ^ 53 * (sv (m2, e2) - sv (m1, e1)).
Proof.
  intros H1 H2 K1 K2 C1 C2 Hlt.
  pose proof (canonical_order m2 e2 m1 e1 H2 H1 ltac:(lia) ltac:(lia) C2 C1) as Hord.
  assert (Hcase : e1 < e2 \/ (e1 = e2 /\ m1 < m2)) by lia.
  destruct C1 as [C1|[_ C1]], C2 as [C2|[_ C2]]; cbn [fst snd] in *; try lia.
  destruct (Zdigits2_bounds m1 H1) as [_ U1].
  destruct (Zdigits2_bounds m2 H2) as [L2 _].
  pose proof (Zdigits2_nonneg m1) as N1.
  assert (D1 : Zdigits2 m1 <= 53) by (unfold fexp64 in C1; lia).
  assert (M1 : m1 < 2 ^ 53).
  { apply (Z.lt_le_trans _ _ _ U1). apply Z.pow_le_mono_r; lia. }
  unfold sv in *. cbn [fst snd] in *.
  assert (P1 : 0 < 2 ^ (e1 + 2200)) by (apply Z.pow_pos_nonneg; lia).
  destruct Hcase as [He|[-> Hm]].
  - assert (D2 : Zdigits2 m2 = 53) by (unfold fexp64 in C2; lia).
    rewrite D2 in L2. change (2 ^ (53 - 1)) with (2 ^ 52) in L2.
    assert (P2 : 2 * 2 ^ (e1 + 2200) <= 2 ^ (e2 + 2200)).
    { replace (2 * 2 ^ (e1 + 2200)) with (2 ^ (e1 + 1 + 2200)).
      - apply Z.pow_le_mono_r; lia.
      - replace (e1 + 1 + 2200) with (1 + (e1 + 2200)) by lia.
        rewrite Z.pow_add_r by lia. reflexivity. }
    assert (P52 : 2 * 2 ^ 52 = 2 ^ 53) by reflexivity.
    nia.
  - nia.
Qed.

Lemma gap (x y : F64.t) :
  number64 x -> number64 y -> ev x < ev y ->
  Z.abs (ev x) <= 2 ^ 54 * (ev y - ev x).
Proof.
  intros [Vx Fx] [Vy Fy] Hlt.
  assert (P54 : 2 ^ 54 = 2 * 2 ^ 53) by reflexivity.
  assert (P53 : 0 < 2 ^ 53) by reflexivity.
  destruct x as [sx|sx| |sx mx ex]; try discriminate Fx.
  { cbn [ev] in *. rewrite Z.abs_0. lia. }
  destruct y as [sy|sy| |sy my ey]; try discriminate Fy.
  - (* y is a zero: x is negative *)
    cbn [ev] in *. apply binary64_finite in Vx. destruct Vx as [Cx Bx].
    pose proof (sv_pos (Z.pos mx) ex ltac:(lia) ltac:(lia)).
    destruct sx; cbn [cond_Zopp] in *; lia.
  - cbn [ev] in *. apply binary64_finite in Vx, Vy.
    destruct Vx as [Cx Bx], Vy as [Cy By].
    pose proof (sv_pos (Z.pos mx) ex ltac:(lia) ltac:(lia)) as Px.
    pose proof (sv_pos (Z.pos my) ey ltac:(lia) ltac:(lia)) as Py.
    destruct sx, sy; cbn [cond_Zopp] in *.
    + (* both negative *)
      pose proof (gap_pos (Z.pos my) ey (Z.pos mx) ex ltac:(lia) ltac:(lia)
                    ltac:(lia) ltac:(lia) Cy Cx ltac:(lia)).
      lia.
    + lia.
    + lia.
    + pose proof (gap_pos (Z.pos mx) ex (Z.pos my) ey ltac:(lia) ltac:(lia)
                    ltac:(lia) ltac:(lia) Cx Cy ltac:(lia)).
      lia.
Qed.

(** The reciprocal of a positive binary64 number [h]: it is below
    [2 ^ -1022], or its product with [h] is at most 2. *)
Lemma reciprocal_bound (m : positive) (e : Z) :
  binary64 (S754_finite false m e) ->
  exists res,
    ev (F64.one / S754_finite false m e)%f64 = Z.min res huge /\
    0 <= res /\
    (res < 2 ^ 1178 \/ res * ev (S754_finite false m e) <= 2 ^ 4401).
Proof.
  intros Vh.
  assert (Be : -1074 <= e <= 971) by (apply binary64_finite in Vh; tauto).
  assert (V1 : binary64 (S754_finite false 4503599627370496 (-52))) by reflexivity.
  change F64.one with (S754_finite false 4503599627370496 (-52)).
  destruct (div_finite_spec _ _ _ _ _ _ V1 Vh)
    as (q & r & e' & Hq & Hr & He' & Heq & Hok & H0 & -> & Hcan & Hexp & Hfst).
  cbn [xorb].
  destruct (round_at_err q r (Z.pos m) e' Hq H0 Hr ltac:(lia) Hok)
    as (U & HU & Herr & Hs & Hn).
  exists (sv (round_at q r (Z.pos m) e')).
  split.
  { destruct (round_at q r (Z.pos m) e') as [m1 e1]. cbn [fst snd] in *.
    rewrite ev_pack by (try assumption; lia). reflexivity. }
  assert (Hres : 0 <= sv (round_at q r (Z.pos m) e')).
  { unfold sv. apply Z.mul_nonneg_nonneg; [exact Hfst|apply Z.pow_nonneg; lia]. }
  split; [exact Hres|].
  set (res := sv (round_at q r (Z.pos m) e')) in *.
  destruct (Z_lt_le_dec res (2 ^ 1178)) as [L|G]; [left; exact L|right].
  specialize (Hn G).
  rewrite <- Heq in Herr.
  cbn [ev cond_Zopp]. unfold sv. cbn [fst snd].
  assert (Hp : 4503599627370496 * 2 ^ (-52 - e - e') * 2 ^ (e' + 2200) * 2 ^ (e + 2200)
               = 2 ^ 4400).
  { change 4503599627370496 with (2 ^ 52).
    rewrite <- !Z.pow_add_r by lia. f_equal. lia. }
  set (X := 4503599627370496 * 2 ^ (-52 - e - e') * 2 ^ (e' + 2200)) in *.
  assert (Pe : 0 < 2 ^ (e + 2200)) by (apply Z.pow_pos_nonneg; lia).
  set (T := 2 ^ (e + 2200)) in *.
  assert (P52 : 2 ^ 52 = 4503599627370496) by reflexivity.
  assert (P4401 : 2 ^ 4401 = 2 * 2 ^ 4400) by reflexivity.
  assert (P4400 : 0 < 2 ^ 4400) by reflexivity.
  (* res * m <= X + m * U / 2 and U <= res / 2 ^ 52 *)
  assert (H1 : 2 * (res * Z.pos m) <= 2 * X + Z.pos m * U) by lia.
  assert (H2 : 2 * (res * Z.pos m) * T <= (2 * X + Z.pos m * U) * T) by nia.
  assert (H3 : 2 * (res * (Z.pos m * T)) <= 2 * 2 ^ 4400 + (Z.pos m * T) * U) by nia.
  set (Hv := Z.pos m * T) in *.
  assert (PH : 0 < Hv) by (unfold Hv; nia).
  assert (H4 : (Z.pos m * T) * U * 2 ^ 52 <= Hv * res) by (fold Hv; nia).
  fold Hv in H4.
  nia.
Qed.

Lemma RN_2_2256 : RN (2 ^ 2256) = 2 ^ 2256.
Proof. vm_compute. reflexivity. Qed.

(** A product of two binary64 numbers whose exact value is small enough
    is finite. *)
Lemma mul_finite_of_bound (x y : F64.t) :
  number64 x -> number64 y -> Z.abs (ev x * ev y) <= 2 ^ 4456 ->
  finite (x * y)%f64.
Proof.
  intros [Vx Fx] [Vy Fy] Hb.
  apply finite_of_ev.
  - apply mul_binary64; assumption.
  - apply mul_not_nan; assumption.
  - rewrite ev_mul by assumption.
    assert (P : 0 < 2 ^ 2200) by reflexivity.
    assert (E : 2 ^ 4456 = 2 ^ 2256 * 2 ^ 2200) by reflexivity.
    assert (Hq : - 2 ^ 2256 <= ev x * ev y / 2 ^ 2200 <= 2 ^ 2256).
    { split.
      - apply Z.div_le_lower_bound; lia.
      - apply Z.div_le_upper_bound; lia. }
    pose proof (RN_mono _ _ (proj1 Hq)) as H1.
    pose proof (RN_mono _ _ (proj2 Hq)) as H2.
    rewrite RN_opp in H1. rewrite RN_2_2256 in H1, H2.
    assert (2 ^ 2256 < huge) by reflexivity. lia.
Qed.

Lemma mul_one_finite (x : F64.t) : number64 x -> finite (x * F64.one)%f64.
Proof.
  intros [Vx Fx].
  apply finite_of_ev.
  - apply mul_binary64; [exact Vx|reflexivity].
  - apply mul_not_nan; [exact Fx|reflexivity].
  - rewrite ev_mul by (trivial; reflexivity).
    change (ev F64.one) with (2 ^ 2200).
    rewrite Z.div_mul by (apply Z.pow_nonzero; lia).
    rewrite RN_id by assumption. apply ev_finite_bounds; assumption.
Qed.

Lemma ev_ten_eps : ev (F64.of_Z 10 * F64.eps)%f64 = 10 * 2 ^ 2148.
Proof. vm_compute. reflexivity. Qed.

(** [data_min_ * scale_] never overflows: the range is zero (and the
    scale 1), or infinite (and the scale 0), or at least one unit of the
    least value, so that the product is at most about [2 ^ 54]. *)
Lemma first_pass_no_overflow (v : list F64.t) :
  samples v -> Forall binary64 v ->
  finite (sklearn.data_min_ (sklearn.first_pass v) *
          sklearn.scale_ (sklearn.first_pass v))%f64.
Proof.
  intros Sv Bv.
  pose proof (nanmin_is_min v Sv) as Hmin. pose proof (nanmax_is_max v Sv) as Hmax.
  assert (Nmin : number64 (np.nanmin v)).
  { split; [|exact (is_min_finite v _ Sv Hmin)].
    rewrite List.Forall_forall in Bv. exact (Bv _ (proj1 Hmin)). }
  assert (Nmax : number64 (np.nanmax v)).
  { split; [|exact (is_max_finite v _ Sv Hmax)].
    rewrite List.Forall_forall in Bv. exact (Bv _ (proj1 Hmax)). }
  destruct Nmin as [Vmin Fmin], Nmax as [Vmax Fmax].
  assert (E : sklearn.scale_ (sklearn.first_pass v) =
              (F64.one / sklearn.handle_zeros_in_scale (np.nanmax v - np.nanmin v))%f64)
    by reflexivity.
  change (sklearn.data_min_ (sklearn.first_pass v)) with (np.nanmin v).
  rewrite E. clear E.
  destruct (sub_finite _ _ Vmax Vmin Fmax Fmin) as (Vr & Nr & Er).
  set (r := (np.nanmax v - np.nanmin v)%f64) in *.
  unfold sklearn.handle_zeros_in_scale.
  destruct (F64.ltb r (F64.of_Z 10 * F64.eps)%f64) eqn:Hlt.
  - (* the range counts as zero *)
    change (F64.one / F64.one)%f64 with F64.one.
    apply mul_one_finite. split; assumption.
  - assert (N10 : not_nan (F64.of_Z 10 * F64.eps)%f64) by reflexivity.
    assert (H10 : fle (F64.of_Z 10 * F64.eps)%f64 r).
    { rewrite (ltb_spec _ _ Nr N10) in Hlt. apply negb_false_iff in Hlt. exact Hlt. }
    assert (V10 : binary64 (F64.of_Z 10 * F64.eps)%f64) by reflexivity.
    pose proof (proj1 (ev_order _ _ V10 Vr N10 Nr) H10) as Hev.
    rewrite ev_ten_eps in Hev.
    destruct r as [s|s| |s m e] eqn:Hr; try discriminate Nr.
    + exfalso. cbn [ev] in Hev. lia.
    + destruct s; [exfalso; pose proof huge_pos; cbn [ev cond_Zopp] in Hev; lia|].
      change (F64.one / S754_infinity false)%f64 with (S754_zero false).
      apply is_zero_finite. apply mul_zero_r; [exact Fmin|reflexivity].
    + assert (Be : -1074 <= e <= 971) by (apply binary64_finite in Vr; tauto).
      pose proof (sv_pos (Z.pos m) e ltac:(lia) ltac:(lia)) as Psv.
      destruct s; [exfalso; cbn [ev cond_Zopp] in Hev; lia|].
      destruct (reciprocal_bound m e Vr) as (res & ES & Hres & Hcase).
      set (sc := (F64.one / S754_finite false m e)%f64) in *.
      set (Hv := ev (S754_finite false m e)) in *.
      assert (P2148 : 0 < 2 ^ 2148) by reflexivity.
      assert (Hres' : res <= 2 ^ 2253).
      { destruct Hcase as [L|L].
        - assert (2 ^ 1178 <= 2 ^ 2253) by (vm_compute; discriminate). lia.
        - assert (E1 : 2 ^ 4401 = 2 ^ 2253 * 2 ^ 2148) by reflexivity. nia. }
      assert (Hh : 2 ^ 2253 < huge) by reflexivity.
      assert (ES' : ev sc = res) by lia.
      assert (Vs : binary64 sc) by (apply div_binary64; [reflexivity|exact Vr]).
      assert (Ns : not_nan sc).
      { apply (fle_not_nan F64.zero). apply div_nonneg; trivial; reflexivity. }
      assert (Fs : finite sc).
      { apply finite_of_ev; trivial. pose proof huge_pos. lia. }
      apply mul_finite_of_bound; [split; assumption|split; assumption|].
      rewrite ES', Z.abs_mul, (Z.abs_eq res) by lia.
      pose proof (ev_finite_bounds _ Vmin Fmin) as Hb.
      destruct Hcase as [L|L].
      * assert (huge * 2 ^ 1178 <= 2 ^ 4456) by (vm_compute; discriminate).
        assert (Z.abs (ev (np.nanmin v)) <= huge) by lia.
        assert (P1178 : 0 < 2 ^ 1178) by reflexivity. nia.
      * (* the range is at least one unit of the least value *)
        set (W := ev (np.nanmax v) - ev (np.nanmin v)) in *.
        assert (HW : 2 ^ 1178 <= W).
        { destruct (Z_lt_le_dec W (2 ^ 1178)) as [Lt|Ge]; [exfalso|exact Ge].
          pose proof (RN_mono W (2 ^ 1178) ltac:(lia)) as Hm.
          assert (E0 : RN (2 ^ 1178) = 2 ^ 1178) by (vm_compute; reflexivity).
          assert (10 * 2 ^ 2148 > 2 ^ 1178) by reflexivity.
          fold Hv in Er. lia. }
        assert (P1178 : 0 < 2 ^ 1178) by reflexivity.
        destruct (rnd_normal W HW) as (_ & Hup & _).
        assert (Hrn : Hv = rnd W).
        { fold Hv in Er. rewrite Er, (RN_rnd W ltac:(lia)).
          pose proof (ev_finite_bounds _ Vr eq_refl) as Hfb. fold Hv in Hfb.
          rewrite Er, (RN_rnd W ltac:(lia)) in Hfb. lia. }
        pose proof (gap _ _ (conj Vmin Fmin) (conj Vmax Fmax) ltac:(unfold W in HW; lia))
          as Hg.
        fold W in Hg.
        assert (HW2 : W <= 2 * Hv).
        { rewrite Hrn. assert (P53 : 0 < 2 ^ 53) by reflexivity.
          pose proof (rnd_nonneg W ltac:(lia)). nia. }
        assert (E2 : 2 ^ 4456 = 2 ^ 55 * 2 ^ 4401) by reflexivity.
        assert (E3 : 2 ^ 55 = 2 * 2 ^ 54) by reflexivity.
        assert (P54 : 0 < 2 ^ 54) by reflexivity.
        assert (HvP : 0 < Hv) by lia.
        assert (H1 : Z.abs (ev (np.nanmin v)) * res <= 2 ^ 54 * W * res) by nia.
        assert (H2 : 2 ^ 54 * W * res <= 2 ^ 54 * (2 * Hv) * res) by nia.
        assert (H3 : 2 ^ 54 * (2 * Hv) * res = 2 ^ 55 * (res * Hv)) by (rewrite E3; ring).
        assert (H4 : 2 ^ 55 * (res * Hv) <= 2 ^ 55 * 2 ^ 4401) by nia.
        lia.
Qed.

(** * The fitted map keeps the order *)

Section Fitted.

Variable v : list F64.t.
Hypothesis v_samples : samples v.
Hypothesis v_binary64 : Forall binary64 v.

Local Abbreviation attrs := (sklearn.first_pass v) (only parsing).

Lemma no_overflow : finite (sklearn.data_min_ attrs * sklearn.scale_ attrs)%f64.
Proof. exact (first_pass_no_overflow v v_samples v_binary64). Qed.

Lemma data_min_facts :
  In (sklearn.data_min_ attrs) v /\ finite (sklearn.data_min_ attrs) /\
  binary64 (sklearn.data_min_ attrs).
Proof.
  pose proof (nanmin_is_min v v_samples) as Hm.
  split; [exact (proj1 Hm)|]. split; [exact (is_min_finite v _ v_samples Hm)|].
  rewrite List.Forall_forall in v_binary64. exact (v_binary64 _ (proj1 Hm)).
Qed.

Lemma data_max_facts :
  In (sklearn.data_max_ attrs) v /\ finite (sklearn.data_max_ attrs) /\
  binary64 (sklearn.data_max_ attrs).
Proof.
  pose proof (nanmax_is_max v v_samples) as Hm.
  split; [exact (proj1 Hm)|]. split; [exact (is_max_finite v _ v_samples Hm)|].
  rewrite List.Forall_forall in v_binary64. exact (v_binary64 _ (proj1 Hm)).
Qed.

Lemma scale_facts :
  binary64 (sklearn.scale_ attrs) /\ finite (sklearn.scale_ attrs) /\
  fle F64.zero (sklearn.scale_ attrs).
Proof.
  destruct data_min_facts as (_ & Fmin & Vmin), data_max_facts as (_ & Fmax & Vmax).
  destruct (sub_finite _ _ Vmax Vmin Fmax Fmin) as (Vr & Nr & _).
  destruct (handle_zeros_facts _ Vr Nr) as (Vh & Nh & Ph & Zh).
  assert (E : sklearn.scale_ attrs =
              (F64.one / sklearn.handle_zeros_in_scale
                           (sklearn.data_max_ attrs - sklearn.data_min_ attrs))%f64)
    by reflexivity.
  split; [|split].
  - rewrite E. apply div_binary64; [reflexivity|exact Vh].
  - exact (mul_finite_r _ _ Fmin no_overflow).
  - rewrite E. apply div_nonneg; trivial; reflexivity.
Qed.

Lemma min_facts : binary64 (sklearn.min_ attrs) /\ finite (sklearn.min_ attrs).
Proof.
  destruct data_min_facts as (_ & Fmin & Vmin), scale_facts as (Vs & Fs & _).
  pose proof no_overflow as Hno.
  assert (E : sklearn.min_ attrs =
              (F64.zero - sklearn.data_min_ attrs * sklearn.scale_ attrs)%f64) by reflexivity.
  rewrite E. split; [|apply zero_sub_finite; exact no_overflow].
  apply (sub_finite F64.zero); trivial; try reflexivity.
  apply mul_binary64; assumption.
Qed.

(** The fitted map [x * scale_ + min_] is monotone on binary64 numbers. *)
Lemma scale_value_mono (x y : F64.t) :
  binary64 x -> binary64 y -> finite x -> finite y -> fle x y ->
  fle (sklearn.scale_value attrs x) (sklearn.scale_value attrs y).
Proof.
  intros Vx Vy Fx Fy Hxy.
  destruct scale_facts as (Vs & Fs & Ps), min_facts as (Vm & Fm).
  unfold sklearn.scale_value.
  apply add_mono; trivial;
    try (apply mul_binary64; assumption); try (apply mul_not_nan; assumption).
  apply mul_mono; assumption.
Qed.

(** Every value of the column is mapped between zero, the image of the
    least value, and the image of the greatest value. *)
Lemma scale_value_range (x : F64.t) :
  In x v ->
  fle F64.zero (sklearn.scale_value attrs x) /\
  fle (sklearn.scale_value attrs x) (sklearn.scale_value attrs (sklearn.data_max_ attrs)).
Proof.
  intros Hx.
  destruct data_min_facts as (_ & Fmin & Vmin), data_max_facts as (_ & Fmax & Vmax).
  assert (Vx : binary64 x) by (rewrite List.Forall_forall in v_binary64; exact (v_binary64 x Hx)).
  assert (Fx : finite x).
  { destruct v_samples as [_ H]. rewrite List.Forall_forall in H. exact (H x Hx). }
  pose proof (nanmin_is_min v v_samples) as [_ Hmin].
  pose proof (nanmax_is_max v v_samples) as [_ Hmax].
  rewrite List.Forall_forall in Hmin, Hmax.
  pose proof (scale_value_mono _ _ Vmin Vx Fmin Fx (Hmin x Hx)) as H1.
  pose proof (scale_value_mono _ _ Vx Vmax Fx Fmax (Hmax x Hx)) as H2.
  split; [|exact H2].
  assert (H0 : feq (sklearn.scale_value attrs (sklearn.data_min_ attrs)) F64.zero).
  { apply scale_value_data_min; [reflexivity|exact no_overflow|].
    apply feq_refl. apply finite_not_nan. exact Fmin. }
  destruct (fle_not_nan _ _ H1) as [N1 N2].
  apply (fle_trans _ (sklearn.scale_value attrs (sklearn.data_min_ attrs))); trivial;
    [reflexivity|]. 
  apply feq_fle_l. apply feq_sym. exact H0.
Qed.

End Fitted.

(* ===================================================================== *)
(** * Runs that go through *)
(* ===================================================================== *)

(** Edges that pass numpy's check and hold no NaN are in order. *)
Lemma non_decreasing_of_check (e : list F64.t) :
  Forall not_nan e -> np.any_decreasing e = false -> non_decreasing e = true.
Proof.
  induction e as [|x e IH]; [reflexivity|].
  destruct e as [|y r]; [reflexivity|].
  intros Hn Hd.
  change (np.any_decreasing (x :: y :: r))
    with ((x >? y)%f64 || np.any_decreasing (y :: r)) in Hd.
  apply orb_false_iff in Hd. destruct Hd as [Hxy Hd].
  inversion Hn as [|? ? Nx Hn']. inversion Hn' as [|? ? Ny _]. subst.
  change (non_decreasing (x :: y :: r))
    with (F64.leb x y && non_decreasing (y :: r)).
  rewrite (IH Hn' Hd), andb_true_r.
  exact (fle_of_gtb_false x y Nx Ny Hxy).
Qed.

(** In a list in order every element lies between the first and the
    last. *)
Lemma non_decreasing_bounds (x d : F64.t) (r : list F64.t) :
  Forall not_nan (x :: r) -> non_decreasing (x :: r) = true ->
  Forall (fun y => fle x y /\ fle y (List.last (x :: r) d)) (x :: r).
Proof.
  revert x. induction r as [|y r IH]; intros x Hn Hs.
  - inversion Hn as [|? ? Nx _]. subst. constructor; [|constructor].
    split; apply fle_refl; exact Nx.
  - inversion Hn as [|? ? Nx Hn']. subst.
    change (non_decreasing (x :: y :: r))
      with (F64.leb x y && non_decreasing (y :: r)) in Hs.
    apply andb_true_iff in Hs. destruct Hs as [Hxy Hs].
    specialize (IH y Hn' Hs).
    change (List.last (x :: y :: r) d) with (List.last (y :: r) d).
    assert (Hylast : fle y (List.last (y :: r) d)).
    { inversion IH as [|? ? [_ H] _]. exact H. }
    assert (Hle : forall u v w, fle u v -> fle v w -> fle u w).
    { intros u v w H1 H2. destruct (fle_not_nan _ _ H1), (fle_not_nan _ _ H2).
      apply (fle_trans u v w); assumption. }
    constructor.
    + split; [apply fle_refl; exact Nx|]. exact (Hle _ _ _ Hxy Hylast).
    + eapply List.Forall_impl; [|exact IH].
      intros z [H1 H2]. split; [exact (Hle _ _ _ Hxy H1)|exact H2].
Qed.

(** The limits of two columns of binary64 samples. *)
Lemma limits_number64 (a b : list F64.t) :
  samples a -> samples b -> Forall binary64 (a ++ b) ->
  number64 (min_limit_of a b) /\ number64 (max_limit_of a b) /\
  fle (min_limit_of a b) (max_limit_of a b).
Proof.
  intros Sa Sb Bv.
  pose proof (samples_app _ _ Sa Sb) as Sab.
  pose proof (min_limit_is_min a b Sa Sb) as Hmin.
  pose proof (max_limit_is_max a b Sa Sb) as Hmax.
  rewrite List.Forall_forall in Bv.
  split; [split; [exact (Bv _ (proj1 Hmin))|exact (is_min_finite _ _ Sab Hmin)]|].
  split; [split; [exact (Bv _ (proj1 Hmax))|exact (is_max_finite _ _ Sab Hmax)]|].
  destruct Hmin as [_ Hall]. rewrite List.Forall_forall in Hall.
  exact (Hall _ (proj1 Hmax)).
Qed.

(** When the step is finite, and zero or at least [2 ^ -1022], the edges
    are numbers that pass the check of [np.histogram]. *)
Lemma edges_pass_the_check (a b : list F64.t) :
  samples a -> samples b -> Forall binary64 (a ++ b) ->
  finite (step_of (min_limit_of a b) (max_limit_of a b)) ->
  is_zero (step_of (min_limit_of a b) (max_limit_of a b)) = true \/
    fle float_min (step_of (min_limit_of a b) (max_limit_of a b)) ->
  Forall not_nan (bins_of a b) /\ np.any_decreasing (bins_of a b) = false.
Proof.
  intros Sa Sb Bv Fs Hs.
  destruct (limits_number64 a b Sa Sb Bv) as (Nlo & Nhi & Hle).
  split.
  - apply linspace_100_not_nan; [exact (proj2 Nlo)| |exact Fs].
    apply finite_not_nan. exact (proj2 Nhi).
  - exact (linspace_100_not_decreasing _ _ Nlo Nhi Hle Fs Hs).
Qed.

(** A run on two sample sets whose edges pass the check draws the
    chart. *)
Lemma run_draws_the_chart (fs : filesystem) (a b : list F64.t) :
  loaded fs a b -> samples a -> samples b ->
  Forall not_nan (bins_of a b) -> np.any_decreasing (bins_of a b) = false ->
  outcome fs = Ok tt /\ stdout (final fs) = [] /\
  bins (final fs) = Some (bins_of a b) /\
  figure (final fs) = chart_of a b.
Proof.
  intros Hl Sa Sb Hn Hd.
  destruct (run_loaded fs a b Hl Sa Sb)
    as (Hout & _ & _ & _ & _ & _ & _ & _ & _ & _ & Hb & Hh).
  cbv zeta in Hh. unfold np.histogram in Hh. rewrite Hd in Hh.
  destruct Hh as [Hok Hf].
  split; [exact Hok|]. split; [exact Hout|]. split; [exact Hb|].
  rewrite Hf, !(histogram_bin_counts _ _ Hn Hd). reflexivity.
Qed.

(** ** Files of integers *)

Lemma infer_int_lines (l : list Z) : pd.infer (map IntLit l) = Numeric (map F64.of_Z l).
Proof.
  unfold pd.infer.
  assert (H : existsb is_text (map IntLit l) = false) by (induction l; trivial).
  rewrite H, map_map. reflexivity.
Qed.

Lemma int_lines_loaded (fs : filesystem) (la lb : list Z) :
  fs !! mutex_path = Some (int_lines la) -> fs !! sem_path = Some (int_lines lb) ->
  loaded fs (map F64.of_Z la) (map F64.of_Z lb).
Proof.
  intros Hm Hs. unfold loaded, pd.read_csv. rewrite Hm, Hs. unfold int_lines.
  rewrite !infer_int_lines. split; reflexivity.
Qed.

Lemma int_column (l : list Z) :
  l <> [] -> Forall int64 l ->
  samples (map F64.of_Z l) /\ Forall binary64 (map F64.of_Z l).
Proof.
  intros Hne Hl. split; [split|].
  - destruct l; [contradiction|discriminate].
  - apply List.Forall_map. eapply List.Forall_impl; [|exact Hl].
    intros z Hz. exact (proj2 (proj1 (of_Z_int64 z Hz))).
  - apply List.Forall_map. eapply List.Forall_impl; [|exact Hl].
    intros z Hz. exact (proj1 (proj1 (of_Z_int64 z Hz))).
Qed.

(** Between two columns of integers the step is finite, and zero or at
    least [2 ^ -1022]. *)
Lemma int_columns_step (la lb : list Z) :
  la <> [] -> lb <> [] -> Forall int64 (la ++ lb) ->
  let a := map F64.of_Z la in
  let b := map F64.of_Z lb in
  finite (step_of (min_limit_of a b) (max_limit_of a b)) /\
  (is_zero (step_of (min_limit_of a b) (max_limit_of a b)) = true \/
   fle float_min (step_of (min_limit_of a b) (max_limit_of a b))).
Proof.
  intros Ha Hb Hall a b.
  apply List.Forall_app in Hall. destruct Hall as [Ia Ib].
  destruct (int_column la Ha Ia) as [Sa Ba], (int_column lb Hb Ib) as [Sb Bb].
  fold a in Sa, Ba. fold b in Sb, Bb.
  assert (Bv : Forall binary64 (a ++ b)) by (apply List.Forall_app; split; assumption).
  destruct (limits_number64 a b Sa Sb Bv) as (Nlo & Nhi & Hle).
  assert (Hint : forall x, In x (a ++ b) -> exists z, int64 z /\ x = F64.of_Z z).
  { intros x Hx. unfold a, b in Hx. rewrite <- map_app in Hx.
    apply in_map_iff in Hx. destruct Hx as (z & <- & Hz).
    exists z. split; [|reflexivity].
    assert (Hall : Forall int64 (la ++ lb)) by (apply List.Forall_app; split; assumption).
    rewrite List.Forall_forall in Hall. exact (Hall z Hz). }
  destruct (Hint _ (proj1 (min_limit_is_min a b Sa Sb))) as (zl & Il & El).
  destruct (Hint _ (proj1 (max_limit_is_max a b Sa Sb))) as (zh & Ih & Eh).
  destruct (of_Z_int64 zl Il) as (_ & Wl & Bl & _).
  destruct (of_Z_int64 zh Ih) as (_ & Wh & _ & Bh).
  rewrite <- El in Wl, Bl. rewrite <- Eh in Wh, Bh.
  exact (whole_limits_step _ _ Nlo Nhi Hle Wl Wh Bl Bh).
Qed.

(** A run on two non-empty files of integers draws the chart. *)
Lemma int_files_draw_the_chart (fs : filesystem) (la lb : list Z) :
  fs !! mutex_path = Some (int_lines la) -> fs !! sem_path = Some (int_lines lb) ->
  la <> [] -> lb <> [] -> Forall int64 (la ++ lb) ->
  let a := map F64.of_Z la in
  let b := map F64.of_Z lb in
  Forall not_nan (bins_of a b) /\ np.any_decreasing (bins_of a b) = false /\
  outcome fs = Ok tt /\ stdout (final fs) = [] /\
  bins (final fs) = Some (bins_of a b) /\
  figure (final fs) = chart_of a b.
Proof.
  intros Hm Hs Ha Hb Hall a b.
  destruct (int_columns_step la lb Ha Hb Hall) as [Fs Hstep].
  pose proof Hall as Hall'.
  apply List.Forall_app in Hall'. destruct Hall' as [Ia Ib].
  destruct (int_column la Ha Ia) as [Sa Ba], (int_column lb Hb Ib) as [Sb Bb].
  assert (Bv : Forall binary64 (a ++ b)) by (apply List.Forall_app; split; assumption).
  destruct (edges_pass_the_check a b Sa Sb Bv Fs Hstep) as [Hn Hd].
  split; [exact Hn|]. split; [exact Hd|].
  exact (run_draws_the_chart fs a b (int_lines_loaded fs la lb Hm Hs) Sa Sb Hn Hd).
Qed.

(* ===================================================================== *)
(** * Existing numeric files (C7) *)
(* ===================================================================== *)

(** C7, as amended.  When both input files exist, whatever they hold,
    nothing is printed and the run does not end in [exit()].  When they
    load as two sample sets of binary64 numbers and the step
    [(max_limit - min_limit) / 99] is finite, and zero or at least
    [2 ^ -1022], the run ends normally and its pyplot calls are the whole
    chart: [plt.figure], the histogram of either raw column over the same
    100 edges with its counts bin by bin, and the decoration up to
    [plt.show()].  This is so for every pair of non-empty files of
    integers.  For mutex_ns.csv = 100, 150, 120 and sem_ns.csv = 200, 210
    the edges increase from 100 to 210, the mutex values are counted in
    the bins 0, 18 and 45, and the semaphore values in the bins 90 and
    98. *)
Theorem existing_numeric_files_run_without_the_message :
  (forall (fs : filesystem) (fm fs' : file),
      fs !! mutex_path = Some fm -> fs !! sem_path = Some fs' ->
      stdout (final fs) = [] /\
      forall code, outcome fs <> Raise (SystemExit code)) /\
  (forall (fs : filesystem) (a b : list F64.t),
      loaded fs a b -> samples a -> samples b -> Forall binary64 (a ++ b) ->
      finite (step_of (min_limit_of a b) (max_limit_of a b)) ->
      is_zero (step_of (min_limit_of a b) (max_limit_of a b)) = true \/
        fle float_min (step_of (min_limit_of a b) (max_limit_of a b)) ->
      outcome fs = Ok tt /\ stdout (final fs) = [] /\
      bins (final fs) = Some (bins_of a b) /\ length (bins_of a b) = 100%nat /\
      figure (final fs) = chart_of a b) /\
  (forall (fs : filesystem) (la lb : list Z),
      fs !! mutex_path = Some (int_lines la) -> fs !! sem_path = Some (int_lines lb) ->
      la <> [] -> lb <> [] -> Forall int64 (la ++ lb) ->
      let a := map F64.of_Z la in
      let b := map F64.of_Z lb in
      outcome fs = Ok tt /\ stdout (final fs) = [] /\
      bins (final fs) = Some (bins_of a b) /\ length (bins_of a b) = 100%nat /\
      figure (final fs) = chart_of a b) /\
  (let fs := two_files (int_lines [100; 150; 120]) (int_lines [200; 210]) in
   outcome fs = Ok tt /\
   stdout (final fs) = [] /\
   exists e,
     figure (final fs) =
       [plt.figure (12, 7);
        plt.hist (map F64.of_Z [100; 150; 120]) e
          ([1] ++ repeat 0 17 ++ [1] ++ repeat 0 26 ++ [1] ++ repeat 0 53)
          alpha_07 "Mutex" "skyblue";
        plt.hist (map F64.of_Z [200; 210]) e
          (repeat 0 90 ++ [1] ++ repeat 0 7 ++ [1])
          alpha_07 "Semáforo" "salmon"]
       ++ decoration /\
     bins (final fs) = Some e /\
     length e = 100%nat /\
     List.hd np.nan e = F64.of_Z 100 /\
     List.last e np.nan = F64.of_Z 210 /\
     strictly_increasing e = true).
Proof.
  split; [|split; [|split]].
  - intros fs fm fs' Hm Hs.
    pose proof (run_existing fs fm fs' Hm Hs) as Hrun.
    unfold final, outcome. rewrite Hrun.
    destruct (main_unguarded fs initial) as [r s] eqn:E. simpl. split.
    + exact (main_unguarded_silent fs _ _ _ E).
    + intros code ->.
      pose proof (main_unguarded_no_exit fs _ _ _ E) as H. discriminate H.
  - intros fs a b Hl Sa Sb Bv Fs Hs.
    destruct (edges_pass_the_check a b Sa Sb Bv Fs Hs) as [Hn Hd].
    destruct (run_draws_the_chart fs a b Hl Sa Sb Hn Hd) as (Ho & Hp & Hb & Hf).
    split; [exact Ho|]. split; [exact Hp|]. split; [exact Hb|].
    split; [apply linspace_length|exact Hf].
  - intros fs la lb Hm Hs Ha Hb Hall a b.
    destruct (int_files_draw_the_chart fs la lb Hm Hs Ha Hb Hall)
      as (_ & _ & Ho & Hp & Hbins & Hf).
    split; [exact Ho|]. split; [exact Hp|]. split; [exact Hbins|].
    split; [apply linspace_length|exact Hf].
  - cbv zeta. split; [vm_compute; reflexivity|]. split; [vm_compute; reflexivity|].
    eexists.
    split; [vm_compute; reflexivity|]. split; [vm_compute; reflexivity|].
    split; [vm_compute; reflexivity|]. split; [vm_compute; reflexivity|].
    split; vm_compute; reflexivity.
Qed.

(** Two files of integers, mutex = [3, 1, 2] and sem = [7]: the run ends
    normally with the whole chart. *)
Lemma existing_numeric_files_witness :
  let fs := two_files (int_lines [3; 1; 2]) (int_lines [7]) in
  let a := map F64.of_Z [3; 1; 2] in
  let b := map F64.of_Z [7] in
  outcome fs = Ok tt /\ stdout (final fs) = [] /\
  bins (final fs) = Some (bins_of a b) /\ length (bins_of a b) = 100%nat /\
  figure (final fs) = chart_of a b.
Proof.
  apply (proj1 (proj2 (proj2 existing_numeric_files_run_without_the_message))
           (two_files (int_lines [3; 1; 2]) (int_lines [7])) [3; 1; 2] [7]).
  - vm_compute. reflexivity.
  - vm_compute. reflexivity.
  - discriminate.
  - discriminate.
  - repeat constructor; vm_compute; discriminate.
Defined.

(** C7, as stated, fails: two well-formed numeric files on which the run
    stops in the first [plt.hist].  With mutex_ns.csv = 0 and
    sem_ns.csv = 2.47e-322 (50 times the least positive binary64 number)
    the step is rounded up to that least number, so that edge 98 is 98
    times it, above the last edge.  With -1.7976931348623157e308 and
    1.7976931348623157e308 the range overflows and the first edge is a
    NaN.  [np.histogram] raises [ValueError] on either edge array; only
    [plt.figure] has been called. *)
Lemma tiny_and_huge_ranges_stop_the_run :
  (let fs := two_files (int_lines [0]) (Csv [FloatLit (S754_finite false 50 (-1074))]) in
   loaded fs [F64.of_Z 0] [S754_finite false 50 (-1074)] /\
   samples [F64.of_Z 0] /\ samples [S754_finite false 50 (-1074)] /\
   step_of (min_limit_of [F64.of_Z 0] [S754_finite false 50 (-1074)])
           (max_limit_of [F64.of_Z 0] [S754_finite false 50 (-1074)])
     = S754_finite false 1 (-1074) /\
   nth 98 (bins_of [F64.of_Z 0] [S754_finite false 50 (-1074)]) np.nan
     = S754_finite false 98 (-1074) /\
   nth 99 (bins_of [F64.of_Z 0] [S754_finite false 50 (-1074)]) np.nan
     = S754_finite false 50 (-1074) /\
   outcome fs = Raise (ValueError "`bins` must increase monotonically, when an array") /\
   stdout (final fs) = [] /\
   figure (final fs) = [plt.figure (12, 7)]) /\
  (let fs := two_files (Csv [FloatLit (S754_finite true 9007199254740991 971)])
                       (Csv [FloatLit float_max]) in
   loaded fs [S754_finite true 9007199254740991 971] [float_max] /\
   samples [S754_finite true 9007199254740991 971] /\ samples [float_max] /\
   List.hd F64.zero (bins_of [S754_finite true 9007199254740991 971] [float_max]) = np.nan /\
   outcome fs = Raise (ValueError "`bins` must increase monotonically, when an array") /\
   stdout (final fs) = [] /\
   figure (final fs) = [plt.figure (12, 7)]).
Proof.
  split; cbv zeta.
  - split; [split; vm_compute; reflexivity|].
    split; [split; [discriminate|repeat constructor]|].
    split; [split; [discriminate|repeat constructor]|].
    split; [vm_compute; reflexivity|]. split; [vm_compute; reflexivity|].
    split; [vm_compute; reflexivity|]. split; [vm_compute; reflexivity|].
    split; vm_compute; reflexivity.
  - split; [split; vm_compute; reflexivity|].
    split; [split; [discriminate|repeat constructor]|].
    split; [split; [discriminate|repeat constructor]|].
    split; [vm_compute; reflexivity|]. split; [vm_compute; reflexivity|].
    split; vm_compute; reflexivity.
Qed.

(* ===================================================================== *)
(** * The bin edges (C2) *)
(* ===================================================================== *)

(** [y[-1] = stop] leaves the other elements as they are. *)
Lemma set_last_nth (y : list F64.t) (stop d : F64.t) (i : nat) :
  (S i < length y)%nat -> nth i (np.set_last y stop) d = nth i y d.
Proof.
  intros Hi.
  assert (Hne : y <> []) by (intros ->; cbn [length] in Hi; lia).
  pose proof (app_removelast_last d Hne) as Happ.
  assert (Hr : length (removelast y) = (length y - 1)%nat).
  { apply (f_equal (@length F64.t)) in Happ.
    rewrite length_app in Happ. cbn [length] in Happ. lia. }
  unfold np.set_last. destruct y as [|x r]; [contradiction|].
  rewrite Happ at 2.
  rewrite !app_nth1 by lia. reflexivity.
Qed.

Lemma nth_pred_length (l : list F64.t) (d : F64.t) :
  nth (length l - 1) l d = List.last l d.
Proof.
  induction l as [|x l IH]; [reflexivity|].
  destruct l as [|y r]; [reflexivity|].
  change (List.last (x :: y :: r) d) with (List.last (y :: r) d).
  rewrite <- IH.
  change (length (x :: y :: r)) with (S (S (length r))).
  change (length (y :: r)) with (S (length r)).
  replace (S (S (length r)) - 1)%nat with (S (length r)) by lia.
  replace (S (length r) - 1)%nat with (length r) by lia.
  reflexivity.
Qed.

(** The edges before the last one, by their index. *)
Lemma linspace_100_nth (lo hi : F64.t) (i : nat) :
  (i < 99)%nat -> nth i (np.linspace lo hi 100) np.nan = edge_of lo hi i.
Proof.
  intros Hi. unfold np.linspace, edge_of, step_of.
  change (100 - 1)%nat with 99%nat.
  change (0 <? 99)%nat with true. change (1 <? 100)%nat with true. cbv iota zeta.
  assert (Hnth : forall f, nth i (map f (np.arange 100)) np.nan = f (F64.of_nat i)).
  { intros f. unfold np.arange.
    rewrite map_map.
    rewrite (nth_indep _ np.nan (f (F64.of_nat 0)))
      by (rewrite length_map, length_seq; lia).
    rewrite (map_nth (fun n => f (F64.of_nat n)) (seq 0 100) 0%nat i).
    rewrite seq_nth by lia. reflexivity. }
  rewrite set_last_nth by (rewrite length_map; destruct (_ == _)%f64;
                           rewrite length_map, arange_length; lia).
  destruct (((hi - lo) / F64.of_nat 99 == F64.zero)%f64).
  - rewrite map_map.
    apply (Hnth (fun v => (v / F64.of_nat 99 * (hi - lo) + lo)%f64)).
  - rewrite map_map.
    apply (Hnth (fun v => (v * ((hi - lo) / F64.of_nat 99) + lo)%f64)).
Qed.

(** C2, as amended.  For two loaded sample sets the run computes exactly
    100 bin edges over [min_limit] and [max_limit], which are a least and
    a greatest raw value of both sets.  The edges are linearly spaced as
    binary64 arithmetic has it: edge [i] is [i * step + min_limit] with
    [step = (max_limit - min_limit) / 99] for [i < 99], and the last edge
    is [max_limit] itself.  When the step is finite, the first edge is
    numerically [min_limit] (and [min_limit] itself unless that is a
    zero).  When moreover the samples are binary64 numbers and the step is
    zero or at least [2 ^ -1022], no edge is above the next one and every
    edge lies between [min_limit] and [max_limit]; this is so for every
    pair of non-empty files of integers.  For mutex = [10, 20, 30] and
    sem = [5, 15, 25] the edges run from 5 to 30 and each is below the
    next. *)
Theorem bin_edges_span_the_raw_range :
  (forall (fs : filesystem) (a b : list F64.t),
      loaded fs a b -> samples a -> samples b ->
      let lo := min_limit_of a b in
      let hi := max_limit_of a b in
      let e := np.linspace lo hi 100 in
      min_limit (final fs) = Some lo /\ max_limit (final fs) = Some hi /\
      bins (final fs) = Some e /\
      is_min (a ++ b) lo /\ is_max (a ++ b) hi /\
      length e = 100%nat /\
      (forall i, (i < 99)%nat -> nth i e np.nan = edge_of lo hi i) /\
      nth 99 e np.nan = hi /\
      (finite (step_of lo hi) ->
       feq (nth 0 e np.nan) lo /\ (is_zero lo = false -> nth 0 e np.nan = lo)) /\
      (Forall binary64 (a ++ b) -> finite (step_of lo hi) ->
       is_zero (step_of lo hi) = true \/ fle float_min (step_of lo hi) ->
       non_decreasing e = true /\ Forall (fun y => fle lo y /\ fle y hi) e)) /\
  (forall (la lb : list Z),
      la <> [] -> lb <> [] -> Forall int64 (la ++ lb) ->
      let a := map F64.of_Z la in
      let b := map F64.of_Z lb in
      let e := bins_of a b in
      feq (nth 0 e np.nan) (min_limit_of a b) /\
      non_decreasing e = true /\
      Forall (fun y => fle (min_limit_of a b) y /\ fle y (max_limit_of a b)) e) /\
  (let fs := two_files (int_lines [10; 20; 30]) (int_lines [5; 15; 25]) in
   exists e,
     bins (final fs) = Some e /\
     length e = 100%nat /\
     List.hd np.nan e = F64.of_Z 5 /\
     List.last e np.nan = F64.of_Z 30 /\
     strictly_increasing e = true).
Proof.
  assert (Hfirst : forall lo hi, not_nan lo -> finite (step_of lo hi) ->
            feq (nth 0 (np.linspace lo hi 100) np.nan) lo).
  { intros lo hi Nlo Fs.
    destruct (linspace_100_first lo hi Nlo Fs) as (first & rest & -> & Hf). exact Hf. }
  assert (Hlast : forall lo hi, nth 99 (np.linspace lo hi 100) np.nan = hi).
  { intros lo hi. rewrite <- (linspace_last lo hi np.nan 100) at 2 by lia.
    rewrite <- nth_pred_length, linspace_length. reflexivity. }
  assert (Hsorted : forall lo hi, number64 lo -> number64 hi -> fle lo hi ->
            finite (step_of lo hi) ->
            is_zero (step_of lo hi) = true \/ fle float_min (step_of lo hi) ->
            non_decreasing (np.linspace lo hi 100) = true /\
            Forall (fun y => fle lo y /\ fle y hi) (np.linspace lo hi 100)).
  { intros lo hi Nlo Nhi Hle Fs Hs.
    assert (Hn : Forall not_nan (np.linspace lo hi 100)).
    { apply linspace_100_not_nan; [exact (proj2 Nlo)| |exact Fs].
      apply finite_not_nan. exact (proj2 Nhi). }
    pose proof (linspace_100_not_decreasing _ _ Nlo Nhi Hle Fs Hs) as Hd.
    pose proof (non_decreasing_of_check _ Hn Hd) as Hnd.
    split; [exact Hnd|].
    pose proof (linspace_last lo hi np.nan 100 ltac:(lia)) as Hl.
    destruct (linspace_100_first lo hi (finite_not_nan _ (proj2 Nlo)) Fs)
      as (first & rest & He & Hf).
    rewrite He in *.
    pose proof (non_decreasing_bounds first np.nan rest Hn Hnd) as Hb.
    rewrite Hl in Hb.
    eapply List.Forall_impl; [|exact Hb].
    intros y [H1 H2]. split; [|exact H2].
    destruct (fle_not_nan _ _ H1) as [N1 N2]. destruct (feq_not_nan _ _ Hf) as [_ N3].
    apply (fle_trans lo first y); trivial.
    apply feq_fle_l. apply feq_sym. exact Hf. }
  split; [|split].
  - intros fs a b Hl Sa Sb lo hi e.
    destruct (run_loaded fs a b Hl Sa Sb)
      as (_ & _ & _ & _ & _ & _ & _ & _ & Hlo & Hhi & Hb & _).
    pose proof (min_limit_is_min a b Sa Sb) as Hmin.
    pose proof (samples_app _ _ Sa Sb) as Sab.
    assert (Nlo : not_nan lo) by (apply finite_not_nan; exact (is_min_finite _ _ Sab Hmin)).
    split; [exact Hlo|]. split; [exact Hhi|]. split; [exact Hb|].
    split; [exact Hmin|]. split; [exact (max_limit_is_max a b Sa Sb)|].
    split; [apply linspace_length|].
    split; [intros i Hi; apply linspace_100_nth; exact Hi|].
    split; [apply Hlast|].
    split.
    + intros Fs. pose proof (Hfirst lo hi Nlo Fs) as Hf. split; [exact Hf|].
      intros Hz. destruct (feq_cases _ _ Hf) as [E|[_ Z0]]; [exact E|].
      rewrite Z0 in Hz. discriminate Hz.
    + intros Bv Fs Hs.
      destruct (limits_number64 a b Sa Sb Bv) as (N1 & N2 & Hle).
      exact (Hsorted lo hi N1 N2 Hle Fs Hs).
  - intros la lb Ha Hb Hall a b e.
    destruct (int_columns_step la lb Ha Hb Hall) as [Fs Hs].
    apply List.Forall_app in Hall. destruct Hall as [Ia Ib].
    destruct (int_column la Ha Ia) as [Sa Ba], (int_column lb Hb Ib) as [Sb Bb].
    assert (Bv : Forall binary64 (a ++ b)) by (apply List.Forall_app; split; assumption).
    destruct (limits_number64 a b Sa Sb Bv) as (N1 & N2 & Hle).
    split; [exact (Hfirst _ _ (finite_not_nan _ (proj2 N1)) Fs)|].
    exact (Hsorted _ _ N1 N2 Hle Fs Hs).
  - cbv zeta. eexists. split; [vm_compute; reflexivity|].
    vm_compute. repeat split; reflexivity.
Qed.

(** Two sample sets of floats, mutex = [0.5, 2.5] and sem = [1.0]: the
    step is finite and above [2 ^ -1022], the first edge is 0.5, and the
    edges do not decrease. *)
Lemma bin_edges_witness :
  let a := [S754_finite false 4503599627370496 (-53);
            S754_finite false 5629499534213120 (-51)] in
  let b := [F64.one] in
  let e := np.linspace (min_limit_of a b) (max_limit_of a b) 100 in
  nth 0 e np.nan = S754_finite false 4503599627370496 (-53) /\
  non_decreasing e = true.
Proof.
  cbv zeta.
  pose (a := [S754_finite false 4503599627370496 (-53);
              S754_finite false 5629499534213120 (-51)]).
  pose (b := [F64.one]).
  assert (Hl : loaded (two_files (Csv (map FloatLit a)) (Csv (map FloatLit b))) a b)
    by (split; vm_compute; reflexivity).
  assert (Sa : samples a) by (split; [discriminate | repeat constructor]).
  assert (Sb : samples b) by (split; [discriminate | repeat constructor]).
  destruct (proj1 bin_edges_span_the_raw_range _ a b Hl Sa Sb)
    as (_ & _ & _ & _ & _ & _ & _ & _ & Hfirst & Hsorted).
  split.
  - apply Hfirst; vm_compute; reflexivity.
  - apply Hsorted.
    + repeat constructor.
    + vm_compute. reflexivity.
    + right. vm_compute. reflexivity.
Defined.

(** C2, as stated, fails in three ways.  When every value is 5 the 100
    edges are all 5, so no edge is below the next one.  With
    mutex = [9007199254740992] and sem = [9007199254740994] the minimum
    is below the maximum, yet the first 50 edges are all the minimum.
    With mutex = [0] and sem = [2.47e-322] edge 98 is above the last
    edge, so the edges are not even in order.  With
    -1.7976931348623157e308 and 1.7976931348623157e308 the first edge is
    a NaN, not the minimum. *)
Lemma bin_edges_need_not_increase :
  (let fs := two_files (int_lines [5]) (int_lines [5]) in
   exists e,
     bins (final fs) = Some e /\
     length e = 100%nat /\
     Forall (fun y => y = F64.of_Z 5) e /\
     strictly_increasing e = false) /\
  (let fs := two_files (int_lines [9007199254740992]) (int_lines [9007199254740994]) in
   exists e,
     bins (final fs) = Some e /\
     min_limit (final fs) = Some (F64.of_Z 9007199254740992) /\
     max_limit (final fs) = Some (F64.of_Z 9007199254740994) /\
     F64.ltb (F64.of_Z 9007199254740992) (F64.of_Z 9007199254740994) = true /\
     Forall (fun y => y = F64.of_Z 9007199254740992) (firstn 50 e) /\
     strictly_increasing e = false /\ non_decreasing e = true) /\
  (let fs := two_files (int_lines [0]) (Csv [FloatLit (S754_finite false 50 (-1074))]) in
   exists e,
     bins (final fs) = Some e /\
     min_limit (final fs) = Some (F64.of_Z 0) /\
     max_limit (final fs) = Some (S754_finite false 50 (-1074)) /\
     F64.ltb (nth 99 e np.nan) (nth 98 e np.nan) = true /\
     non_decreasing e = false) /\
  (let fs := two_files (Csv [FloatLit (S754_finite true 9007199254740991 971)])
                       (Csv [FloatLit float_max]) in
   exists e,
     bins (final fs) = Some e /\
     min_limit (final fs) = Some (S754_finite true 9007199254740991 971) /\
     nth 0 e F64.zero = np.nan /\
     F64.eqb (nth 0 e F64.zero) (S754_finite true 9007199254740991 971) = false).
Proof.
  split; [|split; [|split]]; cbv zeta.
  - eexists. split; [vm_compute; reflexivity|].
    split; [reflexivity|]. split; [repeat constructor|vm_compute; reflexivity].
  - eexists. split; [vm_compute; reflexivity|].
    split; [vm_compute; reflexivity|]. split; [vm_compute; reflexivity|].
    split; [vm_compute; reflexivity|]. split; [repeat constructor|].
    split; vm_compute; reflexivity.
  - eexists. split; [vm_compute; reflexivity|].
    split; [vm_compute; reflexivity|]. split; [vm_compute; reflexivity|].
    split; vm_compute; reflexivity.
  - eexists. split; [vm_compute; reflexivity|].
    split; [vm_compute; reflexivity|]. split; vm_compute; reflexivity.
Qed.

(* ===================================================================== *)
(** * The scaler (C3) *)
(* ===================================================================== *)

(** The fitted map on a column of binary64 samples: every value goes
    between zero and the image of the greatest value, the values equal to
    the least one go to zero, and those equal to the greatest one to its
    image. *)
Lemma scaled_column (v : list F64.t) (x : F64.t) :
  samples v -> Forall binary64 v -> In x v ->
  let attrs := sklearn.first_pass v in
  let y := sklearn.scale_value attrs x in
  let top := sklearn.scale_value attrs (sklearn.data_max_ attrs) in
  fle F64.zero y /\ fle y top /\
  (feq x (sklearn.data_min_ attrs) -> feq y F64.zero) /\
  (feq x (sklearn.data_max_ attrs) -> feq y top).
Proof.
  intros Sv Bv Hx attrs y top.
  destruct (scale_value_range v Sv Bv x Hx) as [H0 H1].
  split; [exact H0|]. split; [exact H1|]. split.
  - intros Hf. apply scale_value_data_min; [reflexivity| |exact Hf].
    exact (no_overflow v Sv Bv).
  - intros Hf.
    destruct (data_max_facts v Sv Bv) as (_ & Fmax & Vmax).
    assert (Vx : binary64 x) by (rewrite List.Forall_forall in Bv; exact (Bv x Hx)).
    assert (Fx : finite x).
    { destruct Sv as [_ H]. rewrite List.Forall_forall in H. exact (H x Hx). }
    destruct (fle_not_nan _ _ H1) as [Ny Nt].
    apply feq_fle; trivial.
    apply (scale_value_mono v Sv Bv); trivial.
    apply feq_fle_l. apply feq_sym. exact Hf.
Qed.

(** C3, as amended.  For two loaded sample sets of binary64 numbers the
    scaler is fitted on their concatenation: its [data_min_] and
    [data_max_] are a least and a greatest value of the union.  The two
    scaled arrays hold one value for each raw value, and each scaled value
    lies between 0 and [top], the scaled greatest value; every raw value
    numerically equal to the least one is scaled to 0, and every one equal
    to the greatest one to [top].  For mutex = [1, 2, 3] and
    sem = [2, 3, 4], 1 is mapped to 0, 4 is mapped to 1, and both scaled
    arrays lie within [[0, 1]]. *)
Theorem scaler_maps_the_minimum_to_zero :
  (forall (fs : filesystem) (a b : list F64.t),
      loaded fs a b -> samples a -> samples b -> Forall binary64 (a ++ b) ->
      exists attrs sm ss top,
        scaler (final fs) = Some (sklearn.Fitted attrs) /\
        scaled_mutex (final fs) = Some sm /\ scaled_sem (final fs) = Some ss /\
        is_min (a ++ b) (sklearn.data_min_ attrs) /\
        is_max (a ++ b) (sklearn.data_max_ attrs) /\
        Forall2 (fun x y =>
                   fle F64.zero y /\ fle y top /\
                   (feq x (sklearn.data_min_ attrs) -> feq y F64.zero) /\
                   (feq x (sklearn.data_max_ attrs) -> feq y top))
                (a ++ b) (sm ++ ss) /\
        length sm = length a /\ length ss = length b) /\
  (let fs := two_files (int_lines [1; 2; 3]) (int_lines [2; 3; 4]) in
   exists attrs sm ss,
     scaler (final fs) = Some (sklearn.Fitted attrs) /\
     sklearn.data_min_ attrs = F64.of_Z 1 /\
     sklearn.data_max_ attrs = F64.of_Z 4 /\
     sklearn.scale_value attrs (F64.of_Z 1) = F64.zero /\
     sklearn.scale_value attrs (F64.of_Z 4) = F64.one /\
     scaled_mutex (final fs) = Some sm /\ scaled_sem (final fs) = Some ss /\
     nth 0 sm np.nan = F64.zero /\ nth 2 ss np.nan = F64.one /\
     within_unit sm = true /\ within_unit ss = true).
Proof.
  split.
  - intros fs a b Hl Sa Sb Bv.
    destruct (run_loaded fs a b Hl Sa Sb)
      as (_ & _ & _ & _ & Hsc & _ & Hsm & Hss & _).
    pose proof (samples_app _ _ Sa Sb) as Sab.
    exists (scaler_of a b), (scaled_of a b a), (scaled_of a b b),
      (sklearn.scale_value (scaler_of a b) (sklearn.data_max_ (scaler_of a b))).
    split; [exact Hsc|]. split; [exact Hsm|]. split; [exact Hss|].
    split; [exact (nanmin_is_min _ Sab)|].
    split; [exact (nanmax_is_max _ Sab)|].
    split; [|unfold scaled_of; rewrite !length_map; split; reflexivity].
    unfold scaled_of. rewrite <- map_app.
    assert (Hall : forall l, (forall x, In x l -> In x (a ++ b)) ->
              Forall2 (fun x y =>
                   fle F64.zero y /\
                   fle y (sklearn.scale_value (scaler_of a b)
                            (sklearn.data_max_ (scaler_of a b))) /\
                   (feq x (sklearn.data_min_ (scaler_of a b)) -> feq y F64.zero) /\
                   (feq x (sklearn.data_max_ (scaler_of a b)) ->
                    feq y (sklearn.scale_value (scaler_of a b)
                             (sklearn.data_max_ (scaler_of a b)))))
                l (map (sklearn.scale_value (scaler_of a b)) l)).
    { induction l as [|x l IH]; intros Hin; [constructor|].
      cbn [map]. constructor.
      - exact (scaled_column (a ++ b) x Sab Bv (Hin x (or_introl eq_refl))).
      - apply IH. intros z Hz. apply Hin. right. exact Hz. }
    apply Hall. intros x Hx. exact Hx.
  - cbv zeta. eexists. eexists. eexists.
    split; [vm_compute; reflexivity|].
    split; [vm_compute; reflexivity|]. split; [vm_compute; reflexivity|].
    split; [vm_compute; reflexivity|]. split; [vm_compute; reflexivity|].
    split; [vm_compute; reflexivity|]. split; [vm_compute; reflexivity|].
    split; [vm_compute; reflexivity|]. split; [vm_compute; reflexivity|].
    split; vm_compute; reflexivity.
Qed.

(** Another pair of sample sets, mutex = [10, 20, 30] and
    sem = [5, 15, 25]: the six scaled values lie between 0 and the scaled
    value of 30, and 5 is scaled to zero. *)
Lemma scaler_witness :
  let fs := two_files (int_lines [10; 20; 30]) (int_lines [5; 15; 25]) in
  exists attrs sm ss top,
    scaler (final fs) = Some (sklearn.Fitted attrs) /\
    scaled_mutex (final fs) = Some sm /\ scaled_sem (final fs) = Some ss /\
    is_min (map F64.of_Z [10; 20; 30] ++ map F64.of_Z [5; 15; 25])
           (sklearn.data_min_ attrs) /\
    is_max (map F64.of_Z [10; 20; 30] ++ map F64.of_Z [5; 15; 25])
           (sklearn.data_max_ attrs) /\
    Forall2 (fun x y =>
               fle F64.zero y /\ fle y top /\
               (feq x (sklearn.data_min_ attrs) -> feq y F64.zero) /\
               (feq x (sklearn.data_max_ attrs) -> feq y top))
            (map F64.of_Z [10; 20; 30] ++ map F64.of_Z [5; 15; 25]) (sm ++ ss) /\
    length sm = length (map F64.of_Z [10; 20; 30]) /\
    length ss = length (map F64.of_Z [5; 15; 25]).
Proof.
  cbv zeta.
  apply (proj1 scaler_maps_the_minimum_to_zero
           (two_files (int_lines [10; 20; 30]) (int_lines [5; 15; 25]))
           (map F64.of_Z [10; 20; 30]) (map F64.of_Z [5; 15; 25])).
  - split; vm_compute; reflexivity.
  - split; [discriminate | repeat constructor].
  - split; [discriminate | repeat constructor].
  - repeat constructor.
Defined.

(** C3, as stated, fails at the upper end.  With mutex = [1] and sem = [6]
    the scale is the binary64 value of 1/5 and 6 is mapped to
    [6 * 0.2 - 0.2], which is 1.0000000000000002: the maximum is not
    mapped to 1 and the scaled semaphore array leaves [[0, 1]].  With
    mutex = [11] and sem = [14] the maximum is mapped to
    0.9999999999999996, below 1.  With mutex = [5] and sem = [5] the range
    is zero, the scale is 1, and the maximum is mapped to 0. *)
Lemma maximum_is_not_always_mapped_to_one :
  (let fs := two_files (int_lines [1]) (int_lines [6]) in
   exists attrs ss,
     scaler (final fs) = Some (sklearn.Fitted attrs) /\
     sklearn.data_max_ attrs = F64.of_Z 6 /\
     sklearn.scale_value attrs (F64.of_Z 6) = S754_finite false 4503599627370497 (-52) /\
     F64.ltb F64.one (sklearn.scale_value attrs (F64.of_Z 6)) = true /\
     scaled_sem (final fs) = Some ss /\ within_unit ss = false) /\
  (let fs := two_files (int_lines [11]) (int_lines [14]) in
   exists attrs,
     scaler (final fs) = Some (sklearn.Fitted attrs) /\
     sklearn.data_max_ attrs = F64.of_Z 14 /\
     scaled_sem (final fs) = Some [sklearn.scale_value attrs (F64.of_Z 14)] /\
     F64.ltb (sklearn.scale_value attrs (F64.of_Z 14)) F64.one = true) /\
  (let fs := two_files (int_lines [5]) (int_lines [5]) in
   exists attrs,
     scaler (final fs) = Some (sklearn.Fitted attrs) /\
     sklearn.data_max_ attrs = F64.of_Z 5 /\
     sklearn.scale_value attrs (F64.of_Z 5) = F64.zero /\
     F64.eqb (sklearn.scale_value attrs (F64.of_Z 5)) F64.one = false).
Proof.
  split; [|split]; cbv zeta.
  - eexists. eexists. split; [vm_compute; reflexivity|].
    split; [vm_compute; reflexivity|]. split; [vm_compute; reflexivity|].
    split; [vm_compute; reflexivity|]. split; [vm_compute; reflexivity|].
    vm_compute. reflexivity.
  - eexists. split; [vm_compute; reflexivity|].
    split; [vm_compute; reflexivity|]. split; vm_compute; reflexivity.
  - eexists. split; [vm_compute; reflexivity|].
    split; [vm_compute; reflexivity|]. split; vm_compute; reflexivity.
Qed.

(* ===================================================================== *)
(** * The range of the scaler and the range of the bins (C8) *)
(* ===================================================================== *)

(** ** The reductions of the scaler skip NaN *)

Lemma fmin_nan_l (y : F64.t) : np.fmin np.nan y = y.
Proof. destruct y; reflexivity. Qed.

Lemma fmax_nan_l (y : F64.t) : np.fmax np.nan y = y.
Proof. destruct y as [[]|[]| |[] m e]; reflexivity. Qed.

Lemma fmin_nan_r (x y : F64.t) : F64.is_nan y = true -> np.fmin x y = x.
Proof. intros H. unfold np.fmin. rewrite H, orb_true_r. reflexivity. Qed.

Lemma fmax_nan_r (x y : F64.t) : F64.is_nan y = true -> np.fmax x y = x.
Proof. intros H. unfold np.fmax. rewrite H, orb_true_r. reflexivity. Qed.

Lemma fmin_not_nan (x y : F64.t) : not_nan x -> not_nan y -> not_nan (np.fmin x y).
Proof. intros Hx Hy. unfold np.fmin. destruct (_ || _); assumption. Qed.

Lemma fmax_not_nan (x y : F64.t) : not_nan x -> not_nan y -> not_nan (np.fmax x y).
Proof. intros Hx Hy. unfold np.fmax. destruct (_ || _); assumption. Qed.

Section SkipNaN.

Variable f : F64.t -> F64.t -> F64.t.
Hypothesis f_nan_l : forall y, f np.nan y = y.
Hypothesis f_nan_r : forall x y, F64.is_nan y = true -> f x y = x.
Hypothesis f_not_nan : forall x y, not_nan x -> not_nan y -> not_nan (f x y).

Lemma fold_skips_nan (r : list F64.t) (acc : F64.t) :
  not_nan acc -> fold_left f r acc = fold_left f (numbers r) acc.
Proof.
  revert acc. induction r as [|y r IH]; intros acc Hacc; [reflexivity|].
  unfold numbers. simpl. destruct (F64.is_nan y) eqn:E; simpl.
  - rewrite (f_nan_r acc y E). apply IH. exact Hacc.
  - apply IH. apply f_not_nan; assumption.
Qed.

Lemma reduce_skips_nan (v : list F64.t) :
  numbers v <> [] -> np.reduce f v = np.reduce f (numbers v).
Proof.
  induction v as [|x v IH]; [contradiction|]. intros Hne.
  unfold numbers in *. simpl in *. destruct (F64.is_nan x) eqn:E; simpl in *.
  - destruct x; try discriminate E. rewrite <- (IH Hne).
    destruct v as [|y v']; [contradiction Hne; reflexivity|].
    simpl. rewrite f_nan_l. reflexivity.
  - apply fold_skips_nan. exact E.
Qed.

End SkipNaN.

Lemma numbers_not_nan (v : list F64.t) : Forall not_nan (numbers v).
Proof. apply List.Forall_forall. intros x Hx. apply in_numbers in Hx. tauto. Qed.

Lemma numbers_app (a b : list F64.t) : numbers (a ++ b) = numbers a ++ numbers b.
Proof. apply List.filter_app. Qed.

(** [np.nanmin] and [np.nanmax] of a column that holds a number are a
    least and a greatest of its numbers. *)
Lemma nanmin_numbers (v : list F64.t) :
  numbers v <> [] -> is_min (numbers v) (np.nanmin v).
Proof.
  intros Hne. unfold np.nanmin.
  rewrite (reduce_skips_nan _ fmin_nan_l fmin_nan_r fmin_not_nan v Hne).
  apply (reduce_smaller_is_min _ fmin_smaller); [exact Hne|apply numbers_not_nan].
Qed.

Lemma nanmax_numbers (v : list F64.t) :
  numbers v <> [] -> is_max (numbers v) (np.nanmax v).
Proof.
  intros Hne. unfold np.nanmax.
  rewrite (reduce_skips_nan _ fmax_nan_l fmax_nan_r fmax_not_nan v Hne).
  apply (reduce_greater_is_max _ fmax_greater); [exact Hne|apply numbers_not_nan].
Qed.

(** C8, as amended.  When both files load as columns of readings (each
    holds at least one number and no infinity; NaN rows are allowed), the
    minimum the scaler is fitted on is numerically [min_limit] and its
    maximum is numerically [max_limit]: both pairs are a least and a
    greatest of the numbers of the two columns. *)
Theorem scaler_range_is_the_bin_range (fs : filesystem) (a b : list F64.t) :
  loaded fs a b -> readings a -> readings b ->
  exists attrs lo hi,
    scaler (final fs) = Some (sklearn.Fitted attrs) /\
    min_limit (final fs) = Some lo /\
    max_limit (final fs) = Some hi /\
    feq (sklearn.data_min_ attrs) lo /\
    feq (sklearn.data_max_ attrs) hi /\
    is_min (numbers a ++ numbers b) lo /\ is_max (numbers a ++ numbers b) hi.
Proof.
  intros Hl Ra Rb.
  destruct (run_accepted fs a b Hl (readings_accepted a Ra) (readings_accepted b Rb))
    as (_ & Hsc & _ & _ & Hlo & Hhi & _).
  destruct (limits_of_readings a b Ra Rb) as [Hmin Hmax].
  assert (Hne : numbers (a ++ b) <> []).
  { rewrite numbers_app. destruct Ra as [Ha _].
    destruct (numbers a); [contradiction|discriminate]. }
  exists (scaler_of a b), (min_limit_of a b), (max_limit_of a b).
  split; [exact Hsc|]. split; [exact Hlo|]. split; [exact Hhi|].
  rewrite <- numbers_app in *.
  split; [exact (is_min_unique _ _ _ (nanmin_numbers _ Hne) Hmin)|].
  split; [exact (is_max_unique _ _ _ (nanmax_numbers _ Hne) Hmax)|].
  split; assumption.
Qed.

(** A mutex file with a NaN row between 10 and 30, and sem = [5, 15, 25]. *)
Lemma scaler_range_witness :
  exists attrs lo hi,
    scaler (final (two_files (Csv [IntLit 10; FloatLit np.nan; IntLit 30]) (int_lines [5; 15; 25])))
      = Some (sklearn.Fitted attrs) /\
    min_limit (final (two_files (Csv [IntLit 10; FloatLit np.nan; IntLit 30]) (int_lines [5; 15; 25]))) = Some lo /\
    max_limit (final (two_files (Csv [IntLit 10; FloatLit np.nan; IntLit 30]) (int_lines [5; 15; 25]))) = Some hi /\
    feq (sklearn.data_min_ attrs) lo /\
    feq (sklearn.data_max_ attrs) hi /\
    is_min (numbers [F64.of_Z 10; np.nan; F64.of_Z 30] ++ numbers (map F64.of_Z [5; 15; 25])) lo /\
    is_max (numbers [F64.of_Z 10; np.nan; F64.of_Z 30] ++ numbers (map F64.of_Z [5; 15; 25])) hi.
Proof.
  apply (scaler_range_is_the_bin_range
           (two_files (Csv [IntLit 10; FloatLit np.nan; IntLit 30]) (int_lines [5; 15; 25]))
           [F64.of_Z 10; np.nan; F64.of_Z 30] (map F64.of_Z [5; 15; 25])).
  - split; vm_compute; reflexivity.
  - split; [discriminate | reflexivity].
  - split; [discriminate | reflexivity].
Defined.

(** C8, as stated, fails when a file holds no number.  With a mutex file
    of one NaN row and sem = [1, 2] both columns load and are not empty,
    and the run ends normally; the scaler is fitted on the range from 1 to
    2, while [min_limit] and [max_limit] are both NaN. *)
Lemma all_nan_column_separates_the_two_ranges :
  let fs := two_files (Csv [FloatLit np.nan]) (int_lines [1; 2]) in
  loaded fs [np.nan] (map F64.of_Z [1; 2]) /\
  outcome fs = Ok tt /\
  exists attrs,
    scaler (final fs) = Some (sklearn.Fitted attrs) /\
    sklearn.data_min_ attrs = F64.of_Z 1 /\
    sklearn.data_max_ attrs = F64.of_Z 2 /\
    min_limit (final fs) = Some np.nan /\
    max_limit (final fs) = Some np.nan /\
    F64.eqb (sklearn.data_min_ attrs) np.nan = false /\
    F64.eqb (sklearn.data_max_ attrs) np.nan = false.
Proof.
  cbv zeta. split; [split; vm_compute; reflexivity|].
  split; [vm_compute; reflexivity|].
  eexists. split; [vm_compute; reflexivity|].
  vm_compute. repeat split; reflexivity.
Qed.

(* ===================================================================== *)
(** * The run is a function of the two files (C6) *)
(* ===================================================================== *)

Lemma read_csv_ext (fs1 fs2 : filesystem) (path : string) :
  fs1 !! path = fs2 !! path -> pd.read_csv fs1 path = pd.read_csv fs2 path.
Proof. intros H. unfold pd.read_csv. rewrite H. reflexivity. Qed.

Lemma run_ext (fs1 fs2 : filesystem) (s : state) :
  fs1 !! mutex_path = fs2 !! mutex_path -> fs1 !! sem_path = fs2 !! sem_path ->
  main fs1 s = main fs2 s.
Proof.
  intros Hm Hs. unfold main. unfold bind at 1 3. rewrite !load_unfold.
  rewrite (read_csv_ext _ _ _ Hm), (read_csv_ext _ _ _ Hs). reflexivity.
Qed.

(** What a run leaves in the variables it assigns does not depend on the
    state it starts from. *)
Lemma main_from_any_state (fs : filesystem) (s : state) :
  fst (main fs s) = outcome fs /\
  (forall e, bins (final fs) = Some e -> bins (snd (main fs s)) = Some e) /\
  (forall r, scaled_mutex (final fs) = Some r -> scaled_mutex (snd (main fs s)) = Some r) /\
  (forall r, scaled_sem (final fs) = Some r -> scaled_sem (snd (main fs s)) = Some r).
Proof.
  unfold outcome, final, run, main. unfold bind at 1 3 5 7 9 11 13 15.
  rewrite !load_unfold. cbv zeta.
  destruct (pd.read_csv fs mutex_path) as [A|e1].
  2:{ destruct (is_FileNotFoundError e1); cbn [fst snd];
      (split; [reflexivity|]); repeat split; intros ? H; discriminate H. }
  destruct (pd.read_csv fs sem_path) as [B|e2].
  2:{ destruct (is_FileNotFoundError e2); cbn [fst snd];
      (split; [reflexivity|]); repeat split; intros ? H; discriminate H. }
  unfold bind.
  rewrite !(normalise_unfold _ A B) by reflexivity. cbv zeta.
  destruct (sklearn.fit sklearn.Unfitted (pd.concat A B)) as [sc|e] eqn:Hfit.
  2:{ cbn [fst snd]. (split; [reflexivity|]); repeat split; intros ? H; discriminate H. }
  destruct (fit_concat_numeric _ _ _ _ Hfit) as (a & b & -> & ->).
  destruct (sklearn.transform sc (Numeric a)) as [ra|e].
  2:{ cbn [fst snd]. (split; [reflexivity|]); repeat split; intros ? H; discriminate H. }
  destruct (sklearn.transform sc (Numeric b)) as [rb|e].
  2:{ cbn [fst snd]. split; [reflexivity|]. split; [intros ? H; discriminate H|].
      split; [intros r H; exact H|intros ? H; discriminate H]. }
  match goal with |- context [plot ?t] =>
    match t with context [initial] => set (s0 := t) end end.
  match goal with |- context [plot ?t] =>
    match t with context [s] => set (s1 := t) end end.
  destruct (plot_numeric s0 a b eq_refl eq_refl)
    as (s0' & E0 & _ & _ & _ & _ & _ & _ & Hsm0 & Hss0 & _ & _ & Hb0 & Hh0).
  destruct (plot_numeric s1 a b eq_refl eq_refl)
    as (s1' & E1 & _ & _ & _ & _ & _ & _ & Hsm1 & Hss1 & _ & _ & Hb1 & Hh1).
  rewrite E0, E1.
  split.
  - destruct (np.histogram a (bins_of a b)) as [ca|ex];
      [destruct (np.histogram b (bins_of a b)) as [cb|ex]|];
      destruct Hh0 as [-> _], Hh1 as [-> _]; reflexivity.
  - split; [|split]; intros r H.
    + rewrite Hb1. rewrite Hb0 in H. exact H.
    + rewrite Hsm1. rewrite Hsm0 in H. exact H.
    + rewrite Hss1. rewrite Hss0 in H. exact H.
Qed.

(** C6.  Two runs on file systems that hold the same two input files,
    started in any two interpreter states (the fresh one, or one in which
    the variables of the script still hold what earlier runs left there),
    end with the same outcome.  When the files load as two columns that
    the scaler accepts, either run assigns the same bin edges and the same
    scaled arrays, which are functions of the two columns alone.  Runs
    from the fresh state end in the same state altogether. *)
Theorem run_is_determined_by_the_two_files
    (fs1 fs2 : filesystem) (s1 s2 : state) :
  fs1 !! mutex_path = fs2 !! mutex_path ->
  fs1 !! sem_path = fs2 !! sem_path ->
  fst (main fs1 s1) = fst (main fs2 s2) /\
  run fs1 = run fs2 /\
  (forall a b, loaded fs1 a b -> accepted a -> accepted b ->
     bins (snd (main fs1 s1)) = Some (bins_of a b) /\
     bins (snd (main fs2 s2)) = Some (bins_of a b) /\
     scaled_mutex (snd (main fs1 s1)) = Some (scaled_of a b a) /\
     scaled_mutex (snd (main fs2 s2)) = Some (scaled_of a b a) /\
     scaled_sem (snd (main fs1 s1)) = Some (scaled_of a b b) /\
     scaled_sem (snd (main fs2 s2)) = Some (scaled_of a b b)).
Proof.
  intros Hm Hs.
  destruct (main_from_any_state fs1 s1) as (Ho1 & Hb1 & Hsm1 & Hss1).
  destruct (main_from_any_state fs2 s2) as (Ho2 & Hb2 & Hsm2 & Hss2).
  assert (Hrun : run fs1 = run fs2) by (apply run_ext; assumption).
  split; [|split; [exact Hrun|]].
  - rewrite Ho1, Ho2. unfold outcome. rewrite Hrun. reflexivity.
  - intros a b Hl Ha Hb.
    destruct (run_accepted fs1 a b Hl Ha Hb) as (_ & _ & Hsm & Hss & _ & _ & Hbins & _).
    cbv zeta in Hbins.
    assert (Hf : final fs1 = final fs2) by (unfold final; rewrite Hrun; reflexivity).
    split; [exact (Hb1 _ Hbins)|]. split; [apply Hb2; rewrite <- Hf; exact Hbins|].
    split; [exact (Hsm1 _ Hsm)|]. split; [apply Hsm2; rewrite <- Hf; exact Hsm|].
    split; [exact (Hss1 _ Hss)|apply Hss2; rewrite <- Hf; exact Hss].
Qed.

(** The two input files beside an unrelated third file, read in a fresh
    interpreter, and the same two files read in the state that a run on
    other files has left: the same outcome and the same bin edges. *)
Lemma run_is_determined_witness :
  let a := int_lines [100; 150; 120] in
  let b := int_lines [200; 210] in
  let fs1 := <[ "notes.txt" := Csv [Text "x"] ]> (two_files a b) in
  let fs2 := two_files a b in
  let s2 := final (two_files (int_lines [5]) (int_lines [7; 9])) in
  fst (main fs1 initial) = fst (main fs2 s2) /\
  bins (snd (main fs2 s2)) =
    Some (bins_of (map F64.of_Z [100; 150; 120]) (map F64.of_Z [200; 210])) /\
  bins s2 = Some (bins_of (map F64.of_Z [5]) (map F64.of_Z [7; 9])).
Proof.
  cbv zeta.
  destruct (run_is_determined_by_the_two_files
              (<[ "notes.txt" := Csv [Text "x"] ]>
                 (two_files (int_lines [100; 150; 120]) (int_lines [200; 210])))
              (two_files (int_lines [100; 150; 120]) (int_lines [200; 210]))
              initial
              (final (two_files (int_lines [5]) (int_lines [7; 9]))))
    as (Ho & _ & Hv).
  - vm_compute. reflexivity.
  - vm_compute. reflexivity.
  - split; [exact Ho|]. split; [|vm_compute; reflexivity].
    refine (proj1 (proj2 (Hv (map F64.of_Z [100; 150; 120]) (map F64.of_Z [200; 210])
                            _ _ _))).
    + split; vm_compute; reflexivity.
    + split; [discriminate|reflexivity].
    + split; [discriminate|reflexivity].
Defined.
